(** * Certificate sharing worker and monitor: a shallow embedding

    The development follows [src/certificate-worker.js] (class
    [CertificateSharing]) and [src/certificate-monitor.js] (class
    [CertificateWorkerMonitor]).

    Conventions of the embedding.
    - A JavaScript string is a Rocq [string]: the byte [n] stands for the
      UTF-16 code unit [n], so the strings of the model are the strings of
      ISO-8859-1 (code units 0 to 255).  On them [toLowerCase], [trim],
      [parseInt]'s white space and the regular-expression classes [\s],
      [\w], [\d] and [.] are JavaScript's: U+00A0 is white space, the
      letters U+00C0 to U+00DE have lower-case forms, [\w] and [\d] are
      ASCII.  [toUpperCase] leaves ISO-8859-1 on two letters, see there.
      [hashKey] is in addition given over arbitrary code-unit lists.  The
      one character beyond U+00FF that the worker writes itself, the arrow
      of a last-log text, is spelt by its UTF-8 bytes; nothing reads it.
    - JavaScript numbers that the code keeps integral are [Z]; the 32-bit
      coercions [| 0] and [>>> 0] are written out.
    - Remote services (Drive, Sheets), the clock and [Math.random] are
      oracles of a [world], consulted through a tick counter kept in the
      state, so that two calls with the same arguments may answer
      differently.  Every effect the claims talk about is recorded as an
      [event] of the state's trace.  Console output is not recorded. *)

From Stdlib Require Import ZArith Lia Bool List Ascii String.
From stdpp Require Import gmap strings list pretty.
Import ListNotations.

Local Open Scope Z_scope.

(** ** JavaScript strings *)

Module Js.

Definition code (c : ascii) : Z := Z.of_N (N_of_ascii c).

Definition chr (z : Z) : ascii := ascii_of_N (Z.to_N z).

Definition between (lo hi : Z) (c : ascii) : bool :=
  (lo <=? code c) && (code c <=? hi).

(** The classes [[A-Z]], [[a-z]] and [[0-9]]. *)
Definition isUpper : ascii -> bool := between 65 90.
Definition isLower : ascii -> bool := between 97 122.
Definition isDigit : ascii -> bool := between 48 57.

(** [\w] is [[A-Za-z0-9_]]. *)
Definition isWord (c : ascii) : bool :=
  isUpper c || isLower c || isDigit c || (code c =? 95).

(** White space as [trim], [parseInt] and [\s] see it: TAB, LF, VT, FF, CR,
    SPACE and the no-break space U+00A0 (the other white space of
    JavaScript lies beyond U+00FF). *)
Definition isSpace (c : ascii) : bool :=
  between 9 13 c || (code c =? 32) || (code c =? 160).

(** [.] matches everything but the line terminators LF and CR. *)
Definition isDot (c : ascii) : bool :=
  negb ((code c =? 10) || (code c =? 13)).

(** The letters with a lower-case form: A to Z, U+00C0 to U+00D6 and U+00D8
    to U+00DE (U+00D7 is the multiplication sign); the form is 32 further. *)
Definition hasLowerCase (c : ascii) : bool :=
  between 65 90 c || between 192 214 c || between 216 222 c.

Definition lowerChar (c : ascii) : ascii :=
  if hasLowerCase c then chr (code c + 32) else c.

(** The letters whose upper-case form is 32 before them: a to z, U+00E0 to
    U+00F6 and U+00F8 to U+00FE. *)
Definition hasUpperCase (c : ascii) : bool :=
  between 97 122 c || between 224 246 c || between 248 254 c.

Definition upperChar (c : ascii) : ascii :=
  if hasUpperCase c then chr (code c - 32) else c.

Fixpoint toLowerCase (s : string) : string :=
  match s with
  | EmptyString => EmptyString
  | String c r => String (lowerChar c) (toLowerCase r)
  end.

(** [toUpperCase]: the sharp s U+00DF becomes SS.  The upper-case forms of
    the micro sign U+00B5 and of U+00FF lie beyond U+00FF; the two are left
    as they are here, so the upper-case entry of the search variations is
    JavaScript's for names without them. *)
Fixpoint toUpperCase (s : string) : string :=
  match s with
  | EmptyString => EmptyString
  | String c r =>
      if code c =? 223 then String "S" (String "S" (toUpperCase r))
      else String (upperChar c) (toUpperCase r)
  end.

(** The property names of [Object.prototype]: [obj[key]] finds them on every
    object literal and on every parsed JSON object that has no own property
    of that name. *)
Definition protoKey (key : string) : bool :=
  existsb (String.eqb key)
    ["constructor"; "toString"; "toLocaleString"; "valueOf"; "hasOwnProperty";
     "isPrototypeOf"; "propertyIsEnumerable"; "__proto__"; "__defineGetter__";
     "__defineSetter__"; "__lookupGetter__"; "__lookupSetter__"].

(** Truthiness of a string value: the empty string is the only falsy one. *)
Definition truthy (s : string) : bool :=
  match s with EmptyString => false | _ => true end.

Fixpoint trimStart (s : string) : string :=
  match s with
  | String c r => if isSpace c then trimStart r else s
  | EmptyString => EmptyString
  end.

(** [trimEnd] keeps a character when it is not white space or when something
    is kept after it. *)
Fixpoint trimEnd (s : string) : string :=
  match s with
  | EmptyString => EmptyString
  | String c r =>
      match trimEnd r with
      | EmptyString => if isSpace c then EmptyString else String c EmptyString
      | r' => String c r'
      end
  end.

Definition trim (s : string) : string := trimEnd (trimStart s).

Fixpoint startsWith (p s : string) : bool :=
  match p, s with
  | EmptyString, _ => true
  | String a p', String b s' => Ascii.eqb a b && startsWith p' s'
  | String _ _, EmptyString => false
  end.

(** [s.includes(sub)] *)
Fixpoint includes (sub s : string) : bool :=
  startsWith sub s ||
  match s with
  | EmptyString => false
  | String _ r => includes sub r
  end.

Definition endsWith (suffix s : string) : bool :=
  let n := String.length s in
  let k := String.length suffix in
  (k <=? n)%nat && String.eqb (String.substring (n - k) k s) suffix.

(** The UTF-16 code units of a string, as [charCodeAt] returns them. *)
Fixpoint charCodes (s : string) : list Z :=
  match s with
  | EmptyString => []
  | String c r => code c :: charCodes r
  end.

(** [content.split('\n')] *)
Fixpoint splitLines (s : string) : list string :=
  match s with
  | EmptyString => [EmptyString]
  | String c r =>
      if code c =? 10 then EmptyString :: splitLines r
      else match splitLines r with
           | l :: ls => String c l :: ls
           | [] => [String c EmptyString]
           end
  end.

(** [arr.slice(0, n)] for an integral [n]: a negative [n] counts from the
    end. *)
Definition slice0 {A} (n : Z) (l : list A) : list A :=
  if 0 <=? n then firstn (Z.to_nat n) l
  else firstn (Z.to_nat (Z.of_nat (List.length l) + n)) l.

End Js.

(** ** Partitioner: [hashKey] and the filters of [processParticipants] *)

Module Partition.

Definition two32 : Z := 2 ^ 32.

(** [x | 0]: reduction to a signed 32-bit integer. *)
Definition toInt32 (x : Z) : Z := (x + 2 ^ 31) mod two32 - 2 ^ 31.

(** [x >>> 0]: reduction to an unsigned 32-bit integer. *)
Definition toUint32 (x : Z) : Z := x mod two32.

(** [x << k]: the left operand is taken as int32 and so is the result. *)
Definition shl32 (x k : Z) : Z := toInt32 (Z.shiftl (toInt32 x) k).

(** One turn of the loop of [hashKey]:
    [hash = ((hash << 5) + hash) + s.charCodeAt(i); hash = hash | 0]. *)
Definition hashStep (hash c : Z) : Z := toInt32 ((shl32 hash 5 + hash) + c).

(** [hashKey] over the code units of the key. *)
Definition hashCodes (cs : list Z) : Z := toUint32 (fold_left hashStep cs 5381).

Definition hashKey (str : string) : Z := hashCodes (Js.charCodes str).

(** [h % shardTotal] for the non-negative [h] that [hashKey] returns. *)
Definition owningSlot (key : string) (shardTotal : Z) : Z :=
  Z.rem (hashKey key) shardTotal.

Record participant := {
  rowIndex : Z;
  nama : string;
  email : string;
  folderId : string;
  isShared : string;
  isFolderExists : string;
  lastLog : string
}.

(** [participants.map(p => ({...p, nama: trim, email: trim + lowercase}))] *)
Definition normalize (p : participant) : participant :=
  {| rowIndex := rowIndex p;
     nama := Js.trim (nama p);
     email := Js.toLowerCase (Js.trim (email p));
     folderId := folderId p;
     isShared := isShared p;
     isFolderExists := isFolderExists p;
     lastLog := lastLog p |}.

(** [.filter(p => p.nama && p.email)] *)
Definition hasIdentity (p : participant) : bool :=
  Js.truthy (nama p) && Js.truthy (email p).

(** The [isShared] filter: only records never processed stay. *)
Definition isEligible (p : participant) : bool :=
  let isSharedValue := Js.toLowerCase (isShared p) in
  negb (String.eqb isSharedValue "true") && negb (String.eqb isSharedValue "false").

(** The shard key: [FolderId] as it is, else the lowercased name. *)
Definition shardKey (p : participant) : string :=
  if Js.truthy (folderId p) then folderId p else Js.toLowerCase (nama p).

Definition inShard (shardTotal shardIndex : Z) (p : participant) : bool :=
  Z.rem (hashKey (shardKey p)) shardTotal =? shardIndex.

(** [if (this.shardTotal > 0) normalized = normalized.filter(...)] *)
Definition applySharding (shardTotal shardIndex : Z) (l : list participant)
  : list participant :=
  if 0 <? shardTotal then List.filter (inShard shardTotal shardIndex) l else l.

Definition folderMissing (p : participant) : bool :=
  String.eqb (Js.toLowerCase (isFolderExists p)) "false".

(** The three priority bands, concatenated. *)
Definition prioritize (l : list participant) : list participant :=
  let withFolderId := List.filter (fun p => Js.truthy (folderId p)) l in
  let needsSearch :=
    List.filter (fun p => negb (Js.truthy (folderId p)) && negb (folderMissing p)) l in
  let problematic :=
    List.filter (fun p => negb (Js.truthy (folderId p)) && folderMissing p) l in
  withFolderId ++ needsSearch ++ problematic.

(** The records a cycle works on, from the rows read from the sheet. *)
Definition workingParticipants (shardTotal shardIndex maxPerRun : Z)
    (participants : list participant) : list participant :=
  let normalized := List.filter hasIdentity (List.map normalize participants) in
  let normalized := List.filter isEligible normalized in
  let normalized := applySharding shardTotal shardIndex normalized in
  Js.slice0 maxPerRun (prioritize normalized).

End Partition.

(** ** Regular expressions, by derivatives

    The Monitor recognises log lines with regular expressions; only whether
    a line matches decides its counters.  Expressions are terms of [re],
    read off the JavaScript literals, and [matches] decides membership of a
    whole string by Brzozowski derivatives.  An unanchored JavaScript
    expression [/R/] tested on a line is [anything · R · anything]. *)

Module Regex.

Inductive re : Type :=
| Void                          (* no string *)
| Eps                           (* the empty string *)
| Class (p : ascii -> bool)     (* one character of a class *)
| Cat (r s : re)
| Alt (r s : re)
| And (r s : re)                (* both, used for the look-ahead of [\b] *)
| Star (r : re).

Fixpoint nullable (r : re) : bool :=
  match r with
  | Void => false
  | Eps => true
  | Class _ => false
  | Cat r s => nullable r && nullable s
  | Alt r s => nullable r || nullable s
  | And r s => nullable r && nullable s
  | Star _ => true
  end.

Definition isVoid (r : re) : bool :=
  match r with Void => true | _ => false end.

(** Constructors that drop [Void] branches, so that derivatives stay small. *)
Definition cat (r s : re) : re :=
  if isVoid r || isVoid s then Void else Cat r s.

Definition alt (r s : re) : re :=
  if isVoid r then s else if isVoid s then r else Alt r s.

Definition and (r s : re) : re :=
  if isVoid r || isVoid s then Void else And r s.

Fixpoint deriv (c : ascii) (r : re) : re :=
  match r with
  | Void => Void
  | Eps => Void
  | Class p => if p c then Eps else Void
  | Cat r s =>
      if nullable r then alt (cat (deriv c r) s) (deriv c s)
      else cat (deriv c r) s
  | Alt r s => alt (deriv c r) (deriv c s)
  | And r s => and (deriv c r) (deriv c s)
  | Star r => cat (deriv c r) (Star r)
  end.

Fixpoint matches (r : re) (s : string) : bool :=
  match s with
  | EmptyString => nullable r
  | String c t => matches (deriv c r) t
  end.

Definition anything : re := Star (Class (fun _ => true)).
Definition plus (r : re) : re := Cat r (Star r).
Definition opt (r : re) : re := Alt r Eps.
Definition char (c : ascii) : re := Class (Ascii.eqb c).
Definition notIn (p : ascii -> bool) : re := Class (fun c => negb (p c)).

Fixpoint lit (s : string) : re :=
  match s with
  | EmptyString => Eps
  | String c t => Cat (char c) (lit t)
  end.

Fixpoint seq (rs : list re) : re :=
  match rs with
  | [] => Eps
  | r :: rs' => Cat r (seq rs')
  end.

(** [\b] right after a word character: what follows, [rest], must be empty
    or start with a character that is not a word character. *)
Definition wordEnd (rest : re) : re :=
  And rest (Alt Eps (Cat (notIn Js.isWord) anything)).

(** [/R/.test(line)] for an [R] that already ends in [anything]. *)
Definition search (r : re) (line : string) : bool :=
  matches (Cat anything r) line.

Definition space : re := Class Js.isSpace.
Definition digit : re := Class Js.isDigit.
Definition word : re := Class Js.isWord.

End Regex.

(** ** Log-tailing Monitor: [CertificateWorkerMonitor.parseLogFile] *)

Module Monitor.
Import Regex.

(** [/Row\s+\d+\s+(GRANTED|DRY_RUN)\s+\w+\s+->\s+([^\s]+)\s+-/] *)
Definition successRe : re :=
  seq [lit "Row"; plus space; plus digit; plus space;
       Alt (lit "GRANTED") (lit "DRY_RUN"); plus space; plus word; plus space;
       lit "->"; plus space; plus (notIn Js.isSpace); plus space; lit "-";
       anything].

(** [/Row\s+\d+\s+SKIP\b.*?:\s+([^\s\|]+)(?:\|[^\s]+)?\s+-/] *)
Definition skipRe : re :=
  seq [lit "Row"; plus space; plus digit; plus space; lit "SKIP";
       wordEnd (seq [Star (Class Js.isDot); lit ":"; plus space;
                     plus (notIn (fun c => Js.isSpace c || Ascii.eqb c "|"));
                     opt (Cat (lit "|") (plus (notIn Js.isSpace)));
                     plus space; lit "-"; anything])].

(** [/Row\s+\d+\s+ERROR\b.*?(?:name='([^']+)')?/] *)
Definition errorRe : re :=
  seq [lit "Row"; plus space; plus digit; plus space; lit "ERROR";
       wordEnd (seq [Star (Class Js.isDot);
                     opt (seq [lit "name='"; plus (notIn (Ascii.eqb "'")); lit "'"]);
                     anything])].

Fixpoint dropWhile (p : ascii -> bool) (s : string) : string :=
  match s with
  | String c r => if p c then dropWhile p r else s
  | EmptyString => EmptyString
  end.

Fixpoint takeWhile (p : ascii -> bool) (s : string) : string :=
  match s with
  | String c r => if p c then String c (takeWhile p r) else EmptyString
  | EmptyString => EmptyString
  end.

Definition dropN (n : nat) (s : string) : string :=
  String.substring n (String.length s - n) s.

(** [/Processing\s+(\d+)\s+participants/] anchored at the start of [s]: the
    captured digits.  The classes [\s] and [\d] are disjoint and [p] is in
    neither, so the greedy reading is the only one. *)
Definition markerAt (s : string) : option string :=
  if Js.startsWith "Processing" s then
    let r0 := dropN 10 s in
    let r1 := dropWhile Js.isSpace r0 in
    let ds := takeWhile Js.isDigit r1 in
    let r2 := dropWhile Js.isDigit r1 in
    let r3 := dropWhile Js.isSpace r2 in
    if (String.length r1 <? String.length r0)%nat
       && Js.truthy ds
       && (String.length r3 <? String.length r2)%nat
       && Js.startsWith "participants" r3
    then Some ds else None
  else None.

(** [line.match(/Processing\s+(\d+)\s+participants/)]: group 1 of the
    leftmost match. *)
Fixpoint markerMatch (line : string) : option string :=
  match markerAt line with
  | Some ds => Some ds
  | None =>
      match line with
      | EmptyString => None
      | String _ r => markerMatch r
      end
  end.

(** [parseInt] of a run of decimal digits (exact; the rounding of numbers
    beyond 2^53 is not modelled). *)
Definition parseInt (ds : string) : Z :=
  fold_left (fun acc c => 10 * acc + (c - 48)) (Js.charCodes ds) 0.

Inductive lifecycle := IDLE | RUNNING | COMPLETED.

(** The fields of a worker slot that [parseLogFile] derives from the
    counters.  [current], [lastActivity] and [logFile], which neither
    [status] nor [progress] depends on, are left out. *)
Record worker := {
  status : lifecycle;
  progress : string;
  success : Z;
  error : Z;
  skip : Z
}.

(** The loop variables of [parseLogFile]. *)
Record scan := {
  sc_success : Z;
  sc_skip : Z;
  sc_error : Z;
  processed : Z;
  totalParticipants : Z
}.

Definition scan0 : scan :=
  {| sc_success := 0; sc_skip := 0; sc_error := 0; processed := 0;
     totalParticipants := 0 |}.

Definition successMatch (line : string) : bool := search successRe line.
Definition skipMatch (line : string) : bool := search skipRe line.
Definition errorMatch (line : string) : bool := search errorRe line.

(** The outcome counters: the first pattern that matches counts the line. *)
Definition countOutcome (line : string) (s : scan) : scan :=
  if successMatch line then
    {| sc_success := sc_success s + 1; sc_skip := sc_skip s;
       sc_error := sc_error s; processed := processed s + 1;
       totalParticipants := totalParticipants s |}
  else if skipMatch line then
    {| sc_success := sc_success s; sc_skip := sc_skip s + 1;
       sc_error := sc_error s; processed := processed s + 1;
       totalParticipants := totalParticipants s |}
  else if errorMatch line then
    {| sc_success := sc_success s; sc_skip := sc_skip s;
       sc_error := sc_error s + 1; processed := processed s + 1;
       totalParticipants := totalParticipants s |}
  else s.

(** The progress marker: a later marker line overwrites an earlier one. *)
Definition readMarker (line : string) (s : scan) : scan :=
  if Js.includes "Processing" line && Js.includes "participants" line then
    match markerMatch line with
    | Some ds =>
        {| sc_success := sc_success s; sc_skip := sc_skip s;
           sc_error := sc_error s; processed := processed s;
           totalParticipants := parseInt ds |}
    | None => s
    end
  else s.

(** One turn of [for (const line of lines)]. *)
Definition scanLine (s : scan) (line : string) : scan :=
  readMarker line (countOutcome line s).

(** [content.split('\n').filter(line => line.trim())] *)
Definition logLines (content : string) : list string :=
  List.filter (fun line => Js.truthy (Js.trim line)) (Js.splitLines content).

Definition freshMs : Z := 15000.

(** [parseLogFile] on a file that was read: [content] is its text,
    [mtimeMs] its modification time and [now] the value of [Date.now()]. *)
Definition parseLogFile (content : string) (mtimeMs now : Z) : worker :=
  let s := fold_left scanLine (logLines content) scan0 in
  {| status :=
       if 0 <? totalParticipants s then
         if processed s <? totalParticipants s then RUNNING else COMPLETED
       else if 0 <? processed s then
         if now - mtimeMs <? freshMs then RUNNING else COMPLETED
       else
         if now - mtimeMs <? freshMs then RUNNING else IDLE;
     progress :=
       if 0 <? totalParticipants s
       then pretty (processed s) +:+ "/" +:+ pretty (totalParticipants s)
       else pretty (processed s);
     success := sc_success s;
     error := sc_error s;
     skip := sc_skip s |}.

(** The reading of the Monitor's rule that the properties are stated
    against: a line is an outcome line when one of the three outcome patterns
    matches it, and a marker line when it yields a participant count. *)
Definition isOutcomeLine (line : string) : bool :=
  successMatch line || skipMatch line || errorMatch line.

Definition markerValue (line : string) : option Z :=
  if Js.includes "Processing" line && Js.includes "participants" line
  then option_map parseInt (markerMatch line)
  else None.

Definition outcomeCount (lines : list string) : Z :=
  Z.of_nat (List.length (List.filter isOutcomeLine lines)).

(** The rule as the specification words it: any marker line of the file with
    a positive count [N] decides status and progress. *)
Definition statusFromAnyMarker : Prop :=
  forall (content : string) (mtimeMs now N : Z) (marker : string),
    In marker (logLines content) ->
    markerValue marker = Some N ->
    0 < N ->
    status (parseLogFile content mtimeMs now)
    = (if outcomeCount (logLines content) <? N then RUNNING else COMPLETED)
    /\ progress (parseLogFile content mtimeMs now)
       = pretty (outcomeCount (logLines content)) +:+ "/" +:+ pretty N.

End Monitor.

(** ** The worker: effects, remote calls and the retry loops *)

Module Worker.
Import Partition.

(** *** Errors raised by the remote services *)

(** What the worker reads of a value that was thrown: the fields of a
    rejected request, its text and whether it takes new properties. *)
Record jserror := {
  e_status : option Z;        (* error.response.status *)
  e_code : option Z;          (* error.code, when it is a number *)
  e_reasons : list string;    (* error.response.data.error.errors[i].reason *)
  e_errors0 : string;         (* error.errors[0].reason, empty when absent *)
  e_dataMessage : string;     (* error.response.data.error.message *)
  e_message : string;         (* error.message *)
  e_string : string;          (* String(error) *)
  e_frozen : bool;            (* assigning a property to it throws: the
                                 value is frozen, or is no object *)
  e_op : option string;       (* error.__op, set by wrapError *)
  e_ctx : option (string * string * string)
                              (* error.__ctx: fileId, email, role *)
}.

(** A number as [||] passes it on: zero is falsy. *)
Definition nonZero (n : option Z) : option Z :=
  match n with
  | Some z => if z =? 0 then None else Some z
  | None => None
  end.

(** [error.response.status || error.code || null].  [isRetryableRateLimit]
    reads [status || code], which differs on a zero code only, and zero is
    neither 429 nor 403. *)
Definition statusOf (error : jserror) : option Z :=
  match nonZero (e_status error) with
  | Some s => Some s
  | None => nonZero (e_code error)
  end.

(** The first reason of the response, else the first of [error.errors],
    else the empty string. *)
Definition reasonOf (error : jserror) : string :=
  match e_reasons error with
  | r :: _ => if Js.truthy r then r else e_errors0 error
  | [] => e_errors0 error
  end.

Definition isRetryableRateLimit (error : jserror) : bool :=
  let status := statusOf error in
  let reason := reasonOf error in
  match status with
  | Some 429 => true
  | Some 403 =>
      Js.includes "rateLimitExceeded" reason
      || Js.includes "userRateLimitExceeded" reason
      || Js.includes "sharingRateLimitExceeded" reason
  | _ => false
  end.

(** [wrapError(op, ctx, error)]: the error itself, tagged; when it cannot
    be tagged, the [catch] branch makes a new error of its message (of its
    text when it has none), which carries the tag and no response. *)
Definition wrapError (op : string) (ctx : string * string * string)
    (error : jserror) : jserror :=
  if e_frozen error then
    let message :=
      op +:+ " failed: "
      +:+ (if Js.truthy (e_message error) then e_message error
           else e_string error) in
    {| e_status := None; e_code := None; e_reasons := [];
       e_errors0 := EmptyString; e_dataMessage := EmptyString;
       e_message := message; e_string := "Error: " +:+ message;
       e_frozen := false; e_op := Some op; e_ctx := Some ctx |}
  else
    {| e_status := e_status error; e_code := e_code error;
       e_reasons := e_reasons error; e_errors0 := e_errors0 error;
       e_dataMessage := e_dataMessage error; e_message := e_message error;
       e_string := e_string error; e_frozen := false;
       e_op := Some op; e_ctx := Some ctx |}.

Fixpoint join (sep : string) (l : list string) : string :=
  match l with
  | [] => EmptyString
  | [x] => x
  | x :: r => x +:+ sep +:+ join sep r
  end.

(** [extractErrorDetails]: status, the truthy reasons and the message. *)
Definition reasonsOf (error : jserror) : list string :=
  List.filter Js.truthy (e_reasons error).

(** [dataErr?.message || error?.message || String(error)] *)
Definition messageOf (error : jserror) : string :=
  if Js.truthy (e_dataMessage error) then e_dataMessage error
  else if Js.truthy (e_message error) then e_message error
  else e_string error.

Definition showStatus (absent : string) (st : option Z) : string :=
  match st with Some s => pretty s | None => absent end.

Definition formatErrorSummary (error : jserror) : string :=
  let reasons := reasonsOf error in
  let reasonStr := if negb (Nat.eqb (List.length reasons) 0)
                   then join "|" reasons else "unknown" in
  "[HTTP " +:+ showStatus "n/a" (statusOf error) +:+ "] " +:+ reasonStr
  +:+ " - " +:+ messageOf error.

(** *** The world and the state *)

Inductive answer (A : Type) : Type :=
| Fulfilled (a : A)
| Rejected (error : jserror).
Arguments Fulfilled {A} a.
Arguments Rejected {A} error.

Record permission := { emailAddress : string; role : string }.
Record file := { f_id : string; f_name : string }.

(** The oracles.  Each takes the tick at which it is consulted. *)
Record world := {
  w_now : nat -> Z;                       (* Date.now() *)
  w_random : nat -> Z;                    (* Math.random(), times 2^53 *)
  w_timestamp : nat -> string;            (* getCurrentTimestamp() *)
  w_searchSteps : nat -> nat;             (* loop turns a fallback search
                                             completes before its 30 s
                                             timer fires *)
  w_successRate : Z -> Z -> string;       (* (done / total * 100).toFixed(1) *)
  w_permissions_list : nat -> string -> answer (list permission);
  w_permissions_create : nat -> string -> string -> string -> answer unit;
  w_files_list : nat -> string -> option string
                 -> answer (list file * option string);
  w_values_update : nat -> string -> string -> answer unit
}.

(** The settings read through [config.get], the environment and [this]. *)
Record config := {
  sheetName : string;
  parentFolderId : string;
  dryRun : bool;
  throttleMs : Z;
  maxPerRun : Z;                 (* Number(config.get('maxPerRun')) *)
  envMaxPerRun : option Z;       (* Number(process.env.MAX_PER_RUN), when the
                                    variable is set and reads as a finite
                                    number *)
  shardTotal : Z;
  shardIndex : Z;
  debugEnabled : bool;
  folderMapping : option (gmap string string)
}.

(** The batch limit of a cycle: [MAX_PER_RUN] when it reads as a positive
    number, else the setting, else 300. *)
Definition maxPerRunOf (cfg : config) : Z :=
  let setting := if maxPerRun cfg =? 0 then 300 else maxPerRun cfg in
  match envMaxPerRun cfg with
  | Some envMax => if 0 <? envMax then envMax else setting
  | None => setting
  end.

(** The physical positions of the logical columns, as detected. *)
Record columns := {
  nameCol : Z;
  emailCol : Z;
  folderIdCol : Z;
  isSharedCol : Z;
  isFolderExistsCol : Z;
  lastLogCol : Z
}.

Inductive event : Type :=
| ThrottleSleep (ms : Z)      (* the sleep inside this.throttle() *)
| Sleep (ms : Z)              (* this.sleep(ms) elsewhere *)
| PermissionsList (fileId : string)
| PermissionsCreate (fileId email role : string)
| FilesList (q : string) (pageToken : option string)
| ValuesUpdate (range value : string) (ok : bool)
                              (* sheets.spreadsheets.values.update, and
                                 whether it went through *)
| LogLine (level message : string).
                              (* writeLog: a line of the worker's log file,
                                 without its time stamp *)

Record stats := { total : Z; done : Z; skipped : Z; errors : Z }.

Record state := {
  tick : nat;
  lastApiCallAt : Z;
  trace : list event;            (* oldest first *)
  st_stats : stats;
  seen : gset string;
  folderSearchTime : Z
}.

(** A computation settles with a value, settles with an exception, or is
    still pending when its step budget is used up. *)
Inductive outcome (A : Type) : Type :=
| Ret (a : A)
| Throw (error : jserror)
| Pending.
Arguments Ret {A} a.
Arguments Throw {A} error.
Arguments Pending {A}.

Definition M (A : Type) : Type := state -> outcome A * state.

Definition ret {A} (a : A) : M A := fun s => (Ret a, s).

Definition bind {A B} (m : M A) (k : A -> M B) : M B :=
  fun s =>
    match m s with
    | (Ret a, s') => k a s'
    | (Throw e, s') => (Throw e, s')
    | (Pending, s') => (Pending, s')
    end.

Definition throw {A} (error : jserror) : M A := fun s => (Throw error, s).

Definition pending {A} : M A := fun s => (Pending, s).

(** [try { m } catch (err) { ... }], as the value or the exception caught. *)
Definition try_ {A} (m : M A) : M (A + jserror) :=
  fun s =>
    match m s with
    | (Ret a, s') => (Ret (inl a), s')
    | (Throw e, s') => (Ret (inr e), s')
    | (Pending, s') => (Pending, s')
    end.

(** [try { r = await Promise.race([m, timer]); onValue } catch { ... }]:
    what follows when [m] settles with a value, when it settles with an
    exception, and when the timer fires while [m] is still pending.  The
    run of [m] given here is the part of the search that takes place before
    the race is decided.  [Promise.race] cancels nothing: a search that
    lost the race goes on by itself, and the calls it makes then are no
    part of this trace.  What the search does when it is left to run is
    stated of [_findFolderByNameInternal] directly. *)
Definition raceTimeout {A B} (m : M A) (onValue : A -> M B)
    (onError : jserror -> M B) (onTimeout : M B) : M B :=
  fun s =>
    match m s with
    | (Ret a, s') => onValue a s'
    | (Throw e, s') => onError e s'
    | (Pending, s') => onTimeout s'
    end.

Definition tryCatch {A} (m : M A) (handler : jserror -> M A) : M A :=
  bind (try_ m) (fun r => match r with inl a => ret a | inr e => handler e end).

Declare Scope worker_scope.
Delimit Scope worker_scope with worker.
Notation "x <- m ;; k" := (bind m (fun x => k))
  (at level 100, m at level 99, right associativity) : worker_scope.
Notation "m ;;; k" := (bind m (fun _ => k))
  (at level 100, right associativity) : worker_scope.
Local Open Scope worker_scope.

Definition setTrace (s : state) (t : list event) : state :=
  {| tick := tick s; lastApiCallAt := lastApiCallAt s; trace := t;
     st_stats := st_stats s; seen := seen s;
     folderSearchTime := folderSearchTime s |}.

Definition emit (e : event) : M unit :=
  fun s => (Ret tt, setTrace s (trace s ++ [e])).

(** The tick at which an oracle is consulted; the counter moves on. *)
Definition nextTick : M nat :=
  fun s => (Ret (tick s),
            {| tick := S (tick s); lastApiCallAt := lastApiCallAt s;
               trace := trace s; st_stats := st_stats s; seen := seen s;
               folderSearchTime := folderSearchTime s |}).

Definition getLastApiCallAt : M Z := fun s => (Ret (lastApiCallAt s), s).

Definition setLastApiCallAt (t : Z) : M unit :=
  fun s => (Ret tt,
            {| tick := tick s; lastApiCallAt := t; trace := trace s;
               st_stats := st_stats s; seen := seen s;
               folderSearchTime := folderSearchTime s |}).

Definition getStats : M stats := fun s => (Ret (st_stats s), s).

Definition setStats (st : stats) : M unit :=
  fun s => (Ret tt,
            {| tick := tick s; lastApiCallAt := lastApiCallAt s;
               trace := trace s; st_stats := st; seen := seen s;
               folderSearchTime := folderSearchTime s |}).

Definition getSeen : M (gset string) := fun s => (Ret (seen s), s).

Definition setSeen (x : gset string) : M unit :=
  fun s => (Ret tt,
            {| tick := tick s; lastApiCallAt := lastApiCallAt s;
               trace := trace s; st_stats := st_stats s; seen := x;
               folderSearchTime := folderSearchTime s |}).

Definition getFolderSearchTime : M Z := fun s => (Ret (folderSearchTime s), s).

Definition setFolderSearchTime (t : Z) : M unit :=
  fun s => (Ret tt,
            {| tick := tick s; lastApiCallAt := lastApiCallAt s;
               trace := trace s; st_stats := st_stats s; seen := seen s;
               folderSearchTime := t |}).

(** A remote call: the request is recorded, then the oracle answers. *)
Definition settle {A} (a : answer A) : M A :=
  match a with
  | Fulfilled x => ret x
  | Rejected e => throw e
  end.

(** *** Primitive effects *)

Section WithWorld.
Context (w : world) (cfg : config).

Definition dateNow : M Z := t <- nextTick ;; ret (w_now w t).

(** [Math.floor(Math.random() * k)], in exact arithmetic: the random number
    is [m / 2^53] for the 53-bit [m] the world gives. *)
Definition randomBelow (k : Z) : M Z :=
  t <- nextTick ;; ret ((w_random w t mod 2 ^ 53) * k / 2 ^ 53).

Definition sleep (ms : Z) : M unit := emit (Sleep ms).

(** [writeLog(message, level)]: the level is written in upper case. *)
Definition writeLog (message level : string) : M unit :=
  emit (LogLine (Js.toUpperCase level) message).

(** [dlog(...args)]: the arguments joined by a space, when debugging. *)
Definition dlog (msg : string) : M unit :=
  if debugEnabled cfg then writeLog msg "debug" else ret tt.

(** [Number(config.get('throttleMs')) || 2500] *)
Definition minDelay : Z := if throttleMs cfg =? 0 then 2500 else throttleMs cfg.

Definition throttle : M unit :=
  now <- dateNow ;;
  last <- getLastApiCallAt ;;
  let elapsed := now - last in
  (if elapsed <? minDelay then
     jitter <- randomBelow 400 ;;
     emit (ThrottleSleep (minDelay - elapsed + jitter))
   else ret tt) ;;;
  t <- dateNow ;;
  setLastApiCallAt t.

Definition getCurrentTimestamp : M string :=
  t <- nextTick ;; ret (w_timestamp w t).

(** *** Permission check and grant *)

Definition permissionsList (fileId : string) : M (list permission) :=
  t <- nextTick ;;
  emit (PermissionsList fileId) ;;;
  settle (w_permissions_list w t fileId).

Definition permissionsCreate (fileId email role : string) : M unit :=
  t <- nextTick ;;
  emit (PermissionsCreate fileId email role) ;;;
  settle (w_permissions_create w t fileId email role).

(** The predicate of [permissions.some(...)] in [hasPermission]. *)
Definition permissionMatches (email role : string) (p : permission) : bool :=
  Js.truthy (emailAddress p)
  && String.eqb (Js.toLowerCase (emailAddress p)) (Js.toLowerCase email)
  && String.eqb (Worker.role p) role.

(** The [while (true)] of [hasPermission]; [fuel] bounds its turns. *)
Fixpoint hasPermissionLoop (fuel : nat) (attempt : Z)
    (fileId email role : string) : M bool :=
  match fuel with
  | O => pending
  | S fuel' =>
      r <- try_ (throttle ;;;
                 permissions <- permissionsList fileId ;;
                 ret (existsb (permissionMatches email role) permissions)) ;;
      match r with
      | inl b => ret b
      | inr err =>
          dlog ("permissions.list error: " +:+ formatErrorSummary err) ;;;
          let attempt := attempt + 1 in
          let maxAttempts := 5 in
          if isRetryableRateLimit err && (attempt <? maxAttempts) then
            let base := Z.min 60000 (2 ^ attempt * 1000) in
            jitter <- randomBelow 500 ;;
            sleep (base + jitter) ;;;
            hasPermissionLoop fuel' attempt fileId email role
          else
            throw (wrapError "drive.permissions.list" (fileId, email, role) err)
      end
  end.

Definition hasPermission (fileId email role : string) : M bool :=
  tryCatch (hasPermissionLoop 5 0 fileId email role) (fun _ => ret false).

Inductive granted := DryRunStatus | Created.

(** The [while (true)] of [grantPermission]. *)
Fixpoint grantLoop (fuel : nat) (attempt : Z) (fileId email : string)
  : M granted :=
  match fuel with
  | O => pending
  | S fuel' =>
      r <- try_ (throttle ;;; permissionsCreate fileId email "reader") ;;
      match r with
      | inl _ => ret Created
      | inr error =>
          dlog ("permissions.create error: " +:+ formatErrorSummary error) ;;;
          let attempt := attempt + 1 in
          let maxAttempts := 6 in
          let capMs := 60000 in
          if isRetryableRateLimit error && (attempt <? maxAttempts) then
            let base := Z.min capMs (2 ^ attempt * 1000) in
            jitter <- randomBelow 500 ;;
            sleep (base + jitter) ;;;
            grantLoop fuel' attempt fileId email
          else
            throw (wrapError "drive.permissions.create"
                             (fileId, email, "reader") error)
      end
  end.

Definition grantPermission (fileId email : string) : M granted :=
  if dryRun cfg then ret DryRunStatus
  else grantLoop 6 0 fileId email.

(** *** Cell updates *)

(** [toCol]: column index to A1 letters.  [n] strictly decreases, so
    [index + 1] turns are enough. *)
Fixpoint toColLoop (fuel : nat) (n : Z) (s : string) : string :=
  match fuel with
  | O => s
  | S fuel' =>
      if 0 <? n then
        let rem := (n - 1) mod 26 in
        toColLoop fuel' ((n - 1) / 26) (String (Js.chr (65 + rem)) s)
      else s
  end.

Definition toCol (index : Z) : string :=
  toColLoop (Z.to_nat (index + 1)) (index + 1) EmptyString.

Definition cellRange (col : string) (row : Z) : string :=
  sheetName cfg +:+ "!" +:+ col +:+ pretty row.

(** [updateCell]: a failed update is swallowed (a warning goes to the
    console). *)
Definition updateCell (row : Z) (col value : string) : M unit :=
  t <- nextTick ;;
  match w_values_update w t (cellRange col row) value with
  | Fulfilled _ => emit (ValuesUpdate (cellRange col row) value true)
  | Rejected _ => emit (ValuesUpdate (cellRange col row) value false)
  end.

Definition updateCellByIndex (colIndex row : Z) (value label : string)
  : M unit :=
  if 0 <=? colIndex then updateCell row (toCol colIndex) value
  else writeLog ("Skip update: missing column '" +:+ label +:+ "'") "error".

End WithWorld.

(** *** Resource resolver *)

Definition dq : string := String (Js.chr 34) EmptyString.

(** [s.replace(/\s+/g, ' ')] *)
Fixpoint collapseFrom (inSpace : bool) (s : string) : string :=
  match s with
  | EmptyString => EmptyString
  | String c r =>
      if Js.isSpace c then
        if inSpace then collapseFrom true r
        else String " " (collapseFrom true r)
      else String c (collapseFrom false r)
  end.

Definition collapseSpaces (s : string) : string := collapseFrom false s.

(** [s.replace(/\b(t1|t2|...)\b/gi, '')] for titles made of word
    characters: a maximal run of word characters goes when it is, case
    ignored, one of the titles.  [cur] is the run read so far. *)
Definition flushWord (titles : list string) (cur : string) : string :=
  if existsb (String.eqb (Js.toLowerCase cur)) titles then EmptyString else cur.

Fixpoint removeWordsFrom (titles : list string) (cur s : string) : string :=
  match s with
  | EmptyString => flushWord titles cur
  | String c r =>
      if Js.isWord c
      then removeWordsFrom titles (cur +:+ String c EmptyString) r
      else flushWord titles cur +:+ String c (removeWordsFrom titles EmptyString r)
  end.

Definition removeWords (titles : list string) (s : string) : string :=
  removeWordsFrom titles EmptyString s.

(** [s.replace(/[\.,-]/g, ' ')] *)
Fixpoint blankPunctuation (s : string) : string :=
  match s with
  | EmptyString => EmptyString
  | String c r =>
      String (if Ascii.eqb c "." || Ascii.eqb c "," || Ascii.eqb c "-"
              then " "%char else c) (blankPunctuation r)
  end.

(** [Set.add]: insertion order is kept, a value already there is not added
    again. *)
Definition setAdd (x : string) (l : list string) : list string :=
  if existsb (String.eqb x) l then l else l ++ [x].

Definition _createSearchVariations (name : string) : list string :=
  let variations := setAdd name [] in
  let variations := setAdd (Js.toLowerCase name) variations in
  let variations := setAdd (Js.toUpperCase name) variations in
  let normalized := Js.trim (collapseSpaces name) in
  let variations := setAdd normalized variations in
  let variations := setAdd (Js.toLowerCase normalized) variations in
  let withoutPrefixes :=
    Js.trim (collapseSpaces
      (removeWords ["muhammad"; "moh"; "drs"; "dr"; "prof"; "hj"; "h"] name)) in
  let variations :=
    if Js.truthy withoutPrefixes && negb (String.eqb withoutPrefixes name)
    then setAdd (Js.toLowerCase withoutPrefixes) (setAdd withoutPrefixes variations)
    else variations in
  let withoutSpecialChars := Js.trim (collapseSpaces (blankPunctuation name)) in
  let variations :=
    if Js.truthy withoutSpecialChars && negb (String.eqb withoutSpecialChars name)
    then setAdd (Js.toLowerCase withoutSpecialChars)
                (setAdd withoutSpecialChars variations)
    else variations in
  List.filter Js.truthy variations.

(** [this.folderMapping[key]], as a truthy identifier or nothing.  The own
    keys of the parsed JSON object are read; this is the value of the
    JavaScript expression for every key that is an own key and for every
    key that is not a property name of [Object.prototype]
    ([Js.protoKey]). *)
Definition mapped (mapping : gmap string string) (key : string) : option string :=
  match mapping !! key with
  | Some id => if Js.truthy id then Some id else None
  | None => None
  end.

Definition orElse {A} (a b : option A) : option A :=
  match a with Some _ => a | None => b end.

(** [for (const variation of variations) { ...; if (folderId) break; }] *)
Fixpoint lookupVariations (mapping : gmap string string) (vs : list string)
  : option string :=
  match vs with
  | [] => None
  | variation :: rest =>
      match orElse (mapped mapping variation)
                   (mapped mapping (Js.toLowerCase variation)) with
      | Some id => Some id
      | None => lookupVariations mapping rest
      end
  end.

Section Resolver.
Context (w : world) (cfg : config).

Definition filesList (q : string) (pageToken : option string)
  : M (list file * option string) :=
  t <- nextTick ;;
  emit (FilesList q pageToken) ;;;
  settle (w_files_list w t q pageToken).

(** [searchTerm.replace(/'/g, "\\'")] *)
Fixpoint escapeQuotes (s : string) : string :=
  match s with
  | EmptyString => EmptyString
  | String c r =>
      if Ascii.eqb c "'" then String "\" (String "'" (escapeQuotes r))
      else String c (escapeQuotes r)
  end.

Definition globalQuery (searchTerm : string) : string :=
  "mimeType='application/vnd.google-apps.folder' and name contains '"
  +:+ escapeQuotes searchTerm +:+ "' and trashed=false".

Definition childrenQuery (parentId : string) : string :=
  "'" +:+ parentId
  +:+ "' in parents and mimeType='application/vnd.google-apps.folder' and trashed=false".

(** Exact match on the lowercased name first, then containment either way. *)
Definition findMatch (targetLower : string) (files : list file) : option file :=
  orElse
    (List.find (fun f => String.eqb (Js.toLowerCase (f_name f)) targetLower) files)
    (List.find (fun f =>
       let folderName := Js.toLowerCase (f_name f) in
       Js.includes targetLower folderName || Js.includes folderName targetLower)
       files).

(** The [while (attempt < maxAttempts)] of the global search, for one search
    term: a hit, or nothing when this term is given up. *)
Fixpoint globalAttempts (fuel : nat) (attempt : Z) (targetLower query : string)
  : M (option string) :=
  match fuel with
  | O => pending
  | S fuel' =>
      let maxAttempts := 3 in
      if attempt <? maxAttempts then
        r <- try_ (throttle w cfg ;;;
                   response <- filesList query None ;;
                   ret (findMatch targetLower (fst response))) ;;
        match r with
        | inl (Some hit) => ret (Some (f_id hit))
        | inl None => ret None
        | inr err =>
            dlog cfg ("files.list(global) error: " +:+ formatErrorSummary err) ;;;
            let attempt := attempt + 1 in
            if isRetryableRateLimit err && (attempt <? maxAttempts) then
              let base := Z.min 30000 (2 ^ attempt * 1000) in
              jitter <- randomBelow w 500 ;;
              sleep (base + jitter) ;;;
              globalAttempts fuel' attempt targetLower query
            else ret None
        end
      else ret None
  end.

(** [for (const searchTerm of searchVariations)] *)
Fixpoint globalSearch (steps : nat) (targetLower : string) (terms : list string)
  : M (option string) :=
  match terms with
  | [] => ret None
  | searchTerm :: rest =>
      r <- try_ (globalAttempts steps 0 targetLower (globalQuery searchTerm)) ;;
      match r with
      | inl (Some id) => ret (Some id)
      | inl None => globalSearch steps targetLower rest
      | inr _ => globalSearch steps targetLower rest
      end
  end.

Definition searchVariations (targetName : string) : list string :=
  List.filter Js.truthy
    [targetName;
     Js.toLowerCase targetName;
     Js.toUpperCase targetName;
     Js.trim (collapseSpaces targetName);
     Js.trim (removeWords ["muhammad"; "moh"; "drs"; "dr"; "prof"] targetName)].

(** [listSubfolders]: all pages of the children of [parentId]. *)
Fixpoint listSubfolders (fuel : nat) (parentId : string)
    (pageToken : option string) (all : list file) : M (list file) :=
  match fuel with
  | O => pending
  | S fuel' =>
      throttle w cfg ;;;
      res <- filesList (childrenQuery parentId) pageToken ;;
      let all := all ++ fst res in
      match snd res with
      | Some tok =>
          if Js.truthy tok then listSubfolders fuel' parentId (Some tok) all
          else ret all
      | None => ret all
      end
  end.

Definition maxDepth : Z := 3.

(** The breadth-first [while (queue.length)]. *)
Fixpoint bfs (fuel : nat) (targetLower : string) (queue : list (string * Z))
  : M (option string) :=
  match fuel with
  | O => pending
  | S fuel' =>
      match queue with
      | [] => ret None
      | (id, depth) :: queue =>
          if maxDepth <? depth then bfs fuel' targetLower queue
          else
            r <- try_ (listSubfolders fuel' id None []) ;;
            match r with
            | inl children =>
                match List.find (fun f =>
                        String.eqb (Js.toLowerCase (f_name f)) targetLower)
                        children with
                | Some hit => ret (Some (f_id hit))
                | None =>
                    bfs fuel' targetLower
                      (if depth <? maxDepth
                       then queue ++ List.map (fun c => (f_id c, depth + 1)) children
                       else queue)
                end
            | inr err =>
                if isRetryableRateLimit err then
                  sleep 1000 ;;;
                  bfs fuel' targetLower (queue ++ [(id, depth)])
                else
                  dlog cfg ("files.list(children) error: "
                            +:+ formatErrorSummary err) ;;;
                  bfs fuel' targetLower queue
            end
      end
  end.

(** [_findFolderByNameInternal]; [steps] bounds the turns of its loops
    that are observed: with more steps the same run is followed further. *)
Definition _findFolderByNameInternal (steps : nat) (name parentFolderId : string)
  : M (option string) :=
  let targetName := name in
  let targetLower := Js.toLowerCase targetName in
  if negb (Js.truthy targetName) then ret None
  else if negb (Js.truthy parentFolderId) then
    tryCatch (globalSearch steps targetLower (searchVariations targetName))
             (fun _ => ret None)
  else bfs steps targetLower [(parentFolderId, 0)].

(** [_findFolderByNameFallback]: the race of the search against the 30 s
    timer.  A search still pending after the turns it completes in that
    time has lost the race: the timer rejects, and the rejection is caught
    like any other. *)
Definition _findFolderByNameFallback (name parentFolderId : string)
  : M (option string) :=
  startTime <- dateNow w ;;
  t <- nextTick ;;
  raceTimeout
    (_findFolderByNameInternal (w_searchSteps w t) name parentFolderId)
    (fun result => elapsed <- dateNow w ;; ret result)
    (fun error =>
       now <- dateNow w ;;
       dlog cfg ("Folder search timeout: " +:+ name +:+ " - "
                 +:+ e_message error
                 +:+ " (" +:+ pretty (now - startTime) +:+ "ms)") ;;;
       ret None)
    (now <- dateNow w ;;
     dlog cfg ("Folder search timeout: " +:+ name +:+ " - "
               +:+ "Folder search took too long (30s) for "
               +:+ dq +:+ name +:+ dq
               +:+ " (" +:+ pretty (now - startTime) +:+ "ms)") ;;;
     ret None).

Definition findFolderByName (name parentFolderId : string) : M (option string) :=
  startTime <- dateNow w ;;
  let targetName := name in
  if negb (Js.truthy targetName) then ret None
  else
    hit <- match folderMapping cfg with
           | Some mapping =>
               let folderId := mapped mapping targetName in
               let folderId :=
                 orElse folderId (mapped mapping (Js.toLowerCase targetName)) in
               let folderId :=
                 match folderId with
                 | Some _ => folderId
                 | None =>
                     lookupVariations mapping (_createSearchVariations targetName)
                 end in
               now <- dateNow w ;;
               let elapsed := now - startTime in
               match folderId with
               | Some id =>
                   writeLog ("Found folder (mapped): " +:+ dq +:+ targetName
                             +:+ dq +:+ " (" +:+ pretty elapsed +:+ "ms)") "info" ;;;
                   ret (Some id)
               | None =>
                   writeLog ("Folder not found in mapping: " +:+ dq
                             +:+ targetName +:+ dq) "info" ;;;
                   ret None
               end
           | None => ret None
           end ;;
    match hit with
    | Some id => ret (Some id)
    | None => _findFolderByNameFallback name parentFolderId
    end.

End Resolver.

(** *** Batch processor: the body of the loop of [processParticipants] *)

(** [/^[a-zA-Z0-9._%+-]+@[a-zA-Z0-9.-]+\.[a-zA-Z]{2,}$/] *)
Definition isAlpha (c : ascii) : bool := Js.isUpper c || Js.isLower c.
Definition isAlnum (c : ascii) : bool := isAlpha c || Js.isDigit c.
Definition oneOf (cs : string) (c : ascii) : bool :=
  existsb (Ascii.eqb c) (list_ascii_of_string cs).

Definition emailRegex : Regex.re :=
  Regex.seq
    [Regex.plus (Regex.Class (fun c => isAlnum c || oneOf "._%+-" c));
     Regex.char "@";
     Regex.plus (Regex.Class (fun c => isAlnum c || oneOf ".-" c));
     Regex.char ".";
     Regex.Class isAlpha; Regex.Class isAlpha; Regex.Star (Regex.Class isAlpha)].

Definition isValidEmail (email : string) : bool := Regex.matches emailRegex email.

Definition isGmail (email : string) : bool :=
  Js.endsWith "@gmail.com" (Js.toLowerCase email).

Definition bumpSkipped (st : stats) : stats :=
  {| total := total st; done := done st; skipped := skipped st + 1;
     errors := errors st |}.
Definition bumpErrors (st : stats) : stats :=
  {| total := total st; done := done st; skipped := skipped st;
     errors := errors st + 1 |}.
Definition bumpDone (st : stats) : stats :=
  {| total := total st; done := done st + 1; skipped := skipped st;
     errors := errors st |}.
Definition bumpTotal (st : stats) : stats :=
  {| total := total st + 1; done := done st; skipped := skipped st;
     errors := errors st |}.

Definition modifyStats (f : stats -> stats) : M unit :=
  st <- getStats ;; setStats (f st).

Definition ms (t : Z) : string := pretty t +:+ "ms".

(** The message of the [catch] branch, from the status and the reasons. *)
Definition friendlyMessage (email : string) (error : jserror) : string :=
  let status := statusOf error in
  let reasons := reasonsOf error in
  let message := messageOf error in
  let has r := existsb (String.eqb r) reasons in
  match status with
  | Some 403 =>
      if has "cannotInviteNonGoogleUser" then
        "Email " +:+ email
        +:+ " tidak memiliki Google Account aktif atau tidak dapat diundang"
      else if has "sharingRateLimitExceeded" then
        "Rate limit tercapai untuk sharing, coba lagi nanti"
      else if has "permissionDenied" then
        "Tidak ada izin untuk membagikan folder ini"
      else "Akses ditolak: " +:+ message
  | Some 404 => "Folder tidak ditemukan atau telah dihapus"
  | Some 429 => "Terlalu banyak permintaan, coba lagi nanti"
  | _ => if Js.truthy message then message else "Error tidak diketahui"
  end.

Section Processor.
Context (w : world) (cfg : config) (cols : columns).

Definition update := updateCellByIndex w cfg.

Definition stamped (ts body : string) : string := "[" +:+ ts +:+ "] " +:+ body.

(** The resolution step of the loop body: the identifier the record
    carries, else the resolver's answer ([None] for [null]); the time the
    search took is kept for the messages. *)
Definition resolveFolder (participant : participant) : M (option string) :=
  if Js.truthy (folderId participant) then ret (Some (folderId participant))
  else
    folderSearchStart <- dateNow w ;;
    r <- findFolderByName w cfg (nama participant) (parentFolderId cfg) ;;
    now <- dateNow w ;;
    setFolderSearchTime (now - folderSearchStart) ;;;
    ret r.

(** The [try] block of the loop body.  [continue] is the end of the block. *)
Definition tryBlock (participant : participant) (participantStartTime : Z)
  : M unit :=
  let rowIndex := rowIndex participant in
  let nama := nama participant in
  let email := email participant in
  let role := "reader" in
  let row := "Row " +:+ pretty rowIndex in
  if negb (isValidEmail email) || negb (isGmail email) then
    modifyStats bumpSkipped ;;;
    now <- dateNow w ;;
    let totalTime := now - participantStartTime in
    let reason := if negb (isValidEmail email)
                  then "INVALID EMAIL FORMAT" else "NOT GMAIL ACCOUNT" in
    update (isSharedCol cols) rowIndex "FALSE" "isShared" ;;;
    ts <- getCurrentTimestamp w ;;
    update (lastLogCol cols) rowIndex
      (stamped ts ("SKIP: " +:+ reason +:+ " '" +:+ email +:+ "' ("
                   +:+ ms totalTime +:+ ")")) "LastLog" ;;;
    writeLog (row +:+ " SKIP " +:+ reason +:+ ": " +:+ email
              +:+ " - Time: " +:+ ms totalTime) "info"
  else
    let key := Js.toLowerCase nama +:+ "|" +:+ email in
    seenKeys <- getSeen ;;
    if bool_decide (key ∈ seenKeys) then
      modifyStats bumpSkipped ;;;
      now <- dateNow w ;;
      let totalTime := now - participantStartTime in
      ts <- getCurrentTimestamp w ;;
      update (lastLogCol cols) rowIndex
        (stamped ts ("SKIP: Duplicate entry (" +:+ ms totalTime +:+ ")"))
        "LastLog" ;;;
      writeLog (row +:+ " SKIP duplicate: " +:+ nama +:+ "|" +:+ email
                +:+ " - Time: " +:+ ms totalTime) "info"
    else
      setSeen ({[key]} ∪ seenKeys) ;;;
      if Js.truthy (isShared participant)
         && String.eqb (Js.toLowerCase (isShared participant)) "true" then
        modifyStats bumpSkipped ;;;
        now <- dateNow w ;;
        let totalTime := now - participantStartTime in
        ts <- getCurrentTimestamp w ;;
        update (lastLogCol cols) rowIndex
          (stamped ts ("SKIP: Already shared (" +:+ ms totalTime +:+ ")"))
          "LastLog" ;;;
        writeLog (row +:+ " SKIP already shared - Time: " +:+ ms totalTime) "info"
      else
        found <- resolveFolder participant ;;
        folderSearchTime <- getFolderSearchTime ;;
        let folderId := match found with Some id => id | None => EmptyString end in
        if negb (Js.truthy folderId) then
            modifyStats bumpErrors ;;;
            now <- dateNow w ;;
            let totalTime := now - participantStartTime in
            update (isFolderExistsCol cols) rowIndex "FALSE" "isFolderExists" ;;;
            ts <- getCurrentTimestamp w ;;
            update (lastLogCol cols) rowIndex
              (stamped ts ("FOLDER NOT FOUND: '" +:+ nama +:+ "' ("
                           +:+ ms totalTime +:+ ")")) "LastLog" ;;;
            writeLog (row +:+ " ERROR folder not found for name='" +:+ nama
                      +:+ "' - Time: " +:+ ms totalTime
                      +:+ " (folder search: " +:+ ms folderSearchTime +:+ ")")
                     "error"
        else
            update (isFolderExistsCol cols) rowIndex "TRUE" "isFolderExists" ;;;
            (if negb (Js.truthy (Partition.folderId participant))
             then update (folderIdCol cols) rowIndex folderId "FolderId"
             else ret tt) ;;;
            permissionCheckStart <- dateNow w ;;
            hasPermission <- hasPermission w cfg folderId email role ;;
            now <- dateNow w ;;
            let permissionCheckTime := now - permissionCheckStart in
            if hasPermission then
              modifyStats bumpSkipped ;;;
              now <- dateNow w ;;
              let totalTime := now - participantStartTime in
              update (isSharedCol cols) rowIndex "TRUE" "isShared" ;;;
              ts <- getCurrentTimestamp w ;;
              update (lastLogCol cols) rowIndex
                (stamped ts ("SKIP: Already has " +:+ role +:+ " access ("
                             +:+ ms totalTime +:+ ")")) "LastLog" ;;;
              writeLog (row +:+ " SKIP already has " +:+ role +:+ " - Time: "
                        +:+ ms totalTime +:+ " (folder: " +:+ ms folderSearchTime
                        +:+ ", permission: " +:+ ms permissionCheckTime +:+ ")")
                       "info" ;;;
              update (isSharedCol cols) rowIndex "TRUE" "isShared"
            else
              grantPermissionStart <- dateNow w ;;
              _ <- grantPermission w cfg folderId email ;;
              now <- dateNow w ;;
              let grantPermissionTime := now - grantPermissionStart in
              modifyStats bumpDone ;;;
              now <- dateNow w ;;
              let totalTime := now - participantStartTime in
              update (isSharedCol cols) rowIndex "TRUE" "isShared" ;;;
              let status := if dryRun cfg then "DRY_RUN" else "GRANTED" in
              ts <- getCurrentTimestamp w ;;
              update (lastLogCol cols) rowIndex
                (stamped ts (status +:+ " " +:+ role +:+ " → " +:+ email
                             +:+ " (" +:+ ms totalTime +:+ ")")) "LastLog" ;;;
              writeLog (row +:+ " " +:+ status +:+ " " +:+ role +:+ " -> "
                        +:+ email +:+ " - Time: " +:+ ms totalTime
                        +:+ " (folder: " +:+ ms folderSearchTime
                        +:+ ", permission: " +:+ ms permissionCheckTime
                        +:+ ", grant: " +:+ ms grantPermissionTime +:+ ")")
                       "info" ;;;
              jitter <- randomBelow w 200 ;;
              sleep (Z.max 0 (minDelay cfg / 2) + jitter).

(** The [catch (error)] block of the loop body. *)
Definition catchBlock (participant : participant) (participantStartTime : Z)
    (error : jserror) : M unit :=
  let rowIndex := rowIndex participant in
  let email := email participant in
  modifyStats bumpErrors ;;;
  now <- dateNow w ;;
  let totalTime := now - participantStartTime in
  let friendly := friendlyMessage email error in
  ts <- getCurrentTimestamp w ;;
  let shortLogLine :=
    stamped ts ("ERROR: " +:+ friendly +:+ " (" +:+ ms totalTime +:+ ")") in
  update (isSharedCol cols) rowIndex "FALSE" "isShared" ;;;
  update (lastLogCol cols) rowIndex shortLogLine "LastLog" ;;;
  folderSearchTime <- getFolderSearchTime ;;
  writeLog ("Row " +:+ pretty rowIndex +:+ " ERROR: " +:+ friendly
            +:+ " - Time: " +:+ ms totalTime
            +:+ (if folderSearchTime =? 0 then EmptyString
                 else " (folder: " +:+ ms folderSearchTime +:+ ")")
            +:+ " | Technical: HTTP " +:+ showStatus "null" (statusOf error)
            +:+ " " +:+ join "," (reasonsOf error)
            +:+ " - " +:+ messageOf error) "error".

(** One turn of [for (const [index, participant] of workingParticipants.entries())]. *)
Definition processOne (participant : participant) : M unit :=
  participantStartTime <- dateNow w ;;
  setFolderSearchTime 0 ;;;
  modifyStats bumpTotal ;;;
  tryCatch (tryBlock participant participantStartTime)
           (catchBlock participant participantStartTime).

Fixpoint forEach (l : list participant) : M unit :=
  match l with
  | [] => ret tt
  | p :: rest => processOne p ;;; forEach rest
  end.

Definition stats0 : stats := {| total := 0; done := 0; skipped := 0; errors := 0 |}.

(** [processParticipants(data)] on the rows read from the sheet. *)
Definition processParticipants (participants : list participant) : M unit :=
  setStats stats0 ;;;
  let normalized :=
    List.filter isEligible
      (List.filter hasIdentity (List.map normalize participants)) in
  let sharded := applySharding (shardTotal cfg) (shardIndex cfg) normalized in
  (if 0 <? shardTotal cfg then
     writeLog ("Sharding applied: " +:+ pretty (Z.of_nat (List.length sharded))
               +:+ "/" +:+ pretty (Z.of_nat (List.length normalized))
               +:+ " records for shard " +:+ pretty (shardIndex cfg) +:+ "/"
               +:+ pretty (shardTotal cfg - 1)) "info"
   else ret tt) ;;;
  let workingParticipants := Js.slice0 (maxPerRunOf cfg) (prioritize sharded) in
  writeLog ("Processing " +:+ pretty (Z.of_nat (List.length workingParticipants))
            +:+ " participants. parentFolderId=" +:+ parentFolderId cfg) "info" ;;;
  setSeen ∅ ;;;
  forEach workingParticipants ;;;
  st <- getStats ;;
  let successRate :=
    if 0 <? total st then w_successRate w (done st) (total st) else "0" in
  writeLog ("Summary: total=" +:+ pretty (total st) +:+ " done=" +:+ pretty (done st)
            +:+ " skipped=" +:+ pretty (skipped st) +:+ " errors="
            +:+ pretty (errors st) +:+ " successRate=" +:+ successRate +:+ "%")
           "info".

End Processor.

End Worker.

(** ** The settings of [run] *)

Module Runner.

(** [parseInt(s, 10)]: leading white space is skipped, a sign is read, then
    the longest run of decimal digits; nothing when there is no digit
    (NaN).  The number is the exact value of the digits: this is the
    JavaScript number when that value is below 2^53, and JavaScript rounds
    beyond. *)
Definition parseInt10 (s : string) : option Z :=
  let s := Js.trimStart s in
  let (negative, s) :=
    match s with
    | String c r =>
        if Ascii.eqb c "-" then (true, r)
        else if Ascii.eqb c "+" then (false, r)
        else (false, s)
    | EmptyString => (false, s)
    end in
  let ds := Monitor.takeWhile Js.isDigit s in
  if Js.truthy ds
  then Some (if negative then - Monitor.parseInt ds else Monitor.parseInt ds)
  else None.

(** [Math.max(5, parseInt(process.env.POLL_INTERVAL || '30', 10) || 30)];
    the variable is absent or holds a string. *)
Definition pollSec (env : option string) : Z :=
  let text := match env with
              | Some v => if Js.truthy v then v else "30"
              | None => "30"
              end in
  let n := match parseInt10 text with
           | Some n => if n =? 0 then 30 else n
           | None => 30
           end in
  Z.max 5 n.

(** [String(process.env.LOOP || '').toLowerCase() === 'true'] *)
Definition loopEnabled (env : option string) : bool :=
  String.eqb (Js.toLowerCase (match env with Some v => v | None => EmptyString end))
             "true".

End Runner.

(** ** Live logs: [LiveLogsFollower.pollOnce] on one file

    A file is the string of its bytes; decoding a chunk is the identity,
    which is exact for ASCII logs.  The read returns every byte asked for
    that the file holds. *)

Module Follower.

Definition chunkCap : Z := 1024 * 256.

(** [text.split(/\r?\n/)] *)
Fixpoint splitCRLF (s : string) : list string :=
  match s with
  | EmptyString => [EmptyString]
  | String c r =>
      if Js.code c =? 10 then EmptyString :: splitCRLF r
      else
        match r with
        | String d r' =>
            if (Js.code c =? 13) && (Js.code d =? 10)
            then EmptyString :: splitCRLF r'
            else match splitCRLF r with
                 | l :: ls => String c l :: ls
                 | [] => [String c EmptyString]
                 end
        | EmptyString => [String c EmptyString]
        end
  end.

(** The bytes one poll reads from position [pos], and the position
    after. *)
Definition readChunk (content : string) (pos : Z) : string * Z :=
  let size := Z.of_nat (String.length content) in
  if pos <? size then
    let len := size - pos in
    let bytesRead := Z.min len chunkCap in
    (String.substring (Z.to_nat pos) (Z.to_nat bytesRead) content,
     pos + bytesRead)
  else (EmptyString, pos).

(** One file in one turn of [pollOnce]: the lines printed and the new
    position. *)
Definition pollFile (content : string) (pos : Z) : list string * Z :=
  let (text, pos') := readChunk content pos in
  (if pos <? Z.of_nat (String.length content)
   then List.filter Js.truthy (splitCRLF text) else [],
   pos').

(** [n] polls of a file that does not change: the chunks read, in order,
    and the position reached. *)
Fixpoint chunks (n : nat) (content : string) (pos : Z) : list string * Z :=
  match n with
  | O => ([], pos)
  | S n' =>
      let (text, pos') := readChunk content pos in
      let (rest, last) := chunks n' content pos' in
      (text :: rest, last)
  end.

End Follower.

(** ** External state: the header analysis and the row reading of
    [getSpreadsheetDataFlexible]

    The two reads of the sheet are its inputs here: [headers] is the header
    row and [values] all the rows; what the function computes from them is
    modelled, the remote calls around it are not. *)

Module Sheet.
Import Partition Worker.

(** [arr.indexOf(x)]: the first position of [x], or -1. *)
Fixpoint indexFrom (i : Z) (x : string) (l : list string) : Z :=
  match l with
  | [] => -1
  | y :: r => if String.eqb y x then i else indexFrom (i + 1) x r
  end.

Definition indexOf (x : string) (l : list string) : Z := indexFrom 0 x l.

Definition includes (x : string) (l : list string) : bool := existsb (String.eqb x) l.

(** [findIndexByNames]: the position of the first candidate, in the order of
    the candidates, that is among the lowercased headers. *)
Fixpoint findIndexByNames (lower candidates : list string) : Z :=
  match candidates with
  | [] => -1
  | name :: rest =>
      let idx := indexOf name lower in
      if negb (idx =? -1) then idx else findIndexByNames lower rest
  end.

Definition nameCandidates : list string :=
  ["nama peserta"; "nama"; "nama lengkap"; "name"; "full name"; "participant name"].

Definition emailCandidates : list string :=
  ["email address"; "email"; "e-mail"; "gmail"; "participant email"].

Definition extras : list string := ["FolderId"; "isShared"; "isFolderExists"; "LastLog"].

Record detection := {
  det_columns : columns;
  det_headers : list string;     (* the header row after the append *)
  det_missing : list string      (* the names written to the sheet *)
}.

Definition detectColumns (headers : list string) : option detection :=
  if Nat.eqb (List.length headers) 0 then None
  else
    let lower := List.map (fun h => Js.toLowerCase (Js.trim h)) headers in
    let nameCol := findIndexByNames lower nameCandidates in
    let emailCol := findIndexByNames lower emailCandidates in
    if (nameCol =? -1) || (emailCol =? -1) then None
    else
      let missing := List.filter (fun h => negb (includes h headers)) extras in
      let headers := headers ++ missing in
      Some {| det_columns :=
                {| nameCol := nameCol; emailCol := emailCol;
                   folderIdCol := indexOf "FolderId" headers;
                   isSharedCol := indexOf "isShared" headers;
                   isFolderExistsCol := indexOf "isFolderExists" headers;
                   lastLogCol := indexOf "LastLog" headers |};
              det_headers := headers;
              det_missing := missing |}.

(** [(row[col] || '').toString()]: a cell that is absent reads as empty. *)
Definition cell (row : list string) (col : Z) : string :=
  if col <? 0 then EmptyString else nth (Z.to_nat col) row EmptyString.

Fixpoint readRows (cols : columns) (index : Z) (rows : list (list string))
  : list participant :=
  match rows with
  | [] => []
  | row :: rest =>
      {| rowIndex := index + 2;
         nama := cell row (nameCol cols);
         email := cell row (emailCol cols);
         folderId := cell row (folderIdCol cols);
         isShared := cell row (isSharedCol cols);
         isFolderExists := cell row (isFolderExistsCol cols);
         lastLog := cell row (lastLogCol cols) |}
      :: readRows cols (index + 1) rest
  end.

(** [values.slice(1).map((row, index) => ...)] *)
Definition readParticipants (cols : columns) (values : list (list string))
  : list participant :=
  readRows cols 0 (List.tl values).

End Sheet.

(** ** Reference readings used by the further properties *)

Module Reference.

(** The djb2 hash over the integers, without any 32-bit truncation:
    [h <- 33 * h + c], from 5381. *)
Definition djb2 (cs : list Z) : Z :=
  fold_left (fun h c => 33 * h + c) cs 5381.

(** The number of a column as A1 notation reads its letters: bijective
    base 26, A = 1, Z = 26, AA = 27. *)
Definition colNumber (col : string) : Z :=
  fold_left (fun acc c => 26 * acc + (c - 64)) (Js.charCodes col) 0.

(** The sizes of the shards of a list, for the workers 0 .. n-1. *)
(** The line feed that ends a line of a log file. *)
Definition newline : string := String (Js.chr 10) EmptyString.

(** Every character of [s] is in the class [p]. *)
Fixpoint allChars (p : ascii -> bool) (s : string) : bool :=
  match s with
  | EmptyString => true
  | String c r => p c && allChars p r
  end.

(** The first character of [s] is in the class [p]. *)
Definition startsWith (p : ascii -> bool) (s : string) : bool :=
  match s with
  | EmptyString => false
  | String c _ => p c
  end.

(** Every character class of [r] lies inside [p]. *)
Fixpoint classesIn (p : ascii -> bool) (r : Regex.re) : Prop :=
  match r with
  | Regex.Void | Regex.Eps => True
  | Regex.Class q => forall c, q c = true -> p c = true
  | Regex.Cat a b | Regex.Alt a b | Regex.And a b => classesIn p a /\ classesIn p b
  | Regex.Star a => classesIn p a
  end.

Definition shardSizes (n : nat) (l : list Partition.participant) : list nat :=
  List.map (fun i => List.length
                       (Partition.applySharding (Z.of_nat n) (Z.of_nat i) l))
           (seq 0 n).

End Reference.

(** ** Observing a run: the events a computation adds to the trace *)

Module Observe.
Import Worker.

(** [emits m s Q]: run from [s], the computation [m] appends some events
    [evs] to the trace and [Q] holds of its outcome, of [evs] and of the
    state it ends in. *)
Definition emits {A} (m : M A) (s : state)
    (Q : outcome A -> list event -> state -> Prop) : Prop :=
  exists evs, trace (snd (m s)) = trace s ++ evs /\ Q (fst (m s)) evs (snd (m s)).

Definition isCreate (e : event) : bool :=
  match e with PermissionsCreate _ _ _ => true | _ => false end.

Definition isList (e : event) : bool :=
  match e with PermissionsList _ => true | _ => false end.

Definition isFilesList (e : event) : bool :=
  match e with FilesList _ _ => true | _ => false end.

(** The permission-create calls of a trace, and its permission-list calls. *)
Definition creates (evs : list event) : list event := List.filter isCreate evs.
Definition lists (evs : list event) : list event := List.filter isList evs.

(** The durations of the back-off sleeps of a trace. *)
Fixpoint backoffs (evs : list event) : list Z :=
  match evs with
  | [] => []
  | Sleep ms :: rest => ms :: backoffs rest
  | _ :: rest => backoffs rest
  end.

(** A stretch of trace with no permission call and no back-off in it. *)
Definition silent (evs : list event) : Prop :=
  creates evs = [] /\ lists evs = [] /\ backoffs evs = [].

(** A stretch of trace with no permission call in it. *)
Definition noPermissionCall (evs : list event) : Prop :=
  creates evs = [] /\ lists evs = [].

(** [always P m]: from every state, whatever its outcome, the events [m]
    adds satisfy [P]. *)
Definition always {A} (P : list event -> Prop) (m : M A) : Prop :=
  forall s, emits m s (fun _ evs _ => P evs).

(** The back-off after the failed attempt number [attempt] (counted from 1)
    of a mutation: [min(60 s, 2^attempt s)] plus a jitter below 500 ms. *)
Definition isBackoff (attempt ms : Z) : Prop :=
  exists jitter, 0 <= jitter < 500
                 /\ ms = Z.min 60000 (2 ^ attempt * 1000) + jitter.

(** A back-off of the global folder search: 2 or 4 seconds, after the first
    and the second failed attempt for a search term, plus a jitter below
    500 ms. *)
Definition isSearchBackoff (ms : Z) : Prop :=
  exists jitter, 0 <= jitter < 500
                 /\ (ms = 2000 + jitter \/ ms = 4000 + jitter).

(** The sleeps of a trace, of both kinds: the back-off of a retry loop and
    the spacing sleep of [throttle]. *)
Inductive pause : Type :=
| Backoff (ms : Z)
| Spacing (ms : Z).

Definition duration (p : pause) : Z :=
  match p with Backoff ms | Spacing ms => ms end.

Definition totalSleep (g : list pause) : Z :=
  fold_right (fun p acc => duration p + acc) 0 g.

(** The pauses of a trace, cut at its permission-create calls: the first
    list holds the pauses before the first call, the next one those between
    the first call and the second, and so on; the last list holds the
    pauses after the last call.  [cur] is the list being filled. *)
Fixpoint pausesFrom (cur : list pause) (evs : list event) : list (list pause) :=
  match evs with
  | [] => [cur]
  | PermissionsCreate _ _ _ :: rest => cur :: pausesFrom [] rest
  | Sleep ms :: rest => pausesFrom (cur ++ [Backoff ms]) rest
  | ThrottleSleep ms :: rest => pausesFrom (cur ++ [Spacing ms]) rest
  | _ :: rest => pausesFrom cur rest
  end.

Definition pauses (evs : list event) : list (list pause) := pausesFrom [] evs.

(** The pauses of a trace, in order. *)
Fixpoint sleepsIn (evs : list event) : list pause :=
  match evs with
  | [] => []
  | Sleep ms :: rest => Backoff ms :: sleepsIn rest
  | ThrottleSleep ms :: rest => Spacing ms :: sleepsIn rest
  | _ :: rest => sleepsIn rest
  end.

(** The time of the last call, as [throttle] keeps it, is a reading of the
    clock that was taken before now. *)
Definition paced (w : world) (s : state) : Prop :=
  exists t0 : nat, (t0 <= tick s)%nat /\ lastApiCallAt s = w_now w t0.

(** A spacing sleep of [throttle]: what is left of the minimal delay since
    the last call, plus a jitter below 400 ms. *)
Definition isSpacing (cfg : config) (ms : Z) : Prop :=
  exists elapsed jitter,
    elapsed < minDelay cfg /\ 0 <= jitter < 400
    /\ ms = minDelay cfg - elapsed + jitter.

(** [throttle] sleeps once or not at all. *)
Definition spacingOrNone (cfg : config) (g : list pause) : Prop :=
  g = [] \/ exists ms, g = [Spacing ms] /\ isSpacing cfg ms.

(** A clock that does not go back. *)
Definition steadyClock (w : world) : Prop :=
  forall t1 t2 : nat, (t1 <= t2)%nat -> w_now w t1 <= w_now w t2.

(** The pauses between the failed attempt number [attempt] of a mutation
    and the next attempt: the back-off, then the spacing sleep of
    [throttle] when the minimal delay since the failed call has not
    elapsed; on a steady clock the spacing sleep is below the minimal delay
    plus 400 ms. *)
Definition gapAfter (w : world) (cfg : config) (attempt : Z) (g : list pause)
  : Prop :=
  exists b,
    isBackoff attempt b
    /\ (g = [Backoff b]
        \/ exists ms, g = [Backoff b; Spacing ms]
                      /\ isSpacing cfg ms
                      /\ (steadyClock w -> ms < minDelay cfg + 400)).

(** The tag of [wrapError] on the error that a retry loop gives up with:
    the operation and the context are on it, and it is the rejection
    [error] itself unless that one takes no tag. *)
Definition taggedWith (op : string) (ctx : string * string * string)
    (error thrown : jserror) : Prop :=
  e_op thrown = Some op
  /\ e_ctx thrown = Some ctx
  /\ (e_frozen error = false ->
      e_status thrown = e_status error /\ e_code thrown = e_code error
      /\ e_reasons thrown = e_reasons error
      /\ e_errors0 thrown = e_errors0 error
      /\ e_dataMessage thrown = e_dataMessage error
      /\ e_message thrown = e_message error
      /\ e_string thrown = e_string error)
  /\ (e_frozen error = true ->
      e_status thrown = None /\ e_code thrown = None /\ e_reasons thrown = []
      /\ e_message thrown
         = op +:+ " failed: "
           +:+ (if Js.truthy (e_message error) then e_message error
                else e_string error)).

(** The retry rule as the specification words it: when every create call
    is rejected with a retryable error, the worker sleeps, between two
    attempts, at most [min(60 s, 2^attempt s)] plus a jitter under 500 ms. *)
Definition sleepsWithinBackoff : Prop :=
  forall (w : world) (cfg : config) (fileId email : string) (s : state),
    dryRun cfg = false ->
    (forall t, exists err,
        w_permissions_create w t fileId email "reader" = Rejected err
        /\ isRetryableRateLimit err = true) ->
    exists evs,
      trace (snd (grantPermission w cfg fileId email s)) = trace s ++ evs
      /\ forall (attempt : nat) (g : list pause),
           (1 <= attempt <= 5)%nat ->
           nth_error (pauses evs) attempt = Some g ->
           totalSleep g < Z.min 60000 (2 ^ Z.of_nat attempt * 1000) + 500.

(** The three writes of one record: the [isShared] cell, the [LastLog] cell
    and a line of the log file. *)
Definition isCellWrite (cfg : config) (col row : Z) (e : event) : bool :=
  match e with
  | ValuesUpdate range _ _ => String.eqb range (cellRange cfg (toCol col) row)
  | _ => false
  end.

Definition isCellWriteOf (cfg : config) (col row : Z) (value : string)
    (e : event) : bool :=
  match e with
  | ValuesUpdate range v _ =>
      String.eqb range (cellRange cfg (toCol col) row) && String.eqb v value
  | _ => false
  end.

Definition isRowLine (row : Z) (e : event) : bool :=
  match e with
  | LogLine _ message => Js.startsWith ("Row " +:+ pretty row +:+ " ") message
  | _ => false
  end.

Definition threeWrites (cfg : config) (cols : columns) (row : Z)
    (evs : list event) : bool :=
  existsb (isCellWrite cfg (isSharedCol cols) row) evs
  && existsb (isCellWrite cfg (lastLogCol cols) row) evs
  && existsb (isRowLine row) evs.

(** A log line whose message starts with [prefix]. *)
Definition isLineWith (prefix : string) (e : event) : bool :=
  match e with
  | LogLine _ message => Js.startsWith prefix message
  | _ => false
  end.

(** A line of level ERROR, as the worker writes for a failed record. *)
Definition isErrorLine (e : event) : bool :=
  match e with
  | LogLine level _ => String.eqb level "ERROR"
  | _ => false
  end.

Definition noErrorLine (evs : list event) : Prop :=
  existsb isErrorLine evs = false.

(** The key of the duplicate check of one cycle. *)
Definition dedupKey (p : Partition.participant) : string :=
  Js.toLowerCase (Partition.nama p) +:+ "|" +:+ Partition.email p.

(** What one processed record leaves behind: the [LastLog] cell and a line
    of the log file are written, and so is the [isShared] cell unless the
    record is a duplicate of the cycle or its folder was not found (then
    [isFolderExists] receives FALSE). *)
Definition recordWritten (cfg : config) (cols : columns)
    (p : Partition.participant) (seenBefore : gset string)
    (evs : list event) : Prop :=
  let row := Partition.rowIndex p in
  existsb (isCellWrite cfg (lastLogCol cols) row) evs = true
  /\ existsb (isRowLine row) evs = true
  /\ (existsb (isCellWrite cfg (isSharedCol cols) row) evs = true
      \/ dedupKey p ∈ seenBefore
      \/ existsb (isCellWriteOf cfg (isFolderExistsCol cols) row "FALSE") evs
         = true).

(** How the resolution step of a record comes to yield the folder [fid]:
    the record carries it, or the resolver finds it; an empty answer is no
    folder (the loop body tests [!folderId]). *)
Definition resolvesTo (w : world) (cfg : config) (p : Partition.participant)
    (fid : string) : Prop :=
  (Js.truthy (Partition.folderId p) = true /\ fid = Partition.folderId p)
  \/ (Js.truthy (Partition.folderId p) = false
      /\ Js.truthy fid = true
      /\ forall s0, fst (findFolderByName w cfg (Partition.nama p)
                           (parentFolderId cfg) s0) = Ret (Some fid)).

(** The rule of the three writes as the specification words it: every
    processed record has its status cell, its last-log cell and a log line
    written. *)
Definition threeWritesForEveryRecord : Prop :=
  forall (w : world) (cfg : config) (cols : columns)
         (p : Partition.participant) (s : state),
    exists evs,
      trace (snd (processOne w cfg cols p s)) = trace s ++ evs
      /\ threeWrites cfg cols (Partition.rowIndex p) evs = true.

(** The rule for blank records as the specification words it: a record
    whose name or email is empty after trimming is skipped with the reason
    persisted, that is with its status and last-log cells written. *)
Definition blankRecordIsSkipped : Prop :=
  forall (w : world) (cfg : config) (cols : columns)
         (p : Partition.participant) (s : state),
    Partition.hasIdentity (Partition.normalize p) = false ->
    exists evs,
      trace (snd (processParticipants w cfg cols [p] s)) = trace s ++ evs
      /\ existsb (isCellWrite cfg (isSharedCol cols) (Partition.rowIndex p)) evs
         = true
      /\ existsb (isCellWrite cfg (lastLogCol cols) (Partition.rowIndex p)) evs
         = true.

End Observe.

(** ** The bookkeeping of a cycle *)

Module Ledger.
Import Worker.

(** [keeps m]: no run of [m] touches the counters of the cycle or the set
    of keys it has seen. *)
Definition keeps {A} (m : M A) : Prop :=
  forall s, st_stats (snd (m s)) = st_stats s /\ seen (snd (m s)) = seen s.

(** The records of a cycle that have reached an outcome. *)
Definition settled (st : stats) : Z := done st + skipped st + errors st.

(** A call to one of the remote services that are rate limited. *)
Definition isRemoteCall (e : event) : bool :=
  match e with
  | PermissionsList _ | PermissionsCreate _ _ _ | FilesList _ _ => true
  | _ => false
  end.

Definition remoteCalls (evs : list event) : list event :=
  List.filter isRemoteCall evs.

(** The folder listings of a trace. *)
Definition searches (evs : list event) : list event :=
  List.filter Observe.isFilesList evs.

(** The cell updates of a trace. *)
Definition isUpdate (e : event) : bool :=
  match e with ValuesUpdate _ _ _ => true | _ => false end.

Definition updates (evs : list event) : list event := List.filter isUpdate evs.

(** The record as the sheet holds it once [v] has been written to
    [isShared], and once [v] has been written to [isFolderExists]. *)
Definition withShared (v : string) (p : Partition.participant)
  : Partition.participant :=
  {| Partition.rowIndex := Partition.rowIndex p;
     Partition.nama := Partition.nama p;
     Partition.email := Partition.email p;
     Partition.folderId := Partition.folderId p;
     Partition.isShared := v;
     Partition.isFolderExists := Partition.isFolderExists p;
     Partition.lastLog := Partition.lastLog p |}.

Definition withFolderExists (v : string) (p : Partition.participant)
  : Partition.participant :=
  {| Partition.rowIndex := Partition.rowIndex p;
     Partition.nama := Partition.nama p;
     Partition.email := Partition.email p;
     Partition.folderId := Partition.folderId p;
     Partition.isShared := Partition.isShared p;
     Partition.isFolderExists := v;
     Partition.lastLog := Partition.lastLog p |}.

(** A line of level ERROR whose message starts with [prefix]. *)
Definition isErrorLineWith (prefix : string) (e : event) : bool :=
  Observe.isErrorLine e && Observe.isLineWith prefix e.

(** The message of the log line of a grant, as the loop body composes it:
    [status] is GRANTED or DRY_RUN and [rest] holds the timings. *)
Definition grantLine (row : Z) (status email rest : string) : string :=
  ("Row " +:+ pretty row) +:+ " " +:+ status +:+ " " +:+ "reader" +:+ " -> "
  +:+ email +:+ " - Time: " +:+ rest.

(** The texts of the persisted SKIP of a record whose email fails a check,
    for a turn of the loop that starts in state [s]: the reason, the time
    between the first two clock readings of the turn, the last-log text
    with the time stamp read fourth, and the log line. *)
Definition skipReason (email : string) : string :=
  if negb (isValidEmail email) then "INVALID EMAIL FORMAT" else "NOT GMAIL ACCOUNT".

Definition skipTime (w : world) (s : state) : Z :=
  w_now w (S (tick s)) - w_now w (tick s).

Definition skipNote (w : world) (s : state) (p : Partition.participant) : string :=
  stamped (w_timestamp w (S (S (S (tick s)))))
    ("SKIP: " +:+ skipReason (Partition.email p) +:+ " '" +:+ Partition.email p
     +:+ "' (" +:+ ms (skipTime w s) +:+ ")").

Definition skipLine (w : world) (s : state) (p : Partition.participant) : string :=
  ("Row " +:+ pretty (Partition.rowIndex p)) +:+ " SKIP "
  +:+ skipReason (Partition.email p) +:+ ": " +:+ Partition.email p
  +:+ " - Time: " +:+ ms (skipTime w s).

(** The email passes both checks of the loop body. *)
Definition validGmail (p : Partition.participant) : bool :=
  isValidEmail (Partition.email p) && isGmail (Partition.email p).

(** The values that a trace writes to the cell of column [col] in row
    [row], in order, whether the update went through or not. *)
Definition cellValues (cfg : config) (col row : Z) (evs : list event)
  : list string :=
  List.flat_map
    (fun e => match e with
              | ValuesUpdate range v _ =>
                  if String.eqb range (cellRange cfg (toCol col) row)
                  then [v] else []
              | _ => []
              end) evs.

(** The outcomes of one turn of the loop of [processParticipants]. *)
Inductive verdict : Type :=
| InvalidEmail        (* the email fails the format or the Gmail check *)
| Duplicate           (* the key was seen earlier in the cycle *)
| FolderNotFound
| AlreadyHasAccess    (* the permission check answered yes *)
| Granted             (* granted, or simulated in dry-run mode *)
| Failed.             (* the [catch] block *)

(** What each outcome writes to the status cell. *)
Definition statusWrites (v : verdict) : list string :=
  match v with
  | InvalidEmail => ["FALSE"]
  | Duplicate => []
  | FolderNotFound => []
  | AlreadyHasAccess => ["TRUE"; "TRUE"]
  | Granted => ["TRUE"]
  | Failed => ["FALSE"]
  end.

(** The counter each outcome moves. *)
Definition counted (v : verdict) (st : stats) : stats :=
  match v with
  | Granted => bumpDone st
  | FolderNotFound | Failed => bumpErrors st
  | InvalidEmail | Duplicate | AlreadyHasAccess => bumpSkipped st
  end.

(** The level of the log line of each outcome, and how its message
    starts. *)
Definition verdictLevel (v : verdict) : string :=
  match v with
  | FolderNotFound | Failed => "ERROR"
  | _ => "INFO"
  end.

Definition verdictPrefix (cfg : config) (p : Partition.participant) (v : verdict)
  : string :=
  ("Row " +:+ pretty (Partition.rowIndex p))
  +:+ match v with
      | InvalidEmail => " SKIP " +:+ skipReason (Partition.email p) +:+ ": "
      | Duplicate => " SKIP duplicate: "
      | FolderNotFound => " ERROR folder not found for name='"
      | AlreadyHasAccess => " SKIP already has reader"
      | Granted => if dryRun cfg then " DRY_RUN reader -> "
                   else " GRANTED reader -> "
      | Failed => " ERROR: "
      end.

Definition isVerdictLine (cfg : config) (p : Partition.participant) (v : verdict)
    (e : event) : bool :=
  match e with
  | LogLine level message =>
      String.eqb level (verdictLevel v)
      && Js.startsWith (verdictPrefix cfg p v) message
  | _ => false
  end.

(** What a turn of the loop with outcome [v] leaves behind for its record:
    the values written to the status cell, a write to the last-log cell, the
    log line of the outcome and, when the folder was not found, FALSE in
    [isFolderExists]. *)
Definition leaves (cfg : config) (cols : columns) (p : Partition.participant)
    (v : verdict) (evs : list event) : Prop :=
  let row := Partition.rowIndex p in
  cellValues cfg (isSharedCol cols) row evs = statusWrites v
  /\ existsb (Observe.isCellWrite cfg (lastLogCol cols) row) evs = true
  /\ existsb (isVerdictLine cfg p v) evs = true
  /\ (v = FolderNotFound ->
      existsb (Observe.isCellWriteOf cfg (isFolderExistsCol cols) row "FALSE") evs
      = true).

(** The folder [fid] holds the permissions [perms]: a listing of them that
    is answered shows [perms]; a listing can also be rejected. *)
Definition holdsPermissions (w : world) (fid : string) (perms : list permission)
  : Prop :=
  forall t, w_permissions_list w t fid = Fulfilled perms
            \/ exists err, w_permissions_list w t fid = Rejected err.

(** The rule of the idempotent grant as the specification words it: when
    the resolved folder of an eligible record lists its email with role
    reader, the turn of the loop issues no permission-create call. *)
Definition listedReaderNeverCreates : Prop :=
  forall (w : world) (cfg : config) (cols : columns)
         (p : Partition.participant) (s : state) (fid : string)
         (perms : list permission),
    0 <= folderIdCol cols -> 0 <= isSharedCol cols ->
    0 <= isFolderExistsCol cols -> 0 <= lastLogCol cols ->
    validGmail p = true ->
    Observe.dedupKey p ∉ seen s ->
    Partition.isEligible p = true ->
    Observe.resolvesTo w cfg p fid ->
    holdsPermissions w fid perms ->
    existsb (permissionMatches (Partition.email p) "reader") perms = true ->
    exists evs,
      trace (snd (processOne w cfg cols p s)) = trace s ++ evs
      /\ Observe.creates evs = [].

End Ledger.

(** ** Concrete inputs used by the examples *)

Module Samples.
Import Partition.

Definition sampleRecord : participant :=
  {| rowIndex := 2; nama := "Budi"; email := "b@gmail.com"; folderId := "abc";
     isShared := EmptyString; isFolderExists := EmptyString;
     lastLog := EmptyString |}.

Definition nl : string := String (Js.chr 10) EmptyString.

Definition unlines (ls : list string) : string :=
  fold_right (fun l acc => l +:+ nl +:+ acc) EmptyString ls.

(** A worker log of one cycle: the marker for 10 participants and six
    outcome lines, as [writeLog] formats them. *)
Definition sixOutcomes : list string :=
  ["[2025-01-01T00:00:01.000Z] [INFO] Row 2 GRANTED reader -> ani@gmail.com - Time: 812ms (folder: 3ms, permission: 401ms, grant: 398ms)";
   "[2025-01-01T00:00:04.000Z] [INFO] Row 3 DRY_RUN reader -> budi@gmail.com - Time: 640ms (folder: 2ms, permission: 630ms, grant: 0ms)";
   "[2025-01-01T00:00:05.000Z] [INFO] Row 4 SKIP INVALID EMAIL FORMAT: citra-at-gmail - Time: 1ms";
   "[2025-01-01T00:00:06.000Z] [INFO] Row 5 SKIP NOT GMAIL ACCOUNT: dedi@yahoo.com - Time: 1ms";
   "[2025-01-01T00:00:09.000Z] [ERROR] Row 6 ERROR folder not found for name='Eka Putri' - Time: 3050ms (folder search: 3049ms)";
   "[2025-01-01T00:00:12.000Z] [ERROR] Row 7 ERROR: Akses ditolak: denied - Time: 900ms | Technical: HTTP 403 forbidden - denied"].

Definition scenarioC : string :=
  unlines
    (["[2025-01-01T00:00:00.000Z] [INFO] Session start: 2025-01-01T00:00:00.000Z";
      "[2025-01-01T00:00:00.500Z] [INFO] Processing 10 participants. parentFolderId=root"]
     ++ sixOutcomes).

(** The log of a worker in loop mode: the first cycle as above, then the
    marker of a second cycle of 3 participants. *)
Definition twoCycles : string :=
  unlines
    (["[2025-01-01T00:00:00.000Z] [INFO] Session start: 2025-01-01T00:00:00.000Z";
      "[2025-01-01T00:00:00.500Z] [INFO] Processing 10 participants. parentFolderId=root"]
     ++ sixOutcomes
     ++ ["[2025-01-01T00:00:13.000Z] [INFO] Summary: total=6 done=2 skipped=2 errors=2 successRate=33.3%";
         "[2025-01-01T00:00:43.000Z] [INFO] Processing 3 participants. parentFolderId=root"]).

(** Worlds, settings and states for the worker. *)
Import Worker.

Definition rateLimitError : jserror :=
  {| e_status := Some 429; e_code := None;
     e_reasons := ["rateLimitExceeded"]; e_errors0 := EmptyString;
     e_dataMessage := "Rate Limit Exceeded"; e_message := "Rate Limit Exceeded";
     e_string := "Error: Rate Limit Exceeded"; e_frozen := false;
     e_op := None; e_ctx := None |}.

Definition sharingLimitError : jserror :=
  {| e_status := Some 403; e_code := None;
     e_reasons := ["sharingRateLimitExceeded"]; e_errors0 := EmptyString;
     e_dataMessage := "Sharing rate limit"; e_message := "Sharing rate limit";
     e_string := "Error: Sharing rate limit"; e_frozen := false;
     e_op := None; e_ctx := None |}.

Definition deniedError : jserror :=
  {| e_status := Some 403; e_code := None;
     e_reasons := ["permissionDenied"]; e_errors0 := EmptyString;
     e_dataMessage := "Forbidden"; e_message := "Forbidden";
     e_string := "Error: Forbidden"; e_frozen := false;
     e_op := None; e_ctx := None |}.

Definition notFoundError : jserror :=
  {| e_status := Some 404; e_code := None;
     e_reasons := ["notFound"]; e_errors0 := EmptyString;
     e_dataMessage := "File not found"; e_message := "File not found";
     e_string := "Error: File not found"; e_frozen := false;
     e_op := None; e_ctx := None |}.

(** The same rejection as a frozen object, which takes no tag. *)
Definition frozenError : jserror :=
  {| e_status := Some 403; e_code := None;
     e_reasons := ["permissionDenied"]; e_errors0 := EmptyString;
     e_dataMessage := "Forbidden"; e_message := "Forbidden";
     e_string := "Error: Forbidden"; e_frozen := true;
     e_op := None; e_ctx := None |}.

(** A world whose clock stands still and whose random numbers are 0, with
    the given answers of the remote services. *)
Definition mkWorld
    (permsList : nat -> string -> answer (list permission))
    (permsCreate : nat -> string -> string -> string -> answer unit)
    (filesList : nat -> string -> option string
                 -> answer (list file * option string))
    (valuesUpdate : nat -> string -> string -> answer unit) : world :=
  {| w_now := fun _ => 1000000;
     w_random := fun _ => 0;
     w_timestamp := fun _ => "01/01/2025, 07.00.00";
     w_searchSteps := fun _ => 50%nat;
     w_successRate := fun _ _ => "0.0";
     w_permissions_list := permsList;
     w_permissions_create := permsCreate;
     w_files_list := filesList;
     w_values_update := valuesUpdate |}.

Definition noPermissions : nat -> string -> answer (list permission) :=
  fun _ _ => Fulfilled [].
Definition createOk : nat -> string -> string -> string -> answer unit :=
  fun _ _ _ _ => Fulfilled tt.
Definition noFiles : nat -> string -> option string
                     -> answer (list file * option string) :=
  fun _ _ _ => Fulfilled ([], None).
Definition updateOk : nat -> string -> string -> answer unit :=
  fun _ _ _ => Fulfilled tt.

Definition calmWorld : world := mkWorld noPermissions createOk noFiles updateOk.

Definition createFails (err : jserror) : world :=
  mkWorld noPermissions (fun _ _ _ _ => Rejected err) noFiles updateOk.

Definition listFails (err : jserror) : world :=
  mkWorld (fun _ _ => Rejected err) createOk noFiles updateOk.

(** A clock given by its readings, in the order they are taken; it stays
    at the last one. *)
Definition clockOf (readings : list Z) : nat -> Z :=
  fun t => nth t readings (List.last readings 0).

(** A Drive that rejects every permission-create call as over quota, with
    a clock that moves with the run: a call takes 100 ms, a sleep as long
    as it is asked to, nothing else takes time.  The readings are those of
    the retry loop of [grantPermission] under a minimal delay of 10 s. *)
Definition busyDriveClock : list Z :=
  [1000000; 1000000; 1000000; 1000100;
   1002100; 1002100; 1010000; 1010000; 1010100;
   1014100; 1014100; 1020000; 1020000; 1020100;
   1028100; 1028100; 1030000; 1030000; 1030100;
   1046100; 1046100; 1046100; 1046200;
   1078200; 1078200; 1078200; 1078300].

Definition busyDrive : world :=
  {| w_now := clockOf busyDriveClock;
     w_random := fun _ => 0;
     w_timestamp := fun _ => "01/01/2025, 07.00.00";
     w_searchSteps := fun _ => 50%nat;
     w_successRate := fun _ _ => "0.0";
     w_permissions_list := fun _ _ => Fulfilled [];
     w_permissions_create := fun _ _ _ _ => Rejected rateLimitError;
     w_files_list := fun _ _ _ => Fulfilled ([], None);
     w_values_update := fun _ _ _ => Fulfilled tt |}.

(** The same Drive for a worker under the default settings (2.5 s between
    two calls), with [Math.random()] at 0.5 throughout: the jitter of a
    back-off is 250 ms, that of a spacing sleep 200 ms.  A call takes
    100 ms, a sleep as long as it is asked to. *)
Definition quotaDriveClock : list Z :=
  [1000000; 1000000; 1000000; 1000100;
   1002350; 1002350; 1002700; 1002700; 1002800;
   1007050; 1007050; 1007050; 1007150;
   1015400; 1015400; 1015400; 1015500;
   1031750; 1031750; 1031750; 1031850;
   1064100; 1064100; 1064100; 1064200].

Definition quotaDrive : world :=
  {| w_now := clockOf quotaDriveClock;
     w_random := fun _ => 2 ^ 52;
     w_timestamp := fun _ => "01/01/2025, 07.00.00";
     w_searchSteps := fun _ => 50%nat;
     w_successRate := fun _ _ => "0.0";
     w_permissions_list := fun _ _ => Fulfilled [];
     w_permissions_create := fun _ _ _ _ => Rejected rateLimitError;
     w_files_list := fun _ _ _ => Fulfilled ([], None);
     w_values_update := fun _ _ _ => Fulfilled tt |}.

(** A Drive whose folder listing is always over quota. *)
Definition searchOverQuota : world :=
  mkWorld noPermissions createOk (fun _ _ _ => Rejected rateLimitError) updateOk.

(** A Drive in which the root holds the folder "Budi Santoso". *)
Definition oneFolder : world :=
  mkWorld noPermissions createOk
    (fun _ _ _ => Fulfilled ([{| f_id := "id-budi"; f_name := "Budi Santoso" |}], None))
    updateOk.

Definition cfg0 : config :=
  {| sheetName := "Peserta"; parentFolderId := EmptyString; dryRun := false;
     throttleMs := 2500; maxPerRun := 300; envMaxPerRun := None;
     shardTotal := 0; shardIndex := 0;
     debugEnabled := false; folderMapping := None |}.

(** The settings of a careful operator: ten seconds between two calls. *)
Definition cfgSlow : config :=
  {| sheetName := "Peserta"; parentFolderId := EmptyString; dryRun := false;
     throttleMs := 10000; maxPerRun := 300; envMaxPerRun := None;
     shardTotal := 0; shardIndex := 0;
     debugEnabled := false; folderMapping := None |}.

Definition cfgScoped : config :=
  {| sheetName := "Peserta"; parentFolderId := "root-1"; dryRun := false;
     throttleMs := 2500; maxPerRun := 300; envMaxPerRun := None;
     shardTotal := 0; shardIndex := 0;
     debugEnabled := false; folderMapping := None |}.

(** A cache as [folder-mapper.js] writes it (a name and its lowercase form
    for every folder), and one edited by hand to hold an entry without
    identifier. *)
Definition cfgMapped : config :=
  {| sheetName := "Peserta"; parentFolderId := EmptyString; dryRun := false;
     throttleMs := 2500; maxPerRun := 300; envMaxPerRun := None;
     shardTotal := 0; shardIndex := 0;
     debugEnabled := false;
     folderMapping :=
       Some (<["Budi Santoso" := "id-budi"]>
               (<["budi santoso" := "id-budi"]> ∅)) |}.

(** The cache as [folder-mapper.js] writes it for a folder named Jos and
    U+00E9: the name and its lowercase, both with the folder's identifier. *)
Definition cfgJose : config :=
  {| sheetName := "Peserta"; parentFolderId := EmptyString; dryRun := false;
     throttleMs := 2500; maxPerRun := 300; envMaxPerRun := None;
     shardTotal := 0; shardIndex := 0;
     debugEnabled := false;
     folderMapping :=
       Some (<["Jos" +:+ String (Js.chr 233) EmptyString := "id-jose"]>
               (<["jos" +:+ String (Js.chr 233) EmptyString := "id-jose"]> ∅)) |}.

Definition cfgEmptyId : config :=
  {| sheetName := "Peserta"; parentFolderId := EmptyString; dryRun := false;
     throttleMs := 2500; maxPerRun := 300; envMaxPerRun := None;
     shardTotal := 0; shardIndex := 0;
     debugEnabled := false;
     folderMapping := Some (<["Budi" := EmptyString]> ∅) |}.

Definition cfgDry : config :=
  {| sheetName := "Peserta"; parentFolderId := EmptyString; dryRun := true;
     throttleMs := 2500; maxPerRun := 300; envMaxPerRun := None;
     shardTotal := 0; shardIndex := 0;
     debugEnabled := true; folderMapping := None |}.

Definition cols0 : columns :=
  {| nameCol := 0; emailCol := 1; folderIdCol := 2; isSharedCol := 3;
     isFolderExistsCol := 4; lastLogCol := 5 |}.

(** A record that carries no folder identifier yet. *)
Definition newRecord : participant :=
  {| rowIndex := 4; nama := "Eka Putri"; email := "eka@gmail.com";
     folderId := EmptyString; isShared := EmptyString;
     isFolderExists := EmptyString; lastLog := EmptyString |}.

Definition blankRecord : participant :=
  {| rowIndex := 7; nama := "   "; email := "ani@gmail.com";
     folderId := EmptyString; isShared := EmptyString;
     isFolderExists := EmptyString; lastLog := EmptyString |}.

(** One person entered twice, the name once in capitals: JOS and U+00C9,
    then jos and U+00E9. *)
Definition joseUpper : participant :=
  {| rowIndex := 11; nama := "JOS" +:+ String (Js.chr 201) EmptyString;
     email := "jose@gmail.com"; folderId := "id-jose"; isShared := EmptyString;
     isFolderExists := EmptyString; lastLog := EmptyString |}.

Definition joseLower : participant :=
  {| rowIndex := 12; nama := "jos" +:+ String (Js.chr 233) EmptyString;
     email := "jose@gmail.com"; folderId := "id-jose"; isShared := EmptyString;
     isFolderExists := EmptyString; lastLog := EmptyString |}.

(** A name made of two no-break spaces, and an email made of tabs. *)
Definition nbspRecord : participant :=
  {| rowIndex := 9; nama := String (Js.chr 160) (String (Js.chr 160) EmptyString);
     email := "dewi@gmail.com";
     folderId := EmptyString; isShared := EmptyString;
     isFolderExists := EmptyString; lastLog := EmptyString |}.

Definition tabEmailRecord : participant :=
  {| rowIndex := 10; nama := "Dewi";
     email := String (Js.chr 9) (String (Js.chr 9) EmptyString);
     folderId := EmptyString; isShared := EmptyString;
     isFolderExists := EmptyString; lastLog := EmptyString |}.

Definition badEmailRecord : participant :=
  {| rowIndex := 8; nama := "Citra"; email := "citra-at-gmail";
     folderId := EmptyString; isShared := EmptyString;
     isFolderExists := EmptyString; lastLog := EmptyString |}.

(** A Drive in which every folder already lists b@gmail.com as reader. *)
Definition alreadyShared : world :=
  mkWorld (fun _ _ => Fulfilled [{| emailAddress := "B@Gmail.com"; role := "reader" |}])
          createOk noFiles updateOk.

(** A rejection that is not retryable: the backend fails. *)
Definition backendError : jserror :=
  {| e_status := Some 500; e_code := None;
     e_reasons := ["backendError"]; e_errors0 := EmptyString;
     e_dataMessage := "Backend Error"; e_message := "Backend Error";
     e_string := "Error: Backend Error"; e_frozen := false;
     e_op := None; e_ctx := None |}.

(** A Drive in which every folder lists b@gmail.com as reader, and whose
    backend fails for a while: the listings of the first twenty ticks are
    rejected, the later ones answered. *)
Definition readerListed : list permission :=
  [{| emailAddress := "B@Gmail.com"; role := "reader" |}].

Definition flakyListing : world :=
  mkWorld (fun t _ => if (t <? 20)%nat then Rejected backendError
                      else Fulfilled readerListed)
          createOk noFiles updateOk.

(** A sheet that rejects every cell update. *)
Definition sheetDown : world :=
  mkWorld noPermissions createOk noFiles (fun _ _ _ => Rejected deniedError).

Definition state0 : state :=
  {| tick := 0; lastApiCallAt := 0; trace := []; st_stats := stats0;
     seen := ∅; folderSearchTime := 0 |}.

(** The state a cycle is in after it has processed [sampleRecord] once. *)
Definition afterFirst : state :=
  snd (processOne calmWorld cfg0 cols0 sampleRecord state0).

(** A header row as a form export gives it, with one auxiliary column
    already there, and what the header analysis makes of it. *)
Definition sampleHeaders : list string :=
  ["Timestamp"; " Email Address "; "Nama Peserta"; "isShared"].

Definition sampleDetection : Sheet.detection :=
  {| Sheet.det_columns :=
       {| Worker.nameCol := 2; Worker.emailCol := 1; Worker.folderIdCol := 4;
          Worker.isSharedCol := 3; Worker.isFolderExistsCol := 5;
          Worker.lastLogCol := 6 |};
     Sheet.det_headers :=
       sampleHeaders ++ ["FolderId"; "isFolderExists"; "LastLog"];
     Sheet.det_missing := ["FolderId"; "isFolderExists"; "LastLog"] |}.

End Samples.

(** * Theorems *)

(** ** Partitioner *)

Module PartitionFacts.
Import Partition.

Lemma toUint32_range (x : Z) : 0 <= toUint32 x < two32.
Proof. unfold toUint32, two32. apply Z.mod_pos_bound. lia. Qed.

Lemma toInt32_range (x : Z) : - 2 ^ 31 <= toInt32 x < 2 ^ 31.
Proof.
  unfold toInt32, two32.
  pose proof (Z.mod_pos_bound (x + 2 ^ 31) (2 ^ 32) ltac:(lia)). lia.
Qed.

Lemma hashKey_range (k : string) : 0 <= hashKey k < two32.
Proof. unfold hashKey, hashCodes. apply toUint32_range. Qed.

Lemma owningSlot_range (k : string) (n : Z) : 0 < n -> 0 <= owningSlot k n < n.
Proof.
  intros Hn. unfold owningSlot.
  apply Z.rem_bound_pos; [apply hashKey_range | exact Hn].
Qed.

(** The djb2 value of the ASCII key "abc", as the loop computes it. *)
Example hashKey_abc : hashKey "abc" = 193485963.
Proof. reflexivity. Qed.

(** A key long enough for the 32-bit wrap-around to show; the result is
    above 2^31, so the final [>>> 0] matters. *)
Example hashKey_wraps :
  hashKey "1AbCdEfGhIjKlMnOpQrStUvWxYz_0123456789" = 4218323841.
Proof. vm_compute. reflexivity. Qed.

(** C1. For every key [k] and shard count [n > 0] the slot
    [hashKey(k) % n] lies in [0, n) and depends on the key alone (two
    calls on equal keys agree); a record is kept by the sharding filter of
    worker [idx] exactly when its key's slot is [idx]; and with a shard
    total of 0 the filter is not applied, so the worker keeps every
    record. *)
Theorem shard_slot_in_range_and_stable
    (k k' : string) (n idx : Z) (p : participant) (l : list participant)
    (Hn : 0 < n) :
  0 <= owningSlot k n < n
  /\ (k = k' -> owningSlot k n = owningSlot k' n)
  /\ inShard n idx p = (owningSlot (shardKey p) n =? idx)
  /\ applySharding 0 idx l = l.
Proof.
  split; [apply owningSlot_range; exact Hn |].
  split; [intros ->; reflexivity |].
  split; reflexivity.
Qed.

Lemma shard_slot_in_range_and_stable_witness :
  0 <= owningSlot "abc" 4 < 4
  /\ ("abc" = "abc" -> owningSlot "abc" 4 = owningSlot "abc" 4)
  /\ inShard 4 3 Samples.sampleRecord
     = (owningSlot (shardKey Samples.sampleRecord) 4 =? 3)
  /\ applySharding 0 3 [] = [].
Proof.
  apply (shard_slot_in_range_and_stable "abc" "abc" 4 3
           Samples.sampleRecord []).
  lia.
Defined.

End PartitionFacts.

Module EligibilityFacts.
Import Partition.

Lemma isEligible_normalize (p : participant) :
  isEligible (normalize p) = isEligible p.
Proof. reflexivity. Qed.

Lemma filter_map_prefilter {A B} (f : A -> B) (P : B -> bool) (Q : B -> bool)
    (R : A -> bool) (l : list A) :
  (forall x, P (f x) = R x) ->
  List.filter P (List.filter Q (List.map f (List.filter R l)))
  = List.filter P (List.filter Q (List.map f l)).
Proof.
  intros HPR. induction l as [|x l IH]; [reflexivity|].
  simpl. destruct (R x) eqn:HR.
  - simpl. destruct (Q (f x)); simpl; [|exact IH].
    rewrite HPR, HR. f_equal. exact IH.
  - rewrite IH. destruct (Q (f x)); simpl; [|reflexivity].
    rewrite HPR, HR. reflexivity.
Qed.

Lemma In_firstn {A} (k : nat) (l : list A) (x : A) :
  In x (firstn k l) -> In x l.
Proof.
  revert l. induction k as [|k IH]; intros [|y l] H; simpl in *; try contradiction.
  destruct H as [H|H]; [left; exact H | right; apply IH; exact H].
Qed.

Lemma In_slice0 {A} (n : Z) (l : list A) (x : A) :
  In x (Js.slice0 n l) -> In x l.
Proof. unfold Js.slice0. destruct (0 <=? n); apply In_firstn. Qed.

Lemma In_prioritize (l : list participant) (x : participant) :
  In x (prioritize l) -> In x l.
Proof.
  unfold prioritize. rewrite !in_app_iff, !filter_In. tauto.
Qed.

Lemma In_applySharding (st si : Z) (l : list participant) (x : participant) :
  In x (applySharding st si l) -> In x l.
Proof.
  unfold applySharding. destruct (0 <? st); [rewrite filter_In; tauto | tauto].
Qed.

Lemma isEligible_spec (p : participant) :
  isEligible p = true
  <-> Js.toLowerCase (isShared p) <> "true"
      /\ Js.toLowerCase (isShared p) <> "false".
Proof.
  unfold isEligible. cbv zeta.
  rewrite andb_true_iff, !negb_true_iff.
  rewrite <- !not_true_iff_false, !String.eqb_eq. tauto.
Qed.


(** Statuses in any letter case are caught; a status with a blank around it
    is not one of the two and stays eligible. *)
Example status_any_case :
  List.map (fun v => isEligible
     {| rowIndex := 2; nama := "Budi"; email := "b@gmail.com";
        folderId := EmptyString; isShared := v;
        isFolderExists := EmptyString; lastLog := EmptyString |})
    ["TRUE"; "true"; "False"; "fAlSe"; EmptyString; " true"; "yes"]
  = [false; false; false; false; true; true; true].
Proof. reflexivity. Qed.

End EligibilityFacts.

(** ** Log-tailing Monitor *)

Module MonitorFacts.
Import Monitor.

Lemma countOutcome_processed (line : string) (s : scan) :
  processed (countOutcome line s)
  = processed s + (if isOutcomeLine line then 1 else 0).
Proof.
  unfold countOutcome, isOutcomeLine.
  destruct (successMatch line); [reflexivity|].
  destruct (skipMatch line); [reflexivity|].
  destruct (errorMatch line); simpl; lia.
Qed.

Lemma countOutcome_total (line : string) (s : scan) :
  totalParticipants (countOutcome line s) = totalParticipants s.
Proof.
  unfold countOutcome.
  destruct (successMatch line); [reflexivity|].
  destruct (skipMatch line); [reflexivity|].
  destruct (errorMatch line); reflexivity.
Qed.

Lemma readMarker_processed (line : string) (s : scan) :
  processed (readMarker line s) = processed s.
Proof.
  unfold readMarker.
  destruct (_ && _); [|reflexivity].
  destruct (markerMatch line); reflexivity.
Qed.

Lemma readMarker_total (line : string) (s : scan) :
  totalParticipants (readMarker line s)
  = match markerValue line with Some n => n | None => totalParticipants s end.
Proof.
  unfold readMarker, markerValue.
  destruct (_ && _); [|reflexivity].
  destruct (markerMatch line); reflexivity.
Qed.

(** The counters add up: every counted line is counted once. *)
Lemma scan_counters_add_up (lines : list string) (s : scan) :
  processed s = sc_success s + sc_skip s + sc_error s ->
  let s' := fold_left scanLine lines s in
  processed s' = sc_success s' + sc_skip s' + sc_error s'.
Proof.
  revert s. induction lines as [|l lines IH]; intros s Hs; [exact Hs|].
  simpl. apply IH. unfold scanLine, readMarker, countOutcome.
  destruct (_ && _); [destruct (markerMatch l)|];
    destruct (successMatch l); simpl; try lia;
      destruct (skipMatch l); simpl; try lia;
        destruct (errorMatch l); simpl; lia.
Qed.

Lemma scan_processed (lines : list string) (s : scan) :
  processed (fold_left scanLine lines s) = processed s + outcomeCount lines.
Proof.
  revert s. induction lines as [|l lines IH]; intros s.
  - unfold outcomeCount. simpl. lia.
  - simpl. rewrite IH. unfold scanLine.
    rewrite readMarker_processed, countOutcome_processed.
    unfold outcomeCount. simpl. destruct (isOutcomeLine l); simpl List.length; lia.
Qed.

Lemma scan_total_no_marker (lines : list string) (s : scan) :
  List.Forall (fun l => markerValue l = None) lines ->
  totalParticipants (fold_left scanLine lines s) = totalParticipants s.
Proof.
  revert s. induction lines as [|l lines IH]; intros s H; [reflexivity|].
  inversion H as [|? ? Hl Hrest]; subst. simpl. rewrite (IH _ Hrest).
  unfold scanLine. rewrite readMarker_total, Hl. apply countOutcome_total.
Qed.

Lemma scan_total_last_marker (pre post : list string) (marker : string)
    (N : Z) (s : scan) :
  markerValue marker = Some N ->
  List.Forall (fun l => markerValue l = None) post ->
  totalParticipants (fold_left scanLine (pre ++ marker :: post) s) = N.
Proof.
  intros Hm Hpost. rewrite fold_left_app. simpl.
  rewrite (scan_total_no_marker _ _ Hpost).
  unfold scanLine. rewrite readMarker_total, Hm. reflexivity.
Qed.

(** C9, as the code has it. When the last marker line of a log file carries
    a count [N > 0], the reconstruction reports RUNNING exactly when the
    number of outcome lines (lines matching the grant/dry-run, skip or error
    pattern) is below [N], COMPLETED otherwise, and the progress text is
    "processed/N"; a file with one "Processing 10 participants" line and six
    outcome lines gives RUNNING and "6/10". *)
Theorem status_from_last_marker
    (content : string) (mtimeMs now N : Z)
    (pre post : list string) (marker : string)
    (Hlines : logLines content = pre ++ marker :: post)
    (Hmarker : markerValue marker = Some N)
    (Hlast : List.Forall (fun l => markerValue l = None) post)
    (HN : 0 < N) :
  status (parseLogFile content mtimeMs now)
  = (if outcomeCount (logLines content) <? N then RUNNING else COMPLETED)
  /\ progress (parseLogFile content mtimeMs now)
     = pretty (outcomeCount (logLines content)) +:+ "/" +:+ pretty N
  /\ status (parseLogFile Samples.scenarioC mtimeMs now) = RUNNING
  /\ progress (parseLogFile Samples.scenarioC mtimeMs now) = "6/10".
Proof.
  assert (Htot : totalParticipants (fold_left scanLine (logLines content) scan0) = N).
  { rewrite Hlines. apply scan_total_last_marker; assumption. }
  assert (Hproc : processed (fold_left scanLine (logLines content) scan0)
                  = outcomeCount (logLines content)).
  { rewrite scan_processed. reflexivity. }
  assert (H0 : (0 <? N) = true) by (apply Z.ltb_lt; exact HN).
  split; [|split; [|split; vm_compute; reflexivity]].
  - unfold parseLogFile. cbv zeta. cbn [status]. rewrite Htot, Hproc, H0. reflexivity.
  - unfold parseLogFile. cbv zeta. cbn [progress]. rewrite Htot, Hproc, H0. reflexivity.
Qed.

Lemma status_from_last_marker_witness :
  status (parseLogFile Samples.scenarioC 0 60000)
  = (if outcomeCount (logLines Samples.scenarioC) <? 10 then RUNNING else COMPLETED)
  /\ progress (parseLogFile Samples.scenarioC 0 60000)
     = pretty (outcomeCount (logLines Samples.scenarioC)) +:+ "/" +:+ pretty 10
  /\ status (parseLogFile Samples.scenarioC 0 60000) = RUNNING
  /\ progress (parseLogFile Samples.scenarioC 0 60000) = "6/10".
Proof.
  apply (status_from_last_marker Samples.scenarioC 0 60000 10
           ["[2025-01-01T00:00:00.000Z] [INFO] Session start: 2025-01-01T00:00:00.000Z"]
           Samples.sixOutcomes
           "[2025-01-01T00:00:00.500Z] [INFO] Processing 10 participants. parentFolderId=root").
  - vm_compute. reflexivity.
  - vm_compute. reflexivity.
  - repeat constructor.
  - lia.
Defined.

(** The claim as worded, with any marker line deciding, fails on the log of
    a worker in loop mode: the file holds the marker "Processing 10
    participants" and six outcome lines, yet the later marker of the second
    cycle (3 participants) is the one compared, so the status is COMPLETED. *)
Lemma status_from_any_marker_fails : ~ statusFromAnyMarker.
Proof.
  intros H.
  destruct (H Samples.twoCycles 0 60000 10
              "[2025-01-01T00:00:00.500Z] [INFO] Processing 10 participants. parentFolderId=root")
    as [Hstatus _].
  - vm_compute. tauto.
  - vm_compute. reflexivity.
  - lia.
  - vm_compute in Hstatus. discriminate Hstatus.
Qed.

Example twoCycles_snapshot :
  parseLogFile Samples.twoCycles 0 60000
  = {| status := COMPLETED; progress := "6/3"; success := 2; error := 2; skip := 2 |}.
Proof. vm_compute. reflexivity. Qed.

(** Lines the worker writes for a record that already has access, or for a
    duplicate whose name has a blank in it, match none of the patterns. *)
Example uncounted_skip_lines :
  List.map isOutcomeLine
    ["[2025-01-01T00:00:01.000Z] [INFO] Row 9 SKIP already has reader - Time: 5ms (folder: 0ms, permission: 4ms)";
     "[2025-01-01T00:00:01.000Z] [INFO] Row 8 SKIP duplicate: budi santoso|b@gmail.com - Time: 1ms";
     "[2025-01-01T00:00:01.000Z] [INFO] Row 8 SKIP duplicate: budi|b@gmail.com - Time: 1ms"]
  = [false; false; true].
Proof. vm_compute. reflexivity. Qed.

End MonitorFacts.

(** ** Reasoning about runs *)

Module RunFacts.
Import Worker Observe.
Local Open Scope worker_scope.

Lemma emits_mono {A} (m : M A) (s : state)
    (Q Q' : outcome A -> list event -> state -> Prop) :
  emits m s Q -> (forall o evs s', Q o evs s' -> Q' o evs s') -> emits m s Q'.
Proof. intros (evs & Ht & HQ) H. exists evs. split; [exact Ht | apply H, HQ]. Qed.

Lemma emits_ret {A} (a : A) (s : state) Q :
  Q (Ret a) [] s -> emits (ret a) s Q.
Proof. intros H. exists []. simpl. rewrite app_nil_r. split; [reflexivity | exact H]. Qed.

Lemma emits_throw {A} (e : jserror) (s : state) Q :
  Q (@Throw A e) [] s -> emits (throw e) s Q.
Proof. intros H. exists []. simpl. rewrite app_nil_r. split; [reflexivity | exact H]. Qed.

Lemma emits_pending {A} (s : state) Q :
  Q (@Pending A) [] s -> emits pending s Q.
Proof. intros H. exists []. simpl. rewrite app_nil_r. split; [reflexivity | exact H]. Qed.

Lemma emits_bind {A B} (m : M A) (k : A -> M B) (s : state) Q :
  emits m s (fun o e1 s1 =>
    match o with
    | Ret a => emits (k a) s1 (fun o2 e2 s2 => Q o2 (e1 ++ e2) s2)
    | Throw e => Q (Throw e) e1 s1
    | Pending => Q Pending e1 s1
    end) ->
  emits (bind m k) s Q.
Proof.
  intros (e1 & Ht1 & H). unfold emits, bind.
  destruct (m s) as [[a|e|] s1]; simpl in *.
  - destruct H as (e2 & Ht2 & H). exists (e1 ++ e2).
    rewrite Ht2, Ht1, app_assoc. split; [reflexivity | exact H].
  - exists e1. split; assumption.
  - exists e1. split; assumption.
Qed.

Lemma emits_try {A} (m : M A) (s : state) Q :
  emits m s (fun o e1 s1 =>
    match o with
    | Ret a => Q (Ret (inl a)) e1 s1
    | Throw e => Q (Ret (inr e)) e1 s1
    | Pending => Q Pending e1 s1
    end) ->
  emits (try_ m) s Q.
Proof.
  intros (e1 & Ht1 & H). unfold emits, try_.
  destruct (m s) as [[a|e|] s1]; simpl in *; exists e1; split; assumption.
Qed.

Lemma emits_emit (e : event) (s : state) Q :
  Q (Ret tt) [e] (setTrace s (trace s ++ [e])) -> emits (emit e) s Q.
Proof. intros H. exists [e]. split; [reflexivity | exact H]. Qed.

(** Steps that leave the trace alone. *)
Lemma emits_silent {A} (m : M A) (s : state) Q :
  trace (snd (m s)) = trace s -> Q (fst (m s)) [] (snd (m s)) -> emits m s Q.
Proof. intros Ht H. exists []. rewrite app_nil_r. split; assumption. Qed.

Lemma emits_race {A B} (m : M A) (onValue : A -> M B)
    (onError : jserror -> M B) (onTimeout : M B) (s : state) Q :
  emits m s (fun o e1 s1 =>
    match o with
    | Ret a => emits (onValue a) s1 (fun o2 e2 s2 => Q o2 (e1 ++ e2) s2)
    | Throw e => emits (onError e) s1 (fun o2 e2 s2 => Q o2 (e1 ++ e2) s2)
    | Pending => emits onTimeout s1 (fun o2 e2 s2 => Q o2 (e1 ++ e2) s2)
    end) ->
  emits (raceTimeout m onValue onError onTimeout) s Q.
Proof.
  intros (e1 & Ht1 & H). unfold emits, raceTimeout.
  destruct (m s) as [[a|e|] s1]; simpl in *;
    destruct H as (e2 & Ht2 & H); exists (e1 ++ e2);
    rewrite Ht2, Ht1, app_assoc; (split; [reflexivity | exact H]).
Qed.

Lemma emits_fst {A} (m : M A) (s : state) Q :
  emits m s (fun o evs s' => o = fst (m s) -> Q o evs s') -> emits m s Q.
Proof. intros (evs & Ht & H). exists evs. split; [exact Ht | apply H; reflexivity]. Qed.

(** A property of every run of [m] can be added to what is known of one. *)
Lemma emits_and_calm {A} (P : list event -> Prop) (m : M A) (s : state) Q :
  always P m -> emits m s (fun o evs s' => P evs -> Q o evs s') -> emits m s Q.
Proof.
  intros HP (evs & Ht & H). destruct (HP s) as (evs' & Ht' & HP').
  rewrite Ht in Ht'. apply app_inv_head in Ht'. subst evs'.
  exists evs. split; [exact Ht | apply H, HP'].
Qed.

(** The outcome of a run, read back from [emits]. *)
Lemma emits_run {A} (m : M A) (s : state) Q :
  emits m s Q ->
  exists o s' evs, m s = (o, s') /\ trace s' = trace s ++ evs /\ Q o evs s'.
Proof.
  intros (evs & Ht & H). exists (fst (m s)), (snd (m s)), evs.
  split; [apply surjective_pairing | split; assumption].
Qed.

Lemma run_emits {A} (m : M A) (s s' : state) (o : outcome A) evs
    (Q : outcome A -> list event -> state -> Prop) :
  m s = (o, s') -> trace s' = trace s ++ evs -> Q o evs s' -> emits m s Q.
Proof. intros Hm Ht H. exists evs. rewrite Hm. split; assumption. Qed.

(** One step of symbolic execution. *)
Ltac run_step :=
  lazymatch goal with
  | |- emits (bind _ _) _ _ => apply emits_bind
  | |- emits (tryCatch _ _) _ _ => unfold tryCatch; apply emits_bind
  | |- emits (try_ _) _ _ => apply emits_try
  | |- emits (ret _) _ _ => apply emits_ret
  | |- emits (throw _) _ _ => apply emits_throw
  | |- emits pending _ _ => apply emits_pending
  | |- emits (emit _) _ _ => apply emits_emit
  | |- emits (sleep _) _ _ => unfold sleep; apply emits_emit
  | |- emits (writeLog _ _) _ _ => unfold writeLog; apply emits_emit
  | |- emits nextTick _ _ => apply emits_silent; [reflexivity | cbn [fst snd nextTick]]
  | |- emits getStats _ _ => apply emits_silent; [reflexivity | cbn [fst snd getStats]]
  | |- emits (setStats _) _ _ => apply emits_silent; [reflexivity | cbn [fst snd setStats]]
  | |- emits getSeen _ _ => apply emits_silent; [reflexivity | cbn [fst snd getSeen]]
  | |- emits (setSeen _) _ _ => apply emits_silent; [reflexivity | cbn [fst snd setSeen]]
  | |- emits getLastApiCallAt _ _ =>
      apply emits_silent; [reflexivity | cbn [fst snd getLastApiCallAt]]
  | |- emits (setLastApiCallAt _) _ _ =>
      apply emits_silent; [reflexivity | cbn [fst snd setLastApiCallAt]]
  | |- emits getFolderSearchTime _ _ =>
      apply emits_silent; [reflexivity | cbn [fst snd getFolderSearchTime]]
  | |- emits (setFolderSearchTime _) _ _ =>
      apply emits_silent; [reflexivity | cbn [fst snd setFolderSearchTime]]
  | |- emits (modifyStats _) _ _ => unfold modifyStats
  | |- emits (dateNow _) _ _ => unfold dateNow
  | |- emits (randomBelow _ _) _ _ => unfold randomBelow
  | |- emits (getCurrentTimestamp _) _ _ => unfold getCurrentTimestamp
  | |- emits (settle ?a) _ _ => unfold settle
  end.

Ltac run := repeat run_step; cbv beta.

(** *** The primitive effects *)

Lemma creates_app (a b : list event) : creates (a ++ b) = creates a ++ creates b.
Proof. apply List.filter_app. Qed.

Lemma lists_app (a b : list event) : lists (a ++ b) = lists a ++ lists b.
Proof. apply List.filter_app. Qed.

Lemma backoffs_app (a b : list event) : backoffs (a ++ b) = backoffs a ++ backoffs b.
Proof.
  induction a as [|e a IH]; [reflexivity|].
  destruct e; simpl; rewrite ?IH; reflexivity.
Qed.

Lemma noError_nil : noErrorLine [].
Proof. reflexivity. Qed.

Lemma noError_app (a b : list event) :
  noErrorLine a -> noErrorLine b -> noErrorLine (a ++ b).
Proof. unfold noErrorLine. intros Ha Hb. rewrite existsb_app, Ha, Hb. reflexivity. Qed.

Lemma silent_nil : silent [].
Proof. repeat split. Qed.

Lemma silent_app (a b : list event) : silent a -> silent b -> silent (a ++ b).
Proof.
  intros (Ha1 & Ha2 & Ha3) (Hb1 & Hb2 & Hb3). unfold silent.
  rewrite creates_app, lists_app, backoffs_app, Ha1, Ha2, Ha3, Hb1, Hb2, Hb3.
  repeat split.
Qed.

Ltac project :=
  rewrite ?creates_app, ?lists_app, ?backoffs_app; cbn [creates lists backoffs
    List.filter isCreate isList app].

Lemma randomBelow_range (w : world) (t : nat) (k : Z) :
  0 < k -> 0 <= (w_random w t mod 2 ^ 53) * k / 2 ^ 53 < k.
Proof.
  intros Hk.
  pose proof (Z.mod_pos_bound (w_random w t) (2 ^ 53) ltac:(lia)) as Hm.
  split.
  - apply Z.div_pos; nia.
  - apply Z.div_lt_upper_bound; nia.
Qed.

Lemma throttle_run (w : world) (cfg : config) (s : state) :
  emits (throttle w cfg) s (fun o evs _ => o = Ret tt /\ silent evs).
Proof.
  unfold throttle. run.
  destruct (_ <? _); run; split; try reflexivity; repeat split.
Qed.

Lemma dlog_run (cfg : config) (msg : string) (s : state) :
  emits (dlog cfg msg) s (fun o evs _ => o = Ret tt /\ silent evs).
Proof.
  unfold dlog. destruct (debugEnabled cfg); run; split; try reflexivity;
    repeat split.
Qed.

(** *** Properties of every run *)

Section Always.
Context (P : list event -> Prop).
Hypothesis P_nil : P [].
Hypothesis P_app : forall a b, P a -> P b -> P (a ++ b).

Lemma always_ret {A} (a : A) : always P (ret a).
Proof. intros s. run. exact P_nil. Qed.

Lemma always_throw {A} (e : jserror) : always P (@throw A e).
Proof. intros s. run. exact P_nil. Qed.

Lemma always_pending {A} : always P (@pending A).
Proof. intros s. run. exact P_nil. Qed.

Lemma always_silent {A} (m : M A) :
  (forall s, trace (snd (m s)) = trace s) -> always P m.
Proof. intros H s. apply emits_silent; [apply H | exact P_nil]. Qed.

Lemma always_emit (e : event) : P [e] -> always P (emit e).
Proof. intros H s. run. exact H. Qed.

Lemma always_bind {A B} (m : M A) (k : A -> M B) :
  always P m -> (forall a, always P (k a)) -> always P (bind m k).
Proof.
  intros Hm Hk s. run. eapply emits_mono; [apply Hm|].
  intros [a|e|] e1 s1 H1; cbn beta iota; [|exact H1|exact H1].
  eapply emits_mono; [apply Hk|]. intros o e2 s2 H2. cbn beta.
  apply P_app; assumption.
Qed.

Lemma always_try {A} (m : M A) : always P m -> always P (try_ m).
Proof.
  intros Hm s. run. eapply emits_mono; [apply Hm|].
  intros [a|e|] e1 s1 H1; exact H1.
Qed.

Lemma always_tryCatch {A} (m : M A) (h : jserror -> M A) :
  always P m -> (forall e, always P (h e)) -> always P (tryCatch m h).
Proof.
  intros Hm Hh. unfold tryCatch. apply always_bind; [apply always_try, Hm|].
  intros [a|e]; [apply always_ret | apply Hh].
Qed.

Lemma always_race {A B} (m : M A) (kv : A -> M B) (ke : jserror -> M B)
    (kt : M B) :
  always P m -> (forall a, always P (kv a)) -> (forall e, always P (ke e)) ->
  always P kt -> always P (raceTimeout m kv ke kt).
Proof.
  intros Hm Hv He Ht s. apply emits_race. eapply emits_mono; [apply Hm|].
  intros [a|e|] e1 s1 H1; cbn beta iota;
    (eapply emits_mono; [first [apply Hv | apply He | apply Ht]|]);
    intros o e2 s2 H2; cbn beta; apply P_app; assumption.
Qed.

Lemma always_nextTick : always P nextTick.
Proof. apply always_silent. reflexivity. Qed.

Lemma always_dateNow (w : world) : always P (dateNow w).
Proof.
  unfold dateNow. apply always_bind; [apply always_nextTick|].
  intros t. apply always_ret.
Qed.

Lemma always_randomBelow (w : world) (k : Z) : always P (randomBelow w k).
Proof.
  unfold randomBelow. apply always_bind; [apply always_nextTick|].
  intros t. apply always_ret.
Qed.

Lemma always_getCurrentTimestamp (w : world) : always P (getCurrentTimestamp w).
Proof.
  unfold getCurrentTimestamp. apply always_bind; [apply always_nextTick|].
  intros t. apply always_ret.
Qed.

End Always.

End RunFacts.

(** ** Retry executor: [grantPermission] and [hasPermission] *)

Module RetryFacts.
Import Worker Observe RunFacts.
Local Open Scope worker_scope.

Section Grant.
Context (w : world) (cfg : config) (fileId email : string).

Lemma permissionsCreate_rejected (s : state) (err : jserror) Q :
  w_permissions_create w (tick s) fileId email "reader" = Rejected err ->
  (forall s', Q (@Throw unit err) [PermissionsCreate fileId email "reader"] s') ->
  emits (permissionsCreate w fileId email "reader") s Q.
Proof.
  intros Herr HQ. unfold permissionsCreate. run.
  cbn [tick]. rewrite Herr. run. apply HQ.
Qed.

Lemma permissionsCreate_fulfilled (s : state) Q :
  w_permissions_create w (tick s) fileId email "reader" = Fulfilled tt ->
  (forall s', Q (Ret tt) [PermissionsCreate fileId email "reader"] s') ->
  emits (permissionsCreate w fileId email "reader") s Q.
Proof.
  intros Herr HQ. unfold permissionsCreate. run.
  cbn [tick]. rewrite Herr. run. apply HQ.
Qed.

Lemma grantLoop_unfold (fuel : nat) (attempt : Z) :
  grantLoop w cfg (S fuel) attempt fileId email
  = (r <- try_ (throttle w cfg ;;; permissionsCreate w fileId email "reader") ;;
     match r with
     | inl _ => ret Created
     | inr error =>
         dlog cfg ("permissions.create error: " +:+ formatErrorSummary error) ;;;
         if isRetryableRateLimit error && (attempt + 1 <? 6) then
           jitter <- randomBelow w 500 ;;
           sleep (Z.min 60000 (2 ^ (attempt + 1) * 1000) + jitter) ;;;
           grantLoop w cfg fuel (attempt + 1) fileId email
         else
           throw (wrapError "drive.permissions.create"
                            (fileId, email, "reader") error)
     end).
Proof. reflexivity. Qed.

Lemma grantLoop_exhausts
    (Hfail : forall t, exists err,
        w_permissions_create w t fileId email "reader" = Rejected err
        /\ isRetryableRateLimit err = true)
    (n a : nat) (s : state) :
  (a + S n = 6)%nat ->
  emits (grantLoop w cfg (S n) (Z.of_nat a) fileId email) s
    (fun o evs _ =>
       exists err,
         o = Throw (wrapError "drive.permissions.create"
                              (fileId, email, "reader") err)
         /\ isRetryableRateLimit err = true
         /\ creates evs = repeat (PermissionsCreate fileId email "reader") (S n)
         /\ lists evs = []
         /\ Forall2 isBackoff (List.map Z.of_nat (seq (S a) n)) (backoffs evs)).
Proof.
  revert a s. induction n as [|n IH]; intros a s Ha.
  - rewrite grantLoop_unfold. run.
    eapply emits_mono; [apply throttle_run|]. intros o e1 s1 [-> Hq].
    destruct (Hfail (tick s1)) as (err & Herr & Hretry).
    apply (permissionsCreate_rejected s1 err); [exact Herr|]. intros s2.
    run. eapply emits_mono; [apply dlog_run|]. intros o e2 s3 [-> Hq2].
    rewrite Hretry. replace (Z.of_nat a + 1 <? 6) with false by (symmetry; apply Z.ltb_ge; lia).
    cbn [andb]. run. exists err.
    destruct Hq as (Hc1 & Hl1 & Hb1), Hq2 as (Hc2 & Hl2 & Hb2).
    project. rewrite Hc1, Hl1, Hb1, Hc2, Hl2, Hb2. cbn.
    repeat split; try reflexivity; try assumption. constructor.
  - rewrite grantLoop_unfold. run.
    eapply emits_mono; [apply throttle_run|]. intros o e1 s1 [-> Hq].
    destruct (Hfail (tick s1)) as (err & Herr & Hretry).
    apply (permissionsCreate_rejected s1 err); [exact Herr|]. intros s2.
    run. eapply emits_mono; [apply dlog_run|]. intros o e2 s3 [-> Hq2].
    rewrite Hretry. replace (Z.of_nat a + 1 <? 6) with true by (symmetry; apply Z.ltb_lt; lia).
    cbn [andb]. run.
    replace (Z.of_nat a + 1) with (Z.of_nat (S a)) by lia.
    eapply emits_mono; [apply (IH (S a)); lia|].
    intros o e3 s4 (err' & -> & Hretry' & Hc3 & Hl3 & Hb3).
    exists err'.
    destruct Hq as (Hc1 & Hl1 & Hb1), Hq2 as (Hc2 & Hl2 & Hb2).
    project. rewrite Hc1, Hl1, Hb1, Hc2, Hl2, Hb2, Hc3, Hl3. cbn [app backoffs].
    repeat split; try reflexivity; try assumption.
    cbn [seq List.map]. constructor; [|exact Hb3].
    eexists. split; [|reflexivity]. apply randomBelow_range. lia.
Qed.

Lemma grantLoop_gives_up (err : jserror)
    (Hfail : forall t, w_permissions_create w t fileId email "reader" = Rejected err)
    (Hfinal : isRetryableRateLimit err = false)
    (fuel : nat) (attempt : Z) (s : state) :
  emits (grantLoop w cfg (S fuel) attempt fileId email) s
    (fun o evs _ =>
       o = Throw (wrapError "drive.permissions.create"
                            (fileId, email, "reader") err)
       /\ creates evs = [PermissionsCreate fileId email "reader"]
       /\ lists evs = []
       /\ backoffs evs = []).
Proof.
  rewrite grantLoop_unfold. run.
  eapply emits_mono; [apply throttle_run|]. intros o e1 s1 [-> Hq].
  apply (permissionsCreate_rejected s1 err); [apply Hfail|]. intros s2.
  run. eapply emits_mono; [apply dlog_run|]. intros o e2 s3 [-> Hq2].
  rewrite Hfinal. cbn [andb]. run.
  destruct Hq as (Hc1 & Hl1 & Hb1), Hq2 as (Hc2 & Hl2 & Hb2).
  project. rewrite Hc1, Hl1, Hb1, Hc2, Hl2, Hb2. repeat split.
Qed.

Lemma grantPermission_created (s : state)
    (Hwet : dryRun cfg = false)
    (Hok : forall t, w_permissions_create w t fileId email "reader" = Fulfilled tt) :
  emits (grantPermission w cfg fileId email) s
    (fun o evs _ =>
       o = Ret Created
       /\ creates evs = [PermissionsCreate fileId email "reader"]).
Proof.
  unfold grantPermission. rewrite Hwet. rewrite grantLoop_unfold. run.
  eapply emits_mono; [apply throttle_run|]. intros o e1 s1 [-> (Hc1 & _)].
  apply permissionsCreate_fulfilled; [apply Hok|]. intros s2. run.
  project. rewrite Hc1. split; reflexivity.
Qed.

(** *** The pauses of the retry loop *)

Lemma pausesFrom_app (cur : list pause) (a b : list event) :
  creates a = [] -> pausesFrom cur (a ++ b) = pausesFrom (cur ++ sleepsIn a) b.
Proof.
  revert cur. induction a as [|e a IH]; intros cur Hc.
  - cbn. rewrite app_nil_r. reflexivity.
  - destruct e; cbn in Hc |- *; try discriminate Hc;
      rewrite IH by exact Hc; rewrite <- ?app_assoc; reflexivity.
Qed.

Lemma sleepsIn_app (a b : list event) : sleepsIn (a ++ b) = sleepsIn a ++ sleepsIn b.
Proof.
  induction a as [|e a IH]; [reflexivity|].
  destruct e; cbn; rewrite ?IH; reflexivity.
Qed.

Lemma paced_later (s s' : state) :
  paced w s -> (tick s <= tick s')%nat -> lastApiCallAt s' = lastApiCallAt s ->
  paced w s'.
Proof.
  intros (t0 & Hle & Heq) Ht Hl. exists t0. split; [lia | congruence].
Qed.

(** [throttle] returns after at most one spacing sleep, which on a steady
    clock is below the minimal delay plus 400 ms once a call has been
    made, and it leaves the time of the last call at a clock reading. *)
Lemma throttle_paces (s : state) :
  emits (throttle w cfg) s
    (fun o evs s' =>
       o = Ret tt
       /\ (creates evs = [] /\ backoffs evs = [])
       /\ spacingOrNone cfg (sleepsIn evs)
       /\ (steadyClock w -> paced w s ->
           forall ms, sleepsIn evs = [Spacing ms] -> ms < minDelay cfg + 400)
       /\ paced w s').
Proof.
  unfold throttle. run. cbn [tick lastApiCallAt].
  destruct (_ <? _) eqn:E; run; cbn [tick lastApiCallAt app sleepsIn setTrace].
  - apply Z.ltb_lt in E.
    pose proof (randomBelow_range w (S (tick s)) 400 ltac:(lia)) as Hj.
    split; [reflexivity|]. split; [split; reflexivity|]. split; [|split].
    + right. eexists. split; [reflexivity|].
      eexists. eexists. split; [exact E|]. split; [exact Hj | reflexivity].
    + intros Hsteady (t0 & Hle & Heq) ms [= <-].
      pose proof (Hsteady t0 (tick s) Hle) as Hmono. lia.
    + exists (S (S (tick s))). cbn [tick lastApiCallAt]. split; [lia | reflexivity].
  - split; [reflexivity|]. split; [split; reflexivity|].
    split; [left; reflexivity|].
    split; [intros _ _ ms Hms; discriminate Hms|].
    exists (S (tick s)). cbn [tick lastApiCallAt]. split; [lia | reflexivity].
Qed.

(** A rejected create call, with what it leaves of the state. *)
Lemma permissionsCreate_fails (s : state) (err : jserror) :
  w_permissions_create w (tick s) fileId email "reader" = Rejected err ->
  emits (permissionsCreate w fileId email "reader") s
    (fun o evs s' =>
       o = Throw err /\ evs = [PermissionsCreate fileId email "reader"]
       /\ (tick s <= tick s')%nat /\ lastApiCallAt s' = lastApiCallAt s).
Proof.
  intros Herr. unfold permissionsCreate. run. cbn [tick]. rewrite Herr. run.
  cbn [tick lastApiCallAt setTrace]. repeat split. lia.
Qed.

Lemma dlog_paces (msg : string) (s : state) :
  emits (dlog cfg msg) s
    (fun o evs s' =>
       o = Ret tt /\ creates evs = [] /\ sleepsIn evs = []
       /\ tick s' = tick s /\ lastApiCallAt s' = lastApiCallAt s).
Proof.
  unfold dlog. destruct (debugEnabled cfg); run; repeat split.
Qed.

(** The retry loop against a Drive that rejects every create call with a
    retryable error, from the attempt number [a + 1] on: it gives up at
    the sixth attempt with the tagged error of that attempt, and between
    two attempts lie the back-off and at most one spacing sleep. *)
Lemma grantLoop_paces
    (Hfail : forall t, exists err,
        w_permissions_create w t fileId email "reader" = Rejected err
        /\ isRetryableRateLimit err = true)
    (n a : nat) (cur : list pause) (s : state) :
  (a + S n = 6)%nat ->
  emits (grantLoop w cfg (S n) (Z.of_nat a) fileId email) s
    (fun o evs _ =>
       exists err first gaps,
         o = Throw (wrapError "drive.permissions.create"
                              (fileId, email, "reader") err)
         /\ isRetryableRateLimit err = true
         /\ (exists t, w_permissions_create w t fileId email "reader"
                       = Rejected err)
         /\ creates evs = repeat (PermissionsCreate fileId email "reader") (S n)
         /\ pausesFrom cur evs = (cur ++ first) :: gaps ++ [[]]
         /\ spacingOrNone cfg first
         /\ (steadyClock w -> paced w s ->
             forall ms, first = [Spacing ms] -> ms < minDelay cfg + 400)
         /\ Forall2 (gapAfter w cfg) (List.map Z.of_nat (seq (S a) n)) gaps).
Proof.
  revert a cur s. induction n as [|n IH]; intros a cur s Ha.
  - rewrite grantLoop_unfold. run.
    eapply emits_mono; [apply throttle_paces|].
    intros o e1 s1 (-> & [Hc1 Hk1] & Hsp1 & Hb1 & Hp1).
    destruct (Hfail (tick s1)) as (err & Herr & Hretry).
    eapply emits_mono; [apply (permissionsCreate_fails s1 err Herr)|].
    intros o e2 s2 (-> & -> & Ht2 & Hl2).
    run. eapply emits_mono; [apply dlog_paces|].
    intros o e3 s3 (-> & Hc3 & Hs3 & Ht3 & Hl3).
    rewrite Hretry.
    replace (Z.of_nat a + 1 <? 6) with false by (symmetry; apply Z.ltb_ge; lia).
    cbn [andb]. run.
    exists err, (sleepsIn e1), []. split; [reflexivity|].
    split; [exact Hretry|]. split; [eexists; exact Herr|].
    split; [|split; [|split; [exact Hsp1|split; [exact Hb1|constructor]]]].
    + project. rewrite Hc1, Hc3. reflexivity.
    + rewrite <- !app_assoc. rewrite (pausesFrom_app cur e1) by exact Hc1.
      cbn [app pausesFrom]. rewrite (pausesFrom_app [] e3) by exact Hc3.
      rewrite Hs3. reflexivity.
  - rewrite grantLoop_unfold. run.
    eapply emits_mono; [apply throttle_paces|].
    intros o e1 s1 (-> & [Hc1 Hk1] & Hsp1 & Hb1 & Hp1).
    destruct (Hfail (tick s1)) as (err & Herr & Hretry).
    eapply emits_mono; [apply (permissionsCreate_fails s1 err Herr)|].
    intros o e2 s2 (-> & -> & Ht2 & Hl2).
    run. eapply emits_mono; [apply dlog_paces|].
    intros o e3 s3 (-> & Hc3 & Hs3 & Ht3 & Hl3).
    rewrite Hretry.
    replace (Z.of_nat a + 1 <? 6) with true by (symmetry; apply Z.ltb_lt; lia).
    cbn [andb]. run. cbn [tick lastApiCallAt].
    replace (Z.of_nat a + 1) with (Z.of_nat (S a)) by lia.
    set (b := Z.min 60000 (2 ^ Z.of_nat (S a) * 1000)
              + w_random w (tick s3) mod 2 ^ 53 * 500 / 2 ^ 53).
    match goal with
    | |- emits _ ?st _ =>
        assert (Hp4 : paced w st)
          by (apply (paced_later s1);
              [exact Hp1 | unfold setTrace; cbn [tick]; lia
              | unfold setTrace; cbn [lastApiCallAt]; congruence])
    end.
    eapply emits_mono; [apply (IH (S a) [Backoff b]); lia|].
    intros o e4 s4 (err' & first' & gaps' & -> & Hretry' & Hrej' & Hc4 & Hpa4
                    & Hsp4 & Hb4 & Hg4).
    exists err', (sleepsIn e1), (([Backoff b] ++ first') :: gaps').
    split; [reflexivity|]. split; [exact Hretry'|]. split; [exact Hrej'|].
    split; [|split; [|split; [exact Hsp1|split; [exact Hb1|]]]].
    + project. rewrite Hc1, Hc3, Hc4. reflexivity.
    + rewrite <- !app_assoc. rewrite (pausesFrom_app cur e1) by exact Hc1.
      cbn [app pausesFrom]. rewrite (pausesFrom_app [] e3) by exact Hc3.
      rewrite Hs3. cbn [app pausesFrom]. rewrite Hpa4. reflexivity.
    + cbn [seq List.map]. constructor; [|exact Hg4].
      exists b. split.
      * eexists. split; [|reflexivity]. apply randomBelow_range. lia.
      * destruct Hsp4 as [->|(ms & -> & Hms)]; [left; reflexivity|].
        right. exists ms. split; [reflexivity|]. split; [exact Hms|].
        intros Hsteady. apply (Hb4 Hsteady Hp4 ms eq_refl).
Qed.

(** The loop against a rejection that is not retryable: one call, the
    tagged error, no back-off. *)
Lemma grantLoop_stops (err : jserror)
    (Hfail : forall t, w_permissions_create w t fileId email "reader" = Rejected err)
    (Hfinal : isRetryableRateLimit err = false)
    (fuel : nat) (attempt : Z) (s : state) :
  emits (grantLoop w cfg (S fuel) attempt fileId email) s
    (fun o evs _ =>
       exists first,
         o = Throw (wrapError "drive.permissions.create"
                              (fileId, email, "reader") err)
         /\ creates evs = [PermissionsCreate fileId email "reader"]
         /\ backoffs evs = []
         /\ pauses evs = [first; []]
         /\ spacingOrNone cfg first).
Proof.
  rewrite grantLoop_unfold. run.
  eapply emits_mono; [apply throttle_paces|].
  intros o e1 s1 (-> & [Hc1 Hk1] & Hsp1 & Hb1 & Hp1).
  eapply emits_mono; [apply (permissionsCreate_fails s1 err (Hfail _))|].
  intros o e2 s2 (-> & -> & Ht2 & Hl2).
  run. apply (emits_and_calm silent); [intros s0; apply (emits_mono _ _ _ _ (dlog_run cfg _ s0)); intros ? ? ? [_ H]; exact H|].
  eapply emits_mono; [apply dlog_paces|].
  intros o e3 s3 (-> & Hc3 & Hs3 & Ht3 & Hl3) (_ & _ & Hk3).
  rewrite Hfinal. cbn [andb]. run.
  exists (sleepsIn e1). split; [reflexivity|].
  split; [|split; [|split; [|exact Hsp1]]].
  - project. rewrite Hc1, Hc3. reflexivity.
  - project. rewrite Hk1, Hk3. reflexivity.
  - unfold pauses. rewrite <- !app_assoc.
    rewrite (pausesFrom_app [] e1) by exact Hc1.
    cbn [app pausesFrom]. rewrite (pausesFrom_app [] e3) by exact Hc3.
    rewrite Hs3. reflexivity.
Qed.

Lemma wrapError_tagged (op : string) (ctx : string * string * string)
    (error : jserror) :
  taggedWith op ctx error (wrapError op ctx error).
Proof.
  unfold taggedWith, wrapError.
  destruct (e_frozen error); cbn [e_op e_ctx e_status e_code e_reasons e_errors0
    e_dataMessage e_message e_string];
    (split; [reflexivity|]); (split; [reflexivity|]);
    (split; [intros H; try discriminate H; repeat split
            |intros H; try discriminate H; repeat split]).
Qed.


End Grant.



(** The retry sequence under the default settings: six calls, the
    back-offs of 2, 4, 8, 16 and 32 seconds with their jitter, and one
    spacing sleep, after the shortest back-off. *)
Example grant_rate_limited_paced :
  let r := grantPermission Samples.quotaDrive Samples.cfg0 "folder-1"
             "ani@gmail.com" Samples.state0 in
  List.length (creates (trace (snd r))) = 6%nat
  /\ pauses (trace (snd r))
     = [[]; [Backoff 2250; Spacing 350]; [Backoff 4250]; [Backoff 8250];
        [Backoff 16250]; [Backoff 32250]; []]
  /\ List.map totalSleep (pauses (trace (snd r)))
     = [0; 2600; 4250; 8250; 16250; 32250; 0].
Proof. vm_compute. repeat split. Qed.

(** The retry sequence for a worker set to ten seconds between two calls
    (jitter 0 here): the spacing sleeps bring two calls ten seconds
    apart. *)
Example grant_rate_limited_trace :
  let r := grantPermission Samples.busyDrive Samples.cfgSlow "folder-1"
             "ani@gmail.com" Samples.state0 in
  backoffs (trace (snd r)) = [2000; 4000; 8000; 16000; 32000]
  /\ List.length (creates (trace (snd r))) = 6%nat
  /\ pauses (trace (snd r))
     = [[]; [Backoff 2000; Spacing 7900]; [Backoff 4000; Spacing 5900];
        [Backoff 8000; Spacing 1900]; [Backoff 16000]; [Backoff 32000]; []]
  /\ fst r = Throw (wrapError "drive.permissions.create"
                      ("folder-1", "ani@gmail.com", "reader")
                      Samples.rateLimitError).
Proof. vm_compute. repeat split. Qed.

(** With the default delay of 2.5 s and a clock that stands still, every
    retry waits for the whole delay again after its back-off. *)
Example grant_rate_limited_default :
  pauses (trace (snd (grantPermission (Samples.createFails Samples.rateLimitError)
                        Samples.cfg0 "folder-1" "ani@gmail.com" Samples.state0)))
  = [[]; [Backoff 2000; Spacing 2500]; [Backoff 4000; Spacing 2500];
     [Backoff 8000; Spacing 2500]; [Backoff 16000; Spacing 2500];
     [Backoff 32000; Spacing 2500]; []].
Proof. vm_compute. reflexivity. Qed.

End RetryFacts.

Module PermissionCheckFacts.
Import Worker Observe RunFacts.
Local Open Scope worker_scope.

Section Check.
Context (w : world) (cfg : config) (fileId email role : string).

Lemma permissionsList_run (s : state) Q :
  (forall s', match w_permissions_list w (tick s) fileId with
              | Fulfilled perms => Q (Ret perms) [PermissionsList fileId] s'
              | Rejected err => Q (Throw err) [PermissionsList fileId] s'
              end) ->
  emits (permissionsList w fileId) s Q.
Proof.
  intros HQ. unfold permissionsList. run. cbn [tick].
  pose proof (fun s' => HQ s') as HQ'.
  destruct (w_permissions_list w (tick s) fileId); run; apply HQ'.
Qed.

Lemma hasPermissionLoop_unfold (fuel : nat) (attempt : Z) :
  hasPermissionLoop w cfg (S fuel) attempt fileId email role
  = (r <- try_ (throttle w cfg ;;;
                permissions <- permissionsList w fileId ;;
                ret (existsb (permissionMatches email role) permissions)) ;;
     match r with
     | inl b => ret b
     | inr err =>
         dlog cfg ("permissions.list error: " +:+ formatErrorSummary err) ;;;
         if isRetryableRateLimit err && (attempt + 1 <? 5) then
           jitter <- randomBelow w 500 ;;
           sleep (Z.min 60000 (2 ^ (attempt + 1) * 1000) + jitter) ;;;
           hasPermissionLoop w cfg fuel (attempt + 1) fileId email role
         else
           throw (wrapError "drive.permissions.list" (fileId, email, role) err)
     end).
Proof. reflexivity. Qed.

(** Whatever the remote answers, the loop settles within its five turns,
    lists at most five times and creates nothing. *)
Lemma hasPermissionLoop_settles (n a : nat) (s : state) :
  (a + S n = 5)%nat ->
  emits (hasPermissionLoop w cfg (S n) (Z.of_nat a) fileId email role) s
    (fun o evs _ =>
       o <> Pending /\ creates evs = []
       /\ (List.length (lists evs) <= S n)%nat).
Proof.
  revert a s. induction n as [|n IH]; intros a s Ha;
    rewrite hasPermissionLoop_unfold; run;
    (eapply emits_mono; [apply throttle_run|]); intros o e1 s1 [-> Hq];
    destruct Hq as (Hc1 & Hl1 & Hb1);
    run; apply permissionsList_run; intros s2;
    destruct (w_permissions_list w (tick s1) fileId) as [perms|err]; run.
  - project. rewrite Hc1, Hl1. cbn. repeat split; [discriminate | lia].
  - eapply emits_mono; [apply dlog_run|]. intros o e2 s3 [-> (Hc2 & Hl2 & Hb2)].
    replace (Z.of_nat a + 1 <? 5) with false by (symmetry; apply Z.ltb_ge; lia).
    rewrite andb_false_r. run.
    project. rewrite Hc1, Hl1, Hc2, Hl2. cbn. repeat split; [discriminate | lia].
  - project. rewrite Hc1, Hl1. cbn. repeat split; [discriminate | lia].
  - eapply emits_mono; [apply dlog_run|]. intros o e2 s3 [-> (Hc2 & Hl2 & Hb2)].
    destruct (isRetryableRateLimit err && (Z.of_nat a + 1 <? 5)); run.
    + replace (Z.of_nat a + 1) with (Z.of_nat (S a)) by lia.
      eapply emits_mono; [apply (IH (S a)); lia|].
      intros o e3 s4 (Hne & Hc3 & Hl3).
      project. rewrite Hc1, Hl1, Hc2, Hl2, Hc3. cbn.
      repeat split; [exact Hne | lia].
    + project. rewrite Hc1, Hl1, Hc2, Hl2. cbn.
      repeat split; [discriminate | lia].
Qed.

Lemma hasPermission_total (s : state) :
  emits (hasPermission w cfg fileId email role) s
    (fun o evs _ =>
       (exists b, o = Ret b) /\ creates evs = []
       /\ (List.length (lists evs) <= 5)%nat).
Proof.
  unfold hasPermission. run.
  eapply emits_mono; [apply (hasPermissionLoop_settles 4 0 s eq_refl)|].
  intros o evs s1 (Hne & Hc & Hl).
  destruct o as [b|err|]; [| |congruence]; run;
    rewrite app_nil_r; (split; [eexists; reflexivity | split; assumption]).
Qed.

Lemma hasPermissionLoop_exhausts
    (Hfail : forall t, exists err,
        w_permissions_list w t fileId = Rejected err
        /\ isRetryableRateLimit err = true)
    (n a : nat) (s : state) :
  (a + S n = 5)%nat ->
  emits (hasPermissionLoop w cfg (S n) (Z.of_nat a) fileId email role) s
    (fun o evs _ =>
       (exists err, o = Throw err)
       /\ creates evs = []
       /\ lists evs = repeat (PermissionsList fileId) (S n)
       /\ Forall2 isBackoff (List.map Z.of_nat (seq (S a) n)) (backoffs evs)).
Proof.
  revert a s. induction n as [|n IH]; intros a s Ha;
    rewrite hasPermissionLoop_unfold; run;
    (eapply emits_mono; [apply throttle_run|]); intros o e1 s1 [-> Hq];
    destruct Hq as (Hc1 & Hl1 & Hb1);
    run; apply permissionsList_run; intros s2;
    destruct (Hfail (tick s1)) as (err & -> & Hretry); run;
    (eapply emits_mono; [apply dlog_run|]); intros o e2 s3 [-> (Hc2 & Hl2 & Hb2)];
    rewrite Hretry.
  - replace (Z.of_nat a + 1 <? 5) with false by (symmetry; apply Z.ltb_ge; lia).
    cbn [andb]. run. project. rewrite Hc1, Hl1, Hb1, Hc2, Hl2, Hb2. cbn.
    repeat split; [eexists; reflexivity | constructor].
  - replace (Z.of_nat a + 1 <? 5) with true by (symmetry; apply Z.ltb_lt; lia).
    cbn [andb]. run.
    replace (Z.of_nat a + 1) with (Z.of_nat (S a)) by lia.
    eapply emits_mono; [apply (IH (S a)); lia|].
    intros o e3 s4 (Herr & Hc3 & Hl3 & Hb3).
    project. rewrite Hc1, Hl1, Hb1, Hc2, Hl2, Hb2, Hc3, Hl3. cbn [app backoffs].
    repeat split; try assumption.
    cbn [seq List.map]. constructor; [|exact Hb3].
    eexists. split; [|reflexivity]. apply randomBelow_range. lia.
Qed.

Lemma hasPermission_exhausted (s : state)
    (Hfail : forall t, exists err,
        w_permissions_list w t fileId = Rejected err
        /\ isRetryableRateLimit err = true) :
  emits (hasPermission w cfg fileId email role) s
    (fun o evs _ =>
       o = Ret false /\ creates evs = []
       /\ lists evs = repeat (PermissionsList fileId) 5
       /\ Forall2 isBackoff [1; 2; 3; 4] (backoffs evs)).
Proof.
  unfold hasPermission. run.
  eapply emits_mono; [apply (hasPermissionLoop_exhausts Hfail 4 0 s eq_refl)|].
  intros o evs s1 ((err & ->) & Hc & Hl & Hb). run.
  rewrite app_nil_r. repeat split; assumption.
Qed.

Lemma hasPermission_gives_up (s : state) (err : jserror)
    (Hfail : forall t, w_permissions_list w t fileId = Rejected err)
    (Hfinal : isRetryableRateLimit err = false) :
  emits (hasPermission w cfg fileId email role) s
    (fun o evs _ =>
       o = Ret false /\ creates evs = []
       /\ lists evs = [PermissionsList fileId] /\ backoffs evs = []).
Proof.
  unfold hasPermission. run. rewrite hasPermissionLoop_unfold. run.
  eapply emits_mono; [apply throttle_run|]. intros o e1 s1 [-> (Hc1 & Hl1 & Hb1)].
  run. apply permissionsList_run. intros s2. rewrite Hfail. run.
  eapply emits_mono; [apply dlog_run|]. intros o e2 s3 [-> (Hc2 & Hl2 & Hb2)].
  rewrite Hfinal. cbn [andb]. run.
  project. rewrite Hc1, Hl1, Hb1, Hc2, Hl2, Hb2. repeat split.
Qed.

Lemma hasPermissionLoop_rejected
    (Hfail : forall t, exists err, w_permissions_list w t fileId = Rejected err)
    (n a : nat) (s : state) :
  (a + S n = 5)%nat ->
  emits (hasPermissionLoop w cfg (S n) (Z.of_nat a) fileId email role) s
    (fun o evs _ => (exists err, o = Throw err) /\ creates evs = []).
Proof.
  revert a s. induction n as [|n IH]; intros a s Ha;
    rewrite hasPermissionLoop_unfold; run;
    (eapply emits_mono; [apply throttle_run|]); intros o e1 s1 [-> Hq];
    destruct Hq as (Hc1 & Hl1 & Hb1);
    run; apply permissionsList_run; intros s2;
    destruct (Hfail (tick s1)) as (err & ->); run;
    (eapply emits_mono; [apply dlog_run|]); intros o e2 s3 [-> (Hc2 & Hl2 & Hb2)].
  - replace (Z.of_nat a + 1 <? 5) with false by (symmetry; apply Z.ltb_ge; lia).
    rewrite andb_false_r. run. project. rewrite Hc1, Hc2.
    split; [eexists; reflexivity | reflexivity].
  - destruct (isRetryableRateLimit err && (Z.of_nat a + 1 <? 5)); run.
    + replace (Z.of_nat a + 1) with (Z.of_nat (S a)) by lia.
      eapply emits_mono; [apply (IH (S a)); lia|].
      intros o e3 s4 (Herr & Hc3). project. rewrite Hc1, Hc2, Hc3.
      split; [exact Herr | reflexivity].
    + project. rewrite Hc1, Hc2. split; [eexists; reflexivity | reflexivity].
Qed.

(** A check that fails every time reads as "no permission". *)
Lemma hasPermission_failed (s : state)
    (Hfail : forall t, exists err, w_permissions_list w t fileId = Rejected err) :
  emits (hasPermission w cfg fileId email role) s
    (fun o evs _ => o = Ret false /\ creates evs = []).
Proof.
  unfold hasPermission. run.
  eapply emits_mono; [apply (hasPermissionLoop_rejected Hfail 4 0 s eq_refl)|].
  intros o evs s1 ((err & ->) & Hc). run.
  rewrite app_nil_r. split; [reflexivity | exact Hc].
Qed.

(** A successful listing decides at once. *)
Lemma hasPermission_answered (s : state) (perms : list permission)
    (Hlist : forall t, w_permissions_list w t fileId = Fulfilled perms) :
  emits (hasPermission w cfg fileId email role) s
    (fun o evs _ =>
       o = Ret (existsb (permissionMatches email role) perms)
       /\ creates evs = []
       /\ lists evs = [PermissionsList fileId] /\ backoffs evs = []).
Proof.
  unfold hasPermission. run. rewrite hasPermissionLoop_unfold. run.
  eapply emits_mono; [apply throttle_run|]. intros o e1 s1 [-> (Hc1 & Hl1 & Hb1)].
  run. apply permissionsList_run. intros s2. rewrite Hlist. run.
  project. rewrite Hc1, Hl1, Hb1. repeat split.
Qed.

End Check.
End PermissionCheckFacts.

(** ** Resource resolver *)

Module ResolverFacts.
Import Worker Observe RunFacts.
Local Open Scope worker_scope.

Lemma noCall_nil : noPermissionCall [].
Proof. split; reflexivity. Qed.

Lemma noCall_app (a b : list event) :
  noPermissionCall a -> noPermissionCall b -> noPermissionCall (a ++ b).
Proof.
  intros [Ha1 Ha2] [Hb1 Hb2]. unfold noPermissionCall.
  rewrite creates_app, lists_app, Ha1, Ha2, Hb1, Hb2. split; reflexivity.
Qed.

Lemma noCall_silent (evs : list event) : silent evs -> noPermissionCall evs.
Proof. intros (H1 & H2 & _). split; assumption. Qed.

(** Whatever holds of throttle sleeps, back-off sleeps, folder listings and
    log lines of level DEBUG and INFO, and is kept by concatenation, holds
    of all that the resolver adds to the trace. *)
Section SearchEvents.
Context (P : list event -> Prop) (w : world) (cfg : config).
Hypothesis P_nil : P [].
Hypothesis P_app : forall a b, P a -> P b -> P (a ++ b).
Hypothesis P_throttle : forall ms, P [ThrottleSleep ms].
Hypothesis P_sleep : forall ms, P [Sleep ms].
Hypothesis P_files : forall q tok, P [FilesList q tok].
Hypothesis P_debug : forall m, P [LogLine "DEBUG" m].
Hypothesis P_info : forall m, P [LogLine "INFO" m].

Local Abbreviation quiet := (always P).

Ltac via L := apply L; try exact P_nil; try exact P_app.

Lemma search_bind {A B} (m : M A) (k : A -> M B) :
  quiet m -> (forall a, quiet (k a)) -> quiet (bind m k).
Proof. via (@always_bind P). Qed.

Lemma search_ret {A} (a : A) : quiet (ret a).
Proof. via (@always_ret P). Qed.

Lemma search_dateNow : quiet (dateNow w).
Proof. via (@always_dateNow P). Qed.

Lemma search_randomBelow (k : Z) : quiet (randomBelow w k).
Proof. via (@always_randomBelow P). Qed.

Lemma search_throttle : quiet (throttle w cfg).
Proof.
  unfold throttle. apply search_bind; [apply search_dateNow|]. intros now.
  apply search_bind; [via (@always_silent P); reflexivity|]. intros last.
  apply search_bind.
  - destruct (_ <? _); [|apply search_ret].
    apply search_bind; [apply search_randomBelow|]. intros j.
    apply always_emit, P_throttle.
  - intros _. apply search_bind; [apply search_dateNow|]. intros t.
    via (@always_silent P). reflexivity.
Qed.

Lemma search_dlog (msg : string) : quiet (dlog cfg msg).
Proof.
  unfold dlog. destruct (debugEnabled cfg); [|apply search_ret].
  apply always_emit, P_debug.
Qed.

Lemma search_dlog_run (msg : string) (s : state) :
  emits (dlog cfg msg) s (fun o evs _ => o = Ret tt /\ P evs).
Proof.
  unfold dlog. destruct (debugEnabled cfg); run;
    (split; [reflexivity|]); [apply P_debug | exact P_nil].
Qed.

Lemma search_sleep (ms : Z) : quiet (sleep ms).
Proof. apply always_emit, P_sleep. Qed.

Lemma search_filesList (q : string) (tok : option string) :
  quiet (filesList w q tok).
Proof.
  unfold filesList. apply search_bind; [via (@always_nextTick P)|].
  intros t. apply search_bind; [apply always_emit, P_files|].
  intros _. unfold settle. destruct (w_files_list w t q tok);
    [apply search_ret | via (@always_throw P)].
Qed.

Lemma search_try {A} (m : M A) : quiet m -> quiet (try_ m).
Proof. apply always_try. Qed.

Lemma search_globalAttempts (fuel : nat) (attempt : Z) (targetLower q : string) :
  quiet (globalAttempts w cfg fuel attempt targetLower q).
Proof.
  revert attempt. induction fuel as [|fuel IH]; intros attempt; cbn [globalAttempts].
  - via (@always_pending P).
  - destruct (attempt <? 3); [|apply search_ret].
    apply search_bind.
    + apply search_try, search_bind; [apply search_throttle|]. intros _.
      apply search_bind; [apply search_filesList|]. intros r. apply search_ret.
    + intros [[hit|]|err]; try apply search_ret.
      apply search_bind; [apply search_dlog|]. intros _.
      destruct (_ && _); [|apply search_ret].
      apply search_bind; [apply search_randomBelow|]. intros j.
      apply search_bind; [apply search_sleep|]. intros _. apply IH.
Qed.

Lemma search_globalSearch (steps : nat) (targetLower : string)
    (terms : list string) :
  quiet (globalSearch w cfg steps targetLower terms).
Proof.
  induction terms as [|t terms IH]; cbn [globalSearch]; [apply search_ret|].
  apply search_bind; [apply search_try, search_globalAttempts|].
  intros [[id|]|err]; [apply search_ret | exact IH | exact IH].
Qed.

Lemma search_listSubfolders (fuel : nat) (parentId : string)
    (tok : option string) (all : list file) :
  quiet (listSubfolders w cfg fuel parentId tok all).
Proof.
  revert tok all. induction fuel as [|fuel IH]; intros tok all; cbn [listSubfolders].
  - via (@always_pending P).
  - apply search_bind; [apply search_throttle|]. intros _.
    apply search_bind; [apply search_filesList|]. intros res.
    destruct (snd res) as [t|]; [|apply search_ret].
    destruct (Js.truthy t); [apply IH | apply search_ret].
Qed.

Lemma search_bfs (fuel : nat) (targetLower : string) (queue : list (string * Z)) :
  quiet (bfs w cfg fuel targetLower queue).
Proof.
  revert queue. induction fuel as [|fuel IH]; intros queue; cbn [bfs].
  - via (@always_pending P).
  - destruct queue as [|[id depth] queue]; [apply search_ret|].
    destruct (maxDepth <? depth); [apply IH|].
    apply search_bind; [apply search_try, search_listSubfolders|].
    intros [children|err].
    + destruct (List.find _ children); [apply search_ret | apply IH].
    + destruct (isRetryableRateLimit err).
      * apply search_bind; [apply search_sleep|]. intros _. apply IH.
      * apply search_bind; [apply search_dlog|]. intros _. apply IH.
Qed.

Lemma search_internal (steps : nat) (name parent : string) :
  quiet (_findFolderByNameInternal w cfg steps name parent).
Proof.
  unfold _findFolderByNameInternal.
  destruct (negb (Js.truthy name)); [apply search_ret|].
  destruct (negb (Js.truthy parent)); [|apply search_bfs].
  via (@always_tryCatch P); [apply search_globalSearch|].
  intros e. apply search_ret.
Qed.

(** The fallback settles with a value, whatever the search did. *)
Lemma search_fallback_settles (name parent : string) (s : state) :
  emits (_findFolderByNameFallback w cfg name parent) s
    (fun o evs _ => (exists r, o = Ret r) /\ P evs).
Proof.
  unfold _findFolderByNameFallback. run.
  cbn [tick]. apply emits_race.
  eapply emits_mono; [apply search_internal|].
  intros [r|e|] e1 s1 H1; cbn beta iota; run.
  - split; [eexists; reflexivity|]. cbn [app]; rewrite ?app_nil_r. exact H1.
  - eapply emits_mono; [apply search_dlog_run|].
    intros o e2 s2 [-> H2]. run.
    split; [eexists; reflexivity|]. cbn [app]; rewrite ?app_nil_r.
    apply P_app; assumption.
  - eapply emits_mono; [apply search_dlog_run|].
    intros o e2 s2 [-> H2]. run.
    split; [eexists; reflexivity|]. cbn [app]; rewrite ?app_nil_r.
    apply P_app; assumption.
Qed.

Lemma search_findFolderByName_settles (name parent : string) (s : state) :
  emits (findFolderByName w cfg name parent) s
    (fun o evs _ => (exists r, o = Ret r) /\ P evs).
Proof.
  unfold findFolderByName. run.
  destruct (negb (Js.truthy name)); run.
  { split; [eexists; reflexivity | exact P_nil]. }
  destruct (folderMapping cfg) as [mapping|]; run.
  - match goal with
    | |- context [match ?x with Some _ => _ | None => _ end] =>
        destruct x as [id|] eqn:Hid
    end; run.
    + split; [eexists; reflexivity | apply P_info].
    + eapply emits_mono; [apply search_fallback_settles|].
      intros o evs s' [Hr Hq]. split; [exact Hr|].
      cbn [app]; rewrite ?app_nil_r. apply (P_app [_]); [apply P_info | exact Hq].
  - eapply emits_mono; [apply search_fallback_settles|].
    intros o evs s' [Hr Hq]. split; [exact Hr|]. cbn [app]; rewrite ?app_nil_r. exact Hq.
Qed.

End SearchEvents.

Section Resolver.
Context (w : world) (cfg : config).

Lemma quiet_internal (steps : nat) (name parent : string) :
  always noPermissionCall (_findFolderByNameInternal w cfg steps name parent).
Proof.
  apply search_internal; try exact noCall_nil; try exact noCall_app;
    intros; split; reflexivity.
Qed.

Lemma fallback_settles (name parent : string) (s : state) :
  emits (_findFolderByNameFallback w cfg name parent) s
    (fun o evs _ => (exists r, o = Ret r) /\ noPermissionCall evs).
Proof.
  apply search_fallback_settles; try exact noCall_nil; try exact noCall_app;
    intros; split; reflexivity.
Qed.

Lemma findFolderByName_settles (name parent : string) (s : state) :
  emits (findFolderByName w cfg name parent) s
    (fun o evs _ => (exists r, o = Ret r) /\ noPermissionCall evs).
Proof.
  apply search_findFolderByName_settles;
    try exact noCall_nil; try exact noCall_app; intros; split; reflexivity.
Qed.

Lemma findFolderByName_calm (name parent : string) (s : state) :
  emits (findFolderByName w cfg name parent) s
    (fun o evs _ => (exists r, o = Ret r) /\ noErrorLine evs).
Proof.
  apply search_findFolderByName_settles;
    try exact noError_nil; try exact noError_app; intros; reflexivity.
Qed.

(** C6. For every name and scope root, [findFolderByName], and its
    fallback on its own, settle with a folder identifier or with not-found
    and never with an exception, and issue no permission call; in
    particular, when the fallback search is still pending as the 30-second
    timer fires, the result is not-found. *)
Theorem resolver_never_raises (name parent : string) (s : state) :
  (exists r s' evs,
      findFolderByName w cfg name parent s = (Ret r, s')
      /\ trace s' = trace s ++ evs /\ noPermissionCall evs)
  /\ (exists r s' evs,
        _findFolderByNameFallback w cfg name parent s = (Ret r, s')
        /\ trace s' = trace s ++ evs /\ noPermissionCall evs)
  /\ (fst (_findFolderByNameInternal w cfg (w_searchSteps w (S (tick s)))
             name parent (snd (nextTick (snd (dateNow w s))))) = Pending ->
      fst (_findFolderByNameFallback w cfg name parent s) = Ret None).
Proof.
  split; [|split].
  - destruct (emits_run _ _ _ (findFolderByName_settles name parent s))
      as (o & s' & evs & Hrun & Ht & (r & ->) & Hq).
    exists r, s', evs. repeat split; assumption || apply Hq.
  - destruct (emits_run _ _ _ (fallback_settles name parent s))
      as (o & s' & evs & Hrun & Ht & (r & ->) & Hq).
    exists r, s', evs. repeat split; assumption || apply Hq.
  - intros Hp. unfold _findFolderByNameFallback, dateNow in *.
    unfold raceTimeout, bind, nextTick, ret in *. cbn [fst snd tick] in *.
    destruct (_findFolderByNameInternal _ _ _ _ _ _) as [[r|e|] s1];
      cbn [fst] in Hp; try discriminate Hp.
    unfold dlog. destruct (debugEnabled cfg); reflexivity.
Qed.

Lemma findFolderByName_cached (mapping : gmap string string)
    (name parent id : string) (s : state)
    (Hmap : folderMapping cfg = Some mapping)
    (Hkey : mapping !! name = Some id)
    (Hname : Js.truthy name = true) (Hid : Js.truthy id = true) :
  emits (findFolderByName w cfg name parent) s
    (fun o evs _ =>
       o = Ret (Some id)
       /\ exists elapsed : Z,
            evs = [LogLine "INFO" ("Found folder (mapped): " +:+ dq +:+ name
                                   +:+ dq +:+ " (" +:+ pretty elapsed +:+ "ms)")]).
Proof.
  unfold findFolderByName. run. rewrite Hname. cbn [negb]. rewrite Hmap.
  assert (Hhit : mapped mapping name = Some id)
    by (unfold mapped; rewrite Hkey, Hid; reflexivity).
  rewrite Hhit. cbn [orElse]. run.
  split; [reflexivity|]. eexists. reflexivity.
Qed.

(** C5. For every name that is a key of the loaded folder mapping,
    [findFolderByName] returns the identifier mapped to it, and all it adds
    to the trace is the log line of the cache hit: no remote call is made.
    The name is a name (not the empty string, which the resolver answers
    with not-found before any lookup) and the identifier an identifier
    (a Drive id, never the empty string, which JavaScript takes for an
    absent value). *)
Theorem cache_hit_verbatim (mapping : gmap string string)
    (name parent id : string) (s : state)
    (Hmap : folderMapping cfg = Some mapping)
    (Hkey : mapping !! name = Some id)
    (Hname : name <> EmptyString) (Hid : id <> EmptyString) :
  exists s' (elapsed : Z),
    findFolderByName w cfg name parent s = (Ret (Some id), s')
    /\ trace s'
       = trace s ++ [LogLine "INFO" ("Found folder (mapped): " +:+ dq +:+ name
                                     +:+ dq +:+ " (" +:+ pretty elapsed +:+ "ms)")].
Proof.
  assert (Hn : Js.truthy name = true) by (destruct name; [congruence | reflexivity]).
  assert (Hi : Js.truthy id = true) by (destruct id; [congruence | reflexivity]).
  destruct (emits_run _ _ _
              (findFolderByName_cached mapping name parent id s Hmap Hkey Hn Hi))
    as (o & s' & evs & Hrun & Ht & -> & elapsed & ->).
  exists s', elapsed. split; assumption.
Qed.

End Resolver.

Lemma resolver_never_raises_witness :
  fst (_findFolderByNameFallback Samples.searchOverQuota Samples.cfgScoped
         "Budi Santoso" "root-1" Samples.state0) = Ret None.
Proof.
  apply (resolver_never_raises Samples.searchOverQuota Samples.cfgScoped
           "Budi Santoso" "root-1" Samples.state0).
  vm_compute. reflexivity.
Defined.

Lemma cache_hit_verbatim_witness :
  exists s' (elapsed : Z),
    findFolderByName Samples.calmWorld Samples.cfgMapped "Budi Santoso"
      EmptyString Samples.state0 = (Ret (Some "id-budi"), s')
    /\ trace s'
       = trace Samples.state0
         ++ [LogLine "INFO" ("Found folder (mapped): " +:+ dq +:+ "Budi Santoso"
                             +:+ dq +:+ " (" +:+ pretty elapsed +:+ "ms)")].
Proof.
  apply (cache_hit_verbatim Samples.calmWorld Samples.cfgMapped
           (<["Budi Santoso" := "id-budi"]> (<["budi santoso" := "id-budi"]> ∅))
           "Budi Santoso" EmptyString "id-budi" Samples.state0).
  - reflexivity.
  - vm_compute. reflexivity.
  - discriminate.
  - discriminate.
Defined.

(** An entry without identifier counts as absent: the lookup goes on to
    the fallback search, which finds nothing here. *)
Example empty_id_falls_back :
  let r := findFolderByName Samples.calmWorld Samples.cfgEmptyId "Budi"
             EmptyString Samples.state0 in
  fst r = Ret None
  /\ List.length (List.filter isFilesList (trace (snd r))) = 5%nat.
Proof. vm_compute. split; reflexivity. Qed.

End ResolverFacts.

(** ** Batch processor *)

Module ProcessorFacts.
Import Partition Worker Observe RunFacts.
Local Open Scope worker_scope.

Lemma append_cons (x : ascii) (a b : string) :
  String x a +:+ b = String x (a +:+ b).
Proof. reflexivity. Qed.

Lemma append_assoc (a b c : string) : (a +:+ b) +:+ c = a +:+ (b +:+ c).
Proof.
  induction a as [|x a IH]; [reflexivity|].
  rewrite !append_cons, IH. reflexivity.
Qed.

Lemma startsWith_append (p rest : string) : Js.startsWith p (p +:+ rest) = true.
Proof.
  induction p as [|x p IH]; [destruct rest; reflexivity|].
  rewrite append_cons. cbn [Js.startsWith]. rewrite Ascii.eqb_refl. exact IH.
Qed.

Lemma isRowLine_row (row : Z) (level tail : string) :
  isRowLine row (LogLine level (("Row " +:+ pretty row) +:+ " " +:+ tail)) = true.
Proof.
  unfold isRowLine. rewrite <- (append_assoc ("Row " +:+ pretty row) " " tail).
  rewrite <- append_assoc. apply startsWith_append.
Qed.

Lemma isRowLine_row' (row : Z) (level tail : string) :
  isRowLine row (LogLine level ("Row " +:+ pretty row +:+ " " +:+ tail)) = true.
Proof.
  rewrite <- (append_assoc "Row " (pretty row)). apply isRowLine_row.
Qed.

Lemma existsb_app_l {A} (f : A -> bool) (a b : list A) :
  existsb f a = true -> existsb f (a ++ b) = true.
Proof. intros H. rewrite existsb_app, H. reflexivity. Qed.

Lemma existsb_app_r {A} (f : A -> bool) (a b : list A) :
  existsb f b = true -> existsb f (a ++ b) = true.
Proof. intros H. rewrite existsb_app, H. apply orb_true_r. Qed.

Lemma isCellWriteOf_isCellWrite (cfg : config) (col row : Z) (v : string)
    (evs : list event) :
  existsb (isCellWriteOf cfg col row v) evs = true ->
  existsb (isCellWrite cfg col row) evs = true.
Proof.
  induction evs as [|e evs IH]; [discriminate|]. cbn [existsb].
  rewrite !orb_true_iff. intros [H|H]; [left | right; apply IH, H].
  destruct e; try discriminate. cbn in *. apply andb_true_iff in H. apply H.
Qed.

Lemma isRowLine_spaced (row : Z) (level rest : string) :
  Js.startsWith " " rest = true ->
  isRowLine row (LogLine level (("Row " +:+ pretty row) +:+ rest)) = true.
Proof.
  destruct rest as [|c rest]; [discriminate|]. cbn [Js.startsWith].
  rewrite andb_true_iff. intros [Hc _]. apply Ascii.eqb_eq in Hc. subst c.
  apply (isRowLine_row row level rest).
Qed.

Lemma isRowLine_spaced' (row : Z) (level rest : string) :
  Js.startsWith " " rest = true ->
  isRowLine row (LogLine level ("Row " +:+ pretty row +:+ rest)) = true.
Proof.
  intros H. rewrite <- (append_assoc "Row " (pretty row)).
  apply isRowLine_spaced, H.
Qed.

Lemma recordWritten_app_r (cfg : config) (cols : columns) (p : participant)
    (seenBefore : gset string) (a b : list event) :
  recordWritten cfg cols p seenBefore b ->
  recordWritten cfg cols p seenBefore (a ++ b).
Proof.
  intros (H1 & H2 & H3). unfold recordWritten. cbv zeta.
  rewrite !existsb_app, H1, H2, !orb_true_r. repeat split.
  destruct H3 as [H3|[H3|H3]]; [left|right; left|right; right];
    rewrite ?H3, ?orb_true_r; auto.
Qed.

Ltac facts :=
  repeat match goal with
         | H : 0 <= ?c -> existsb (isCellWriteOf _ ?c _ _) _ = true |- _ =>
             specialize (H ltac:(assumption));
             let H' := fresh "Hw" in
             assert (H' := isCellWriteOf_isCellWrite _ _ _ _ _ H)
         end.

Ltac hit :=
  rewrite ?existsb_app;
  repeat match goal with
         | H : existsb ?f ?e = true |- context [existsb ?f ?e] => rewrite H
         end;
  cbn [existsb orb];
  rewrite ?isRowLine_spaced by reflexivity;
  rewrite ?isRowLine_spaced' by reflexivity;
  rewrite ?orb_true_r; reflexivity.

Section Processor.
Context (w : world) (cfg : config) (cols : columns).

Lemma update_run (col row : Z) (v label : string) (s : state) :
  emits (update w cfg col row v label) s
    (fun o evs _ =>
       o = Ret tt /\ noPermissionCall evs
       /\ (0 <= col -> existsb (isCellWriteOf cfg col row v) evs = true)).
Proof.
  unfold update, updateCellByIndex.
  destruct (0 <=? col) eqn:Hcol.
  - unfold updateCell. run. cbn [tick].
    destruct (w_values_update _ _ _ _); run;
      (split; [reflexivity|]); (split; [split; reflexivity|]); intros _;
      cbn; rewrite !String.eqb_refl; reflexivity.
  - run. split; [reflexivity|]. split; [split; reflexivity|].
    intros H. apply Z.leb_gt in Hcol. lia.
Qed.

Lemma grantLoop_settles (fileId email : string) (n a : nat) (s : state) :
  (a + S n = 6)%nat ->
  emits (grantLoop w cfg (S n) (Z.of_nat a) fileId email) s
    (fun o _ _ => o <> Pending).
Proof.
  revert a s. induction n as [|n IH]; intros a s Ha;
    rewrite RetryFacts.grantLoop_unfold; run;
    (eapply emits_mono; [apply throttle_run|]); intros o e1 s1 [-> _];
    unfold permissionsCreate; run; cbn [tick];
    destruct (w_permissions_create _ _ _ _ _) as [[]|err]; run;
    try discriminate;
    (eapply emits_mono; [apply dlog_run|]); intros o e2 s3 [-> _].
  - replace (Z.of_nat a + 1 <? 6) with false by (symmetry; apply Z.ltb_ge; lia).
    rewrite andb_false_r. run. discriminate.
  - destruct (isRetryableRateLimit err && (Z.of_nat a + 1 <? 6)); run;
      [|discriminate].
    replace (Z.of_nat a + 1) with (Z.of_nat (S a)) by lia.
    eapply emits_mono; [apply (IH (S a)); lia|]. intros o e3 s4 H. exact H.
Qed.

Lemma grantPermission_settles (fileId email : string) (s : state) :
  emits (grantPermission w cfg fileId email) s (fun o _ _ => o <> Pending).
Proof.
  unfold grantPermission. destruct (dryRun cfg); [run; discriminate|].
  apply (grantLoop_settles fileId email 5 0 s eq_refl).
Qed.

Hypothesis isSharedCol_found : 0 <= isSharedCol cols.
Hypothesis lastLogCol_found : 0 <= lastLogCol cols.
Hypothesis isFolderExistsCol_found : 0 <= isFolderExistsCol cols.

Ltac upd H :=
  (eapply emits_mono; [apply update_run|]);
  let o := fresh "o" in let e := fresh "e" in let s := fresh "s" in
  intros o e s (-> & _ & H); run.

Lemma catchBlock_written (p : participant) (start : Z) (error : jserror)
    (seenBefore : gset string) (s : state) :
  emits (catchBlock w cfg cols p start error) s
    (fun o evs _ => o = Ret tt /\ recordWritten cfg cols p seenBefore evs).
Proof.
  unfold catchBlock. run. upd H1. upd H2.
  split; [reflexivity|]. facts. unfold recordWritten. cbv zeta.
  split; [hit|]. split; [hit|]. left. hit.
Qed.

Lemma not_already_shared (p : participant) :
  isEligible p = true ->
  Js.truthy (isShared p) && String.eqb (Js.toLowerCase (isShared p)) "true"
  = false.
Proof.
  unfold isEligible. cbv zeta. intros H. apply andb_true_iff in H.
  destruct H as [H _]. apply negb_true_iff in H. rewrite H. apply andb_false_r.
Qed.

(** The [try] block either throws (a failed grant), or has written the
    record; it never stays pending. *)
Lemma tryBlock_written (p : participant) (start : Z) (s : state) :
  isEligible p = true ->
  emits (tryBlock w cfg cols p start) s
    (fun o evs _ =>
       match o with
       | Ret _ => recordWritten cfg cols p (seen s) evs
       | Throw _ => True
       | Pending => False
       end).
Proof.
  intros Helig. unfold tryBlock. cbv zeta.
  destruct (negb (isValidEmail (email p)) || negb (isGmail (email p))).
  { run. upd H1. upd H2. facts. unfold recordWritten. cbv zeta.
    split; [hit|]. split; [hit|]. left. hit. }
  run. cbn [seen]. fold (dedupKey p).
  destruct (bool_decide (dedupKey p ∈ seen s)) eqn:Hdup.
  { run. upd H1. facts. unfold recordWritten. cbv zeta.
    split; [hit|]. split; [hit|]. right. left.
    apply bool_decide_eq_true in Hdup. exact Hdup. }
  run. rewrite (not_already_shared p Helig). run.
  assert (Hfound :
    forall s0, emits (resolveFolder w cfg p) s0
      (fun o _ _ => exists r, o = Ret r)).
  { intros s0. unfold resolveFolder.
    destruct (Js.truthy (folderId p)); run; [eexists; reflexivity|].
    eapply emits_mono; [apply ResolverFacts.findFolderByName_settles|].
    intros ? ? ? [(r & ->) _]. run. eexists; reflexivity. }
  eapply emits_mono; [apply Hfound|]. intros ? ? ? (found & ->). run.
  destruct found as [fid|]; cbv beta iota;
    [destruct (Js.truthy fid); cbn [negb]; cbv iota|cbn [Js.truthy negb]; cbv iota].
  - run. upd H1.
    assert (Hid : forall st, emits
      (if negb (Js.truthy (folderId p))
       then update w cfg (folderIdCol cols) (rowIndex p) fid "FolderId"
       else ret tt) st (fun o _ _ => o = Ret tt)).
    { intros st. destruct (negb (Js.truthy (folderId p))); run; [|reflexivity].
      eapply emits_mono; [apply update_run|]. intros ? ? ? (-> & _). reflexivity. }
    eapply emits_mono; [apply Hid|]. intros ? ? ? ->. run.
    eapply emits_mono; [apply PermissionCheckFacts.hasPermission_total|].
    intros ? ? ? ((b & ->) & _). run.
    destruct b.
    + run. upd H2. upd H3. upd H4. facts. unfold recordWritten. cbv zeta.
      split; [hit|]. split; [hit|]. left. hit.
    + run. eapply emits_mono; [apply grantPermission_settles|].
      intros [g|err|] ? ? Hne; [|exact I|congruence].
      run. upd H2. upd H3. facts. unfold recordWritten. cbv zeta.
      split; [hit|]. split; [hit|]. left. hit.
  - run. upd H1. upd H2. facts. unfold recordWritten. cbv zeta.
    split; [hit|]. split; [hit|]. right. right. hit.
  - run. upd H1. upd H2. facts. unfold recordWritten. cbv zeta.
    split; [hit|]. split; [hit|]. right. right. hit.
Qed.

(** Every processed record is written, and the loop body always completes:
    no answer of the remote services, and no failed cell update, makes it
    throw or hang. *)
Lemma processOne_written (p : participant) (s : state) :
  isEligible p = true ->
  emits (processOne w cfg cols p) s
    (fun o evs _ => o = Ret tt /\ recordWritten cfg cols p (seen s) evs).
Proof.
  intros Helig. unfold processOne. run.
  eapply emits_mono; [apply (tryBlock_written p _ _ Helig)|].
  cbn [seen]. intros [[]|err|] e1 s1 H1; [| |contradiction].
  - run. split; [reflexivity|]. cbn [app]. rewrite ?app_nil_r. exact H1.
  - eapply emits_mono; [apply (catchBlock_written p _ err (seen s))|].
    intros o e2 s2 [-> H2]. split; [reflexivity|].
    cbn [app]. apply recordWritten_app_r, H2.
Qed.

End Processor.
End ProcessorFacts.

(** ** Outcomes of one record *)

Module OutcomeFacts.
Import Partition Worker Observe RunFacts ProcessorFacts.
Local Open Scope worker_scope.

Lemma startsWith_app_both (a b c : string) :
  Js.startsWith (a +:+ b) (a +:+ c) = Js.startsWith b c.
Proof.
  induction a as [|x a IH]; [reflexivity|].
  rewrite !append_cons. cbn [Js.startsWith]. rewrite Ascii.eqb_refl. exact IH.
Qed.

Lemma isLineWith_row (row : Z) (level pre rest : string) :
  Js.startsWith pre rest = true ->
  isLineWith (("Row " +:+ pretty row) +:+ pre)
             (LogLine level (("Row " +:+ pretty row) +:+ rest)) = true.
Proof. intros H. cbn [isLineWith]. rewrite startsWith_app_both. exact H. Qed.

Abbreviation calm := (always noErrorLine).

Ltac calmly L := apply L; try exact noError_nil; try exact noError_app.

Section Calm.
Context (w : world) (cfg : config).

Lemma calm_bind {A B} (m : M A) (k : A -> M B) :
  calm m -> (forall a, calm (k a)) -> calm (bind m k).
Proof. calmly (@always_bind noErrorLine). Qed.

Lemma calm_ret {A} (a : A) : calm (ret a).
Proof. calmly (@always_ret noErrorLine). Qed.

Lemma calm_throw {A} (e : jserror) : calm (@throw A e).
Proof. calmly (@always_throw noErrorLine). Qed.

Lemma calm_emit (e : event) : isErrorLine e = false -> calm (emit e).
Proof.
  intros H. apply always_emit. unfold noErrorLine. cbn [existsb].
  rewrite H. reflexivity.
Qed.

Lemma calm_dateNow : calm (dateNow w).
Proof. calmly (@always_dateNow noErrorLine). Qed.

Lemma calm_randomBelow (k : Z) : calm (randomBelow w k).
Proof. calmly (@always_randomBelow noErrorLine). Qed.

Lemma calm_nextTick : calm nextTick.
Proof. calmly (@always_nextTick noErrorLine). Qed.

Lemma calm_silent {A} (m : M A) :
  (forall s, trace (snd (m s)) = trace s) -> calm m.
Proof. calmly (@always_silent noErrorLine). Qed.

Lemma calm_throttle : calm (throttle w cfg).
Proof.
  unfold throttle. apply calm_bind; [apply calm_dateNow|]. intros now.
  apply calm_bind; [apply calm_silent; reflexivity|]. intros last.
  apply calm_bind.
  - destruct (_ <? _); [|apply calm_ret].
    apply calm_bind; [apply calm_randomBelow|]. intros j.
    apply calm_emit. reflexivity.
  - intros _. apply calm_bind; [apply calm_dateNow|]. intros t.
    apply calm_silent. reflexivity.
Qed.

Lemma calm_dlog (msg : string) : calm (dlog cfg msg).
Proof.
  unfold dlog. destruct (debugEnabled cfg); [|apply calm_ret].
  apply calm_emit. reflexivity.
Qed.

Lemma calm_hasPermissionLoop (fileId email role : string) (fuel : nat)
    (attempt : Z) :
  calm (hasPermissionLoop w cfg fuel attempt fileId email role).
Proof.
  revert attempt. induction fuel as [|fuel IH]; intros attempt.
  - calmly (@always_pending noErrorLine).
  - rewrite PermissionCheckFacts.hasPermissionLoop_unfold.
    apply calm_bind.
    + calmly (@always_try noErrorLine).
      apply calm_bind; [apply calm_throttle|]. intros _.
      apply calm_bind; [|intros perms; apply calm_ret].
      unfold permissionsList. apply calm_bind; [apply calm_nextTick|].
      intros t. apply calm_bind; [apply calm_emit; reflexivity|]. intros _.
      unfold settle. destruct (w_permissions_list w t fileId);
        [apply calm_ret | apply calm_throw].
    + intros [b|err]; [apply calm_ret|].
      apply calm_bind; [apply calm_dlog|]. intros _.
      destruct (_ && _); [|apply calm_throw].
      apply calm_bind; [apply calm_randomBelow|]. intros j.
      apply calm_bind; [apply calm_emit; reflexivity|]. intros _. apply IH.
Qed.

Lemma calm_hasPermission (fileId email role : string) :
  calm (hasPermission w cfg fileId email role).
Proof.
  unfold hasPermission. calmly (@always_tryCatch noErrorLine).
  - apply calm_hasPermissionLoop.
  - intros e. apply calm_ret.
Qed.

Lemma calm_grantLoop (fileId email : string) (fuel : nat) (attempt : Z) :
  calm (grantLoop w cfg fuel attempt fileId email).
Proof.
  revert attempt. induction fuel as [|fuel IH]; intros attempt.
  - calmly (@always_pending noErrorLine).
  - rewrite RetryFacts.grantLoop_unfold.
    apply calm_bind.
    + calmly (@always_try noErrorLine).
      apply calm_bind; [apply calm_throttle|]. intros _.
      unfold permissionsCreate. apply calm_bind; [apply calm_nextTick|].
      intros t. apply calm_bind; [apply calm_emit; reflexivity|]. intros _.
      unfold settle. destruct (w_permissions_create w t fileId email "reader");
        [apply calm_ret | apply calm_throw].
    + intros [b|err]; [apply calm_ret|].
      apply calm_bind; [apply calm_dlog|]. intros _.
      destruct (_ && _); [|apply calm_throw].
      apply calm_bind; [apply calm_randomBelow|]. intros j.
      apply calm_bind; [apply calm_emit; reflexivity|]. intros _. apply IH.
Qed.

Lemma calm_grantPermission (fileId email : string) :
  calm (grantPermission w cfg fileId email).
Proof.
  unfold grantPermission. destruct (dryRun cfg);
    [apply calm_ret | apply calm_grantLoop].
Qed.

Lemma calm_update (col row : Z) (v label : string) :
  0 <= col -> calm (update w cfg col row v label).
Proof.
  intros Hcol. unfold update, updateCellByIndex.
  replace (0 <=? col) with true by (symmetry; apply Z.leb_le; exact Hcol).
  unfold updateCell. apply calm_bind; [apply calm_nextTick|]. intros t.
  destruct (w_values_update _ _ _ _); apply calm_emit; reflexivity.
Qed.

End Calm.

Section Outcomes.
Context (w : world) (cfg : config) (cols : columns).

Lemma update_exact (col row : Z) (v label : string) (s : state) :
  0 <= col ->
  emits (update w cfg col row v label) s
    (fun o evs _ =>
       o = Ret tt
       /\ exists ok, evs = [ValuesUpdate (cellRange cfg (toCol col) row) v ok]).
Proof.
  intros Hcol. unfold update, updateCellByIndex.
  replace (0 <=? col) with true by (symmetry; apply Z.leb_le; exact Hcol).
  unfold updateCell. run. cbn [tick].
  destruct (w_values_update _ _ _ _); run;
    (split; [reflexivity | eexists; reflexivity]).
Qed.

Lemma update_ticks (col row : Z) (v label : string) (s : state) :
  0 <= col ->
  emits (update w cfg col row v label) s
    (fun o evs s' =>
       o = Ret tt
       /\ (exists ok, evs = [ValuesUpdate (cellRange cfg (toCol col) row) v ok])
       /\ tick s' = S (tick s) /\ st_stats s' = st_stats s /\ seen s' = seen s).
Proof.
  intros Hcol. unfold update, updateCellByIndex.
  replace (0 <=? col) with true by (symmetry; apply Z.leb_le; exact Hcol).
  unfold updateCell. run. cbn [tick].
  destruct (w_values_update _ _ _ _); run;
    (split; [reflexivity|]); (split; [eexists; reflexivity|]);
    repeat split.
Qed.

(** A record whose email fails the format or the domain check: the status
    cell receives FALSE, the last-log cell and the log file the reason, and
    nothing else happens.  The time shown is the one between the two clock
    readings of the turn. *)
Lemma processOne_invalid_email (p : participant) (s : state) :
  0 <= isSharedCol cols -> 0 <= lastLogCol cols ->
  isValidEmail (email p) && isGmail (email p) = false ->
  emits (processOne w cfg cols p) s
    (fun o evs s' =>
       o = Ret tt
       /\ (exists ok1 ok2,
            evs = [ValuesUpdate (cellRange cfg (toCol (isSharedCol cols))
                                   (rowIndex p)) "FALSE" ok1;
                   ValuesUpdate (cellRange cfg (toCol (lastLogCol cols))
                                   (rowIndex p))
                     (Ledger.skipNote w s p) ok2;
                   LogLine "INFO" (Ledger.skipLine w s p)])
       /\ st_stats s' = bumpSkipped (bumpTotal (st_stats s))
       /\ seen s' = seen s).
Proof.
  intros Hs Hl Hbad. unfold processOne. run. unfold tryBlock. cbv zeta.
  replace (negb (isValidEmail (email p)) || negb (isGmail (email p))) with true
    by (rewrite <- negb_andb, Hbad; reflexivity).
  run. cbn [tick st_stats seen].
  eapply emits_mono; [apply (update_ticks _ _ _ _ _ Hs)|].
  intros ? ? s1 (-> & (ok1 & ->) & Ht1 & Hst1 & Hse1).
  cbn [tick st_stats seen] in Ht1, Hst1, Hse1. run.
  eapply emits_mono; [apply (update_ticks _ _ _ _ _ Hl)|].
  intros ? ? s2 (-> & (ok2 & ->) & Ht2 & Hst2 & Hse2).
  cbn [tick st_stats seen] in Ht2, Hst2, Hse2. run.
  cbn [tick st_stats seen setTrace] in *.
  split; [reflexivity|]. split; [|split].
  - exists ok1, ok2. cbn [app]. rewrite Ht1.
    change (Js.toUpperCase "info") with "INFO". reflexivity.
  - rewrite Hst2, Hst1. reflexivity.
  - rewrite Hse2, Hse1. reflexivity.
Qed.

Lemma resolvesTo_truthy (p : participant) (fid : string) :
  resolvesTo w cfg p fid -> Js.truthy fid = true.
Proof. intros [[Ht ->]|(_ & Hfid & _)]; assumption. Qed.

Lemma resolveFolder_run (p : participant) (fid : string) (s0 : state) :
  resolvesTo w cfg p fid ->
  emits (resolveFolder w cfg p) s0
    (fun o evs _ => o = Ret (Some fid) /\ creates evs = [] /\ noErrorLine evs).
Proof.
  unfold resolveFolder. intros [[Ht ->]|(Hf & _ & Hfind)].
  - rewrite Ht. run. repeat split.
  - rewrite Hf. run. apply emits_fst.
    eapply emits_mono;
      [apply (ResolverFacts.search_findFolderByName_settles
                (fun evs => noPermissionCall evs /\ noErrorLine evs));
       [split; [exact ResolverFacts.noCall_nil | exact noError_nil]
       |intros a b [? ?] [? ?];
        split; [apply ResolverFacts.noCall_app | apply noError_app]; assumption
       |..]; intros; split; (split; reflexivity) || reflexivity|].
    intros ? ? ? [(r & ->) [[Hc _] Hn]] Hfst. rewrite Hfind in Hfst.
    injection Hfst as ->. run. split; [reflexivity|].
    cbn [app]. rewrite ?app_nil_r. split; assumption.
Qed.

(** The path of a valid, new, eligible record whose folder resolves to
    [fid], once the permission check has answered [has] and, if it comes to
    that, the grant has gone through. *)
Lemma processOne_after_check (p : participant) (s : state) (fid : string)
    (has : bool) (sent : list event)
    (HfolderId : 0 <= folderIdCol cols)
    (HisShared : 0 <= isSharedCol cols)
    (HisFolderExists : 0 <= isFolderExistsCol cols)
    (HlastLog : 0 <= lastLogCol cols)
    (Hvalid : isValidEmail (email p) && isGmail (email p) = true)
    (Hnew : dedupKey p ∉ seen s)
    (Helig : isEligible p = true)
    (Hres : resolvesTo w cfg p fid)
    (Hcheck : forall s0,
        emits (hasPermission w cfg fid (email p) "reader") s0
          (fun o evs _ => o = Ret has /\ creates evs = []))
    (Hgrant : has = false -> forall s0,
        emits (grantPermission w cfg fid (email p)) s0
          (fun o evs _ => (exists g, o = Ret g) /\ creates evs = sent)) :
  emits (processOne w cfg cols p) s
    (fun o evs _ =>
       o = Ret tt
       /\ creates evs = (if has then [] else sent)
       /\ existsb (isCellWriteOf cfg (isSharedCol cols) (rowIndex p) "TRUE") evs
          = true
       /\ existsb (isLineWith
                     (("Row " +:+ pretty (rowIndex p))
                      +:+ (if has then " SKIP already has reader"
                           else if dryRun cfg then " DRY_RUN reader -> "
                                else " GRANTED reader -> "))) evs = true
       /\ noErrorLine evs).
Proof.
  unfold processOne. run. unfold tryBlock. cbv zeta.
  replace (negb (isValidEmail (email p)) || negb (isGmail (email p))) with false
    by (rewrite <- negb_andb, Hvalid; reflexivity).
  run. cbn [seen]. fold (dedupKey p).
  rewrite (bool_decide_eq_false_2 _ Hnew). run.
  rewrite (not_already_shared p Helig). run.
  eapply emits_mono; [apply (resolveFolder_run p fid _ Hres)|].
  intros ? e0 ? (-> & Hc0 & Hn0). run.
  cbv beta iota. rewrite (resolvesTo_truthy p fid Hres). cbn [negb]. cbv iota. run.
  eapply emits_mono; [apply (update_exact _ _ _ _ _ HisFolderExists)|].
  intros ? ? ? (-> & ok1 & ->). run.
  assert (Hid : forall st, emits
    (if negb (Js.truthy (folderId p))
     then update w cfg (folderIdCol cols) (rowIndex p) fid "FolderId"
     else ret tt) st
    (fun o evs _ => o = Ret tt /\ creates evs = [] /\ noErrorLine evs)).
  { intros st. destruct (negb (Js.truthy (folderId p))); run;
      [|repeat split].
    eapply emits_mono; [apply (update_exact _ _ _ _ _ HfolderId)|].
    intros ? ? ? (-> & ok & ->). repeat split. }
  eapply emits_mono; [apply Hid|]. intros ? e2 ? (-> & Hc2 & Hn2). run.
  apply (emits_and_calm noErrorLine); [apply calm_hasPermission|].
  eapply emits_mono; [apply Hcheck|]. intros ? e3 ? (-> & Hc3) Hn3. run.
  destruct has.
  - run.
    eapply emits_mono; [apply (update_exact _ _ _ _ _ HisShared)|].
    intros ? ? ? (-> & ok4 & ->). run.
    eapply emits_mono; [apply (update_exact _ _ _ _ _ HlastLog)|].
    intros ? ? ? (-> & ok5 & ->). run.
    eapply emits_mono; [apply (update_exact _ _ _ _ _ HisShared)|].
    intros ? ? ? (-> & ok6 & ->). run.
    split; [reflexivity|]. split; [|split; [|split]].
    + project. rewrite Hc0, Hc2, Hc3. reflexivity.
    + rewrite ?existsb_app. cbn [existsb orb isCellWriteOf].
      rewrite !String.eqb_refl. cbn [andb orb]. rewrite ?orb_true_r. reflexivity.
    + rewrite ?existsb_app. cbn [existsb orb].
      rewrite isLineWith_row by reflexivity. rewrite ?orb_true_r. reflexivity.
    + repeat apply noError_app; try assumption; reflexivity.
  - run.
    apply (emits_and_calm noErrorLine); [apply calm_grantPermission|].
    eapply emits_mono; [apply (Hgrant eq_refl)|].
    intros ? e4 ? ((g & ->) & Hc4) Hn4. run.
    eapply emits_mono; [apply (update_exact _ _ _ _ _ HisShared)|].
    intros ? ? ? (-> & ok5 & ->). run.
    eapply emits_mono; [apply (update_exact _ _ _ _ _ HlastLog)|].
    intros ? ? ? (-> & ok6 & ->). run.
    split; [reflexivity|]. split; [|split; [|split]].
    + project. rewrite Hc0, Hc2, Hc3, Hc4.
      rewrite ?app_nil_r. reflexivity.
    + rewrite ?existsb_app. cbn [existsb orb isCellWriteOf].
      rewrite !String.eqb_refl. cbn [andb orb]. rewrite ?orb_true_r. reflexivity.
    + rewrite ?existsb_app. cbn [existsb orb].
      destruct (dryRun cfg);
        rewrite isLineWith_row by reflexivity; rewrite ?orb_true_r; reflexivity.
    + repeat apply noError_app; try assumption; reflexivity.
Qed.

Lemma filter_identity_prefilter (ps : list participant) :
  List.filter hasIdentity
    (List.map normalize (List.filter (fun p => hasIdentity (normalize p)) ps))
  = List.filter hasIdentity (List.map normalize ps).
Proof.
  induction ps as [|p ps IH]; [reflexivity|]. cbn [List.filter List.map].
  destruct (hasIdentity (normalize p)) eqn:Hp; cbn [List.filter List.map];
    rewrite ?Hp, IH; reflexivity.
Qed.

(** C3, as the code has it. A record whose name or email is empty after
    trimming is dropped before the processing loop: taking such records out
    of the rows read changes nothing in what [processParticipants] does (no
    outcome, no write, no resolution for them), and every record the cycle
    works on has a non-empty name and email. The persisted SKIP is what a
    record with a name and a malformed or non-Gmail email gets. The turn
    of the loop for it has exactly three effects: FALSE goes to its status
    cell, the text "[time] SKIP: reason 'email' (n ms)" to its last-log
    cell and the line "Row r SKIP reason: email - Time: n ms" to the log
    file, where the reason is INVALID EMAIL FORMAT when the address fails
    the format and NOT GMAIL ACCOUNT otherwise; the record is counted as
    skipped, its key is not recorded, and no resolution takes place. *)
Theorem blank_records_dropped (ps : list participant) (p : participant)
    (s : state)
    (HisShared : 0 <= isSharedCol cols) (HlastLog : 0 <= lastLogCol cols)
    (Hbad : isValidEmail (email p) && isGmail (email p) = false) :
  processParticipants w cfg cols
    (List.filter (fun q => hasIdentity (normalize q)) ps) s
  = processParticipants w cfg cols ps s
  /\ List.Forall (fun q => nama q <> EmptyString /\ email q <> EmptyString)
       (workingParticipants (shardTotal cfg) (shardIndex cfg) (maxPerRunOf cfg) ps)
  /\ exists s' ok1 ok2,
       processOne w cfg cols p s = (Ret tt, s')
       /\ trace s'
          = trace s
            ++ [ValuesUpdate (cellRange cfg (toCol (isSharedCol cols))
                                (rowIndex p)) "FALSE" ok1;
                ValuesUpdate (cellRange cfg (toCol (lastLogCol cols))
                                (rowIndex p))
                  (Ledger.skipNote w s p) ok2;
                LogLine "INFO" (Ledger.skipLine w s p)]
       /\ st_stats s' = bumpSkipped (bumpTotal (st_stats s))
       /\ seen s' = seen s.
Proof.
  split; [|split].
  - unfold processParticipants. rewrite filter_identity_prefilter. reflexivity.
  - apply List.Forall_forall. intros q Hq. unfold workingParticipants in Hq.
    apply EligibilityFacts.In_slice0, EligibilityFacts.In_prioritize,
      EligibilityFacts.In_applySharding in Hq.
    apply filter_In in Hq. destruct Hq as [Hq _].
    apply filter_In in Hq. destruct Hq as [_ Hid].
    unfold hasIdentity in Hid. apply andb_true_iff in Hid.
    destruct Hid as [Hn He].
    split; [destruct (nama q) | destruct (email q)]; discriminate.
  - destruct (emits_run _ _ _ (processOne_invalid_email p s HisShared HlastLog Hbad))
      as (o & s' & evs & Hrun & Ht & -> & (ok1 & ok2 & ->) & Hst & Hse).
    exists s', ok1, ok2. repeat split; assumption.
Qed.

End Outcomes.

Lemma blank_records_dropped_witness :
  processParticipants Samples.calmWorld Samples.cfg0 Samples.cols0
    (List.filter (fun q => hasIdentity (normalize q)) [Samples.blankRecord])
    Samples.state0
  = processParticipants Samples.calmWorld Samples.cfg0 Samples.cols0
      [Samples.blankRecord] Samples.state0.
Proof.
  apply (blank_records_dropped Samples.calmWorld Samples.cfg0 Samples.cols0
           [Samples.blankRecord] Samples.badEmailRecord Samples.state0).
  - vm_compute. discriminate.
  - vm_compute. discriminate.
  - vm_compute. reflexivity.
Defined.

(** The claim as worded fails on a row whose name is blank: the cycle
    writes its marker and its summary to the log and nothing to the sheet. *)
Lemma blank_record_is_skipped_fails : ~ blankRecordIsSkipped.
Proof.
  intros H.
  destruct (H Samples.calmWorld Samples.cfg0 Samples.cols0 Samples.blankRecord
              Samples.state0 eq_refl) as (evs & Ht & Hstatus & _).
  vm_compute in Ht. subst evs. vm_compute in Hstatus. discriminate Hstatus.
Qed.

(** A name made of no-break spaces is blank too, and so is an email made
    of tabs. *)
Example blank_names_and_emails :
  List.map (fun q => hasIdentity (normalize q))
    [Samples.blankRecord; Samples.nbspRecord; Samples.tabEmailRecord;
     Samples.badEmailRecord]
  = [false; false; false; true]
  /\ trace (snd (processParticipants Samples.calmWorld Samples.cfg0 Samples.cols0
                   [Samples.nbspRecord; Samples.tabEmailRecord] Samples.state0))
     = [LogLine "INFO" "Processing 0 participants. parentFolderId=";
        LogLine "INFO" "Summary: total=0 done=0 skipped=0 errors=0 successRate=0%"].
Proof. vm_compute. split; reflexivity. Qed.

(** The persisted SKIP of a record whose email is malformed. *)
Example bad_email_trace :
  trace (snd (processOne Samples.calmWorld Samples.cfg0 Samples.cols0
                Samples.badEmailRecord Samples.state0))
  = [ValuesUpdate "Peserta!D8" "FALSE" true;
     ValuesUpdate "Peserta!F8"
       "[01/01/2025, 07.00.00] SKIP: INVALID EMAIL FORMAT 'citra-at-gmail' (0ms)"
       true;
     LogLine "INFO" "Row 8 SKIP INVALID EMAIL FORMAT: citra-at-gmail - Time: 0ms"].
Proof. vm_compute. reflexivity. Qed.

Example blank_record_trace :
  trace (snd (processParticipants Samples.calmWorld Samples.cfg0 Samples.cols0
                [Samples.blankRecord] Samples.state0))
  = [LogLine "INFO" "Processing 0 participants. parentFolderId=";
     LogLine "INFO" "Summary: total=0 done=0 skipped=0 errors=0 successRate=0%"].
Proof. vm_compute. reflexivity. Qed.

End OutcomeFacts.

(** ** The claims on the record state machine *)

Module RecordFacts.
Import Partition Worker Observe RunFacts ProcessorFacts OutcomeFacts.
Local Open Scope worker_scope.

Section Records.
Context (w : world) (cfg : config) (cols : columns).

(** The loop goes through its whole list. *)
Lemma forEach_completes (l : list participant) (s : state) :
  0 <= isSharedCol cols -> 0 <= lastLogCol cols -> 0 <= isFolderExistsCol cols ->
  List.Forall (fun p => isEligible p = true) l ->
  emits (forEach w cfg cols l) s (fun o _ _ => o = Ret tt).
Proof.
  intros Hs Hl Hf Hall. revert s. induction Hall as [|p l Hp Hall IH]; intros s.
  - cbn [forEach]. run. reflexivity.
  - cbn [forEach]. run.
    eapply emits_mono; [apply (processOne_written w cfg cols Hs Hl Hf p s Hp)|].
    intros ? ? ? [-> _]. eapply emits_mono; [apply IH|].
    intros ? ? ? ->. reflexivity.
Qed.

(** C10. [hasPermission] settles with a boolean for every input and lists
    at most five times; when every listing is rejected with a retryable
    error it lists exactly 5 times and answers false, when the listing is
    rejected with another error it answers false after that one call; and
    a valid, new, eligible record with a resolved folder whose permission
    check fails is then granted: outside dry-run mode, with a create call
    that goes through, the loop body issues exactly that create call,
    writes TRUE to the status cell, logs the GRANTED line and no line of
    level ERROR. *)
Theorem permission_check_never_raises
    (fileId email role : string) (p : participant) (fid : string) (s : state) :
  (exists b s' evs,
      hasPermission w cfg fileId email role s = (Ret b, s')
      /\ trace s' = trace s ++ evs
      /\ creates evs = [] /\ (List.length (lists evs) <= 5)%nat)
  /\ ((forall t, exists err,
          w_permissions_list w t fileId = Rejected err
          /\ isRetryableRateLimit err = true) ->
      exists s' evs,
        hasPermission w cfg fileId email role s = (Ret false, s')
        /\ trace s' = trace s ++ evs
        /\ lists evs = repeat (PermissionsList fileId) 5
        /\ Forall2 isBackoff [1; 2; 3; 4] (backoffs evs))
  /\ (forall err,
        (forall t, w_permissions_list w t fileId = Rejected err) ->
        isRetryableRateLimit err = false ->
        exists s' evs,
          hasPermission w cfg fileId email role s = (Ret false, s')
          /\ trace s' = trace s ++ evs
          /\ lists evs = [PermissionsList fileId] /\ backoffs evs = [])
  /\ (0 <= folderIdCol cols -> 0 <= isSharedCol cols ->
      0 <= isFolderExistsCol cols -> 0 <= lastLogCol cols ->
      isValidEmail (Partition.email p) && isGmail (Partition.email p) = true ->
      dedupKey p ∉ seen s ->
      isEligible p = true ->
      resolvesTo w cfg p fid ->
      dryRun cfg = false ->
      (forall t, exists err, w_permissions_list w t fid = Rejected err) ->
      (forall t, w_permissions_create w t fid (Partition.email p) "reader"
                 = Fulfilled tt) ->
      exists s' evs,
        processOne w cfg cols p s = (Ret tt, s')
        /\ trace s' = trace s ++ evs
        /\ creates evs = [PermissionsCreate fid (Partition.email p) "reader"]
        /\ existsb (isCellWriteOf cfg (isSharedCol cols) (rowIndex p) "TRUE") evs
           = true
        /\ existsb (isLineWith (("Row " +:+ pretty (rowIndex p))
                                +:+ " GRANTED reader -> ")) evs = true
        /\ noErrorLine evs).
Proof.
  split; [|split; [|split]].
  - destruct (emits_run _ _ _
                (PermissionCheckFacts.hasPermission_total w cfg fileId email role s))
      as (o & s' & evs & Hrun & Ht & (b & ->) & Hc & Hl).
    exists b, s', evs. repeat split; assumption.
  - intros Hfail.
    destruct (emits_run _ _ _
                (PermissionCheckFacts.hasPermission_exhausted w cfg fileId email
                   role s Hfail))
      as (o & s' & evs & Hrun & Ht & -> & _ & Hl & Hb).
    exists s', evs. repeat split; assumption.
  - intros err Hfail Hfinal.
    destruct (emits_run _ _ _
                (PermissionCheckFacts.hasPermission_gives_up w cfg fileId email
                   role s err Hfail Hfinal))
      as (o & s' & evs & Hrun & Ht & -> & _ & Hl & Hb).
    exists s', evs. repeat split; assumption.
  - intros H1 H2 H3 H4 Hvalid Hnew Helig Hres Hwet Hfail Hok.
    assert (Hcheck : forall s0,
        emits (hasPermission w cfg fid (Partition.email p) "reader") s0
          (fun o evs _ => o = Ret false /\ creates evs = [])).
    { intros s0. apply PermissionCheckFacts.hasPermission_failed, Hfail. }
    assert (Hgrant : false = false -> forall s0,
        emits (grantPermission w cfg fid (Partition.email p)) s0
          (fun o evs _ =>
             (exists g, o = Ret g)
             /\ creates evs = [PermissionsCreate fid (Partition.email p) "reader"])).
    { intros _ s0.
      eapply emits_mono;
        [apply (RetryFacts.grantPermission_created w cfg fid (Partition.email p)
                  s0 Hwet Hok)|].
      intros ? ? ? [-> Hc]. split; [eexists; reflexivity | exact Hc]. }
    destruct (emits_run _ _ _
                (processOne_after_check w cfg cols p s fid false _
                   H1 H2 H3 H4 Hvalid Hnew Helig Hres Hcheck Hgrant))
      as (o & s' & evs & Hrun & Ht & -> & Hc & Hw & Hline & Hn).
    rewrite Hwet in Hline.
    exists s', evs. repeat split; assumption.
Qed.

End Records.

Lemma permission_check_never_raises_witness :
  exists s' evs,
    processOne (Samples.listFails Samples.deniedError) Samples.cfg0
      Samples.cols0 Samples.sampleRecord Samples.state0 = (Ret tt, s')
    /\ trace s' = trace Samples.state0 ++ evs
    /\ creates evs = [PermissionsCreate "abc" "b@gmail.com" "reader"]
    /\ existsb (isCellWriteOf Samples.cfg0 (isSharedCol Samples.cols0)
                  (rowIndex Samples.sampleRecord) "TRUE") evs = true
    /\ existsb (isLineWith (("Row " +:+ pretty (rowIndex Samples.sampleRecord))
                            +:+ " GRANTED reader -> ")) evs = true
    /\ noErrorLine evs.
Proof.
  apply (permission_check_never_raises (Samples.listFails Samples.deniedError)
           Samples.cfg0 Samples.cols0 "abc" "b@gmail.com" "reader"
           Samples.sampleRecord "abc" Samples.state0).
  - vm_compute. discriminate.
  - vm_compute. discriminate.
  - vm_compute. discriminate.
  - vm_compute. discriminate.
  - vm_compute. reflexivity.
  - apply not_elem_of_empty.
  - reflexivity.
  - left. split; reflexivity.
  - reflexivity.
  - intros t. exists Samples.deniedError. reflexivity.
  - intros t. reflexivity.
Defined.


Example duplicate_row_trace :
  skipn (List.length (trace Samples.afterFirst))
    (trace (snd (processOne Samples.calmWorld Samples.cfg0 Samples.cols0
                   Samples.sampleRecord Samples.afterFirst)))
  = [ValuesUpdate "Peserta!F2"
       "[01/01/2025, 07.00.00] SKIP: Duplicate entry (0ms)" true;
     LogLine "INFO" "Row 2 SKIP duplicate: Budi|b@gmail.com - Time: 0ms"].
Proof. vm_compute. reflexivity. Qed.

End RecordFacts.

(** * Further properties of the code *)

(** ** Partitioner and batch ordering *)

Module PartitionMore.
Import Partition Reference.

Lemma mod_two32_toInt32 (x : Z) : toInt32 x mod two32 = x mod two32.
Proof.
  unfold toInt32, two32.
  rewrite Zminus_mod, Zmod_mod, <- Zminus_mod.
  f_equal. lia.
Qed.

Lemma hashStep_mod (h h' c : Z) :
  h mod two32 = h' mod two32 ->
  hashStep h c mod two32 = (33 * h' + c) mod two32.
Proof.
  intros Hh. unfold hashStep, shl32.
  rewrite mod_two32_toInt32.
  rewrite Z.shiftl_mul_pow2 by lia.
  rewrite <- Z.add_assoc, Zplus_mod, mod_two32_toInt32.
  rewrite Zmult_mod, mod_two32_toInt32, <- Zmult_mod, <- Zplus_mod.
  replace (33 * h' + c) with (h' * 2 ^ 5 + (h' + c)) by lia.
  rewrite (Zplus_mod (h * 2 ^ 5)), (Zplus_mod (h' * 2 ^ 5)).
  rewrite (Zmult_mod h), (Zmult_mod h'), Hh.
  rewrite (Zplus_mod h c), (Zplus_mod h' c), Hh. reflexivity.
Qed.

Lemma hash_fold_mod (cs : list Z) (h h' : Z) :
  h mod two32 = h' mod two32 ->
  fold_left hashStep cs h mod two32
  = fold_left (fun a c => 33 * a + c) cs h' mod two32.
Proof.
  revert h h'. induction cs as [|c cs IH]; intros h h' Hh; [exact Hh|].
  cbn [fold_left]. apply IH, hashStep_mod, Hh.
Qed.

(** X1. [hashKey] is the djb2 hash reduced modulo 2^32: truncating to 32
    bits after every character, as the loop does with [<< 5] and [| 0],
    gives the same value as truncating the exact polynomial once, for code
    units of any size. *)
Theorem hashKey_is_djb2_mod_2_32 (cs : list Z) (key : string) :
  hashCodes cs = djb2 cs mod 2 ^ 32
  /\ hashKey key = djb2 (Js.charCodes key) mod 2 ^ 32.
Proof.
  assert (H : forall l, hashCodes l = djb2 l mod 2 ^ 32).
  { intros l. unfold hashCodes, toUint32, djb2.
    apply (hash_fold_mod l 5381 5381). reflexivity. }
  split; [apply H | apply H].
Qed.

Lemma list_sum_cons (x : nat) (l : list nat) :
  list_sum (x :: l) = (x + list_sum l)%nat.
Proof. reflexivity. Qed.

Lemma sum_indicator (k start n : nat) :
  (start <= k < start + n)%nat ->
  list_sum (List.map (fun i => if Nat.eqb i k then 1%nat else 0%nat) (seq start n))
  = 1%nat.
Proof.
  revert start. induction n as [|n IH]; intros start Hk; [lia|].
  cbn [seq List.map]. rewrite list_sum_cons. destruct (Nat.eqb start k) eqn:E.
  - apply Nat.eqb_eq in E. subst start.
    assert (Hz : forall m a, (k < a)%nat ->
              list_sum (List.map (fun i => if Nat.eqb i k then 1%nat else 0%nat)
                                 (seq a m)) = 0%nat).
    { induction m as [|m IHm]; intros a Ha; [reflexivity|].
      cbn [seq List.map]. rewrite list_sum_cons.
      replace (Nat.eqb a k) with false by (symmetry; apply Nat.eqb_neq; lia).
      rewrite IHm by lia. reflexivity. }
    rewrite Hz by lia. reflexivity.
  - apply Nat.eqb_neq in E. rewrite IH by lia. reflexivity.
Qed.

Lemma inShard_slot (n i : nat) (p : participant) :
  (0 < n)%nat ->
  inShard (Z.of_nat n) (Z.of_nat i) p
  = Nat.eqb i (Z.to_nat (owningSlot (shardKey p) (Z.of_nat n))).
Proof.
  intros Hn. unfold inShard. fold (owningSlot (shardKey p) (Z.of_nat n)).
  pose proof (PartitionFacts.owningSlot_range (shardKey p) (Z.of_nat n) ltac:(lia)).
  destruct (Nat.eqb i _) eqn:E.
  - apply Nat.eqb_eq in E. apply Z.eqb_eq. lia.
  - apply Nat.eqb_neq in E. apply Z.eqb_neq. lia.
Qed.

Lemma shardSizes_cons (n : nat) (p : participant) (l : list participant) :
  (0 < n)%nat ->
  list_sum (shardSizes n (p :: l)) = S (list_sum (shardSizes n l)).
Proof.
  intros Hn. unfold shardSizes, applySharding.
  replace (0 <? Z.of_nat n) with true by (symmetry; apply Z.ltb_lt; lia).
  set (k := Z.to_nat (owningSlot (shardKey p) (Z.of_nat n))).
  assert (Hk : (k < n)%nat).
  { pose proof (PartitionFacts.owningSlot_range (shardKey p) (Z.of_nat n) ltac:(lia)).
    unfold k. lia. }
  assert (Hsplit : forall start m,
    list_sum (List.map (fun i => List.length
                (List.filter (inShard (Z.of_nat n) (Z.of_nat i)) (p :: l)))
                (seq start m))
    = (list_sum (List.map (fun i => if Nat.eqb i k then 1 else 0) (seq start m))
       + list_sum (List.map (fun i => List.length
                (List.filter (inShard (Z.of_nat n) (Z.of_nat i)) l))
                (seq start m)))%nat).
  { intros start m. revert start. induction m as [|m IHm]; intros start;
      [reflexivity|].
    cbn [seq List.map List.filter]. rewrite !list_sum_cons, IHm.
    rewrite (inShard_slot n start p Hn). fold k.
    destruct (Nat.eqb start k); cbn [List.length]; lia. }
  rewrite Hsplit, sum_indicator by lia. reflexivity.
Qed.

(** X2. With n > 0 workers the shards partition the records: every record
    is kept by the sharding filter of exactly one worker index in [0, n),
    and the shard sizes of any list add up to its length, so no record is
    processed by two workers and none by no worker. *)
Theorem shards_partition (n : nat) (p : participant) (l : list participant)
    (Hn : (0 < n)%nat) :
  (exists idx, (idx < n)%nat
               /\ inShard (Z.of_nat n) (Z.of_nat idx) p = true
               /\ forall j, inShard (Z.of_nat n) j p = true -> j = Z.of_nat idx)
  /\ list_sum (shardSizes n l) = List.length l.
Proof.
  split.
  - pose proof (PartitionFacts.owningSlot_range (shardKey p) (Z.of_nat n) ltac:(lia))
      as Hr.
    exists (Z.to_nat (owningSlot (shardKey p) (Z.of_nat n))).
    split; [lia|]. split.
    + rewrite inShard_slot by exact Hn. apply Nat.eqb_refl.
    + intros j Hj. unfold inShard in Hj. apply Z.eqb_eq in Hj.
      unfold owningSlot in *. lia.
  - induction l as [|q l IH].
    + unfold shardSizes, applySharding.
      replace (0 <? Z.of_nat n) with true by (symmetry; apply Z.ltb_lt; lia).
      cbn [List.filter List.length].
      induction (seq 0 n) as [|a r IHr]; [reflexivity | exact IHr].
    + rewrite shardSizes_cons by exact Hn. cbn [List.length]. rewrite IH.
      reflexivity.
Qed.

Lemma shards_partition_witness :
  list_sum (shardSizes 4 [Samples.sampleRecord; Samples.blankRecord;
                          Samples.badEmailRecord]) = 3%nat.
Proof.
  apply (shards_partition 4 Samples.sampleRecord
           [Samples.sampleRecord; Samples.blankRecord; Samples.badEmailRecord]).
  lia.
Defined.

End PartitionMore.

Module BatchOrder.
Import Partition Reference.

Lemma filter_filter_and {A} (f g : A -> bool) (l : list A) :
  List.filter f (List.filter g l) = List.filter (fun x => g x && f x) l.
Proof.
  induction l as [|x l IH]; [reflexivity|]. cbn [List.filter].
  destruct (g x); cbn [List.filter andb]; [destruct (f x)|]; rewrite IH; reflexivity.
Qed.

Lemma filter_none {A} (f : A -> bool) (l : list A) :
  (forall x, f x = false) -> List.filter f l = [].
Proof.
  intros H. induction l as [|x l IH]; [reflexivity|].
  cbn [List.filter]. rewrite H. exact IH.
Qed.

Lemma prioritize_permutation (l : list participant) :
  Permutation (prioritize l) l.
Proof.
  unfold prioritize. cbv zeta. induction l as [|a l IH]; [constructor|].
  cbn [List.filter]. destruct (Js.truthy (folderId a)); cbn [negb andb].
  - cbn [app]. constructor. exact IH.
  - destruct (folderMissing a); cbn [negb].
    + rewrite app_assoc. etransitivity; [symmetry; apply Permutation_middle|].
      constructor. rewrite <- app_assoc. exact IH.
    + etransitivity; [symmetry; apply Permutation_middle|].
      constructor. exact IH.
Qed.

Lemma prioritize_idempotent (l : list participant) :
  prioritize (prioritize l) = prioritize l.
Proof.
  unfold prioritize. cbv zeta. rewrite !List.filter_app, !filter_filter_and.
  set (f := fun p => Js.truthy (folderId p)).
  set (g := fun p => negb (Js.truthy (folderId p)) && negb (folderMissing p)).
  set (h := fun p => negb (Js.truthy (folderId p)) && folderMissing p).
  rewrite (List.filter_ext (fun x => f x && f x) f)
    by (intros x; apply andb_diag).
  rewrite (filter_none (fun x => g x && f x))
    by (intros x; unfold f, g; destruct (Js.truthy _), (folderMissing _); reflexivity).
  rewrite (filter_none (fun x => h x && f x))
    by (intros x; unfold f, h; destruct (Js.truthy _), (folderMissing _); reflexivity).
  rewrite (filter_none (fun x => f x && g x))
    by (intros x; unfold f, g; destruct (Js.truthy _), (folderMissing _); reflexivity).
  rewrite (List.filter_ext (fun x => g x && g x) g)
    by (intros x; apply andb_diag).
  rewrite (filter_none (fun x => h x && g x))
    by (intros x; unfold g, h; destruct (Js.truthy _), (folderMissing _); reflexivity).
  rewrite (filter_none (fun x => f x && h x))
    by (intros x; unfold f, h; destruct (Js.truthy _), (folderMissing _); reflexivity).
  rewrite (filter_none (fun x => g x && h x))
    by (intros x; unfold g, h; destruct (Js.truthy _), (folderMissing _); reflexivity).
  rewrite (List.filter_ext (fun x => h x && h x) h)
    by (intros x; apply andb_diag).
  rewrite !app_nil_r. reflexivity.
Qed.

(** X3. Prioritisation loses and repeats nothing: the prioritised list is
    a permutation of the shard's records, made of the records with a folder
    identifier, then those without one and not marked folder-missing, then
    those marked folder-missing; prioritising again changes nothing; and
    with a batch limit [m >= 0] the cycle works on the first [m] of them,
    the others being left as they are for a later cycle. *)
Theorem prioritize_reorders_then_caps (l : list participant) (m : Z)
    (Hm : 0 <= m) :
  Permutation (prioritize l) l
  /\ prioritize (prioritize l) = prioritize l
  /\ (exists a b c,
        prioritize l = a ++ b ++ c
        /\ List.Forall (fun p => folderId p <> EmptyString) a
        /\ List.Forall (fun p => folderId p = EmptyString
                                 /\ folderMissing p = false) b
        /\ List.Forall (fun p => folderId p = EmptyString
                                 /\ folderMissing p = true) c)
  /\ List.length (Js.slice0 m (prioritize l))
     = Nat.min (Z.to_nat m) (List.length l)
  /\ exists later, prioritize l = Js.slice0 m (prioritize l) ++ later.
Proof.
  split; [apply prioritize_permutation|].
  split; [apply prioritize_idempotent|].
  split; [|split].
  - eexists _, _, _. split; [reflexivity|].
    repeat split; apply List.Forall_forall; intros p Hp;
      apply filter_In in Hp; destruct Hp as [_ Hp];
      destruct (folderId p), (folderMissing p); cbn in Hp;
      try discriminate; repeat split; congruence.
  - unfold Js.slice0. replace (0 <=? m) with true by (symmetry; apply Z.leb_le; lia).
    rewrite length_firstn.
    rewrite (Permutation_length (prioritize_permutation l)). reflexivity.
  - unfold Js.slice0. replace (0 <=? m) with true by (symmetry; apply Z.leb_le; lia).
    exists (skipn (Z.to_nat m) (prioritize l)). symmetry. apply firstn_skipn.
Qed.

Lemma prioritize_reorders_then_caps_witness :
  Permutation (prioritize [Samples.badEmailRecord; Samples.sampleRecord])
              [Samples.badEmailRecord; Samples.sampleRecord].
Proof.
  apply (prioritize_reorders_then_caps
           [Samples.badEmailRecord; Samples.sampleRecord] 1).
  lia.
Defined.

End BatchOrder.

(** ** External state: columns *)

Module ColumnFacts.
Import Worker Reference.

Lemma code_chr (z : Z) : 0 <= z < 256 -> Js.code (Js.chr z) = z.
Proof.
  intros Hz. unfold Js.code, Js.chr. rewrite N_ascii_embedding; lia.
Qed.

Lemma fold_colNumber (cs : list Z) (acc : Z) :
  fold_left (fun a c => 26 * a + (c - 64)) cs acc
  = acc * 26 ^ Z.of_nat (List.length cs)
    + fold_left (fun a c => 26 * a + (c - 64)) cs 0.
Proof.
  revert acc. induction cs as [|c cs IH]; intros acc.
  - cbn. lia.
  - cbn [fold_left List.length]. rewrite IH, (IH (26 * 0 + (c - 64))).
    rewrite Nat2Z.inj_succ, Z.pow_succ_r by lia. lia.
Qed.

Lemma charCodes_length (s : string) :
  List.length (Js.charCodes s) = String.length s.
Proof. induction s as [|c s IH]; [reflexivity|]. cbn. rewrite IH. reflexivity. Qed.

Lemma colNumber_cons (c : ascii) (s : string) :
  colNumber (String c s)
  = (Js.code c - 64) * 26 ^ Z.of_nat (String.length s) + colNumber s.
Proof.
  unfold colNumber. cbn [Js.charCodes fold_left].
  rewrite fold_colNumber, charCodes_length. lia.
Qed.

Lemma toColLoop_value (fuel : nat) (n : Z) (s : string) :
  0 <= n <= Z.of_nat fuel ->
  colNumber (toColLoop fuel n s)
  = n * 26 ^ Z.of_nat (String.length s) + colNumber s.
Proof.
  revert n s. induction fuel as [|fuel IH]; intros n s Hn.
  - assert (n = 0) by lia. subst n. cbn [toColLoop]. lia.
  - cbn [toColLoop]. destruct (0 <? n) eqn:Hpos.
    + apply Z.ltb_lt in Hpos.
      pose proof (Z.mod_pos_bound (n - 1) 26 ltac:(lia)) as Hrem.
      pose proof (Z.div_mod (n - 1) 26 ltac:(lia)) as Hdm.
      assert (Hq : 0 <= (n - 1) / 26 <= Z.of_nat fuel).
      { split; [apply Z.div_pos; lia|].
        assert ((n - 1) / 26 <= n - 1) by (apply Z.div_le_upper_bound; lia). lia. }
      rewrite IH by exact Hq.
      rewrite colNumber_cons, code_chr by lia.
      cbn [String.length]. rewrite Nat2Z.inj_succ, Z.pow_succ_r by lia. nia.
    + apply Z.ltb_ge in Hpos. assert (n = 0) by lia. subst n. lia.
Qed.

Lemma toCol_number (index : Z) : 0 <= index -> colNumber (toCol index) = index + 1.
Proof.
  intros Hi. unfold toCol. rewrite toColLoop_value by lia.
  cbn [String.length]. unfold colNumber. cbn. lia.
Qed.

(** X4. [toCol] writes a column index in A1 letters: read back as bijective
    base 26 the letters give the index plus one, so two different column
    indexes never yield the same letters; index 0 is A, 25 is Z, 26 is AA,
    701 is ZZ and 702 is AAA. *)
Theorem toCol_round_trip (i j : Z) (Hi : 0 <= i) (Hj : 0 <= j) :
  colNumber (toCol i) = i + 1
  /\ (toCol i = toCol j -> i = j)
  /\ List.map toCol [0; 25; 26; 701; 702] = ["A"; "Z"; "AA"; "ZZ"; "AAA"].
Proof.
  split; [apply toCol_number, Hi|]. split; [|vm_compute; reflexivity].
  intros H. apply (f_equal colNumber) in H.
  rewrite !toCol_number in H by assumption. lia.
Qed.

Lemma toCol_round_trip_witness : colNumber (toCol 27) = 27 + 1.
Proof. apply (toCol_round_trip 27 3); lia. Defined.

End ColumnFacts.
Module SheetFacts.
Import Partition Worker Sheet.

Lemma indexFrom_range (x : string) (l : list string) (i : Z) :
  indexFrom i x l = -1 /\ ~ In x l
  \/ i <= indexFrom i x l < i + Z.of_nat (List.length l)
     /\ nth (Z.to_nat (indexFrom i x l - i)) l EmptyString = x.
Proof.
  revert i. induction l as [|y l IH]; intros i; [left; split; [reflexivity | tauto]|].
  cbn [indexFrom]. destruct (String.eqb y x) eqn:E.
  - apply String.eqb_eq in E. subst y. right. split; [cbn [List.length]; lia|].
    rewrite Z.sub_diag. reflexivity.
  - apply String.eqb_neq in E. destruct (IH (i + 1)) as [[H1 H2]|[H1 H2]].
    + left. split; [exact H1|]. intros [H|H]; [congruence | tauto].
    + right. split; [cbn [List.length]; lia|].
      replace (Z.to_nat (indexFrom (i + 1) x l - i))
        with (S (Z.to_nat (indexFrom (i + 1) x l - (i + 1)))) by lia.
      exact H2.
Qed.

Lemma indexOf_found (x : string) (l : list string) :
  In x l ->
  0 <= indexOf x l < Z.of_nat (List.length l)
  /\ nth (Z.to_nat (indexOf x l)) l EmptyString = x.
Proof.
  intros Hin. unfold indexOf. destruct (indexFrom_range x l 0) as [[_ H]|[H1 H2]];
    [contradiction|].
  rewrite Z.sub_0_r in H2. split; [lia | exact H2].
Qed.

Lemma includes_In (x : string) (l : list string) : includes x l = true <-> In x l.
Proof.
  unfold includes. rewrite existsb_exists. split.
  - intros (y & Hy & E). apply String.eqb_eq in E. subst y. exact Hy.
  - intros H. exists x. split; [exact H | apply String.eqb_refl].
Qed.

Lemma findIndexByNames_range (lower candidates : list string) :
  findIndexByNames lower candidates = -1
  \/ 0 <= findIndexByNames lower candidates < Z.of_nat (List.length lower)
     /\ In (nth (Z.to_nat (findIndexByNames lower candidates)) lower EmptyString)
           candidates.
Proof.
  induction candidates as [|c cs IH]; [left; reflexivity|].
  cbn [findIndexByNames]. destruct (indexOf c lower =? -1) eqn:E; cbn [negb].
  - destruct IH as [IH|[IH1 IH2]]; [left; exact IH | right].
    split; [exact IH1 | right; exact IH2].
  - apply Z.eqb_neq in E. right. unfold indexOf in *.
    destruct (indexFrom_range c lower 0) as [[H _]|[H1 H2]]; [contradiction|].
    rewrite Z.sub_0_r in H2. split; [lia | left; symmetry; exact H2].
Qed.

Lemma extra_present (headers : list string) (h : string) :
  In h extras ->
  In h (headers ++ List.filter (fun h => negb (includes h headers)) extras).
Proof.
  intros Hin. apply in_app_iff. destruct (includes h headers) eqn:E.
  - left. apply includes_In, E.
  - right. apply filter_In. split; [exact Hin | rewrite E; reflexivity].
Qed.

(** X5. When the header analysis succeeds, the header row is the one read
    with the missing auxiliary names appended (existing columns keep their
    position); the name and email columns are positions of the row read
    whose header, trimmed and lowercased, is one of the accepted spellings;
    and the four auxiliary columns are positions of the extended row that
    hold exactly their names, hence are non-negative and pairwise
    different. *)
Theorem detectColumns_valid (headers : list string) (d : detection)
    (Hd : detectColumns headers = Some d) :
  let cols := det_columns d in
  let at_ i := nth (Z.to_nat i) (det_headers d) EmptyString in
  det_headers d = headers ++ det_missing d
  /\ (forall h, In h (det_missing d) <-> In h extras /\ ~ In h headers)
  /\ 0 <= nameCol cols < Z.of_nat (List.length headers)
  /\ 0 <= emailCol cols < Z.of_nat (List.length headers)
  /\ In (Js.toLowerCase (Js.trim (nth (Z.to_nat (nameCol cols)) headers EmptyString)))
        nameCandidates
  /\ In (Js.toLowerCase (Js.trim (nth (Z.to_nat (emailCol cols)) headers EmptyString)))
        emailCandidates
  /\ (0 <= folderIdCol cols /\ at_ (folderIdCol cols) = "FolderId")
  /\ (0 <= isSharedCol cols /\ at_ (isSharedCol cols) = "isShared")
  /\ (0 <= isFolderExistsCol cols /\ at_ (isFolderExistsCol cols) = "isFolderExists")
  /\ (0 <= lastLogCol cols /\ at_ (lastLogCol cols) = "LastLog")
  /\ List.NoDup [folderIdCol cols; isSharedCol cols; isFolderExistsCol cols;
            lastLogCol cols].
Proof.
  unfold detectColumns in Hd.
  destruct (Nat.eqb (List.length headers) 0); [discriminate|].
  cbv zeta in Hd.
  set (lower := List.map (fun h => Js.toLowerCase (Js.trim h)) headers) in *.
  remember (List.filter (fun h => negb (includes h headers)) extras) as missing eqn:Hm.
  pose proof (findIndexByNames_range lower nameCandidates) as Hn.
  pose proof (findIndexByNames_range lower emailCandidates) as He.
  remember (findIndexByNames lower nameCandidates) as nc eqn:Hnc.
  remember (findIndexByNames lower emailCandidates) as ec eqn:Hec.
  destruct Hn as [Hn|[Hn1 Hn2]]; [rewrite Hn in Hd; discriminate|].
  destruct He as [He|[He1 He2]]; [rewrite He, orb_true_r in Hd; discriminate|].
  destruct (_ || _); [discriminate|]. injection Hd as <-.
  cbv zeta. cbn [det_columns det_headers det_missing nameCol emailCol folderIdCol
                 isSharedCol isFolderExistsCol lastLogCol].
  assert (Hlen : List.length lower = List.length headers) by apply length_map.
  assert (Hnth : forall i, (i < List.length headers)%nat ->
             nth i lower EmptyString
             = Js.toLowerCase (Js.trim (nth i headers EmptyString))).
  { intros i Hi. unfold lower.
    rewrite (nth_indep _ EmptyString (Js.toLowerCase (Js.trim EmptyString)))
      by (rewrite length_map; exact Hi).
    apply (map_nth (fun h => Js.toLowerCase (Js.trim h))). }
  pose proof (fun h Hh => indexOf_found h _ (extra_present headers h Hh)) as Hx.
  rewrite <- Hm in Hx.
  pose proof (Hx "FolderId" ltac:(cbn; tauto)) as [Hf1 Hf2].
  pose proof (Hx "isShared" ltac:(cbn; tauto)) as [Hs1 Hs2].
  pose proof (Hx "isFolderExists" ltac:(cbn; tauto)) as [Hx1 Hx2].
  pose proof (Hx "LastLog" ltac:(cbn; tauto)) as [Hl1 Hl2].
  split; [reflexivity|]. split.
  { intros h. rewrite Hm, List.filter_In, negb_true_iff, <- not_true_iff_false, includes_In.
    tauto. }
  split; [lia|]. split; [lia|].
  split; [rewrite <- Hnth by lia; exact Hn2|].
  split; [rewrite <- Hnth by lia; exact He2|].
  split; [split; [lia | exact Hf2]|].
  split; [split; [lia | exact Hs2]|].
  split; [split; [lia | exact Hx2]|].
  split; [split; [lia | exact Hl2]|].
  repeat (apply List.NoDup_cons; [cbn [In]; intros H|]); [..|apply List.NoDup_nil];
    repeat (destruct H as [H|H]; [congruence|]); exact H.
Qed.

Lemma detectColumns_valid_witness :
  detectColumns Samples.sampleHeaders = Some Samples.sampleDetection
  /\ det_headers Samples.sampleDetection
     = Samples.sampleHeaders ++ det_missing Samples.sampleDetection.
Proof.
  split; [vm_compute; reflexivity|].
  exact (proj1 (detectColumns_valid Samples.sampleHeaders Samples.sampleDetection
                  ltac:(vm_compute; reflexivity))).
Defined.

(** The candidates are tried in their own order, not in the order of the
    columns: with both spellings present the earlier candidate wins. *)
Example detectColumns_prefers_first_candidate :
  option_map (fun d => nameCol (det_columns d))
    (detectColumns ["Name"; "Nama"; "Email"]) = Some 1.
Proof. vm_compute. reflexivity. Qed.

Example detectColumns_needs_both_columns :
  detectColumns [] = None
  /\ detectColumns ["Nama"; "Telepon"] = None
  /\ detectColumns ["Email"; "FolderId"] = None.
Proof. vm_compute. repeat split. Qed.

Lemma readRows_length (cols : columns) (rows : list (list string)) (i : Z) :
  List.length (readRows cols i rows) = List.length rows.
Proof.
  revert i. induction rows as [|r rows IH]; intros i; [reflexivity|].
  cbn [readRows List.length]. rewrite IH. reflexivity.
Qed.

Lemma readRows_nth (cols : columns) (rows : list (list string)) (i : Z) (k : nat)
    (p : participant) :
  nth_error (readRows cols i rows) k = Some p ->
  exists row, nth_error rows k = Some row
    /\ p = {| rowIndex := i + Z.of_nat k + 2;
              nama := cell row (nameCol cols);
              email := cell row (emailCol cols);
              folderId := cell row (folderIdCol cols);
              isShared := cell row (isSharedCol cols);
              isFolderExists := cell row (isFolderExistsCol cols);
              lastLog := cell row (lastLogCol cols) |}.
Proof.
  revert i k. induction rows as [|r rows IH]; intros i k H.
  - destruct k; discriminate H.
  - destruct k as [|k]; cbn [readRows nth_error] in *.
    + injection H as <-. exists r. split; [reflexivity|].
      rewrite Z.add_0_r. reflexivity.
    + destruct (IH _ _ H) as (row & Hr & ->). exists row. split; [exact Hr|].
      replace (i + 1 + Z.of_nat k + 2) with (i + Z.of_nat (S k) + 2) by lia.
      reflexivity.
Qed.

Lemma readRows_rowIndex (cols : columns) (rows : list (list string)) (i : Z) :
  List.map rowIndex (readRows cols i rows)
  = List.map (fun k => i + Z.of_nat k + 2) (seq 0 (List.length rows)).
Proof.
  revert i. induction rows as [|r rows IH]; intros i; [reflexivity|].
  cbn [readRows List.map List.length seq]. rewrite IH, <- seq_shift, List.map_map.
  cbn [rowIndex]. rewrite Z.add_0_r.
  apply (f_equal (cons (i + 2))). apply List.map_ext. intros k. lia.
Qed.

(** X6. Reading the rows: the header row is dropped and every other row
    gives one record, in order; the record of the k-th data row carries the
    sheet row number k + 2 (so no two records share a row) and the cells of
    that row at the detected columns, a cell beyond the end of a short row
    reading as the empty string. *)
Theorem readParticipants_rows (cols : columns) (values : list (list string)) :
  List.length (readParticipants cols values) = Nat.pred (List.length values)
  /\ (forall k p, nth_error (readParticipants cols values) k = Some p ->
        exists row, nth_error values (S k) = Some row
          /\ rowIndex p = Z.of_nat k + 2
          /\ nama p = cell row (nameCol cols)
          /\ email p = cell row (emailCol cols)
          /\ folderId p = cell row (folderIdCol cols)
          /\ isShared p = cell row (isSharedCol cols)
          /\ isFolderExists p = cell row (isFolderExistsCol cols)
          /\ lastLog p = cell row (lastLogCol cols))
  /\ List.NoDup (List.map rowIndex (readParticipants cols values))
  /\ (forall row col, Z.of_nat (List.length row) <= col -> cell row col = EmptyString).
Proof.
  unfold readParticipants. split; [|split; [|split]].
  - rewrite readRows_length. destruct values; reflexivity.
  - intros k p H. destruct (readRows_nth _ _ _ _ _ H) as (row & Hr & ->).
    exists row. split; [destruct values; [destruct k; discriminate Hr | exact Hr]|].
    cbn. repeat split.
  - rewrite readRows_rowIndex. apply Finite.Injective_map_NoDup; [|apply seq_NoDup].
    intros a b E. lia.
  - intros row col H. unfold cell. destruct (col <? 0) eqn:E; [reflexivity|].
    apply nth_overflow. lia.
Qed.

Example readParticipants_short_row :
  readParticipants (det_columns Samples.sampleDetection)
    [Samples.sampleHeaders; ["t"; "a@gmail.com"; "Ani"]; ["t"; "b@gmail.com"]]
  = [ {| rowIndex := 2; nama := "Ani"; email := "a@gmail.com";
         folderId := EmptyString; isShared := EmptyString;
         isFolderExists := EmptyString; lastLog := EmptyString |};
      {| rowIndex := 3; nama := EmptyString; email := "b@gmail.com";
         folderId := EmptyString; isShared := EmptyString;
         isFolderExists := EmptyString; lastLog := EmptyString |} ].
Proof. vm_compute. reflexivity. Qed.

End SheetFacts.
(** ** The counters and the duplicate check of a cycle *)

Module LedgerFacts.
Import Partition Worker Observe Ledger RunFacts ProcessorFacts.
Local Open Scope worker_scope.

(** *** What leaves the bookkeeping alone *)

Lemma keeps_ret {A} (a : A) : keeps (ret a).
Proof. intros s. split; reflexivity. Qed.

Lemma keeps_throw {A} (e : jserror) : keeps (@throw A e).
Proof. intros s. split; reflexivity. Qed.

Lemma keeps_pending {A} : keeps (@pending A).
Proof. intros s. split; reflexivity. Qed.

Lemma keeps_bind {A B} (m : M A) (k : A -> M B) :
  keeps m -> (forall a, keeps (k a)) -> keeps (bind m k).
Proof.
  intros Hm Hk s. unfold bind. destruct (Hm s) as [H1 H2].
  destruct (m s) as [[a|e|] s1]; cbn [snd] in *; [|split; assumption..].
  destruct (Hk a s1) as [H3 H4]. rewrite H3, H4. split; assumption.
Qed.

Lemma keeps_try {A} (m : M A) : keeps m -> keeps (try_ m).
Proof.
  intros Hm s. unfold try_. destruct (Hm s) as [H1 H2].
  destruct (m s) as [[a|e|] s1]; cbn [snd] in *; split; assumption.
Qed.

Lemma keeps_tryCatch {A} (m : M A) (h : jserror -> M A) :
  keeps m -> (forall e, keeps (h e)) -> keeps (tryCatch m h).
Proof.
  intros Hm Hh. unfold tryCatch. apply keeps_bind; [apply keeps_try, Hm|].
  intros [a|e]; [apply keeps_ret | apply Hh].
Qed.

Lemma keeps_race {A B} (m : M A) (kv : A -> M B) (ke : jserror -> M B)
    (kt : M B) :
  keeps m -> (forall a, keeps (kv a)) -> (forall e, keeps (ke e)) -> keeps kt ->
  keeps (raceTimeout m kv ke kt).
Proof.
  intros Hm Hv He Ht s. unfold raceTimeout. destruct (Hm s) as [H1 H2].
  destruct (m s) as [[a|e|] s1]; cbn [snd] in *;
    [destruct (Hv a s1) as [H3 H4] | destruct (He e s1) as [H3 H4]
    | destruct (Ht s1) as [H3 H4]];
    rewrite H3, H4; split; assumption.
Qed.

Lemma keeps_prim {A} (m : M A) :
  (forall s, st_stats (snd (m s)) = st_stats s) ->
  (forall s, seen (snd (m s)) = seen s) -> keeps m.
Proof. intros H1 H2 s. split; [apply H1 | apply H2]. Qed.

Ltac keep_step :=
  first
    [ apply keeps_ret | apply keeps_throw | apply keeps_pending
    | match goal with H : _ |- _ => solve [apply H] end
    | apply keeps_bind; [|intros ?]
    | apply keeps_try
    | apply keeps_tryCatch; [|intros ?]
    | apply keeps_race; [|intros ?|intros ?|]
    | solve [apply keeps_prim; intros ?; reflexivity]
    | match goal with
      | |- keeps (match ?x with _ => _ end) => destruct x
      end ].

Ltac keep := repeat keep_step.

Section Keeps.
Context (w : world) (cfg : config).

Lemma keeps_dateNow : keeps (dateNow w).
Proof. unfold dateNow. keep. Qed.

Lemma keeps_randomBelow (k : Z) : keeps (randomBelow w k).
Proof. unfold randomBelow. keep. Qed.

Lemma keeps_getCurrentTimestamp : keeps (getCurrentTimestamp w).
Proof. unfold getCurrentTimestamp. keep. Qed.

Lemma keeps_writeLog (message level : string) : keeps (writeLog message level).
Proof. unfold writeLog. keep. Qed.

Lemma keeps_sleep (ms : Z) : keeps (sleep ms).
Proof. unfold sleep. keep. Qed.

Lemma keeps_dlog (msg : string) : keeps (dlog cfg msg).
Proof. unfold dlog. pose proof keeps_writeLog. keep. Qed.

Lemma keeps_throttle : keeps (throttle w cfg).
Proof. unfold throttle. pose proof keeps_dateNow. pose proof keeps_randomBelow. keep. Qed.

Lemma keeps_settle {A} (a : answer A) : keeps (settle a).
Proof. unfold settle. keep. Qed.

Lemma keeps_permissionsList (fileId : string) : keeps (permissionsList w fileId).
Proof. unfold permissionsList. pose proof @keeps_settle. keep. Qed.

Lemma keeps_permissionsCreate (fileId email role : string) :
  keeps (permissionsCreate w fileId email role).
Proof. unfold permissionsCreate. pose proof @keeps_settle. keep. Qed.

Lemma keeps_filesList (q : string) (tok : option string) :
  keeps (filesList w q tok).
Proof. unfold filesList. pose proof @keeps_settle. keep. Qed.

Lemma keeps_hasPermissionLoop (fuel : nat) (attempt : Z)
    (fileId email role : string) :
  keeps (hasPermissionLoop w cfg fuel attempt fileId email role).
Proof.
  revert attempt. induction fuel as [|fuel IH]; intros attempt;
    cbn [hasPermissionLoop]; [keep|].
  pose proof keeps_throttle. pose proof keeps_permissionsList.
  pose proof keeps_dlog. pose proof keeps_randomBelow. pose proof keeps_sleep.
  keep.
Qed.

Lemma keeps_hasPermission (fileId email role : string) :
  keeps (hasPermission w cfg fileId email role).
Proof. unfold hasPermission. pose proof keeps_hasPermissionLoop. keep. Qed.

Lemma keeps_grantLoop (fuel : nat) (attempt : Z) (fileId email : string) :
  keeps (grantLoop w cfg fuel attempt fileId email).
Proof.
  revert attempt. induction fuel as [|fuel IH]; intros attempt;
    cbn [grantLoop]; [keep|].
  pose proof keeps_throttle. pose proof keeps_permissionsCreate.
  pose proof keeps_dlog. pose proof keeps_randomBelow. pose proof keeps_sleep.
  keep.
Qed.

Lemma keeps_grantPermission (fileId email : string) :
  keeps (grantPermission w cfg fileId email).
Proof. unfold grantPermission. pose proof keeps_grantLoop. keep. Qed.

Lemma keeps_update (col row : Z) (v label : string) :
  keeps (update w cfg col row v label).
Proof.
  unfold update, updateCellByIndex, updateCell. pose proof keeps_writeLog. keep.
Qed.

Lemma keeps_globalAttempts (fuel : nat) (attempt : Z) (targetLower q : string) :
  keeps (globalAttempts w cfg fuel attempt targetLower q).
Proof.
  revert attempt. induction fuel as [|fuel IH]; intros attempt;
    cbn [globalAttempts]; [keep|].
  pose proof keeps_throttle. pose proof keeps_filesList.
  pose proof keeps_dlog. pose proof keeps_randomBelow. pose proof keeps_sleep.
  keep.
Qed.

Lemma keeps_globalSearch (steps : nat) (targetLower : string)
    (terms : list string) :
  keeps (globalSearch w cfg steps targetLower terms).
Proof.
  induction terms as [|t terms IH]; cbn [globalSearch]; [keep|].
  pose proof keeps_globalAttempts. keep.
Qed.

Lemma keeps_listSubfolders (fuel : nat) (parentId : string)
    (tok : option string) (all : list file) :
  keeps (listSubfolders w cfg fuel parentId tok all).
Proof.
  revert tok all. induction fuel as [|fuel IH]; intros tok all;
    cbn [listSubfolders]; [keep|].
  pose proof keeps_throttle. pose proof keeps_filesList. keep.
Qed.

Lemma keeps_bfs (fuel : nat) (targetLower : string) (queue : list (string * Z)) :
  keeps (bfs w cfg fuel targetLower queue).
Proof.
  revert queue. induction fuel as [|fuel IH]; intros queue; cbn [bfs]; [keep|].
  pose proof keeps_listSubfolders. pose proof keeps_dlog. pose proof keeps_sleep.
  keep.
Qed.

Lemma keeps_internal (steps : nat) (name parent : string) :
  keeps (_findFolderByNameInternal w cfg steps name parent).
Proof.
  unfold _findFolderByNameInternal.
  pose proof keeps_globalSearch. pose proof keeps_bfs. keep.
Qed.

Lemma keeps_fallback (name parent : string) :
  keeps (_findFolderByNameFallback w cfg name parent).
Proof.
  unfold _findFolderByNameFallback.
  pose proof keeps_internal. pose proof keeps_dateNow. pose proof keeps_dlog. keep.
Qed.

Lemma keeps_findFolderByName (name parent : string) :
  keeps (findFolderByName w cfg name parent).
Proof.
  unfold findFolderByName.
  pose proof keeps_fallback. pose proof keeps_dateNow. pose proof keeps_writeLog.
  keep.
Qed.

Lemma keeps_resolveFolder (p : participant) :
  keeps (resolveFolder w cfg p).
Proof.
  unfold resolveFolder.
  pose proof keeps_findFolderByName. pose proof keeps_dateNow. keep.
Qed.

End Keeps.

Lemma emits_kept {A} (m : M A) (s : state) (Q : outcome A -> Prop) :
  keeps m -> emits m s (fun o _ _ => Q o) ->
  emits m s (fun o _ s' => Q o /\ st_stats s' = st_stats s /\ seen s' = seen s).
Proof.
  intros Hk (evs & Ht & H). exists evs. split; [exact Ht|].
  split; [exact H | apply Hk].
Qed.

Ltac books :=
  cbn [st_stats seen setTrace] in *;
  repeat match goal with
         | H : st_stats ?x = _ |- _ => try rewrite H in *; clear H
         | H : seen ?x = _ |- _ => try rewrite H in *; clear H
         end.

Section Books.
Context (w : world) (cfg : config) (cols : columns).

Lemma update_kept (col row : Z) (v label : string) (s : state) :
  emits (update w cfg col row v label) s
    (fun o _ s' => o = Ret tt /\ st_stats s' = st_stats s /\ seen s' = seen s).
Proof.
  apply (emits_kept _ _ (fun o => o = Ret tt)); [apply keeps_update|].
  eapply emits_mono; [apply update_run|]. intros ? ? ? (-> & _). reflexivity.
Qed.

Lemma resolveFolder_kept (p : participant) (s : state) :
  emits (resolveFolder w cfg p) s
    (fun o _ s' => (exists r, o = Ret r)
                   /\ st_stats s' = st_stats s /\ seen s' = seen s).
Proof.
  apply (emits_kept _ _ (fun o => exists r, o = Ret r));
    [apply keeps_resolveFolder|].
  unfold resolveFolder.
  destruct (Js.truthy (folderId p)); run; [eexists; reflexivity|].
  eapply emits_mono; [apply ResolverFacts.findFolderByName_settles|].
  intros ? ? ? [(r & ->) _]. run. eexists; reflexivity.
Qed.

Lemma hasPermission_kept (fileId email role : string) (s : state) :
  emits (hasPermission w cfg fileId email role) s
    (fun o _ s' => (exists b, o = Ret b)
                   /\ st_stats s' = st_stats s /\ seen s' = seen s).
Proof.
  apply (emits_kept _ _ (fun o => exists b, o = Ret b));
    [apply keeps_hasPermission|].
  eapply emits_mono; [apply PermissionCheckFacts.hasPermission_total|].
  intros ? ? ? (H & _). exact H.
Qed.

Lemma grantPermission_kept (fileId email : string) (s : state) :
  emits (grantPermission w cfg fileId email) s
    (fun o _ s' => o <> Pending
                   /\ st_stats s' = st_stats s /\ seen s' = seen s).
Proof.
  apply (emits_kept _ _ (fun o => o <> Pending)); [apply keeps_grantPermission|].
  apply grantPermission_settles.
Qed.

Ltac upd :=
  (eapply emits_mono; [apply update_kept|]);
  let Hst := fresh "Hst" in let Hse := fresh "Hse" in
  intros ? ? ? (-> & Hst & Hse); run.

(** The [try] block settles; when it returns it has moved exactly one of
    the three outcome counters, when it throws it has moved none; and the
    record's key is among the keys seen exactly when its email passed the
    two checks. *)
Lemma tryBlock_books (p : participant) (start : Z) (s : state) :
  emits (tryBlock w cfg cols p start) s
    (fun o _ s' =>
       seen s' = (if validGmail p then {[dedupKey p]} ∪ seen s else seen s)
       /\ match o with
          | Ret _ => st_stats s' = bumpDone (st_stats s)
                     \/ st_stats s' = bumpSkipped (st_stats s)
                     \/ st_stats s' = bumpErrors (st_stats s)
          | Throw _ => st_stats s' = st_stats s
          | Pending => False
          end).
Proof.
  unfold tryBlock, validGmail. cbv zeta.
  rewrite <- negb_andb.
  destruct (isValidEmail (email p) && isGmail (email p)); cbn [negb]; cbv iota;
    [|run; upd; upd; books; split; [reflexivity | right; left; reflexivity]].
  run. cbn [seen]. fold (dedupKey p).
  destruct (bool_decide (dedupKey p ∈ seen s)) eqn:Hdup.
  { apply bool_decide_eq_true in Hdup. run. upd. books.
    split; [|right; left; reflexivity].
    symmetry. apply subseteq_union_1_L, singleton_subseteq_l. exact Hdup. }
  run.
  destruct (Js.truthy (isShared p) && _); cbv iota.
  { run. upd. books. split; [reflexivity | right; left; reflexivity]. }
  run. eapply emits_mono; [apply resolveFolder_kept|].
  intros ? ? ? ((found & ->) & Hst0 & Hse0). run.
  destruct found as [fid|]; cbv beta iota;
    [destruct (Js.truthy fid); cbn [negb]; cbv iota|cbn [Js.truthy negb]; cbv iota].
  - run. upd.
    assert (Hid : forall st, emits
      (if negb (Js.truthy (folderId p))
       then update w cfg (folderIdCol cols) (rowIndex p) fid "FolderId"
       else ret tt) st
      (fun o _ s' => o = Ret tt /\ st_stats s' = st_stats st /\ seen s' = seen st)).
    { intros st. destruct (negb (Js.truthy (folderId p))); run;
        [apply update_kept | repeat split]. }
    eapply emits_mono; [apply Hid|]. intros ? ? ? (-> & Hst2 & Hse2). run.
    eapply emits_mono; [apply hasPermission_kept|].
    intros ? ? ? ((b & ->) & Hst3 & Hse3). run.
    destruct b.
    + run. upd. upd. upd. books.
      split; [reflexivity | right; left; reflexivity].
    + run. eapply emits_mono; [apply grantPermission_kept|].
      intros [g|err|] ? ? (Hne & Hst4 & Hse4); [| |congruence].
      * run. upd. upd. books. split; [reflexivity | left; reflexivity].
      * books. split; reflexivity.
  - run. upd. upd. books. split; [reflexivity | right; right; reflexivity].
  - run. upd. upd. books. split; [reflexivity | right; right; reflexivity].
Qed.

Lemma catchBlock_books (p : participant) (start : Z) (error : jserror)
    (s : state) :
  emits (catchBlock w cfg cols p start error) s
    (fun o _ s' => o = Ret tt /\ st_stats s' = bumpErrors (st_stats s)
                   /\ seen s' = seen s).
Proof. unfold catchBlock. run. upd. upd. books. repeat split. Qed.

(** One turn of the loop: it completes, counts the record, moves exactly
    one outcome counter, and records the key of a record whose email
    passed the checks. *)
Lemma processOne_books (p : participant) (s : state) :
  emits (processOne w cfg cols p) s
    (fun o _ s' =>
       o = Ret tt
       /\ (st_stats s' = bumpDone (bumpTotal (st_stats s))
           \/ st_stats s' = bumpSkipped (bumpTotal (st_stats s))
           \/ st_stats s' = bumpErrors (bumpTotal (st_stats s)))
       /\ seen s' = (if validGmail p then {[dedupKey p]} ∪ seen s else seen s)).
Proof.
  unfold processOne. run.
  eapply emits_mono; [apply tryBlock_books|].
  intros [[]|err|] ? s1 [Hse Hst]; [| |contradiction].
  - run. books. split; [reflexivity|]. split; [exact Hst | reflexivity].
  - eapply emits_mono; [apply catchBlock_books|].
    intros ? ? ? (-> & Hst2 & Hse2). books.
    split; [reflexivity|]. split; [right; right; reflexivity | reflexivity].
Qed.

Lemma forEach_books (l : list participant) (s : state) :
  emits (forEach w cfg cols l) s
    (fun o _ s' =>
       o = Ret tt
       /\ total (st_stats s') = total (st_stats s) + Z.of_nat (List.length l)
       /\ settled (st_stats s') = settled (st_stats s) + Z.of_nat (List.length l)
       /\ done (st_stats s) <= done (st_stats s')
       /\ skipped (st_stats s) <= skipped (st_stats s')
       /\ errors (st_stats s) <= errors (st_stats s')
       /\ seen s ⊆ seen s'
       /\ forall p, In p l -> validGmail p = true -> dedupKey p ∈ seen s').
Proof.
  revert s. induction l as [|p l IH]; intros s; cbn [forEach].
  - run. split; [reflexivity|]. cbn [List.length].
    repeat (split; [lia|]). split; [reflexivity | intros ? []].
  - run. eapply emits_mono; [apply processOne_books|].
    intros ? ? s1 (-> & Hst & Hse). eapply emits_mono; [apply IH|].
    intros ? ? s2 (-> & Ht & Hs & Hd & Hk & He & Hsub & Hkeys).
    assert (Hsub1 : seen s ⊆ seen s1).
    { rewrite Hse. destruct (validGmail p); [apply union_subseteq_r | reflexivity]. }
    split; [reflexivity|].
    assert (Hcount : total (st_stats s1) = total (st_stats s) + 1
                     /\ settled (st_stats s1) = settled (st_stats s) + 1
                     /\ done (st_stats s) <= done (st_stats s1)
                     /\ skipped (st_stats s) <= skipped (st_stats s1)
                     /\ errors (st_stats s) <= errors (st_stats s1)).
    { unfold settled. destruct Hst as [ -> | [ -> | -> ] ]; cbn; lia. }
    cbn [List.length]. repeat (split; [lia|]).
    split; [transitivity (seen s1); assumption|].
    intros q [<-|Hq] Hv; [|apply Hkeys; assumption].
    apply Hsub. rewrite Hse, Hv. apply elem_of_union. left.
    apply elem_of_singleton. reflexivity.
Qed.

Lemma processParticipants_books (ps : list participant) (s : state) :
  emits (processParticipants w cfg cols ps) s
    (fun o evs s' =>
       o = Ret tt
       /\ total (st_stats s')
          = Z.of_nat (List.length
              (workingParticipants (shardTotal cfg) (shardIndex cfg)
                 (maxPerRunOf cfg) ps))
       /\ settled (st_stats s') = total (st_stats s')
       /\ 0 <= done (st_stats s') /\ 0 <= skipped (st_stats s')
       /\ 0 <= errors (st_stats s')
       /\ exists rate,
            List.last evs (Sleep 0)
            = LogLine "INFO"
                ("Summary: total=" +:+ pretty (total (st_stats s'))
                 +:+ " done=" +:+ pretty (done (st_stats s'))
                 +:+ " skipped=" +:+ pretty (skipped (st_stats s'))
                 +:+ " errors=" +:+ pretty (errors (st_stats s'))
                 +:+ " successRate=" +:+ rate +:+ "%")).
Proof.
  unfold processParticipants. cbv zeta. run.
  assert (Hshard : forall (m : M unit) st,
            (m = ret tt \/ exists msg, m = writeLog msg "info") ->
            emits m st (fun o _ s' => o = Ret tt
                                      /\ st_stats s' = st_stats st)).
  { intros m st [->|[msg ->]]; run; split; reflexivity. }
  eapply emits_mono;
    [apply Hshard; destruct (0 <? shardTotal cfg);
       [right; eexists; reflexivity | left; reflexivity]|].
  intros ? ? s1 [-> Hst1]. run.
  eapply emits_mono; [apply forEach_books|].
  intros ? ? s2 (-> & Ht & Hs & Hd & Hk & He & _). run.
  cbn [st_stats setTrace seen] in *. rewrite Hst1 in *. cbn [st_stats] in *.
  unfold settled in *. cbn [total done skipped errors stats0] in *.
  split; [reflexivity|]. fold (workingParticipants (shardTotal cfg)
    (shardIndex cfg) (maxPerRunOf cfg) ps) in *.
  repeat split; try lia.
  eexists. rewrite !app_assoc. rewrite last_last. reflexivity.
Qed.

(** X7. A cycle always runs to its end, whatever the remote services and
    the sheet answer; every record it works on is counted once in [total]
    and once in exactly one of [done], [skipped] and [errors], so that the
    counters of the summary add up, and the last line of the log is the
    summary with these counters. *)
Theorem cycle_summary_adds_up (ps : list participant) (s : state) :
  exists s' evs,
    processParticipants w cfg cols ps s = (Ret tt, s')
    /\ trace s' = trace s ++ evs
    /\ total (st_stats s')
       = Z.of_nat (List.length
           (workingParticipants (shardTotal cfg) (shardIndex cfg)
              (maxPerRunOf cfg) ps))
    /\ done (st_stats s') + skipped (st_stats s') + errors (st_stats s')
       = total (st_stats s')
    /\ 0 <= done (st_stats s') /\ 0 <= skipped (st_stats s')
    /\ 0 <= errors (st_stats s')
    /\ exists rate,
         List.last evs (Sleep 0)
         = LogLine "INFO"
             ("Summary: total=" +:+ pretty (total (st_stats s'))
              +:+ " done=" +:+ pretty (done (st_stats s'))
              +:+ " skipped=" +:+ pretty (skipped (st_stats s'))
              +:+ " errors=" +:+ pretty (errors (st_stats s'))
              +:+ " successRate=" +:+ rate +:+ "%").
Proof.
  destruct (emits_run _ _ _ (processParticipants_books ps s))
    as (o & s' & evs & Hrun & Ht & -> & Htot & Hset & Hd & Hk & He & Hsum).
  exists s', evs. unfold settled in Hset. repeat split; try assumption.
Qed.

(** A record whose key has been seen in the cycle: one turn of the loop
    for it calls no remote service, counts it as skipped and logs the
    duplicate. *)
Lemma processOne_duplicate (q : participant) (s : state) :
  validGmail q = true -> dedupKey q ∈ seen s ->
  emits (processOne w cfg cols q) s
    (fun o evs s' =>
       o = Ret tt
       /\ remoteCalls evs = []
       /\ existsb (isLineWith (("Row " +:+ pretty (rowIndex q))
                               +:+ " SKIP duplicate")) evs = true
       /\ st_stats s' = bumpSkipped (bumpTotal (st_stats s))).
Proof.
  intros Hv Hdup. unfold processOne. run. unfold tryBlock. cbv zeta.
  rewrite <- negb_andb. fold (validGmail q). rewrite Hv. cbn [negb]. cbv iota.
  run. cbn [seen]. fold (dedupKey q).
  rewrite (bool_decide_eq_true_2 _ Hdup). run.
  assert (Hupd : forall col row v label st,
            emits (update w cfg col row v label) st
              (fun o evs s' => o = Ret tt /\ remoteCalls evs = []
                               /\ st_stats s' = st_stats st)).
  { intros col row v label st. unfold update, updateCellByIndex, updateCell.
    destruct (0 <=? col); run; [cbn [tick]|repeat split].
    destruct (w_values_update _ _ _ _); run; repeat split. }
  eapply emits_mono; [apply Hupd|]. intros ? e1 ? (-> & Hr & Hst). run.
  split; [reflexivity|]. unfold remoteCalls in *.
  rewrite ?List.filter_app, Hr. split; [reflexivity|].
  split; [|cbn [st_stats setTrace] in *; rewrite Hst; reflexivity].
  rewrite ?existsb_app. cbn [existsb orb].
  rewrite OutcomeFacts.isLineWith_row by reflexivity.
  rewrite ?orb_true_r. reflexivity.
Qed.

(** X8. A person listed twice is handled once per cycle: after the loop
    has gone through a list that holds a record with a valid Gmail address,
    a record with the same lowercased name and the same email makes the loop
    body call no remote service (no folder search, no permission check, no
    grant); it is counted as skipped and logged as a duplicate. *)
Theorem repeated_person_is_skipped
    (l : list participant) (p q : participant) (s : state)
    (Hin : In p l)
    (Hp : validGmail p = true)
    (Hq : validGmail q = true)
    (Hkey : dedupKey q = dedupKey p) :
  exists s1 s2 evs,
    forEach w cfg cols l s = (Ret tt, s1)
    /\ processOne w cfg cols q s1 = (Ret tt, s2)
    /\ trace s2 = trace s1 ++ evs
    /\ remoteCalls evs = []
    /\ existsb (isLineWith (("Row " +:+ pretty (rowIndex q))
                            +:+ " SKIP duplicate")) evs = true
    /\ st_stats s2 = bumpSkipped (bumpTotal (st_stats s1)).
Proof.
  destruct (emits_run _ _ _ (forEach_books l s))
    as (o & s1 & e1 & Hrun1 & _ & -> & _ & _ & _ & _ & _ & _ & Hkeys).
  assert (Hseen : dedupKey q ∈ seen s1) by (rewrite Hkey; apply Hkeys; assumption).
  destruct (emits_run _ _ _ (processOne_duplicate q s1 Hq Hseen))
    as (o & s2 & evs & Hrun2 & Ht & -> & Hr & Hline & Hst).
  exists s1, s2, evs. repeat split; assumption.
Qed.

End Books.

(** The second of two rows for one person, the name once in capitals with
    an accented letter. *)
Lemma repeated_person_is_skipped_witness :
  exists s1 s2 evs,
    forEach Samples.calmWorld Samples.cfg0 Samples.cols0
      [Samples.joseUpper] Samples.state0 = (Ret tt, s1)
    /\ processOne Samples.calmWorld Samples.cfg0 Samples.cols0
         Samples.joseLower s1 = (Ret tt, s2)
    /\ trace s2 = trace s1 ++ evs
    /\ remoteCalls evs = []
    /\ existsb (isLineWith (("Row " +:+ pretty (rowIndex Samples.joseLower))
                            +:+ " SKIP duplicate")) evs = true
    /\ st_stats s2 = bumpSkipped (bumpTotal (st_stats s1)).
Proof.
  apply (repeated_person_is_skipped Samples.calmWorld Samples.cfg0 Samples.cols0
           [Samples.joseUpper] Samples.joseUpper Samples.joseLower
           Samples.state0).
  - left. reflexivity.
  - vm_compute. reflexivity.
  - vm_compute. reflexivity.
  - vm_compute. reflexivity.
Defined.

Example accented_names_share_a_key :
  dedupKey Samples.joseUpper = dedupKey Samples.joseLower
  /\ List.map (fun e => match e with LogLine _ m => m | _ => EmptyString end)
       (List.filter (isRowLine 12)
          (trace (snd (forEach Samples.calmWorld Samples.cfg0 Samples.cols0
                         [Samples.joseUpper; Samples.joseLower] Samples.state0))))
     = ["Row 12 SKIP duplicate: jos" +:+ String (Js.chr 233) EmptyString
        +:+ "|jose@gmail.com - Time: 0ms"].
Proof. vm_compute. repeat split. Qed.

End LedgerFacts.
(** ** Dry-run mode *)

Module DryRunFacts.
Import Partition Worker Observe Ledger RunFacts.
Local Open Scope worker_scope.

Local Abbreviation spared := (always (fun evs => creates evs = [])).

Lemma spared_app (a b : list event) :
  creates a = [] -> creates b = [] -> creates (a ++ b) = [].
Proof. intros Ha Hb. rewrite creates_app, Ha, Hb. reflexivity. Qed.

Ltac spare_step :=
  first
    [ match goal with H : _ |- _ => solve [apply H] end
    | apply always_ret; reflexivity
    | apply always_throw; reflexivity
    | apply always_pending; reflexivity
    | apply always_emit; reflexivity
    | apply always_silent; [reflexivity | intros ?; reflexivity]
    | apply always_bind; [exact spared_app | | intros ?]
    | apply always_try
    | apply always_tryCatch; [reflexivity | exact spared_app | | intros ?]
    | apply always_race; [exact spared_app | | intros ? | intros ? |]
    | match goal with
      | |- always _ (match ?x with _ => _ end) => destruct x
      end ].

Ltac spare := repeat spare_step.

Section DryRun.
Context (w : world) (cfg : config) (cols : columns).

Lemma spared_dateNow : spared (dateNow w).
Proof. unfold dateNow. spare. Qed.

Lemma spared_randomBelow (k : Z) : spared (randomBelow w k).
Proof. unfold randomBelow. spare. Qed.

Lemma spared_getCurrentTimestamp : spared (getCurrentTimestamp w).
Proof. unfold getCurrentTimestamp. spare. Qed.

Lemma spared_writeLog (message level : string) : spared (writeLog message level).
Proof. unfold writeLog. spare. Qed.

Lemma spared_dlog (msg : string) : spared (dlog cfg msg).
Proof. unfold dlog. pose proof spared_writeLog. spare. Qed.

Lemma spared_throttle : spared (throttle w cfg).
Proof.
  unfold throttle. pose proof spared_dateNow. pose proof spared_randomBelow.
  spare.
Qed.

Lemma spared_permissionsList (fileId : string) : spared (permissionsList w fileId).
Proof. unfold permissionsList, settle. spare. Qed.

Lemma spared_hasPermissionLoop (fuel : nat) (attempt : Z)
    (fileId email role : string) :
  spared (hasPermissionLoop w cfg fuel attempt fileId email role).
Proof.
  revert attempt. induction fuel as [|fuel IH]; intros attempt;
    cbn [hasPermissionLoop]; [spare|].
  pose proof spared_throttle. pose proof spared_permissionsList.
  pose proof spared_dlog. pose proof spared_randomBelow. unfold sleep.
  spare.
Qed.

Lemma spared_hasPermission (fileId email role : string) :
  spared (hasPermission w cfg fileId email role).
Proof. unfold hasPermission. pose proof spared_hasPermissionLoop. spare. Qed.

Lemma spared_update (col row : Z) (v label : string) :
  spared (update w cfg col row v label).
Proof.
  unfold update, updateCellByIndex, updateCell. pose proof spared_writeLog.
  spare.
Qed.

Lemma spared_findFolderByName (name parent : string) :
  spared (findFolderByName w cfg name parent).
Proof.
  intros s. eapply emits_mono;
    [apply (ResolverFacts.search_findFolderByName_settles
              (fun evs => creates evs = []));
     [reflexivity | exact spared_app | intros; reflexivity ..]|].
  intros ? ? ? [_ H]. exact H.
Qed.

Lemma spared_resolveFolder (p : participant) : spared (resolveFolder w cfg p).
Proof.
  unfold resolveFolder. pose proof spared_findFolderByName.
  pose proof spared_dateNow. spare.
Qed.

Hypothesis dry : dryRun cfg = true.

Lemma spared_grantPermission (fileId email : string) :
  spared (grantPermission w cfg fileId email).
Proof. unfold grantPermission. rewrite dry. spare. Qed.

Lemma spared_processOne (p : participant) : spared (processOne w cfg cols p).
Proof.
  unfold processOne, tryBlock, catchBlock, modifyStats. cbv zeta.
  fold (update w cfg). unfold sleep.
  pose proof spared_dateNow. pose proof spared_randomBelow.
  pose proof spared_getCurrentTimestamp. pose proof spared_writeLog.
  pose proof spared_update. pose proof spared_resolveFolder.
  pose proof spared_hasPermission. pose proof spared_grantPermission.
  spare.
Qed.

Lemma spared_forEach (l : list participant) : spared (forEach w cfg cols l).
Proof.
  induction l as [|p l IH]; cbn [forEach]; pose proof spared_processOne; spare.
Qed.

Lemma spared_processParticipants (ps : list participant) :
  spared (processParticipants w cfg cols ps).
Proof.
  unfold processParticipants. cbv zeta.
  pose proof spared_forEach. pose proof spared_writeLog. spare.
Qed.

(** X9. In dry-run mode a whole cycle runs to its end without a single
    permission-create call, whatever the rows, the settings and the answers
    of the remote services are. *)
Theorem dry_run_grants_nothing (ps : list participant) (s : state) :
  exists s' evs,
    processParticipants w cfg cols ps s = (Ret tt, s')
    /\ trace s' = trace s ++ evs
    /\ creates evs = [].
Proof.
  assert (H : emits (processParticipants w cfg cols ps) s
                (fun o evs _ => o = Ret tt /\ creates evs = [])).
  { apply (emits_and_calm (fun evs => creates evs = []));
      [apply spared_processParticipants|].
    eapply emits_mono; [apply LedgerFacts.processParticipants_books|].
    intros ? ? ? (-> & _) Hc. split; [reflexivity | exact Hc]. }
  destruct (emits_run _ _ _ H) as (o & s' & evs & Hrun & Ht & -> & Hc).
  exists s', evs. repeat split; assumption.
Qed.

End DryRun.

Lemma dry_run_grants_nothing_witness :
  exists s' evs,
    processParticipants Samples.calmWorld Samples.cfgDry Samples.cols0
      [Samples.sampleRecord; Samples.badEmailRecord] Samples.state0
    = (Ret tt, s')
    /\ trace s' = trace Samples.state0 ++ evs
    /\ creates evs = [].
Proof.
  apply (dry_run_grants_nothing Samples.calmWorld Samples.cfgDry Samples.cols0
           eq_refl [Samples.sampleRecord; Samples.badEmailRecord]
           Samples.state0).
Defined.

Section Marks.
Context (w : world) (cfg : config) (cols : columns).

(** X10. Dry-run mode still writes the sheet. For a valid, new, eligible
    record whose folder resolves to [fid] and whose permissions do not list
    the email as reader, the loop body in dry-run mode sends no
    permission-create call, yet writes TRUE to the record's status cell and
    logs the line "Row n DRY_RUN reader -> ..." with no line of level ERROR;
    and a record whose status cell reads TRUE is not eligible any more. *)
Theorem dry_run_marks_shared
    (p : participant) (s : state) (fid : string) (perms : list permission)
    (Hdry : dryRun cfg = true)
    (HfolderId : 0 <= folderIdCol cols)
    (HisShared : 0 <= isSharedCol cols)
    (HisFolderExists : 0 <= isFolderExistsCol cols)
    (HlastLog : 0 <= lastLogCol cols)
    (Hvalid : isValidEmail (email p) && isGmail (email p) = true)
    (Hnew : dedupKey p ∉ seen s)
    (Helig : isEligible p = true)
    (Hres : resolvesTo w cfg p fid)
    (Hfid : fid <> EmptyString)
    (Hlisted : forall t, w_permissions_list w t fid = Fulfilled perms)
    (Hnone : existsb (permissionMatches (email p) "reader") perms = false) :
  (exists s' evs,
     processOne w cfg cols p s = (Ret tt, s')
     /\ trace s' = trace s ++ evs
     /\ creates evs = []
     /\ existsb (isCellWriteOf cfg (isSharedCol cols) (rowIndex p) "TRUE") evs
        = true
     /\ existsb (isLineWith (("Row " +:+ pretty (rowIndex p))
                             +:+ " DRY_RUN reader -> ")) evs = true
     /\ noErrorLine evs)
  /\ isEligible (withShared "TRUE" p) = false.
Proof.
  split; [|reflexivity].
  assert (Hcheck : forall s0,
      emits (hasPermission w cfg fid (email p) "reader") s0
        (fun o evs _ => o = Ret false /\ creates evs = [])).
  { intros s0.
    eapply emits_mono;
      [apply (PermissionCheckFacts.hasPermission_answered w cfg fid (email p)
                "reader" s0 perms Hlisted)|].
    intros ? ? ? (-> & Hc & _). rewrite Hnone. split; [reflexivity | exact Hc]. }
  assert (Hgrant : false = false -> forall s0,
      emits (grantPermission w cfg fid (email p)) s0
        (fun o evs _ => (exists g, o = Ret g) /\ creates evs = [])).
  { intros _ s0. unfold grantPermission. rewrite Hdry. run.
    split; [eexists; reflexivity | reflexivity]. }
  destruct (emits_run _ _ _
              (OutcomeFacts.processOne_after_check w cfg cols p s fid false []
                 HfolderId HisShared HisFolderExists HlastLog Hvalid Hnew Helig
                 Hres Hcheck Hgrant))
    as (o & s' & evs & Hrun & Ht & -> & Hc & Hw & Hline & Hn).
  rewrite Hdry in Hline.
  exists s', evs. repeat split; assumption.
Qed.

End Marks.

Lemma dry_run_marks_shared_witness :
  (exists s' evs,
     processOne Samples.calmWorld Samples.cfgDry Samples.cols0
       Samples.sampleRecord Samples.state0 = (Ret tt, s')
     /\ trace s' = trace Samples.state0 ++ evs
     /\ creates evs = []
     /\ existsb (isCellWriteOf Samples.cfgDry (isSharedCol Samples.cols0)
                   (rowIndex Samples.sampleRecord) "TRUE") evs = true
     /\ existsb (isLineWith (("Row " +:+ pretty (rowIndex Samples.sampleRecord))
                             +:+ " DRY_RUN reader -> ")) evs = true
     /\ noErrorLine evs)
  /\ isEligible (withShared "TRUE" Samples.sampleRecord) = false.
Proof.
  apply (dry_run_marks_shared Samples.calmWorld Samples.cfgDry Samples.cols0
           Samples.sampleRecord Samples.state0 "abc" []).
  - reflexivity.
  - vm_compute. discriminate.
  - vm_compute. discriminate.
  - vm_compute. discriminate.
  - vm_compute. discriminate.
  - vm_compute. reflexivity.
  - apply not_elem_of_empty.
  - reflexivity.
  - left. split; reflexivity.
  - discriminate.
  - intros t. reflexivity.
  - reflexivity.
Defined.

End DryRunFacts.
(** ** More on the resource resolver *)

Module SearchFacts.
Import Partition Worker Observe Ledger RunFacts.
Local Open Scope worker_scope.

Lemma searches_app (a b : list event) : searches (a ++ b) = searches a ++ searches b.
Proof. apply List.filter_app. Qed.

(** A stretch of trace with no folder listing and no back-off sleep. *)
Local Abbreviation idle := (fun evs => searches evs = [] /\ backoffs evs = []).

Lemma idle_app (a b : list event) : idle a -> idle b -> idle (a ++ b).
Proof.
  intros [Ha1 Ha2] [Hb1 Hb2]. rewrite searches_app, backoffs_app, Ha1, Ha2, Hb1, Hb2.
  split; reflexivity.
Qed.

Section Search.
Context (w : world) (cfg : config).

Lemma throttle_idle (s : state) :
  emits (throttle w cfg) s (fun o evs _ => o = Ret tt /\ idle evs).
Proof.
  unfold throttle. run.
  destruct (_ <? _); run; split; try reflexivity; repeat split.
Qed.

Lemma dlog_idle (msg : string) (s : state) :
  emits (dlog cfg msg) s (fun o evs _ => o = Ret tt /\ idle evs).
Proof.
  unfold dlog. destruct (debugEnabled cfg); run; split; try reflexivity;
    repeat split.
Qed.

Lemma dateNow_idle (s : state) :
  emits (dateNow w) s (fun o evs _ => (exists t, o = Ret t) /\ evs = []).
Proof. run. split; [eexists; reflexivity | reflexivity]. Qed.

Ltac count :=
  rewrite ?searches_app, ?backoffs_app, ?length_app;
  cbn [searches backoffs List.filter isFilesList app List.length].

(** What a stretch of the global search may hold: at most [n] folder
    listings, back-off sleeps of 2 or 4 seconds plus jitter, and no
    exception; [settled] is whether the loop turns given are enough for the
    stretch to end by itself. *)
Local Abbreviation within n settled :=
  (fun (o : outcome (option string)) (evs : list event) (_ : state) =>
     (List.length (searches evs) <= n)%nat
     /\ List.Forall isSearchBackoff (backoffs evs)
     /\ (forall e, o <> Throw e)
     /\ (settled -> o <> Pending)).

(** The attempts for one search term: at most [3 - attempt] listings, and
    back-off sleeps of 2 and 4 seconds plus jitter; as many loop turns as
    attempts are left let it end. *)
Lemma globalAttempts_calls (fuel : nat) (a : nat) (targetLower q : string)
    (s : state) :
  emits (globalAttempts w cfg fuel (Z.of_nat a) targetLower q) s
    (within (3 - a)%nat (1 <= fuel /\ 3 <= fuel + a)%nat).
Proof.
  revert a s. induction fuel as [|fuel IH]; intros a s; cbn [globalAttempts].
  { run. cbn. split; [lia|]. split; [constructor|].
    split; [discriminate | lia]. }
  destruct (Z.of_nat a <? 3) eqn:Ha;
    [|run; cbn; split; [lia|]; split; [constructor|]; split; discriminate].
  apply Z.ltb_lt in Ha. run.
  eapply emits_mono; [apply throttle_idle|]. intros ? e1 s1 [-> [Hs1 Hb1]].
  unfold filesList. run. cbn [tick].
  destruct (w_files_list _ _ _ _) as [res|err]; run.
  - destruct (findMatch _ _); run; count; rewrite Hs1, Hb1; cbn;
      (split; [lia|]); (split; [constructor|]); split; discriminate.
  - eapply emits_mono; [apply dlog_idle|]. intros ? e2 s2 [-> [Hs2 Hb2]].
    destruct (isRetryableRateLimit err && (Z.of_nat a + 1 <? 3)) eqn:Hretry.
    + apply andb_true_iff in Hretry. destruct Hretry as [_ Hlt].
      apply Z.ltb_lt in Hlt. run.
      replace (Z.of_nat a + 1) with (Z.of_nat (S a)) by lia.
      eapply emits_mono; [apply (IH (S a))|].
      intros ? e3 s3 (Hn & Hb & Hok & Hend). count.
      rewrite Hs1, Hb1, Hs2, Hb2. cbn [app List.length backoffs].
      split; [lia|]. split; [|split; [exact Hok | intros; apply Hend; lia]].
      constructor; [|exact Hb].
      pose proof (randomBelow_range w (tick s2) 500 ltac:(lia)) as Hj.
      cbn [tick] in Hj |- *.
      eexists. split; [exact Hj|].
      assert (a = 0 \/ a = 1)%nat as [-> | ->] by lia; [left | right];
        reflexivity.
    + run. count. rewrite Hs1, Hb1, Hs2, Hb2. cbn.
      split; [lia|]. split; [constructor|]. split; discriminate.
Qed.

Lemma globalSearch_calls (steps : nat) (targetLower : string)
    (terms : list string) (s : state) :
  emits (globalSearch w cfg steps targetLower terms) s
    (within (3 * List.length terms)%nat (3 <= steps)%nat).
Proof.
  revert s. induction terms as [|t terms IH]; intros s; cbn [globalSearch].
  { run. cbn. split; [lia|]. split; [constructor|]. split; discriminate. }
  run. eapply emits_mono; [apply (globalAttempts_calls steps 0)|].
  intros [[id|]|e|] e1 s1 (Hn & Hb & Hok & Hend); cbn beta iota.
  - run. rewrite app_nil_r. cbn [List.length].
    split; [lia|]. split; [exact Hb|]. split; discriminate.
  - eapply emits_mono; [apply IH|]. intros ? e2 s2 (Hn2 & Hb2 & Hok2 & Hend2).
    count. cbn [List.length]. split; [lia|].
    split; [apply List.Forall_app; split; assumption|].
    split; assumption.
  - eapply emits_mono; [apply IH|]. intros ? e2 s2 (Hn2 & Hb2 & Hok2 & Hend2).
    count. cbn [List.length]. split; [lia|].
    split; [apply List.Forall_app; split; assumption|].
    split; assumption.
  - cbn [List.length]. split; [lia|]. split; [exact Hb|].
    split; [discriminate|]. intros Hsteps. exfalso. apply Hend; [lia|reflexivity].
Qed.

Lemma searchVariations_length (name : string) :
  (List.length (searchVariations name) <= 5)%nat.
Proof. unfold searchVariations. apply (List.filter_length_le Js.truthy). Qed.

Lemma internal_global_calls (steps : nat) (name parent : string) (s : state) :
  Js.truthy parent = false ->
  emits (_findFolderByNameInternal w cfg steps name parent) s
    (within 15%nat (3 <= steps)%nat).
Proof.
  intros Hparent. unfold _findFolderByNameInternal. rewrite Hparent. cbn [negb].
  destruct (negb (Js.truthy name));
    [run; cbn; split; [lia|]; split; [constructor|]; split; discriminate|].
  run. eapply emits_mono; [apply globalSearch_calls|].
  pose proof (searchVariations_length name) as Hlen.
  intros [r|e|] e1 s1 (Hn & Hb & Hok & Hend); cbn beta iota.
  - run. rewrite app_nil_r. split; [lia|]. split; [exact Hb|].
    split; discriminate.
  - destruct (Hok e eq_refl).
  - split; [lia|]. split; [exact Hb|]. split; [discriminate | exact Hend].
Qed.

(** X11. Without a scope root, the folder search costs at most 15 folder
    listings, whatever Drive answers and however long the search is left
    to run: three attempts at most for each of the five search terms at
    most. Each back-off sleep between two attempts lasts 2 or 4 seconds
    plus a jitter below 500 ms (the cap of 30 seconds is never reached).
    The search raises no exception, and it ends by itself: three loop
    turns for each term let it return an identifier or not-found. *)
Theorem global_search_call_ceiling (name parent : string) (steps : nat)
    (s : state)
    (Hparent : Js.truthy parent = false) :
  exists o s' evs,
    _findFolderByNameInternal w cfg steps name parent s = (o, s')
    /\ trace s' = trace s ++ evs
    /\ (List.length (searches evs) <= 15)%nat
    /\ List.Forall isSearchBackoff (backoffs evs)
    /\ (forall e, o <> Throw e)
    /\ ((3 <= steps)%nat -> exists r, o = Ret r).
Proof.
  destruct (emits_run _ _ _ (internal_global_calls steps name parent s Hparent))
    as (o & s' & evs & Hrun & Ht & Hn & Hb & Hok & Hend).
  exists o, s', evs. repeat (split; [assumption|]).
  intros Hsteps. destruct o as [r|e|].
  - exists r. reflexivity.
  - destruct (Hok e eq_refl).
  - destruct (Hend Hsteps eq_refl).
Qed.

Section Quota.
Context (name parent : string).
Hypothesis Hname : Js.truthy name = true.
Hypothesis Hparent : Js.truthy parent = true.
Hypothesis Hquota : forall t q tok, exists err,
  w_files_list w t q tok = Rejected err /\ isRetryableRateLimit err = true.

Lemma bfs_spins (fuel : nat) (s : state) :
  emits (bfs w cfg fuel (Js.toLowerCase name) [(parent, 0)]) s
    (fun o evs _ =>
       o = Pending
       /\ searches evs = repeat (FilesList (childrenQuery parent) None) (fuel - 1)
       /\ backoffs evs = repeat 1000 (fuel - 1)).
Proof.
  revert s. induction fuel as [|fuel IH]; intros s; cbn [bfs].
  { run. repeat split. }
  replace (maxDepth <? 0) with false by reflexivity. run.
  destruct fuel as [|fuel]; cbn [listSubfolders].
  { run. repeat split. }
  run. eapply emits_mono; [apply throttle_idle|]. intros ? e1 s1 [-> [Hs1 Hb1]].
  unfold filesList. run. cbn [tick].
  destruct (Hquota (tick s1) (childrenQuery parent) None) as (err & -> & Hretry).
  run. rewrite Hretry. run. cbn [app].
  eapply emits_mono; [apply IH|]. intros ? e2 s2 (-> & Hs2 & Hb2).
  split; [reflexivity|]. unfold searches in *.
  rewrite !List.filter_app, !backoffs_app. cbn [List.filter isFilesList backoffs].
  rewrite Hs1, Hb1, Hs2, Hb2.
  replace (S (S fuel) - 1)%nat with (S (S fuel - 1)) by lia.
  split; reflexivity.
Qed.

Lemma internal_spins (steps : nat) (s : state) :
  emits (_findFolderByNameInternal w cfg steps name parent) s
    (fun o evs _ =>
       o = Pending
       /\ searches evs = repeat (FilesList (childrenQuery parent) None) (steps - 1)
       /\ backoffs evs = repeat 1000 (steps - 1)).
Proof.
  unfold _findFolderByNameInternal. rewrite Hname, Hparent. cbn [negb].
  apply bfs_spins.
Qed.

Lemma findFolderByName_timed_out (s : state) :
  folderMapping cfg = None ->
  emits (findFolderByName w cfg name parent) s (fun o _ _ => o = Ret None).
Proof.
  intros Hmap. unfold findFolderByName. run. rewrite Hname, Hmap. cbn [negb].
  run. unfold _findFolderByNameFallback. run. cbn [tick]. apply emits_race.
  eapply emits_mono; [apply internal_spins|]. intros ? e1 s1 (-> & _).
  run. eapply emits_mono; [apply dlog_idle|]. intros ? e2 s2 [-> _]. run.
  reflexivity.
Qed.

End Quota.

(** X12. Inside a scope root the search has no retry ceiling. When every
    folder listing is rejected with a retryable error, the breadth-first
    search puts the folder back in its queue after a sleep of one second,
    again and again. It never ends by itself: after any number of loop
    turns it is still pending. And it goes on calling Drive: for every
    number [k] there is a point of its run at which it has listed the
    scope root [k] times and slept one second [k] times. *)
Theorem scoped_search_spins_until_timer
    (name parent : string) (s : state)
    (Hname : Js.truthy name = true)
    (Hparent : Js.truthy parent = true)
    (Hquota : forall t q tok, exists err,
        w_files_list w t q tok = Rejected err
        /\ isRetryableRateLimit err = true) :
  (forall steps,
     fst (_findFolderByNameInternal w cfg steps name parent s) = Pending)
  /\ (forall k : nat, exists steps s' evs,
        _findFolderByNameInternal w cfg steps name parent s = (Pending, s')
        /\ trace s' = trace s ++ evs
        /\ searches evs = repeat (FilesList (childrenQuery parent) None) k
        /\ backoffs evs = repeat 1000 k).
Proof.
  split.
  - intros steps.
    destruct (emits_run _ _ _ (internal_spins name parent Hname Hparent Hquota
                                 steps s))
      as (o & s' & evs & Hrun & Ht & -> & Hs & Hb).
    rewrite Hrun. reflexivity.
  - intros k.
    destruct (emits_run _ _ _ (internal_spins name parent Hname Hparent Hquota
                                 (S k) s))
      as (o & s' & evs & Hrun & Ht & -> & Hs & Hb).
    replace (S k - 1)%nat with k in Hs, Hb by lia.
    exists (S k), s', evs. repeat split; assumption.
Qed.

Section Matching.
Context (name : string) (f : file).
Hypothesis Hname : Js.truthy name = true.
Hypothesis Hmap : folderMapping cfg = None.
Hypothesis Hlist : forall t q tok, w_files_list w t q tok = Fulfilled ([f], None).

Lemma searchVariations_head :
  exists rest, searchVariations name = name :: rest.
Proof.
  unfold searchVariations. cbn [List.filter]. rewrite Hname.
  eexists. reflexivity.
Qed.

Lemma global_accepts (parent : string) (s : state) :
  Js.truthy parent = false ->
  (forall t, (1 <= w_searchSteps w t)%nat) ->
  Js.includes (Js.toLowerCase name) (Js.toLowerCase (f_name f))
  || Js.includes (Js.toLowerCase (f_name f)) (Js.toLowerCase name) = true ->
  emits (findFolderByName w cfg name parent) s
    (fun o evs _ =>
       o = Ret (Some (f_id f))
       /\ searches evs = [FilesList (globalQuery name) None]).
Proof.
  intros Hparent Hsteps Hsub.
  assert (Hmatch : findMatch (Js.toLowerCase name) [f] = Some f).
  { unfold findMatch. cbn [List.find]. rewrite Hsub.
    destruct (String.eqb _ _); reflexivity. }
  unfold findFolderByName. run. rewrite Hname, Hmap. cbn [negb]. run.
  unfold _findFolderByNameFallback. run. cbn [tick]. apply emits_race.
  unfold _findFolderByNameInternal. rewrite Hname, Hparent. cbn [negb].
  destruct searchVariations_head as [rest ->]. cbn [globalSearch]. run.
  match goal with
  | |- context [w_searchSteps w ?t] =>
      pose proof (Hsteps t) as Hs; destruct (w_searchSteps w t) as [|n]; [lia|]
  end.
  cbn [globalAttempts]. replace (0 <? 3) with true by reflexivity. run.
  eapply emits_mono; [apply throttle_idle|]. intros ? e1 s1 [-> [Hs1 Hb1]].
  unfold filesList. run. cbn [tick]. rewrite Hlist. run. cbn [fst].
  rewrite Hmatch. run. split; [reflexivity|].
  unfold searches in *. rewrite !List.filter_app, Hs1. reflexivity.
Qed.

Hypothesis Hdiffers :
  String.eqb (Js.toLowerCase (f_name f)) (Js.toLowerCase name) = false.

Lemma listSubfolders_page (fuel : nat) (id : string) (all : list file)
    (s : state) :
  emits (listSubfolders w cfg fuel id None all) s
    (fun o _ _ => o = Ret (all ++ [f]) \/ o = Pending).
Proof.
  destruct fuel as [|fuel]; cbn [listSubfolders]; run; [right; reflexivity|].
  eapply emits_mono; [apply throttle_idle|]. intros ? e1 s1 [-> _].
  unfold filesList. run. cbn [tick]. rewrite Hlist. run. cbn [fst snd]. run.
  left. reflexivity.
Qed.

Lemma bfs_rejects (fuel : nat) (queue : list (string * Z)) (s : state) :
  emits (bfs w cfg fuel (Js.toLowerCase name) queue) s
    (fun o _ _ => o = Ret None \/ o = Pending).
Proof.
  revert queue s. induction fuel as [|fuel IH]; intros queue s; cbn [bfs].
  { run. right. reflexivity. }
  destruct queue as [|[id depth] queue]; [run; left; reflexivity|].
  destruct (maxDepth <? depth); [apply IH|].
  run. eapply emits_mono; [apply listSubfolders_page|].
  intros ? ? ? [->| ->]; [|right; reflexivity].
  cbn [app List.find]. rewrite Hdiffers. apply IH.
Qed.

Lemma scoped_rejects (parent : string) (s : state) :
  Js.truthy parent = true ->
  emits (findFolderByName w cfg name parent) s (fun o _ _ => o = Ret None).
Proof.
  intros Hparent.
  unfold findFolderByName. run. rewrite Hname, Hmap. cbn [negb]. run.
  unfold _findFolderByNameFallback. run. cbn [tick]. apply emits_race.
  unfold _findFolderByNameInternal. rewrite Hname, Hparent. cbn [negb].
  eapply emits_mono; [apply bfs_rejects|].
  intros ? ? ? [->| ->]; run; [reflexivity|].
  eapply emits_mono; [apply dlog_idle|]. intros ? ? ? [-> _]. run. reflexivity.
Qed.

End Matching.

(** X13. The two search modes do not match names alike. Let Drive answer
    every listing with the one folder [f], whose lowercased name contains
    the lowercased target or is contained in it, without being equal to it.
    Without a scope root the resolver returns the identifier of [f], after
    a single listing; inside a scope root, where only equal names count,
    it returns not-found. *)
Theorem partial_name_matches_only_globally
    (name : string) (f : file) (s : state)
    (Hname : Js.truthy name = true)
    (Hmap : folderMapping cfg = None)
    (Hlist : forall t q tok, w_files_list w t q tok = Fulfilled ([f], None))
    (Hsteps : forall t, (1 <= w_searchSteps w t)%nat)
    (Hpart : Js.includes (Js.toLowerCase name) (Js.toLowerCase (f_name f))
             || Js.includes (Js.toLowerCase (f_name f)) (Js.toLowerCase name)
             = true)
    (Hdiffers : String.eqb (Js.toLowerCase (f_name f)) (Js.toLowerCase name)
                = false) :
  (forall parent, Js.truthy parent = false ->
     exists s' evs,
       findFolderByName w cfg name parent s = (Ret (Some (f_id f)), s')
       /\ trace s' = trace s ++ evs
       /\ searches evs = [FilesList (globalQuery name) None])
  /\ (forall parent, Js.truthy parent = true ->
       exists s', findFolderByName w cfg name parent s = (Ret None, s')).
Proof.
  split; intros parent Hparent.
  - destruct (emits_run _ _ _
                (global_accepts name f Hname Hmap Hlist parent s Hparent Hsteps
                   Hpart))
      as (o & s' & evs & Hrun & Ht & -> & Hs).
    exists s', evs. repeat split; assumption.
  - destruct (emits_run _ _ _
                (scoped_rejects name f Hname Hmap Hlist Hdiffers parent s
                   Hparent))
      as (o & s' & evs & Hrun & _ & ->).
    exists s'. exact Hrun.
Qed.

Section Cache.
Context (mapping : gmap string string) (name parent id : string).
Hypothesis Hmap : folderMapping cfg = Some mapping.
Hypothesis Hname : name <> EmptyString.
Hypothesis Hid : id <> EmptyString.

(** X14. The cache is also read under the lowercased name. Take a name
    that is no property name of [Object.prototype] and is not given a
    non-empty identifier by the cache, while its lowercase is a key of the
    cache with a non-empty identifier: [findFolderByName] returns that
    identifier and adds nothing to the trace but the log line of the cache
    hit. *)
Theorem cache_hit_by_lowercase_key (s : state)
    (Hplain : Js.protoKey name = false)
    (Hmiss : mapped mapping name = None)
    (Hkey : mapping !! Js.toLowerCase name = Some id) :
  exists s' (elapsed : Z),
    findFolderByName w cfg name parent s = (Ret (Some id), s')
    /\ trace s'
       = trace s ++ [LogLine "INFO" ("Found folder (mapped): " +:+ dq +:+ name
                                     +:+ dq +:+ " (" +:+ pretty elapsed +:+ "ms)")].
Proof.
  assert (Hn : Js.truthy name = true) by (destruct name; [congruence | reflexivity]).
  assert (Hi : Js.truthy id = true) by (destruct id; [congruence | reflexivity]).
  assert (H : emits (findFolderByName w cfg name parent) s
    (fun o evs _ =>
       o = Ret (Some id)
       /\ exists elapsed : Z,
            evs = [LogLine "INFO" ("Found folder (mapped): " +:+ dq +:+ name
                                   +:+ dq +:+ " (" +:+ pretty elapsed +:+ "ms)")])).
  { unfold findFolderByName. run. rewrite Hn. cbn [negb]. rewrite Hmap.
    assert (Hhit : mapped mapping (Js.toLowerCase name) = Some id)
      by (unfold mapped; rewrite Hkey, Hi; reflexivity).
    rewrite Hmiss, Hhit. cbn [orElse]. run.
    split; [reflexivity|]. eexists. reflexivity. }
  destruct (emits_run _ _ _ H) as (o & s' & evs & Hrun & Ht & -> & elapsed & ->).
  exists s', elapsed. split; assumption.
Qed.

End Cache.

End Search.

Lemma partial_name_matches_only_globally_witness :
  (forall parent, Js.truthy parent = false ->
     exists s' evs,
       findFolderByName Samples.oneFolder Samples.cfg0 "budi" parent
         Samples.state0 = (Ret (Some "id-budi"), s')
       /\ trace s' = trace Samples.state0 ++ evs
       /\ searches evs = [FilesList (globalQuery "budi") None])
  /\ (forall parent, Js.truthy parent = true ->
       exists s', findFolderByName Samples.oneFolder Samples.cfg0 "budi" parent
                    Samples.state0 = (Ret None, s')).
Proof.
  apply (partial_name_matches_only_globally Samples.oneFolder Samples.cfg0
           "budi" {| f_id := "id-budi"; f_name := "Budi Santoso" |}
           Samples.state0).
  - reflexivity.
  - reflexivity.
  - intros t q tok. reflexivity.
  - intros t. vm_compute. lia.
  - vm_compute. reflexivity.
  - vm_compute. reflexivity.
Defined.

Lemma cache_hit_by_lowercase_key_witness :
  exists s' (elapsed : Z),
    findFolderByName Samples.calmWorld Samples.cfgJose
      (nama Samples.joseUpper) EmptyString Samples.state0
    = (Ret (Some "id-jose"), s')
    /\ trace s'
       = trace Samples.state0
         ++ [LogLine "INFO" ("Found folder (mapped): " +:+ dq
                             +:+ nama Samples.joseUpper
                             +:+ dq +:+ " (" +:+ pretty elapsed +:+ "ms)")].
Proof.
  apply (cache_hit_by_lowercase_key Samples.calmWorld Samples.cfgJose
           (<["Jos" +:+ String (Js.chr 233) EmptyString := "id-jose"]>
              (<["jos" +:+ String (Js.chr 233) EmptyString := "id-jose"]> ∅))
           (nama Samples.joseUpper) EmptyString "id-jose").
  - reflexivity.
  - discriminate.
  - discriminate.
  - vm_compute. reflexivity.
  - vm_compute. reflexivity.
  - vm_compute. reflexivity.
Defined.

(** The same read for a name in ASCII capitals. *)
Example cache_hit_for_capitals :
  fst (findFolderByName Samples.calmWorld Samples.cfgMapped "BUDI SANTOSO"
         EmptyString Samples.state0) = Ret (Some "id-budi").
Proof. vm_compute. reflexivity. Qed.

Lemma scoped_search_spins_until_timer_witness :
  (forall steps,
     fst (_findFolderByNameInternal Samples.searchOverQuota Samples.cfgScoped
            steps "Budi Santoso" "root-1" Samples.state0) = Pending)
  /\ (forall k : nat, exists steps s' evs,
        _findFolderByNameInternal Samples.searchOverQuota Samples.cfgScoped
          steps "Budi Santoso" "root-1" Samples.state0 = (Pending, s')
        /\ trace s' = trace Samples.state0 ++ evs
        /\ searches evs = repeat (FilesList (childrenQuery "root-1") None) k
        /\ backoffs evs = repeat 1000 k).
Proof.
  apply (scoped_search_spins_until_timer Samples.searchOverQuota
           Samples.cfgScoped "Budi Santoso" "root-1" Samples.state0).
  - reflexivity.
  - reflexivity.
  - intros t q tok. exists Samples.rateLimitError. split; reflexivity.
Defined.

Lemma global_search_call_ceiling_witness :
  exists o s' evs,
    _findFolderByNameInternal Samples.searchOverQuota Samples.cfg0 3
      "Budi Santoso" EmptyString Samples.state0 = (o, s')
    /\ trace s' = trace Samples.state0 ++ evs
    /\ (List.length (searches evs) <= 15)%nat
    /\ List.Forall isSearchBackoff (backoffs evs)
    /\ (forall e, o <> Throw e)
    /\ ((3 <= 3)%nat -> exists r, o = Ret r).
Proof.
  apply (global_search_call_ceiling Samples.searchOverQuota Samples.cfg0
           "Budi Santoso" EmptyString 3 Samples.state0).
  reflexivity.
Defined.

(** Four turns of the scoped search against a Drive that is over quota:
    still pending, three listings of the scope root and three sleeps. *)
Example scoped_search_over_quota :
  let r := _findFolderByNameInternal Samples.searchOverQuota Samples.cfgScoped
             4 "Budi Santoso" "root-1" Samples.state0 in
  fst r = Pending
  /\ searches (trace (snd r))
     = repeat (FilesList (childrenQuery "root-1") None) 3
  /\ backoffs (trace (snd r)) = [1000; 1000; 1000].
Proof. vm_compute. repeat split. Qed.

(** With a Drive that is always over quota the ceiling is reached for a
    name whose five search terms differ: 15 listings, 10 back-off sleeps
    (the jitter of this sample world is 0). *)
Example global_search_over_quota :
  let r := _findFolderByNameInternal Samples.searchOverQuota Samples.cfg0 3
             "Dr Budi  Santoso" EmptyString Samples.state0 in
  fst r = Ret None
  /\ List.length (searches (trace (snd r))) = 15%nat
  /\ backoffs (trace (snd r))
     = [2000; 4000; 2000; 4000; 2000; 4000; 2000; 4000; 2000; 4000].
Proof. vm_compute. repeat split. Qed.

End SearchFacts.
(** ** External state: cell addresses *)

Module CellFacts.
Import Worker Reference.

Lemma toColLoop_upper (fuel : nat) (n : Z) (s : string) :
  allChars Js.isUpper s = true ->
  allChars Js.isUpper (toColLoop fuel n s) = true.
Proof.
  revert n s. induction fuel as [|fuel IH]; intros n s Hs; cbn [toColLoop];
    [exact Hs|].
  destruct (0 <? n); [|exact Hs]. apply IH. cbn [allChars]. rewrite Hs, andb_true_r.
  pose proof (Z.mod_pos_bound (n - 1) 26 ltac:(lia)) as Hrem.
  unfold Js.isUpper, Js.between. rewrite ColumnFacts.code_chr by lia.
  apply andb_true_iff. split; apply Z.leb_le; lia.
Qed.

Lemma toCol_upper (index : Z) : allChars Js.isUpper (toCol index) = true.
Proof. apply toColLoop_upper. reflexivity. Qed.

Lemma pretty_N_char_lower (x : N) : Js.isUpper (pretty_N_char x) = false.
Proof.
  unfold pretty_N_char.
  repeat match goal with
         | |- context [match ?y with _ => _ end] => destruct y
         end; reflexivity.
Qed.

Lemma pretty_N_go_lower (x : N) (s : string) :
  allChars (fun c => negb (Js.isUpper c)) s = true ->
  allChars (fun c => negb (Js.isUpper c)) (pretty_N_go x s) = true.
Proof.
  revert s. induction (N.lt_wf_0 x) as [x _ IH]. intros s Hs.
  destruct (N.eq_dec x 0%N) as [->|Hx]; [rewrite pretty_N_go_0; exact Hs|].
  rewrite pretty_N_go_step by lia. apply IH.
  - apply N.div_lt; lia.
  - cbn [allChars]. rewrite pretty_N_char_lower, Hs. reflexivity.
Qed.

Lemma pretty_N_lower (x : N) :
  allChars (fun c => negb (Js.isUpper c)) (pretty x) = true.
Proof.
  unfold pretty, pretty_N. destruct (decide (x = 0%N)); [reflexivity|].
  apply pretty_N_go_lower. reflexivity.
Qed.

Lemma pretty_Z_lower (z : Z) :
  allChars (fun c => negb (Js.isUpper c)) (pretty z) = true.
Proof.
  destruct z as [|p|p]; [reflexivity|apply (pretty_N_lower (Npos p))|].
  change (pretty (Zneg p)) with (String "-" (pretty (Npos p))).
  cbn [allChars]. rewrite (pretty_N_lower (Npos p)). reflexivity.
Qed.

(** Letters followed by something that holds no letter: the two parts are
    determined. *)
Lemma letters_then_rest (u1 u2 d1 d2 : string) :
  allChars Js.isUpper u1 = true -> allChars Js.isUpper u2 = true ->
  allChars (fun c => negb (Js.isUpper c)) d1 = true ->
  allChars (fun c => negb (Js.isUpper c)) d2 = true ->
  u1 +:+ d1 = u2 +:+ d2 -> u1 = u2 /\ d1 = d2.
Proof.
  revert u2. induction u1 as [|c u1 IH]; intros [|c' u2] H1 H2 H3 H4 E.
  - split; [reflexivity | exact E].
  - change (d1 = String c' (u2 +:+ d2)) in E. subst d1. cbn [allChars] in H2, H3.
    apply andb_true_iff in H2. destruct H2 as [H2 _].
    rewrite H2 in H3. discriminate H3.
  - change (String c (u1 +:+ d1) = d2) in E. subst d2. cbn [allChars] in H1, H4.
    apply andb_true_iff in H1. destruct H1 as [H1 _].
    rewrite H1 in H4. discriminate H4.
  - change (String c (u1 +:+ d1) = String c' (u2 +:+ d2)) in E.
    injection E as -> E. cbn [allChars] in H1, H2.
    apply andb_true_iff in H1. apply andb_true_iff in H2.
    destruct (IH u2 ltac:(tauto) ltac:(tauto) H3 H4 E) as [-> ->].
    split; reflexivity.
Qed.

Lemma append_inv_head (p a b : string) : p +:+ a = p +:+ b -> a = b.
Proof.
  induction p as [|c p IH]; intros E; [exact E|].
  change (String c (p +:+ a) = String c (p +:+ b)) in E.
  injection E as E. apply IH, E.
Qed.

Lemma cellRange_inj (cfg : config) (c1 c2 r1 r2 : Z) :
  0 <= c1 -> 0 <= c2 ->
  cellRange cfg (toCol c1) r1 = cellRange cfg (toCol c2) r2 ->
  c1 = c2 /\ r1 = r2.
Proof.
  intros Hc1 Hc2 Hsame. unfold cellRange in Hsame.
  apply append_inv_head, append_inv_head in Hsame.
  apply letters_then_rest in Hsame;
    try apply toCol_upper; try apply pretty_Z_lower.
  destruct Hsame as [Hcol Hrow]. split.
  - apply (f_equal colNumber) in Hcol.
    rewrite !ColumnFacts.toCol_number in Hcol by assumption. lia.
  - apply pretty_Z_inj, Hrow.
Qed.

(** X15. Cell addresses do not collide: on one sheet, the A1 ranges of two
    cells are equal only when the cells have the same column index and the
    same row number. So writes to different logical columns of a record,
    or to the same column of different records, never land in one cell. *)
Theorem cellRange_injective (cfg : config) (c1 c2 r1 r2 : Z)
    (Hc1 : 0 <= c1) (Hc2 : 0 <= c2)
    (Hsame : cellRange cfg (toCol c1) r1 = cellRange cfg (toCol c2) r2) :
  c1 = c2 /\ r1 = r2.
Proof. apply (cellRange_inj cfg); assumption. Qed.

Lemma cellRange_injective_witness : 3 = 3 /\ 7 = 7.
Proof.
  apply (cellRange_injective Samples.cfg0 3 3 7 7); [lia | lia | reflexivity].
Defined.

(** What a write to one cell says about another: it is a write to the
    other only if column and row agree. *)
Lemma isCellWrite_other (cfg : config) (c1 c2 r1 r2 : Z) (v : string) (ok : bool) :
  0 <= c1 -> 0 <= c2 -> c1 <> c2 \/ r1 <> r2 ->
  Observe.isCellWrite cfg c1 r1 (ValuesUpdate (cellRange cfg (toCol c2) r2) v ok)
  = false.
Proof.
  intros H1 H2 Hne. cbn [Observe.isCellWrite]. apply String.eqb_neq. intros E.
  symmetry in E.
  destruct (cellRange_inj cfg c1 c2 r1 r2 H1 H2 E); lia.
Qed.

End CellFacts.
(** ** Records that fail *)

Module FailureFacts.
Import Partition Worker Observe Ledger RunFacts ProcessorFacts OutcomeFacts.
Local Open Scope worker_scope.

Local Abbreviation unwritten := (always (fun evs => updates evs = [])).

Lemma updates_app (a b : list event) : updates (a ++ b) = updates a ++ updates b.
Proof. apply List.filter_app. Qed.

Lemma unwritten_app (a b : list event) :
  updates a = [] -> updates b = [] -> updates (a ++ b) = [].
Proof. intros Ha Hb. rewrite updates_app, Ha, Hb. reflexivity. Qed.

Lemma updates_none (cfg : config) (col row : Z) (evs : list event) :
  updates evs = [] -> existsb (isCellWrite cfg col row) evs = false.
Proof.
  induction evs as [|e evs IH]; [reflexivity|].
  destruct e; cbn; try exact IH; discriminate.
Qed.

Lemma updates_none_of (cfg : config) (col row : Z) (v : string)
    (evs : list event) :
  updates evs = [] -> existsb (isCellWriteOf cfg col row v) evs = false.
Proof.
  induction evs as [|e evs IH]; [reflexivity|].
  destruct e; cbn; try exact IH; discriminate.
Qed.

Ltac leave_step :=
  first
    [ match goal with H : _ |- _ => solve [apply H] end
    | apply always_ret; reflexivity
    | apply always_throw; reflexivity
    | apply always_pending; reflexivity
    | apply always_emit; reflexivity
    | apply always_silent; [reflexivity | intros ?; reflexivity]
    | apply always_bind; [exact unwritten_app | | intros ?]
    | apply always_try
    | apply always_tryCatch; [reflexivity | exact unwritten_app | | intros ?]
    | match goal with
      | |- always _ (match ?x with _ => _ end) => destruct x
      end ].

Ltac leave := repeat leave_step.

Section Unwritten.
Context (w : world) (cfg : config).

Lemma unwritten_dateNow : unwritten (dateNow w).
Proof. unfold dateNow. leave. Qed.

Lemma unwritten_randomBelow (k : Z) : unwritten (randomBelow w k).
Proof. unfold randomBelow. leave. Qed.

Lemma unwritten_dlog (msg : string) : unwritten (dlog cfg msg).
Proof. unfold dlog, writeLog. leave. Qed.

Lemma unwritten_throttle : unwritten (throttle w cfg).
Proof.
  unfold throttle. pose proof unwritten_dateNow. pose proof unwritten_randomBelow.
  leave.
Qed.

Lemma unwritten_hasPermissionLoop (fuel : nat) (attempt : Z)
    (fileId email role : string) :
  unwritten (hasPermissionLoop w cfg fuel attempt fileId email role).
Proof.
  revert attempt. induction fuel as [|fuel IH]; intros attempt;
    cbn [hasPermissionLoop]; [leave|].
  pose proof unwritten_throttle. pose proof unwritten_dlog.
  pose proof unwritten_randomBelow. unfold permissionsList, settle, sleep.
  leave.
Qed.

Lemma unwritten_hasPermission (fileId email role : string) :
  unwritten (hasPermission w cfg fileId email role).
Proof. unfold hasPermission. pose proof unwritten_hasPermissionLoop. leave. Qed.

Lemma unwritten_grantLoop (fuel : nat) (attempt : Z) (fileId email : string) :
  unwritten (grantLoop w cfg fuel attempt fileId email).
Proof.
  revert attempt. induction fuel as [|fuel IH]; intros attempt;
    cbn [grantLoop]; [leave|].
  pose proof unwritten_throttle. pose proof unwritten_dlog.
  pose proof unwritten_randomBelow. unfold permissionsCreate, settle, sleep.
  leave.
Qed.

Lemma unwritten_grantPermission (fileId email : string) :
  unwritten (grantPermission w cfg fileId email).
Proof. unfold grantPermission. pose proof unwritten_grantLoop. leave. Qed.

Lemma unwritten_findFolderByName (name parent : string) :
  unwritten (findFolderByName w cfg name parent).
Proof.
  intros s. eapply emits_mono;
    [apply (ResolverFacts.search_findFolderByName_settles
              (fun evs => updates evs = []));
     [reflexivity | exact unwritten_app | intros; reflexivity ..]|].
  intros ? ? ? [_ H]. exact H.
Qed.

(** The resolution step when the resolver finds nothing. *)
Lemma resolveFolder_nothing (p : participant) (s : state) :
  Js.truthy (folderId p) = false ->
  (forall s0, fst (findFolderByName w cfg (nama p) (parentFolderId cfg) s0)
              = Ret None) ->
  emits (resolveFolder w cfg p) s
    (fun o evs s' =>
       o = Ret None /\ noPermissionCall evs /\ updates evs = []
       /\ st_stats s' = st_stats s /\ seen s' = seen s).
Proof.
  intros Hnoid Hnone.
  assert (H : emits (resolveFolder w cfg p) s
    (fun o evs _ => o = Ret None /\ noPermissionCall evs /\ updates evs = [])).
  { unfold resolveFolder. rewrite Hnoid. run. apply emits_fst.
    apply (emits_and_calm (fun evs => updates evs = []));
      [apply unwritten_findFolderByName|].
    eapply emits_mono; [apply ResolverFacts.findFolderByName_settles|].
    intros ? ? ? [_ Hq] Hu Hfst. rewrite Hnone in Hfst. subst. run.
    split; [reflexivity|]. cbn [app]. rewrite ?app_nil_r. split; assumption. }
  destruct H as (evs & Ht & Ho & Hq & Hu). exists evs. split; [exact Ht|].
  split; [exact Ho|]. split; [exact Hq|]. split; [exact Hu|].
  apply LedgerFacts.keeps_resolveFolder.
Qed.

Lemma unwritten_resolveFolder (p : participant) :
  unwritten (resolveFolder w cfg p).
Proof.
  unfold resolveFolder. pose proof unwritten_findFolderByName.
  pose proof unwritten_dateNow. leave.
Qed.

End Unwritten.

Lemma isCellWrite_elsewhere (cfg : config) (c1 c2 r1 r2 : Z) (v : string)
    (ok : bool) :
  0 <= c1 -> 0 <= c2 -> c1 <> c2 ->
  isCellWrite cfg c1 r1 (ValuesUpdate (cellRange cfg (toCol c2) r2) v ok) = false.
Proof.
  intros H1 H2 Hne. cbn [isCellWrite]. apply String.eqb_neq. intros E.
  symmetry in E. destruct (CellFacts.cellRange_inj cfg c1 c2 r1 r2 H1 H2 E).
  contradiction.
Qed.

Lemma isCellWriteOf_elsewhere (cfg : config) (c1 c2 r1 r2 : Z) (v v' : string)
    (ok : bool) :
  0 <= c1 -> 0 <= c2 -> c1 <> c2 ->
  isCellWriteOf cfg c1 r1 v (ValuesUpdate (cellRange cfg (toCol c2) r2) v' ok)
  = false.
Proof.
  intros H1 H2 Hne. cbn [isCellWriteOf].
  pose proof (isCellWrite_elsewhere cfg c1 c2 r1 r2 v' ok H1 H2 Hne) as H.
  cbn [isCellWrite] in H. rewrite H. reflexivity.
Qed.

(** A Drive that lists no folder at all: the resolver finds nothing. *)
Section EmptyDrive.
Context (w : world) (cfg : config).
Hypothesis Hmap : folderMapping cfg = None.
Hypothesis Hempty : forall t q tok, w_files_list w t q tok = Fulfilled ([], None).

Lemma throttle_returns (s : state) :
  emits (throttle w cfg) s (fun o _ _ => o = Ret tt).
Proof.
  eapply emits_mono; [apply throttle_run|]. intros ? ? ? [-> _]. reflexivity.
Qed.

Lemma globalAttempts_empty (fuel : nat) (attempt : Z) (targetLower q : string)
    (s : state) :
  emits (globalAttempts w cfg fuel attempt targetLower q) s
    (fun o _ _ => o = Ret None \/ o = Pending).
Proof.
  destruct fuel as [|fuel]; cbn [globalAttempts]; [run; right; reflexivity|].
  destruct (attempt <? 3); [|run; left; reflexivity].
  run. eapply emits_mono; [apply throttle_returns|]. intros ? ? ? ->.
  unfold filesList. run. cbn [tick]. rewrite Hempty. run.
  cbn [fst findMatch List.find orElse]. run. left. reflexivity.
Qed.

Lemma globalSearch_empty (steps : nat) (targetLower : string)
    (terms : list string) (s : state) :
  emits (globalSearch w cfg steps targetLower terms) s
    (fun o _ _ => o = Ret None \/ o = Pending).
Proof.
  revert s. induction terms as [|t terms IH]; intros s; cbn [globalSearch];
    [run; left; reflexivity|].
  run. eapply emits_mono; [apply globalAttempts_empty|].
  intros ? ? ? [->| ->]; [apply IH | right; reflexivity].
Qed.

Lemma bfs_empty (fuel : nat) (targetLower : string) (queue : list (string * Z))
    (s : state) :
  emits (bfs w cfg fuel targetLower queue) s
    (fun o _ _ => o = Ret None \/ o = Pending).
Proof.
  revert queue s. induction fuel as [|fuel IH]; intros queue s; cbn [bfs];
    [run; right; reflexivity|].
  destruct queue as [|[id depth] queue]; [run; left; reflexivity|].
  destruct (maxDepth <? depth); [apply IH|]. run.
  destruct fuel as [|fuel']; cbn [listSubfolders]; [run; right; reflexivity|].
  run. eapply emits_mono; [apply throttle_returns|]. intros ? ? ? ->.
  unfold filesList. run. cbn [tick]. rewrite Hempty. run. cbn [fst snd app].
  run. cbn [List.find]. apply IH.
Qed.

Lemma empty_drive_finds_nothing (name parent : string) (s : state) :
  fst (findFolderByName w cfg name parent s) = Ret None.
Proof.
  assert (H : emits (findFolderByName w cfg name parent) s
                (fun o _ _ => o = Ret None)).
  { unfold findFolderByName. run.
    destruct (negb (Js.truthy name)) eqn:Hname; [run; reflexivity|].
    rewrite Hmap. run. unfold _findFolderByNameFallback. run. cbn [tick].
    apply emits_race. unfold _findFolderByNameInternal. rewrite Hname.
    destruct (negb (Js.truthy parent)).
    - run. eapply emits_mono; [apply globalSearch_empty|].
      intros ? ? ? [->| ->]; cbn beta iota; run; [reflexivity|].
      eapply emits_mono; [apply dlog_run|]. intros ? ? ? [-> _]. run.
      reflexivity.
    - eapply emits_mono; [apply bfs_empty|].
      intros ? ? ? [->| ->]; cbn beta iota; run; [reflexivity|].
      eapply emits_mono; [apply dlog_run|]. intros ? ? ? [-> _]. run.
      reflexivity. }
  destruct H as (evs & _ & Ho). exact Ho.
Qed.

End EmptyDrive.

Lemma isCellWriteOf_other_value (cfg : config) (c r : Z) (v v' range : string)
    (ok : bool) :
  v' <> v -> isCellWriteOf cfg c r v (ValuesUpdate range v' ok) = false.
Proof.
  intros Hne. cbn [isCellWriteOf]. apply String.eqb_neq in Hne. rewrite Hne.
  apply andb_false_r.
Qed.

Lemma emits_full {A} (m : M A) (s : state) (Q : outcome A -> Prop) :
  keeps m -> unwritten m -> Q (fst (m s)) ->
  emits m s (fun o evs s' => Q o /\ updates evs = []
                             /\ st_stats s' = st_stats s /\ seen s' = seen s).
Proof.
  intros Hk Hu HQ. destruct (Hu s) as (evs & Ht & Hev). exists evs.
  split; [exact Ht|]. split; [exact HQ|]. split; [exact Hev | apply Hk].
Qed.

Lemma emits_outcome {A} (m : M A) (s : state) (Q : outcome A -> Prop) :
  emits m s (fun o _ _ => Q o) -> Q (fst (m s)).
Proof. intros (evs & _ & H). exact H. Qed.

Ltac spread := repeat (progress (rewrite ?existsb_app; cbn [existsb])).

Section Failures.
Context (w : world) (cfg : config) (cols : columns).

Lemma update_full (col row : Z) (v label : string) (s : state) :
  0 <= col ->
  emits (update w cfg col row v label) s
    (fun o evs s' =>
       o = Ret tt
       /\ (exists ok, evs = [ValuesUpdate (cellRange cfg (toCol col) row) v ok])
       /\ st_stats s' = st_stats s /\ seen s' = seen s).
Proof.
  intros Hcol. destruct (update_exact w cfg col row v label s Hcol)
    as (evs & Ht & Ho & Hev).
  exists evs. split; [exact Ht|]. split; [exact Ho|]. split; [exact Hev|].
  apply LedgerFacts.keeps_update.
Qed.

Ltac upd ok Hst Hse :=
  (eapply emits_mono; [apply update_full; assumption|]);
  intros ? ? ? (-> & (ok & ->) & Hst & Hse); run.

(** X16. A record whose folder cannot be found stays open. For a valid,
    new, eligible record without folder identifier for whose name the
    resolver answers not-found, the loop body makes no permission call,
    writes FALSE to [isFolderExists] and a note to [LastLog], logs a line
    of level ERROR "Row n ERROR folder not found for name='...'", counts
    the record under [errors], and leaves the status cell alone: the
    record is still eligible in the next cycle, where it is ranked among
    the records whose folder is missing. *)
Theorem folder_not_found_stays_open (p : participant) (s : state)
    (HisShared : 0 <= isSharedCol cols)
    (HisFolderExists : 0 <= isFolderExistsCol cols)
    (HlastLog : 0 <= lastLogCol cols)
    (Hapart1 : isSharedCol cols <> isFolderExistsCol cols)
    (Hapart2 : isSharedCol cols <> lastLogCol cols)
    (Hvalid : validGmail p = true)
    (Hnew : dedupKey p ∉ seen s)
    (Helig : isEligible p = true)
    (Hnoid : Js.truthy (folderId p) = false)
    (Hnone : forall s0,
        fst (findFolderByName w cfg (nama p) (parentFolderId cfg) s0)
        = Ret None) :
  (exists s' evs,
     processOne w cfg cols p s = (Ret tt, s')
     /\ trace s' = trace s ++ evs
     /\ noPermissionCall evs
     /\ existsb (isCellWriteOf cfg (isFolderExistsCol cols) (rowIndex p) "FALSE")
          evs = true
     /\ existsb (isCellWrite cfg (lastLogCol cols) (rowIndex p)) evs = true
     /\ existsb (isCellWrite cfg (isSharedCol cols) (rowIndex p)) evs = false
     /\ existsb (isErrorLineWith
                   (("Row " +:+ pretty (rowIndex p))
                    +:+ " ERROR folder not found for name='")) evs = true
     /\ st_stats s' = bumpErrors (bumpTotal (st_stats s)))
  /\ isEligible (withFolderExists "FALSE" p) = true
  /\ folderMissing (withFolderExists "FALSE" p) = true.
Proof.
  split; [|split; [exact Helig | reflexivity]].
  assert (H : emits (processOne w cfg cols p) s
    (fun o evs s' =>
       o = Ret tt
       /\ noPermissionCall evs
       /\ existsb (isCellWriteOf cfg (isFolderExistsCol cols) (rowIndex p)
                     "FALSE") evs = true
       /\ existsb (isCellWrite cfg (lastLogCol cols) (rowIndex p)) evs = true
       /\ existsb (isCellWrite cfg (isSharedCol cols) (rowIndex p)) evs = false
       /\ existsb (isErrorLineWith
                     (("Row " +:+ pretty (rowIndex p))
                      +:+ " ERROR folder not found for name='")) evs = true
       /\ st_stats s' = bumpErrors (bumpTotal (st_stats s)))).
  { unfold processOne. run. unfold tryBlock. cbv zeta.
    rewrite <- negb_andb. fold (validGmail p). rewrite Hvalid. cbn [negb]. cbv iota.
    run. cbn [seen]. fold (dedupKey p).
    rewrite (bool_decide_eq_false_2 _ Hnew). run.
    rewrite (not_already_shared p Helig). run.
    eapply emits_mono; [apply (resolveFolder_nothing w cfg p _ Hnoid Hnone)|].
    intros ? e0 ? (-> & [Hc0 Hl0] & Hu0 & Hst0 & Hse0). run.
    cbn [Js.truthy negb]. cbv iota. run.
    upd ok1 Hst1 Hse1. upd ok2 Hst2 Hse2.
    split; [reflexivity|]. cbn [app]. rewrite ?app_nil_r.
    split; [|split; [|split; [|split; [|split]]]].
    - unfold noPermissionCall. project. rewrite Hc0, Hl0. split; reflexivity.
    - rewrite existsb_app. cbn [existsb isCellWriteOf].
      rewrite !String.eqb_refl. cbn [andb orb]. apply orb_true_r.
    - rewrite existsb_app. cbn [existsb isCellWrite].
      rewrite !String.eqb_refl. cbn [orb]. rewrite ?orb_true_r. reflexivity.
    - rewrite existsb_app, (updates_none _ _ _ _ Hu0). cbn [existsb orb].
      rewrite !isCellWrite_elsewhere by assumption. reflexivity.
    - apply existsb_app_r. cbn [existsb]. unfold isErrorLineWith.
      rewrite isLineWith_row by reflexivity. cbn [isErrorLine isLineWith andb orb].
      rewrite andb_true_r, orb_false_r. reflexivity.
    - LedgerFacts.books. reflexivity. }
  destruct (emits_run _ _ _ H)
    as (o & s' & evs & Hrun & Ht & -> & H1 & H2 & H3 & H4 & H5 & H6).
  exists s', evs. repeat split; try assumption; apply H1.
Qed.

(** X17. A failed grant is final. For a valid, new, eligible record whose
    folder resolves and whose permissions do not list the email yet: when
    [grantPermission] throws (its retries are used up, or the error is not
    retryable), the loop body still completes; it writes FALSE to the
    record's status cell and never TRUE, logs a line of level ERROR
    "Row n ERROR: ...", and counts the record under [errors]. A record
    whose status cell reads FALSE is not eligible any more: no later cycle
    tries it again. *)
Theorem failed_grant_is_final
    (p : participant) (s : state) (fid : string) (perms : list permission)
    (HfolderId : 0 <= folderIdCol cols)
    (HisShared : 0 <= isSharedCol cols)
    (HisFolderExists : 0 <= isFolderExistsCol cols)
    (HlastLog : 0 <= lastLogCol cols)
    (Hapart1 : isSharedCol cols <> isFolderExistsCol cols)
    (Hapart2 : isSharedCol cols <> folderIdCol cols)
    (Hapart3 : isSharedCol cols <> lastLogCol cols)
    (Hvalid : validGmail p = true)
    (Hnew : dedupKey p ∉ seen s)
    (Helig : isEligible p = true)
    (Hres : resolvesTo w cfg p fid)
    (Hfid : fid <> EmptyString)
    (Hlisted : forall t, w_permissions_list w t fid = Fulfilled perms)
    (Hnone : existsb (permissionMatches (email p) "reader") perms = false)
    (Hthrows : forall s0, exists e,
        fst (grantPermission w cfg fid (email p) s0) = Throw e) :
  (exists s' evs,
     processOne w cfg cols p s = (Ret tt, s')
     /\ trace s' = trace s ++ evs
     /\ existsb (isCellWriteOf cfg (isSharedCol cols) (rowIndex p) "FALSE") evs
        = true
     /\ existsb (isCellWriteOf cfg (isSharedCol cols) (rowIndex p) "TRUE") evs
        = false
     /\ existsb (isErrorLineWith (("Row " +:+ pretty (rowIndex p))
                                  +:+ " ERROR: ")) evs = true
     /\ st_stats s' = bumpErrors (bumpTotal (st_stats s)))
  /\ isEligible (withShared "FALSE" p) = false.
Proof.
  split; [|reflexivity].
  assert (H : emits (processOne w cfg cols p) s
    (fun o evs s' =>
       o = Ret tt
       /\ existsb (isCellWriteOf cfg (isSharedCol cols) (rowIndex p) "FALSE")
            evs = true
       /\ existsb (isCellWriteOf cfg (isSharedCol cols) (rowIndex p) "TRUE")
            evs = false
       /\ existsb (isErrorLineWith (("Row " +:+ pretty (rowIndex p))
                                    +:+ " ERROR: ")) evs = true
       /\ st_stats s' = bumpErrors (bumpTotal (st_stats s)))).
  { unfold processOne. run. unfold tryBlock. cbv zeta.
    rewrite <- negb_andb. fold (validGmail p). rewrite Hvalid. cbn [negb]. cbv iota.
    run. cbn [seen]. fold (dedupKey p).
    rewrite (bool_decide_eq_false_2 _ Hnew). run.
    rewrite (not_already_shared p Helig). run.
    eapply emits_mono;
      [apply (emits_full _ _ (fun o => o = Ret (Some fid))
                (LedgerFacts.keeps_resolveFolder w cfg p)
                (unwritten_resolveFolder w cfg p));
       apply emits_outcome;
       eapply emits_mono; [apply (resolveFolder_run w cfg p fid _ Hres)|];
       intros ? ? ? (-> & _); reflexivity|].
    intros ? e0 ? (-> & Hu0 & Hst0 & Hse0). run.
    rewrite (OutcomeFacts.resolvesTo_truthy w cfg p fid Hres).
    cbn [negb]. cbv iota. run.
    upd ok1 Hst1 Hse1.
    assert (Hid : forall st, emits
      (if negb (Js.truthy (folderId p))
       then update w cfg (folderIdCol cols) (rowIndex p) fid "FolderId"
       else ret tt) st
      (fun o evs s' =>
         o = Ret tt
         /\ existsb (isCellWriteOf cfg (isSharedCol cols) (rowIndex p) "TRUE")
              evs = false
         /\ st_stats s' = st_stats st /\ seen s' = seen st)).
    { intros st. destruct (negb (Js.truthy (folderId p))); run;
        [|repeat split].
      eapply emits_mono; [apply update_full; assumption|].
      intros ? ? ? (-> & (ok & ->) & Hst & Hse). split; [reflexivity|].
      split; [|split; assumption]. cbn [existsb].
      rewrite isCellWriteOf_elsewhere by assumption. reflexivity. }
    eapply emits_mono; [apply Hid|]. intros ? e2 ? (-> & Hw2 & Hst2 & Hse2). run.
    eapply emits_mono;
      [apply (emits_full _ _ (fun o => o = Ret false)
                (LedgerFacts.keeps_hasPermission w cfg fid (email p) "reader")
                (unwritten_hasPermission w cfg fid (email p) "reader"));
       apply emits_outcome;
       eapply emits_mono;
         [apply (PermissionCheckFacts.hasPermission_answered w cfg fid
                   (email p) "reader" _ perms Hlisted)|];
       intros ? ? ? (-> & _); rewrite Hnone; reflexivity|].
    intros ? e3 ? (-> & Hu3 & Hst3 & Hse3). run.
    eapply emits_mono;
      [apply (emits_full _ _ (fun o => exists e, o = Throw e)
                (LedgerFacts.keeps_grantPermission w cfg fid (email p))
                (unwritten_grantPermission w cfg fid (email p)));
       apply Hthrows|].
    intros ? e4 ? ((err & ->) & Hu4 & Hst4 & Hse4).
    unfold catchBlock. run.
    upd ok5 Hst5 Hse5. upd ok6 Hst6 Hse6.
    split; [reflexivity|]. cbn [app]. rewrite ?app_nil_r.
    split; [|split; [|split]].
    - spread. cbn [isCellWriteOf].
      rewrite !String.eqb_refl. cbn [andb orb]. rewrite ?orb_true_r.
      reflexivity.
    - spread. rewrite Hw2.
      rewrite (updates_none_of _ _ _ _ _ Hu0), (updates_none_of _ _ _ _ _ Hu3),
        (updates_none_of _ _ _ _ _ Hu4).
      rewrite (isCellWriteOf_other_value cfg _ _ "TRUE" "FALSE") by discriminate.
      rewrite !isCellWriteOf_elsewhere by assumption. reflexivity.
    - spread. unfold isErrorLineWith.
      rewrite <- (append_assoc "Row " (pretty (rowIndex p))).
      rewrite isLineWith_row by reflexivity. cbn [isErrorLine isLineWith andb orb].
      change (String.eqb (Js.toUpperCase "error") "ERROR") with true.
      cbn [andb orb]. rewrite ?orb_true_r. reflexivity.
    - LedgerFacts.books. reflexivity. }
  destruct (emits_run _ _ _ H)
    as (o & s' & evs & Hrun & Ht & -> & H1 & H2 & H3 & H4).
  exists s', evs. repeat split; assumption.
Qed.

End Failures.

Lemma failed_grant_is_final_witness :
  (exists s' evs,
     processOne (Samples.createFails Samples.deniedError) Samples.cfg0
       Samples.cols0 Samples.sampleRecord Samples.state0 = (Ret tt, s')
     /\ trace s' = trace Samples.state0 ++ evs
     /\ existsb (isCellWriteOf Samples.cfg0 (isSharedCol Samples.cols0)
                   (rowIndex Samples.sampleRecord) "FALSE") evs = true
     /\ existsb (isCellWriteOf Samples.cfg0 (isSharedCol Samples.cols0)
                   (rowIndex Samples.sampleRecord) "TRUE") evs = false
     /\ existsb (isErrorLineWith
                   (("Row " +:+ pretty (rowIndex Samples.sampleRecord))
                    +:+ " ERROR: ")) evs = true
     /\ st_stats s' = bumpErrors (bumpTotal (st_stats Samples.state0)))
  /\ isEligible (withShared "FALSE" Samples.sampleRecord) = false.
Proof.
  apply (failed_grant_is_final (Samples.createFails Samples.deniedError)
           Samples.cfg0 Samples.cols0 Samples.sampleRecord Samples.state0
           "abc" []).
  - vm_compute. discriminate.
  - vm_compute. discriminate.
  - vm_compute. discriminate.
  - vm_compute. discriminate.
  - vm_compute. discriminate.
  - vm_compute. discriminate.
  - vm_compute. discriminate.
  - vm_compute. reflexivity.
  - apply not_elem_of_empty.
  - reflexivity.
  - left. split; reflexivity.
  - discriminate.
  - intros t. reflexivity.
  - reflexivity.
  - intros s0. eexists.
    apply (emits_outcome _ _ (fun o => o = Throw _)).
    eapply emits_mono;
      [apply (RetryFacts.grantLoop_gives_up
                (Samples.createFails Samples.deniedError) Samples.cfg0
                "abc" "b@gmail.com" Samples.deniedError
                ltac:(intros t; reflexivity) eq_refl 5 0 s0)|].
    intros ? ? ? (-> & _). reflexivity.
Defined.

Lemma folder_not_found_stays_open_witness :
  (exists s' evs,
     processOne Samples.calmWorld Samples.cfg0 Samples.cols0 Samples.newRecord
       Samples.state0 = (Ret tt, s')
     /\ trace s' = trace Samples.state0 ++ evs
     /\ noPermissionCall evs
     /\ existsb (isCellWriteOf Samples.cfg0 (isFolderExistsCol Samples.cols0)
                   (rowIndex Samples.newRecord) "FALSE") evs = true
     /\ existsb (isCellWrite Samples.cfg0 (lastLogCol Samples.cols0)
                   (rowIndex Samples.newRecord)) evs = true
     /\ existsb (isCellWrite Samples.cfg0 (isSharedCol Samples.cols0)
                   (rowIndex Samples.newRecord)) evs = false
     /\ existsb (isErrorLineWith
                   (("Row " +:+ pretty (rowIndex Samples.newRecord))
                    +:+ " ERROR folder not found for name='")) evs = true
     /\ st_stats s' = bumpErrors (bumpTotal (st_stats Samples.state0)))
  /\ isEligible (withFolderExists "FALSE" Samples.newRecord) = true
  /\ folderMissing (withFolderExists "FALSE" Samples.newRecord) = true.
Proof.
  apply (folder_not_found_stays_open Samples.calmWorld Samples.cfg0
           Samples.cols0 Samples.newRecord Samples.state0).
  - vm_compute. discriminate.
  - vm_compute. discriminate.
  - vm_compute. discriminate.
  - vm_compute. discriminate.
  - vm_compute. discriminate.
  - vm_compute. reflexivity.
  - apply not_elem_of_empty.
  - reflexivity.
  - reflexivity.
  - intros s0. apply empty_drive_finds_nothing; [reflexivity|].
    intros t q tok. reflexivity.
Defined.

End FailureFacts.
(** ** More on the Monitor *)

Module MonitorMore.
Import Monitor MonitorFacts Reference.

Lemma scanLine_counters (s : scan) (line : string) :
  sc_success (scanLine s line)
  = sc_success s + sc_success (scanLine scan0 line)
  /\ sc_skip (scanLine s line) = sc_skip s + sc_skip (scanLine scan0 line)
  /\ sc_error (scanLine s line) = sc_error s + sc_error (scanLine scan0 line)
  /\ 0 <= sc_success (scanLine scan0 line)
  /\ 0 <= sc_skip (scanLine scan0 line)
  /\ 0 <= sc_error (scanLine scan0 line).
Proof.
  unfold scanLine, readMarker, countOutcome.
  destruct (_ && _); [destruct (markerMatch line)|];
    destruct (successMatch line); cbn; try lia;
      destruct (skipMatch line); cbn; try lia;
        destruct (errorMatch line); cbn; lia.
Qed.

Lemma scan_counters (lines : list string) (s : scan) :
  let r := fold_left scanLine lines s in
  let r0 := fold_left scanLine lines scan0 in
  sc_success r = sc_success s + sc_success r0
  /\ sc_skip r = sc_skip s + sc_skip r0
  /\ sc_error r = sc_error s + sc_error r0
  /\ 0 <= sc_success r0 /\ 0 <= sc_skip r0 /\ 0 <= sc_error r0.
Proof.
  cbv zeta. revert s. induction lines as [|l lines IH]; intros s.
  - cbn. lia.
  - cbn [fold_left].
    pose proof (IH (scanLine s l)) as H1. pose proof (IH (scanLine scan0 l)) as H2.
    pose proof (scanLine_counters s l) as H3. lia.
Qed.

Lemma startsWith_refl (s : string) : Js.startsWith s s = true.
Proof.
  induction s as [|c s IH]; [reflexivity|]. cbn [Js.startsWith].
  rewrite Ascii.eqb_refl. exact IH.
Qed.

(** X18. The counters of a worker slot add up: for every log file, the
    success, skip and error counts are not negative and their sum is the
    number of outcome lines of the file, which is the number the progress
    text starts with. *)
Theorem monitor_counters_add_up (content : string) (mtimeMs now : Z) :
  let wk := parseLogFile content mtimeMs now in
  success wk + skip wk + error wk = outcomeCount (logLines content)
  /\ 0 <= success wk /\ 0 <= skip wk /\ 0 <= error wk
  /\ Js.startsWith (pretty (outcomeCount (logLines content))) (progress wk) = true.
Proof.
  cbv zeta. unfold parseLogFile. cbv zeta. cbn [success skip error progress].
  pose proof (scan_counters_add_up (logLines content) scan0 eq_refl) as Hsum.
  pose proof (scan_processed (logLines content) scan0) as Hproc.
  pose proof (scan_counters (logLines content) scan0) as Hpos.
  cbv zeta in Hsum, Hpos. cbn [processed scan0] in Hproc.
  split; [lia|]. split; [lia|]. split; [lia|]. split; [lia|].
  rewrite Hproc, Z.add_0_l.
  destruct (0 <? _).
  - apply ProcessorFacts.startsWith_append.
  - apply startsWith_refl.
Qed.

Lemma splitLines_cons (s : string) : exists l ls, Js.splitLines s = l :: ls.
Proof.
  induction s as [|c s (l & ls & IH)]; cbn [Js.splitLines].
  - eexists. eexists. reflexivity.
  - destruct (Js.code c =? 10); [eexists; eexists; reflexivity|].
    rewrite IH. eexists. eexists. reflexivity.
Qed.

Lemma splitLines_app (a b : string) :
  Js.splitLines (a +:+ newline +:+ b) = Js.splitLines a ++ Js.splitLines b.
Proof.
  induction a as [|c a IH].
  - reflexivity.
  - rewrite ProcessorFacts.append_cons. cbn [Js.splitLines].
    destruct (Js.code c =? 10); [rewrite IH; reflexivity|].
    rewrite IH. destruct (splitLines_cons a) as (l & ls & ->). reflexivity.
Qed.

Lemma logLines_app (a b : string) :
  logLines (a +:+ newline +:+ b) = logLines a ++ logLines b.
Proof. unfold logLines. rewrite splitLines_app. apply List.filter_app. Qed.

(** X19. The counters are additive in the log: a file made of the text
    [a], a line feed and the text [b] gets, counter by counter, the count of
    [a] plus the count of [b]. So a log that grows by whole lines never
    lowers a counter. *)
Theorem monitor_counters_additive (a b : string) (mtimeMs now : Z) :
  let whole := parseLogFile (a +:+ newline +:+ b) mtimeMs now in
  let first := parseLogFile a mtimeMs now in
  let rest := parseLogFile b mtimeMs now in
  success whole = success first + success rest
  /\ skip whole = skip first + skip rest
  /\ error whole = error first + error rest
  /\ success first <= success whole
  /\ skip first <= skip whole
  /\ error first <= error whole.
Proof.
  cbv zeta. unfold parseLogFile. cbv zeta. cbn [success skip error].
  rewrite logLines_app, fold_left_app.
  pose proof (scan_counters (logLines b) (fold_left scanLine (logLines a) scan0))
    as H.
  cbv zeta in H. lia.
Qed.

Lemma scan_total_zero (lines : list string) :
  List.Forall (fun l => markerValue l = None) lines
  \/ (exists pre marker post,
        lines = pre ++ marker :: post
        /\ markerValue marker = Some 0
        /\ List.Forall (fun l => markerValue l = None) post) ->
  totalParticipants (fold_left scanLine lines scan0) = 0.
Proof.
  intros [H|(pre & marker & post & -> & Hm & Hpost)].
  - rewrite scan_total_no_marker by exact H. reflexivity.
  - apply scan_total_last_marker; assumption.
Qed.

(** X20. Without a participant count the file's age decides. When no line
    of the log is a marker line, or the last marker line carries the count
    0 (a cycle that found nothing to do), the slot is RUNNING as long as the
    file was modified less than 15 seconds ago; otherwise it is COMPLETED
    when the log holds an outcome line and IDLE when it holds none; and the
    progress text is the bare number of outcome lines. *)
Theorem status_without_count (content : string) (mtimeMs now : Z)
    (Hcount :
       List.Forall (fun l => markerValue l = None) (logLines content)
       \/ (exists pre marker post,
             logLines content = pre ++ marker :: post
             /\ markerValue marker = Some 0
             /\ List.Forall (fun l => markerValue l = None) post)) :
  status (parseLogFile content mtimeMs now)
  = (if now - mtimeMs <? 15000 then RUNNING
     else if 0 <? outcomeCount (logLines content) then COMPLETED else IDLE)
  /\ progress (parseLogFile content mtimeMs now)
     = pretty (outcomeCount (logLines content)).
Proof.
  pose proof (scan_total_zero _ Hcount) as Htot.
  pose proof (scan_processed (logLines content) scan0) as Hproc.
  cbn [processed scan0] in Hproc. rewrite Z.add_0_l in Hproc.
  unfold parseLogFile. cbv zeta. cbn [status progress].
  rewrite Htot, Hproc. cbn [Z.ltb Z.compare]. unfold freshMs.
  split; [|reflexivity].
  destruct (0 <? outcomeCount (logLines content));
    destruct (now - mtimeMs <? 15000); reflexivity.
Qed.

Lemma status_without_count_witness :
  status (parseLogFile (Samples.unlines Samples.sixOutcomes) 0 60000)
  = (if 60000 - 0 <? 15000 then RUNNING
     else if 0 <? outcomeCount (logLines (Samples.unlines Samples.sixOutcomes))
          then COMPLETED else IDLE)
  /\ progress (parseLogFile (Samples.unlines Samples.sixOutcomes) 0 60000)
     = pretty (outcomeCount (logLines (Samples.unlines Samples.sixOutcomes))).
Proof.
  apply (status_without_count (Samples.unlines Samples.sixOutcomes) 0 60000).
  left. vm_compute. repeat constructor.
Defined.

(** A worker in loop mode that finds nothing to do: the marker of the empty
    cycle takes the count of the first cycle away, and a minute later the
    slot reads COMPLETED with the bare count. *)
Example empty_cycle_snapshot :
  parseLogFile
    (Samples.scenarioC +:+ newline
     +:+ "[2025-01-01T00:01:00.000Z] [INFO] Processing 0 participants. parentFolderId=root")
    0 60000
  = {| status := COMPLETED; progress := "6"; success := 2; error := 2; skip := 2 |}.
Proof. vm_compute. reflexivity. Qed.

End MonitorMore.
(** ** Search terms, error tags and the throttle *)

Module UtilityFacts.
Import Worker Observe RunFacts.
Local Open Scope worker_scope.

Lemma setAdd_NoDup (x : string) (l : list string) :
  List.NoDup l -> List.NoDup (setAdd x l).
Proof.
  intros Hl. unfold setAdd. destruct (existsb (String.eqb x) l) eqn:E; [exact Hl|].
  apply List.NoDup_app; [exact Hl | repeat constructor; intros [] |].
  intros y Hy [<-|[]].
  assert (existsb (String.eqb x) l = true); [|congruence].
  apply existsb_exists. exists x. split; [exact Hy | apply String.eqb_refl].
Qed.

Lemma setAdd_length (x : string) (l : list string) :
  (List.length (setAdd x l) <= S (List.length l))%nat.
Proof.
  unfold setAdd. destruct (existsb _ l); [lia|]. rewrite length_app. cbn. lia.
Qed.

Lemma setAdd_head (x y : string) (l : list string) :
  exists rest, setAdd x (y :: l) = y :: rest.
Proof.
  unfold setAdd. destruct (existsb _ _); eexists; reflexivity.
Qed.

Lemma setAdd_In (x : string) (l : list string) : In x (setAdd x l).
Proof.
  unfold setAdd. destruct (existsb (String.eqb x) l) eqn:E.
  - apply existsb_exists in E. destruct E as (y & Hy & E).
    apply String.eqb_eq in E. subst y. exact Hy.
  - apply in_or_app. right. left. reflexivity.
Qed.

Lemma setAdd_keeps (x y : string) (l : list string) :
  In y l -> In y (setAdd x l).
Proof.
  intros H. unfold setAdd. destruct (existsb _ l); [exact H|].
  apply in_or_app. left. exact H.
Qed.

(** X21. The search variations of a name are pairwise different and none
    is empty; there are at most nine; a non-empty name comes first, and its
    lowercase form is among them. *)
Theorem search_variations_are_distinct (name : string) :
  List.NoDup (_createSearchVariations name)
  /\ List.Forall (fun v => v <> EmptyString) (_createSearchVariations name)
  /\ (List.length (_createSearchVariations name) <= 9)%nat
  /\ (name <> EmptyString ->
      (exists rest, _createSearchVariations name = name :: rest)
      /\ In (Js.toLowerCase name) (_createSearchVariations name)).
Proof.
  unfold _createSearchVariations. cbv zeta.
  set (v5 := setAdd _ (setAdd _ (setAdd _ (setAdd _ (setAdd name []))))).
  set (p := Js.trim (collapseSpaces (removeWords _ name))).
  set (q := Js.trim (collapseSpaces (blankPunctuation name))).
  set (v7 := if Js.truthy p && negb (String.eqb p name)
             then setAdd (Js.toLowerCase p) (setAdd p v5) else v5).
  set (v9 := if Js.truthy q && negb (String.eqb q name)
             then setAdd (Js.toLowerCase q) (setAdd q v7) else v7).
  assert (H5 : List.NoDup v5 /\ (List.length v5 <= 5)%nat
               /\ (exists rest, v5 = name :: rest)
               /\ In (Js.toLowerCase name) v5).
  { subst v5. split; [repeat apply setAdd_NoDup; constructor|].
    split.
    - repeat (etransitivity; [apply setAdd_length|]; apply le_n_S).
      cbn. lia.
    - split.
      + change (setAdd name []) with [name].
        destruct (setAdd_head (Js.toLowerCase name) name []) as [r1 ->].
        destruct (setAdd_head (Js.toUpperCase name) name r1) as [r2 ->].
        destruct (setAdd_head (Js.trim (collapseSpaces name)) name r2) as [r3 ->].
        apply setAdd_head.
      + do 3 apply setAdd_keeps. apply setAdd_In. }
  destruct H5 as (Hn5 & Hl5 & Hh5 & Hi5). clearbody v5.
  assert (H7 : List.NoDup v7 /\ (List.length v7 <= 7)%nat
               /\ (exists rest, v7 = name :: rest)
               /\ In (Js.toLowerCase name) v7).
  { subst v7. destruct (Js.truthy p && negb (String.eqb p name));
      [|split; [assumption|]; split; [lia|]; split; assumption].
    split; [do 2 apply setAdd_NoDup; exact Hn5|]. split.
    - pose proof (setAdd_length (Js.toLowerCase p) (setAdd p v5)).
      pose proof (setAdd_length p v5). lia.
    - split; [|do 2 apply setAdd_keeps; exact Hi5].
      destruct Hh5 as [r ->]. destruct (setAdd_head p name r) as [r1 ->].
      apply setAdd_head. }
  destruct H7 as (Hn7 & Hl7 & Hh7 & Hi7). clearbody v7.
  assert (H9 : List.NoDup v9 /\ (List.length v9 <= 9)%nat
               /\ (exists rest, v9 = name :: rest)
               /\ In (Js.toLowerCase name) v9).
  { subst v9. destruct (Js.truthy q && negb (String.eqb q name));
      [|split; [assumption|]; split; [lia|]; split; assumption].
    split; [do 2 apply setAdd_NoDup; exact Hn7|]. split.
    - pose proof (setAdd_length (Js.toLowerCase q) (setAdd q v7)).
      pose proof (setAdd_length q v7). lia.
    - split; [|do 2 apply setAdd_keeps; exact Hi7].
      destruct Hh7 as [r ->]. destruct (setAdd_head q name r) as [r1 ->].
      apply setAdd_head. }
  destruct H9 as (Hn9 & Hl9 & Hh9 & Hi9). clearbody v9.
  split; [apply List.NoDup_filter, Hn9|]. split.
  - apply List.Forall_forall. intros v Hv. apply filter_In in Hv.
    destruct Hv as [_ Hv]. destruct v; [discriminate Hv | discriminate].
  - split.
    + etransitivity; [apply List.filter_length_le | exact Hl9].
    + intros Hname.
      assert (Ht : Js.truthy name = true)
        by (destruct name; [congruence | reflexivity]).
      split.
      * destruct Hh9 as [r ->]. cbn [List.filter]. rewrite Ht.
        eexists. reflexivity.
      * apply filter_In. split; [exact Hi9|].
        destruct name; [congruence | reflexivity].
Qed.

Example search_variations_of_a_titled_name :
  _createSearchVariations "Dr. Budi  Santoso"
  = ["Dr. Budi  Santoso"; "dr. budi  santoso"; "DR. BUDI  SANTOSO";
     "Dr. Budi Santoso"; "dr. budi santoso"; ". Budi Santoso"; ". budi santoso";
     "Dr Budi Santoso"; "dr budi santoso"].
Proof. vm_compute. reflexivity. Qed.

Lemma truthy_append_r (a b : string) :
  Js.truthy b = true -> Js.truthy (a +:+ b) = true.
Proof. destruct a; [intros H; exact H | reflexivity]. Qed.

(** X22. What tagging does to an error. [wrapError] always returns an error
    that carries the operation and the context it was given. When the
    error takes the tag (it is an ordinary error object), nothing changes
    in how it is read: the retry decision, the summary and the message
    shown for it are those of the error as the remote service raised it.
    When it does not take the tag (a frozen object, or a value that is no
    object), the error that replaces it has the message "op failed: "
    followed by the message of the original (by its text when it has no
    message) and no response: it is never retryable, its summary reads
    "[HTTP n/a] unknown - " and that message, and the message shown for it
    is that message, whatever the status and the reasons of the original
    were. Tagging a tagged error again replaces the tag. *)
Theorem tag_keeps_the_error (op op' : string) (ctx ctx' : string * string * string)
    (email : string) (error : jserror) :
  let replaced :=
    op +:+ " failed: "
    +:+ (if Js.truthy (e_message error) then e_message error
         else e_string error) in
  e_op (wrapError op ctx error) = Some op
  /\ e_ctx (wrapError op ctx error) = Some ctx
  /\ (e_frozen error = false ->
      isRetryableRateLimit (wrapError op ctx error) = isRetryableRateLimit error
      /\ formatErrorSummary (wrapError op ctx error) = formatErrorSummary error
      /\ friendlyMessage email (wrapError op ctx error)
         = friendlyMessage email error
      /\ statusOf (wrapError op ctx error) = statusOf error
      /\ wrapError op ctx (wrapError op' ctx' error) = wrapError op ctx error)
  /\ (e_frozen error = true ->
      isRetryableRateLimit (wrapError op ctx error) = false
      /\ statusOf (wrapError op ctx error) = None
      /\ formatErrorSummary (wrapError op ctx error)
         = "[HTTP n/a] unknown - " +:+ replaced
      /\ friendlyMessage email (wrapError op ctx error) = replaced
      /\ e_frozen (wrapError op ctx error) = false).
Proof.
  cbv zeta. unfold wrapError.
  destruct (e_frozen error) eqn:Hfrozen.
  - split; [reflexivity|]. split; [reflexivity|].
    split; [discriminate|]. intros _.
    set (text := if Js.truthy (e_message error) then e_message error
                 else e_string error).
    assert (Ht : Js.truthy (op +:+ " failed: " +:+ text) = true)
      by (apply truthy_append_r; reflexivity).
    split; [reflexivity|]. split; [reflexivity|].
    split; [|split; [|reflexivity]].
    + unfold formatErrorSummary, reasonsOf, messageOf, statusOf.
      cbn [e_status e_code e_reasons e_dataMessage e_message nonZero
           List.filter List.length Nat.eqb negb Js.truthy showStatus].
      rewrite Ht. reflexivity.
    + unfold friendlyMessage, reasonsOf, messageOf, statusOf.
      cbn [e_status e_code e_reasons e_dataMessage e_message nonZero
           List.filter Js.truthy].
      rewrite Ht. cbv iota. rewrite Ht. reflexivity.
  - split; [reflexivity|]. split; [reflexivity|].
    split; [|discriminate]. intros _.
    split; [reflexivity|]. split; [reflexivity|]. split; [reflexivity|].
    split; [reflexivity|].
    cbn [e_frozen]. destruct (e_frozen error); [discriminate | reflexivity].
Qed.

(** An error that takes the tag, and one that does not. *)
Example tagged_and_replaced :
  formatErrorSummary
    (wrapError "drive.permissions.create" ("f", "a@gmail.com", "reader")
       Samples.deniedError)
  = "[HTTP 403] permissionDenied - Forbidden"
  /\ formatErrorSummary
       (wrapError "drive.permissions.create" ("f", "a@gmail.com", "reader")
          Samples.frozenError)
     = "[HTTP n/a] unknown - drive.permissions.create failed: Forbidden".
Proof. vm_compute. split; reflexivity. Qed.

Section Throttle.
Context (w : world) (cfg : config).

(** X23. The throttle keeps API calls apart. Let [elapsed] be the time
    since the last call as the clock reads it. [throttle] always returns;
    when [elapsed] is below the minimal delay it sleeps once, for the
    remaining time plus a jitter below 400 ms, and otherwise it does not
    sleep; in both cases it then records a fresh clock reading as the time
    of the last call, and adds nothing else to the trace. *)
Theorem throttle_keeps_calls_apart (s : state) :
  let elapsed := w_now w (tick s) - lastApiCallAt s in
  exists s' evs,
    throttle w cfg s = (Ret tt, s')
    /\ trace s' = trace s ++ evs
    /\ (elapsed < minDelay cfg ->
        exists ms, evs = [ThrottleSleep ms]
                   /\ minDelay cfg - elapsed <= ms < minDelay cfg - elapsed + 400
                   /\ 0 < ms
                   /\ lastApiCallAt s' = w_now w (S (S (tick s))))
    /\ (minDelay cfg <= elapsed ->
        evs = [] /\ lastApiCallAt s' = w_now w (S (tick s))).
Proof.
  cbv zeta.
  assert (H : emits (throttle w cfg) s
    (fun o evs s' =>
       o = Ret tt
       /\ (w_now w (tick s) - lastApiCallAt s < minDelay cfg ->
           exists ms, evs = [ThrottleSleep ms]
                      /\ minDelay cfg - (w_now w (tick s) - lastApiCallAt s) <= ms
                         < minDelay cfg - (w_now w (tick s) - lastApiCallAt s) + 400
                      /\ 0 < ms
                      /\ lastApiCallAt s' = w_now w (S (S (tick s))))
       /\ (minDelay cfg <= w_now w (tick s) - lastApiCallAt s ->
           evs = [] /\ lastApiCallAt s' = w_now w (S (tick s))))).
  { unfold throttle. run. cbn [tick lastApiCallAt].
    destruct (_ <? _) eqn:E; run; cbn [tick lastApiCallAt].
    - apply Z.ltb_lt in E. split; [reflexivity|]. split; [|lia].
      intros _. eexists. split; [reflexivity|].
      pose proof (randomBelow_range w (S (tick s)) 400 ltac:(lia)) as Hj.
      split; [lia|]. split; [lia | reflexivity].
    - apply Z.ltb_ge in E. split; [reflexivity|]. split; [lia|].
      intros _. split; reflexivity. }
  destruct (emits_run _ _ _ H) as (o & s' & evs & Hrun & Ht & -> & H1 & H2).
  exists s', evs. split; [exact Hrun|]. split; [exact Ht|].
  split; [exact H1 | exact H2].
Qed.

End Throttle.

End UtilityFacts.
(** ** The regular-expression matcher *)

Module RegexFacts.
Import Regex Reference.

Lemma isVoid_eq (r : re) : isVoid r = true -> r = Void.
Proof. destruct r; try discriminate. reflexivity. Qed.

Lemma matches_Void (s : string) : matches Void s = false.
Proof. induction s as [|c s IH]; [reflexivity | exact IH]. Qed.

Lemma matches_Alt (s : string) :
  forall a b, matches (Alt a b) s = matches a s || matches b s.
Proof.
  induction s as [|c s IH]; intros a b; [reflexivity|].
  cbn [matches deriv]. unfold alt.
  destruct (isVoid (deriv c a)) eqn:Ea.
  { rewrite (isVoid_eq _ Ea), matches_Void. reflexivity. }
  destruct (isVoid (deriv c b)) eqn:Eb.
  { rewrite (isVoid_eq _ Eb), matches_Void, orb_false_r. reflexivity. }
  apply IH.
Qed.

Lemma matches_alt (a b : re) (s : string) :
  matches (alt a b) s = matches a s || matches b s.
Proof.
  unfold alt. destruct (isVoid a) eqn:Ea.
  { rewrite (isVoid_eq _ Ea), matches_Void. reflexivity. }
  destruct (isVoid b) eqn:Eb.
  { rewrite (isVoid_eq _ Eb), matches_Void, orb_false_r. reflexivity. }
  apply matches_Alt.
Qed.

Lemma matches_And (s : string) :
  forall a b, matches (And a b) s = matches a s && matches b s.
Proof.
  induction s as [|c s IH]; intros a b; [reflexivity|].
  cbn [matches deriv]. unfold and.
  destruct (isVoid (deriv c a)) eqn:Ea; cbn [orb].
  { rewrite (isVoid_eq _ Ea), !matches_Void. reflexivity. }
  destruct (isVoid (deriv c b)) eqn:Eb.
  { rewrite (isVoid_eq _ Eb), !matches_Void, andb_false_r. reflexivity. }
  apply IH.
Qed.

Lemma matches_Cat_Void_r (s : string) : forall a, matches (Cat a Void) s = false.
Proof.
  induction s as [|c s IH]; intros a; [apply andb_false_r|].
  cbn [matches deriv]. unfold cat. cbn [isVoid]. rewrite orb_true_r.
  destruct (nullable a); [|apply matches_Void].
  unfold alt. cbn [isVoid]. apply matches_Void.
Qed.

Lemma matches_Cat_Void_l (b : re) (s : string) : matches (Cat Void b) s = false.
Proof. destruct s as [|c s]; [reflexivity|]. cbn. apply matches_Void. Qed.

Lemma matches_cat (a b : re) (s : string) :
  matches (cat a b) s = matches (Cat a b) s.
Proof.
  unfold cat. destruct (isVoid a) eqn:Ea; cbn [orb].
  { rewrite (isVoid_eq _ Ea), matches_Void, matches_Cat_Void_l. reflexivity. }
  destruct (isVoid b) eqn:Eb; [|reflexivity].
  rewrite (isVoid_eq _ Eb), matches_Void, matches_Cat_Void_r. reflexivity.
Qed.

Lemma matches_nil (r : re) : matches r EmptyString = nullable r.
Proof. reflexivity. Qed.

(** A string in two parts, the first matched by [a] and the second by [b],
    is matched by their concatenation. *)
Lemma matches_Cat (x : string) :
  forall a b y,
    matches a x = true -> matches b y = true ->
    matches (Cat a b) (x +:+ y) = true.
Proof.
  induction x as [|c x IH]; intros a b y Ha Hb.
  - change (EmptyString +:+ y) with y. cbn [matches] in Ha.
    destruct y as [|d y];
      [cbn [matches nullable] in *; rewrite Ha, Hb; reflexivity|].
    cbn [matches deriv]. rewrite Ha, matches_alt.
    cbn [matches] in Hb. rewrite Hb. apply orb_true_r.
  - rewrite ProcessorFacts.append_cons. cbn [matches deriv] in *.
    destruct (nullable a).
    + rewrite matches_alt, matches_cat, (IH _ _ _ Ha Hb). reflexivity.
    + rewrite matches_cat. apply (IH _ _ _ Ha Hb).
Qed.

Lemma matches_Star_step (r : re) (c : ascii) (x y : string) :
  matches r (String c x) = true -> matches (Star r) y = true ->
  matches (Star r) (String c x +:+ y) = true.
Proof.
  intros Hr Hs. rewrite ProcessorFacts.append_cons. cbn [matches deriv] in *.
  rewrite matches_cat. apply matches_Cat; assumption.
Qed.

Lemma matches_Class (p : ascii -> bool) (c : ascii) :
  matches (Class p) (String c EmptyString) = p c.
Proof. cbn. destruct (p c); reflexivity. Qed.

Lemma matches_Star_class (p : ascii -> bool) (s : string) :
  allChars p s = true -> matches (Star (Class p)) s = true.
Proof.
  induction s as [|c s IH]; intros H; [reflexivity|].
  cbn [allChars] in H. apply andb_true_iff in H. destruct H as [Hc Hs].
  apply (matches_Star_step (Class p) c EmptyString s);
    [rewrite matches_Class; exact Hc | apply IH, Hs].
Qed.

Lemma matches_plus_class (p : ascii -> bool) (s : string) :
  s <> EmptyString -> allChars p s = true -> matches (plus (Class p)) s = true.
Proof.
  intros Hne H. destruct s as [|c s]; [congruence|].
  cbn [allChars] in H. apply andb_true_iff in H. destruct H as [Hc Hs].
  unfold plus. apply (matches_Cat (String c EmptyString));
    [rewrite matches_Class; exact Hc | apply matches_Star_class, Hs].
Qed.

Lemma matches_lit (s : string) : matches (lit s) s = true.
Proof.
  induction s as [|c s IH]; [reflexivity|]. cbn [lit].
  apply (matches_Cat (String c EmptyString)); [|exact IH].
  unfold char. rewrite matches_Class. apply Ascii.eqb_refl.
Qed.

Lemma allChars_true (s : string) : allChars (fun _ => true) s = true.
Proof. induction s as [|c s IH]; [reflexivity | exact IH]. Qed.

Lemma matches_anything (s : string) : matches anything s = true.
Proof. apply matches_Star_class, allChars_true. Qed.

Lemma search_found (r : re) (pre rest : string) :
  matches r rest = true -> search r (pre +:+ rest) = true.
Proof. intros H. apply matches_Cat; [apply matches_anything | exact H]. Qed.

Lemma matches_and (a b : re) (s : string) :
  matches (and a b) s = matches a s && matches b s.
Proof.
  unfold and. destruct (isVoid a) eqn:Ea; cbn [orb].
  { rewrite (isVoid_eq _ Ea), !matches_Void. reflexivity. }
  destruct (isVoid b) eqn:Eb.
  { rewrite (isVoid_eq _ Eb), !matches_Void, andb_false_r. reflexivity. }
  apply matches_And.
Qed.

(** *** What a match says about the characters *)

Lemma Cat_dead (b : re) (t : string) :
  forall a, (forall u, matches a u = false) -> matches (Cat a b) t = false.
Proof.
  induction t as [|c t IH]; intros a Ha.
  - cbn. rewrite <- matches_nil, Ha. reflexivity.
  - cbn [matches deriv]. rewrite <- matches_nil, Ha, matches_cat.
    apply IH. intros u. apply (Ha (String c u)).
Qed.

Lemma deriv_outside (p : ascii -> bool) (c : ascii) (r : re) :
  classesIn p r -> p c = false -> forall t, matches (deriv c r) t = false.
Proof.
  intros Hr Hc. induction r as [| |q|a IHa b IHb|a IHa b IHb|a IHa b IHb|a IHa];
    intros t; cbn [deriv classesIn] in *.
  - apply matches_Void.
  - apply matches_Void.
  - destruct (q c) eqn:E; [|apply matches_Void].
    rewrite (Hr c E) in Hc. discriminate Hc.
  - destruct Hr as [H1 H2]. destruct (nullable a).
    + rewrite matches_alt, matches_cat, (Cat_dead _ _ _ (IHa H1)), (IHb H2).
      reflexivity.
    + rewrite matches_cat. apply (Cat_dead _ _ _ (IHa H1)).
  - destruct Hr as [H1 H2]. rewrite matches_alt, (IHa H1), (IHb H2). reflexivity.
  - destruct Hr as [H1 H2]. rewrite matches_and, (IHa H1). reflexivity.
  - rewrite matches_cat. apply (Cat_dead _ _ _ (IHa Hr)).
Qed.

Lemma classesIn_cat (p : ascii -> bool) (a b : re) :
  classesIn p a -> classesIn p b -> classesIn p (cat a b).
Proof. intros Ha Hb. unfold cat. destruct (_ || _); [exact I | split; assumption]. Qed.

Lemma classesIn_alt (p : ascii -> bool) (a b : re) :
  classesIn p a -> classesIn p b -> classesIn p (alt a b).
Proof.
  intros Ha Hb. unfold alt. destruct (isVoid a); [exact Hb|].
  destruct (isVoid b); [exact Ha | split; assumption].
Qed.

Lemma classesIn_and (p : ascii -> bool) (a b : re) :
  classesIn p a -> classesIn p b -> classesIn p (and a b).
Proof. intros Ha Hb. unfold and. destruct (_ || _); [exact I | split; assumption]. Qed.

Lemma classesIn_deriv (p : ascii -> bool) (c : ascii) (r : re) :
  classesIn p r -> classesIn p (deriv c r).
Proof.
  induction r as [| |q|a IHa b IHb|a IHa b IHb|a IHa b IHb|a IHa];
    intros Hr; cbn [deriv classesIn] in *.
  - exact I.
  - exact I.
  - destruct (q c); exact I.
  - destruct Hr as [H1 H2]. destruct (nullable a).
    + apply classesIn_alt; [apply classesIn_cat|]; auto.
    + apply classesIn_cat; auto.
  - destruct Hr as [H1 H2]. apply classesIn_alt; auto.
  - destruct Hr as [H1 H2]. apply classesIn_and; auto.
  - apply classesIn_cat; auto.
Qed.

(** Every character of a matched string is in one of the classes. *)
Lemma matches_chars (p : ascii -> bool) (s : string) :
  forall r, classesIn p r -> matches r s = true -> allChars p s = true.
Proof.
  induction s as [|c s IH]; intros r Hr Hm; [reflexivity|].
  cbn [matches allChars] in *. destruct (p c) eqn:Hc.
  - apply (IH _ (classesIn_deriv p c r Hr) Hm).
  - rewrite (deriv_outside p c r Hr Hc) in Hm. discriminate Hm.
Qed.

End RegexFacts.
(** ** What the worker logs, the Monitor counts *)

Module ContractFacts.
Import Partition Worker Observe Ledger Reference Regex Monitor RunFacts
  ProcessorFacts RegexFacts.
Local Open Scope worker_scope.

Lemma pretty_N_char_digit (x : N) : Js.isDigit (pretty_N_char x) = true.
Proof.
  unfold pretty_N_char.
  repeat match goal with
         | |- context [match ?y with _ => _ end] => destruct y
         end; reflexivity.
Qed.

Lemma pretty_N_go_digits (x : N) (s : string) :
  allChars Js.isDigit s = true -> allChars Js.isDigit (pretty_N_go x s) = true.
Proof.
  revert s. induction (N.lt_wf_0 x) as [x _ IH]. intros s Hs.
  destruct (N.eq_dec x 0%N) as [->|Hx]; [rewrite pretty_N_go_0; exact Hs|].
  rewrite pretty_N_go_step by lia. apply IH.
  - apply N.div_lt; lia.
  - cbn [allChars]. rewrite pretty_N_char_digit, Hs. reflexivity.
Qed.

Lemma pretty_N_go_nonempty (x : N) (s : string) :
  s <> EmptyString -> pretty_N_go x s <> EmptyString.
Proof.
  revert s. induction (N.lt_wf_0 x) as [x _ IH]. intros s Hs.
  destruct (N.eq_dec x 0%N) as [->|Hx]; [rewrite pretty_N_go_0; exact Hs|].
  rewrite pretty_N_go_step by lia. apply IH; [apply N.div_lt; lia | discriminate].
Qed.

Lemma pretty_row_digits (row : Z) :
  0 <= row ->
  pretty row <> EmptyString /\ allChars Js.isDigit (pretty row) = true.
Proof.
  intros Hrow. destruct row as [|p|p]; [split; [discriminate | reflexivity]| |lia].
  change (pretty (Zpos p)) with (pretty_N_go (Npos p) EmptyString).
  split.
  - rewrite pretty_N_go_step by lia. apply pretty_N_go_nonempty. discriminate.
  - apply pretty_N_go_digits. reflexivity.
Qed.

Lemma emailRegex_classes : classesIn (fun c => negb (Js.isSpace c)) emailRegex.
Proof.
  unfold emailRegex, plus, char. cbn [Regex.seq classesIn].
  repeat split; intros c; destruct c as [[] [] [] [] [] [] [] []];
    vm_compute; intros H; solve [reflexivity | discriminate H].
Qed.

Lemma valid_email_chars (email : string) :
  isValidEmail email = true ->
  email <> EmptyString
  /\ allChars (fun c => negb (Js.isSpace c)) email = true.
Proof.
  intros H. split; [intros ->; discriminate H|].
  apply (matches_chars _ _ emailRegex emailRegex_classes H).
Qed.

Lemma append_nil_r (s : string) : s +:+ EmptyString = s.
Proof.
  induction s as [|c s IH]; [reflexivity|]. rewrite append_cons, IH. reflexivity.
Qed.

Lemma grantLine_parts (row : Z) (status email rest : string) :
  grantLine row status email rest
  = "Row" +:+ " " +:+ pretty row +:+ " " +:+ status +:+ " " +:+ "reader"
    +:+ " " +:+ "->" +:+ " " +:+ email +:+ " " +:+ "-"
    +:+ ((" Time: " +:+ rest) +:+ EmptyString).
Proof.
  unfold grantLine. rewrite append_nil_r, !append_assoc. reflexivity.
Qed.

Lemma grantLine_matches (row : Z) (status email rest : string) :
  0 <= row -> status = "GRANTED" \/ status = "DRY_RUN" ->
  isValidEmail email = true ->
  matches successRe (grantLine row status email rest) = true.
Proof.
  intros Hrow Hstatus Hemail.
  destruct (pretty_row_digits row Hrow) as [Hne Hdigits].
  destruct (valid_email_chars email Hemail) as [Hene Hechars].
  rewrite grantLine_parts. unfold successRe, space, digit, word, notIn.
  cbn [Regex.seq].
  apply matches_Cat; [apply matches_lit|].
  apply matches_Cat; [apply matches_plus_class; [discriminate | reflexivity]|].
  apply matches_Cat; [apply matches_plus_class; assumption|].
  apply matches_Cat; [apply matches_plus_class; [discriminate | reflexivity]|].
  apply matches_Cat.
  { rewrite matches_Alt. destruct Hstatus as [-> | ->]; reflexivity. }
  apply matches_Cat; [apply matches_plus_class; [discriminate | reflexivity]|].
  apply matches_Cat; [apply matches_plus_class; [discriminate | reflexivity]|].
  apply matches_Cat; [apply matches_plus_class; [discriminate | reflexivity]|].
  apply matches_Cat; [apply matches_lit|].
  apply matches_Cat; [apply matches_plus_class; [discriminate | reflexivity]|].
  apply matches_Cat; [apply matches_plus_class; assumption|].
  apply matches_Cat; [apply matches_plus_class; [discriminate | reflexivity]|].
  apply matches_Cat; [apply matches_lit|].
  apply matches_Cat; [apply matches_anything | reflexivity].
Qed.

Lemma counted_as_success (line : string) (sc : scan) :
  successMatch line = true ->
  sc_success (scanLine sc line) = sc_success sc + 1
  /\ processed (scanLine sc line) = processed sc + 1.
Proof.
  intros H. unfold scanLine, readMarker, countOutcome. rewrite H.
  destruct (_ && _); [destruct (markerMatch line)|]; split; reflexivity.
Qed.

Lemma counted_as_outcome (line : string) (sc : scan) :
  isOutcomeLine line = true ->
  processed (scanLine sc line) = processed sc + 1.
Proof.
  intros H. unfold scanLine.
  rewrite MonitorFacts.readMarker_processed, MonitorFacts.countOutcome_processed, H.
  reflexivity.
Qed.

Ltac find_in :=
  first [ left; reflexivity
        | right; find_in
        | apply in_or_app; left; find_in
        | apply in_or_app; right; find_in ].

Section Granted.
Context (w : world) (cfg : config) (cols : columns).

Ltac upd :=
  (eapply emits_mono; [apply LedgerFacts.update_kept|]);
  let Hst := fresh "Hst" in let Hse := fresh "Hse" in
  intros ? ? ? (-> & Hst & Hse); run.

(** The path of a granted record, with the line it logs. *)
Lemma processOne_grant_line (p : participant) (s : state) (fid : string) :
  validGmail p = true -> dedupKey p ∉ seen s -> isEligible p = true ->
  resolvesTo w cfg p fid ->
  (forall s0, fst (hasPermission w cfg fid (email p) "reader" s0) = Ret false) ->
  (forall s0, exists g, fst (grantPermission w cfg fid (email p) s0) = Ret g) ->
  emits (processOne w cfg cols p) s
    (fun o evs s' =>
       o = Ret tt
       /\ (exists rest,
             In (LogLine "INFO"
                   (grantLine (rowIndex p)
                      (if dryRun cfg then "DRY_RUN" else "GRANTED")
                      (email p) rest)) evs)
       /\ st_stats s' = bumpDone (bumpTotal (st_stats s))).
Proof.
  intros Hvalid Hnew Helig Hres Hcheck Hgrant.
  unfold processOne. run. unfold tryBlock. cbv zeta.
  rewrite <- negb_andb. fold (validGmail p). rewrite Hvalid. cbn [negb]. cbv iota.
  run. cbn [seen]. fold (dedupKey p).
  rewrite (bool_decide_eq_false_2 _ Hnew). run.
  rewrite (not_already_shared p Helig). run.
  eapply emits_mono;
    [apply (FailureFacts.emits_full _ _ (fun o => o = Ret (Some fid))
              (LedgerFacts.keeps_resolveFolder w cfg p)
              (FailureFacts.unwritten_resolveFolder w cfg p));
     apply FailureFacts.emits_outcome;
     eapply emits_mono;
       [apply (OutcomeFacts.resolveFolder_run w cfg p fid _ Hres)|];
     intros ? ? ? (-> & _); reflexivity|].
  intros ? e0 ? (-> & _ & Hst0 & Hse0). run.
  rewrite (OutcomeFacts.resolvesTo_truthy w cfg p fid Hres).
  cbn [negb]. cbv iota. run. upd.
  assert (Hid : forall st, emits
    (if negb (Js.truthy (folderId p))
     then update w cfg (folderIdCol cols) (rowIndex p) fid "FolderId"
     else ret tt) st
    (fun o _ s' => o = Ret tt /\ st_stats s' = st_stats st /\ seen s' = seen st)).
  { intros st. destruct (negb (Js.truthy (folderId p))); run;
      [apply LedgerFacts.update_kept | repeat split]. }
  eapply emits_mono; [apply Hid|]. intros ? e2 ? (-> & Hst2 & Hse2). run.
  eapply emits_mono;
    [apply (FailureFacts.emits_full _ _ (fun o => o = Ret false)
              (LedgerFacts.keeps_hasPermission w cfg fid (email p) "reader")
              (FailureFacts.unwritten_hasPermission w cfg fid (email p) "reader"));
     apply Hcheck|].
  intros ? e3 ? (-> & _ & Hst3 & Hse3). run.
  eapply emits_mono;
    [apply (FailureFacts.emits_full _ _ (fun o => exists g, o = Ret g)
              (LedgerFacts.keeps_grantPermission w cfg fid (email p))
              (FailureFacts.unwritten_grantPermission w cfg fid (email p)));
     apply Hgrant|].
  intros ? e4 ? ((g & ->) & _ & Hst4 & Hse4). run. upd. upd.
  split; [reflexivity|]. split; [|LedgerFacts.books; reflexivity].
  eexists. unfold grantLine. find_in.
Qed.

(** X24. The grants a worker logs are the successes the Monitor counts.
    For a valid, new, eligible record in a row [n >= 0] whose folder
    resolves, whose permission check answers no and whose grant goes
    through (or is simulated in dry-run mode), the loop body counts the
    record under [done] and writes a log line
    "Row n GRANTED reader -> email - Time: ..." (DRY_RUN in dry-run mode);
    and whatever precedes that message on its line of the log file, the
    Monitor's success pattern matches the line, so that reading it raises
    the slot's success count and its count of processed records by one. *)
Theorem granted_records_are_counted
    (p : participant) (s : state) (fid : string)
    (Hrow : 0 <= rowIndex p)
    (Hvalid : validGmail p = true)
    (Hnew : dedupKey p ∉ seen s)
    (Helig : isEligible p = true)
    (Hres : resolvesTo w cfg p fid)
    (Hfid : fid <> EmptyString)
    (Hcheck : forall s0,
        fst (hasPermission w cfg fid (email p) "reader" s0) = Ret false)
    (Hgrant : forall s0, exists g,
        fst (grantPermission w cfg fid (email p) s0) = Ret g) :
  exists s' evs message,
    processOne w cfg cols p s = (Ret tt, s')
    /\ trace s' = trace s ++ evs
    /\ In (LogLine "INFO" message) evs
    /\ Js.startsWith (("Row " +:+ pretty (rowIndex p))
                      +:+ (if dryRun cfg then " DRY_RUN reader -> "
                           else " GRANTED reader -> ")) message = true
    /\ done (st_stats s') = done (st_stats s) + 1
    /\ forall (pre : string) (sc : scan),
         successMatch (pre +:+ message) = true
         /\ sc_success (scanLine sc (pre +:+ message)) = sc_success sc + 1
         /\ processed (scanLine sc (pre +:+ message)) = processed sc + 1.
Proof.
  destruct (emits_run _ _ _
              (processOne_grant_line p s fid Hvalid Hnew Helig Hres Hcheck Hgrant))
    as (o & s' & evs & Hrun & Ht & -> & (rest & Hin) & Hst).
  exists s', evs. eexists. split; [exact Hrun|]. split; [exact Ht|].
  split; [exact Hin|]. split.
  { unfold grantLine. rewrite OutcomeFacts.startsWith_app_both.
    destruct (dryRun cfg); reflexivity. }
  split; [rewrite Hst; cbn; lia|].
  intros pre sc.
  assert (Hm : successMatch
                 (pre +:+ grantLine (rowIndex p)
                            (if dryRun cfg then "DRY_RUN" else "GRANTED")
                            (email p) rest) = true).
  { apply search_found, grantLine_matches; [exact Hrow | |].
    - destruct (dryRun cfg); [right | left]; reflexivity.
    - unfold validGmail in Hvalid. apply andb_true_iff in Hvalid. apply Hvalid. }
  split; [exact Hm | apply counted_as_success, Hm].
Qed.

End Granted.

Lemma granted_records_are_counted_witness :
  exists s' evs message,
    processOne Samples.calmWorld Samples.cfg0 Samples.cols0 Samples.sampleRecord
      Samples.state0 = (Ret tt, s')
    /\ trace s' = trace Samples.state0 ++ evs
    /\ In (LogLine "INFO" message) evs
    /\ Js.startsWith (("Row " +:+ pretty (rowIndex Samples.sampleRecord))
                      +:+ (if dryRun Samples.cfg0 then " DRY_RUN reader -> "
                           else " GRANTED reader -> ")) message = true
    /\ done (st_stats s') = done (st_stats Samples.state0) + 1
    /\ forall (pre : string) (sc : scan),
         successMatch (pre +:+ message) = true
         /\ sc_success (scanLine sc (pre +:+ message)) = sc_success sc + 1
         /\ processed (scanLine sc (pre +:+ message)) = processed sc + 1.
Proof.
  apply (granted_records_are_counted Samples.calmWorld Samples.cfg0
           Samples.cols0 Samples.sampleRecord Samples.state0 "abc").
  - vm_compute. discriminate.
  - vm_compute. reflexivity.
  - apply not_elem_of_empty.
  - reflexivity.
  - left. split; reflexivity.
  - discriminate.
  - intros s0.
    apply (FailureFacts.emits_outcome _ _ (fun o => o = Ret false)).
    eapply emits_mono;
      [apply (PermissionCheckFacts.hasPermission_answered Samples.calmWorld
                Samples.cfg0 "abc" "b@gmail.com" "reader" s0 []);
       intros t; reflexivity|].
    intros ? ? ? (-> & _). reflexivity.
  - intros s0. exists Created.
    apply (FailureFacts.emits_outcome _ _ (fun o => o = Ret Created)).
    eapply emits_mono;
      [apply (RetryFacts.grantPermission_created Samples.calmWorld Samples.cfg0
                "abc" "b@gmail.com" s0 eq_refl);
       intros t; reflexivity|].
    intros ? ? ? (-> & _). reflexivity.
Defined.

Lemma startsWith_split (p m : string) :
  Js.startsWith p m = true -> exists tail, m = p +:+ tail.
Proof.
  revert m. induction p as [|c p IH]; intros m H; [exists m; reflexivity|].
  destruct m as [|d m]; [discriminate H|]. cbn [Js.startsWith] in H.
  apply andb_true_iff in H. destruct H as [Hc Hp]. apply Ascii.eqb_eq in Hc.
  subst d. destruct (IH m Hp) as [tail ->]. exists tail. reflexivity.
Qed.

Lemma errorLine_matches (row : Z) (c : ascii) (tail : string) :
  0 <= row -> Js.isWord c = false ->
  matches errorRe
    ("Row" +:+ " " +:+ pretty row +:+ " " +:+ "ERROR"
     +:+ (String c tail +:+ EmptyString)) = true.
Proof.
  intros Hrow Hc. destruct (pretty_row_digits row Hrow) as [Hne Hdigits].
  unfold errorRe, space, digit. cbn [Regex.seq].
  apply matches_Cat; [apply matches_lit|].
  apply matches_Cat; [apply matches_plus_class; [discriminate | reflexivity]|].
  apply matches_Cat; [apply matches_plus_class; assumption|].
  apply matches_Cat; [apply matches_plus_class; [discriminate | reflexivity]|].
  apply matches_Cat; [apply matches_lit|].
  apply matches_Cat; [|reflexivity].
  unfold wordEnd. rewrite matches_And. apply andb_true_iff. split.
  - apply (matches_Cat EmptyString); [reflexivity|].
    apply (matches_Cat EmptyString); [reflexivity|].
    rewrite <- (append_nil_r (String c tail)).
    apply matches_Cat; [apply matches_anything | reflexivity].
  - rewrite matches_Alt. apply orb_true_iff. right.
    apply (matches_Cat (String c EmptyString) _ _ tail);
      [|apply matches_anything].
    unfold notIn. rewrite matches_Class, Hc. reflexivity.
Qed.

(** X25. The errors a worker logs are counted by the Monitor. A message
    that starts with "Row n ERROR folder not found for name='" or with
    "Row n ERROR: ", the two forms the loop body writes for a failed
    record, is matched by the Monitor's error pattern whatever precedes it
    on its line, and reading the line raises the slot's count of processed
    records by one. *)
Theorem error_lines_are_counted (row : Z) (message pre : string) (sc : scan)
    (Hrow : 0 <= row)
    (Hform :
       Js.startsWith (("Row " +:+ pretty row)
                      +:+ " ERROR folder not found for name='") message = true
       \/ Js.startsWith (("Row " +:+ pretty row) +:+ " ERROR: ") message = true) :
  errorMatch (pre +:+ message) = true
  /\ isOutcomeLine (pre +:+ message) = true
  /\ processed (scanLine sc (pre +:+ message)) = processed sc + 1.
Proof.
  assert (Hm : errorMatch (pre +:+ message) = true).
  { apply search_found.
    destruct Hform as [H|H]; apply startsWith_split in H; destruct H as [tail ->].
    - pose proof (errorLine_matches row " "
                    ("folder not found for name='" +:+ tail) Hrow eq_refl) as E.
      rewrite append_nil_r in E.
      rewrite ?append_assoc. rewrite ?append_assoc in E. exact E.
    - pose proof (errorLine_matches row ":" (" " +:+ tail) Hrow eq_refl) as E.
      rewrite append_nil_r in E.
      rewrite ?append_assoc. rewrite ?append_assoc in E. exact E. }
  assert (Ho : isOutcomeLine (pre +:+ message) = true).
  { unfold isOutcomeLine. rewrite Hm. apply orb_true_r. }
  split; [exact Hm|]. split; [exact Ho | apply counted_as_outcome, Ho].
Qed.

Lemma error_lines_are_counted_witness :
  errorMatch ("[2025-01-01T00:00:12.000Z] [ERROR] "
              +:+ "Row 7 ERROR: Akses ditolak: denied - Time: 900ms") = true
  /\ isOutcomeLine ("[2025-01-01T00:00:12.000Z] [ERROR] "
                    +:+ "Row 7 ERROR: Akses ditolak: denied - Time: 900ms") = true
  /\ processed (scanLine scan0
                  ("[2025-01-01T00:00:12.000Z] [ERROR] "
                   +:+ "Row 7 ERROR: Akses ditolak: denied - Time: 900ms"))
     = processed scan0 + 1.
Proof.
  apply (error_lines_are_counted 7
           "Row 7 ERROR: Akses ditolak: denied - Time: 900ms"
           "[2025-01-01T00:00:12.000Z] [ERROR] " scan0).
  - lia.
  - right. vm_compute. reflexivity.
Defined.

End ContractFacts.
(** ** The poll interval and the live logs *)

Module RunnerFacts.
Import Runner.

Lemma digit_value (d : N) :
  (d < 10)%N -> Js.code (pretty_N_char d) - 48 = Z.of_N d.
Proof.
  intros Hd. destruct d as [|p]; [reflexivity|].
  do 4 (try destruct p as [p|p|]); try reflexivity; lia.
Qed.

(** Reading the digits that [pretty] wrote in front of [s] leaves the
    number written in the accumulator. *)
Lemma parse_go (x : N) (s : string) :
  fold_left (fun acc c => 10 * acc + (c - 48))
    (Js.charCodes (pretty_N_go x s)) 0
  = fold_left (fun acc c => 10 * acc + (c - 48)) (Js.charCodes s) (Z.of_N x).
Proof.
  revert s. induction (N.lt_wf_0 x) as [x _ IH]. intros s.
  destruct (N.eq_dec x 0%N) as [->|Hx]; [rewrite pretty_N_go_0; reflexivity|].
  rewrite pretty_N_go_step by lia. rewrite IH by (apply N.div_lt; lia).
  cbn [Js.charCodes fold_left].
  rewrite digit_value by (apply N.mod_lt; lia).
  f_equal. rewrite N2Z.inj_div, N2Z.inj_mod. change (Z.of_N 10) with 10.
  pose proof (Z.div_mod (Z.of_N x) 10 ltac:(lia)). lia.
Qed.

Lemma parseInt_pretty (n : Z) : 0 <= n -> Monitor.parseInt (pretty n) = n.
Proof.
  intros Hn. destruct n as [|p|p]; [reflexivity| |lia].
  change (pretty (Zpos p)) with (pretty_N_go (Npos p) EmptyString).
  unfold Monitor.parseInt. rewrite parse_go. reflexivity.
Qed.

Lemma takeWhile_app (p : ascii -> bool) (a rest : string) :
  Reference.allChars p a = true ->
  Reference.startsWith p rest = false ->
  Monitor.takeWhile p (a +:+ rest) = a.
Proof.
  intros Ha Hrest. induction a as [|c a IH].
  - destruct rest as [|c rest]; [reflexivity|].
    cbn [Reference.startsWith] in Hrest.
    change (EmptyString +:+ String c rest) with (String c rest).
    cbn [Monitor.takeWhile]. rewrite Hrest. reflexivity.
  - cbn [Reference.allChars] in Ha. apply andb_true_iff in Ha.
    destruct Ha as [Hc Ha].
    change (String c a +:+ rest) with (String c (a +:+ rest)).
    cbn [Monitor.takeWhile].
    rewrite Hc, (IH Ha). reflexivity.
Qed.

Lemma trimStart_spaces (ws x : string) :
  Reference.allChars Js.isSpace ws = true ->
  Js.trimStart (ws +:+ x) = Js.trimStart x.
Proof.
  intros Hws. induction ws as [|c ws IH]; [reflexivity|].
  cbn [Reference.allChars] in Hws. apply andb_true_iff in Hws.
  destruct Hws as [Hc Hws].
  change (String c ws +:+ x) with (String c (ws +:+ x)). cbn [Js.trimStart].
  rewrite Hc. exact (IH Hws).
Qed.

Lemma digit_is_plain (c : ascii) :
  Js.isDigit c = true ->
  Js.isSpace c = false /\ Ascii.eqb c "-" = false /\ Ascii.eqb c "+" = false.
Proof.
  destruct c as [[] [] [] [] [] [] [] []]; vm_compute; intros H;
    solve [repeat split | discriminate H].
Qed.

(** [parseInt(text, 10)] of a text made of white space, a sign or none, a
    number written in decimal and anything that does not go on with a
    digit. *)
Lemma parseInt10_number (ws sign rest : string) (n : Z) :
  Reference.allChars Js.isSpace ws = true ->
  sign = EmptyString \/ sign = "+" \/ sign = "-" ->
  0 <= n ->
  Reference.startsWith Js.isDigit rest = false ->
  parseInt10 (ws +:+ sign +:+ pretty n +:+ rest)
  = Some (if String.eqb sign "-" then - n else n).
Proof.
  intros Hws Hsign Hn Hrest. unfold parseInt10. rewrite (trimStart_spaces _ _ Hws).
  destruct (ContractFacts.pretty_row_digits n Hn) as [Hne Hds].
  assert (Htake : Monitor.takeWhile Js.isDigit (pretty n +:+ rest) = pretty n)
    by (apply takeWhile_app; assumption).
  assert (Htruthy : Js.truthy (pretty n) = true)
    by (destruct (pretty n); [congruence | reflexivity]).
  destruct Hsign as [-> | [-> | ->]].
  - change (EmptyString +:+ pretty n +:+ rest) with (pretty n +:+ rest).
    change (String.eqb EmptyString "-") with false. cbv iota.
    destruct (pretty n) as [|c r] eqn:Hp; [congruence|].
    cbn [Reference.allChars] in Hds. apply andb_true_iff in Hds.
    destruct (digit_is_plain c (proj1 Hds)) as (Hsp & Hminus & Hplus).
    change (String c r +:+ rest) with (String c (r +:+ rest)).
    cbn [Js.trimStart]. rewrite Hsp, Hminus, Hplus.
    change (String c (r +:+ rest)) with (String c r +:+ rest).
    rewrite Htake. cbn [Js.truthy]. rewrite <- Hp, parseInt_pretty by exact Hn.
    reflexivity.
  - change ("+" +:+ pretty n +:+ rest) with (String "+" (pretty n +:+ rest)).
    cbn [Js.trimStart].
    replace (Js.isSpace "+") with false by reflexivity.
    replace (Ascii.eqb "+" "-") with false by reflexivity.
    replace (Ascii.eqb "+" "+") with true by reflexivity.
    rewrite Htake, Htruthy, parseInt_pretty by exact Hn. reflexivity.
  - change ("-" +:+ pretty n +:+ rest) with (String "-" (pretty n +:+ rest)).
    cbn [Js.trimStart].
    replace (Js.isSpace "-") with false by reflexivity.
    replace (Ascii.eqb "-" "-") with true by reflexivity.
    rewrite Htake, Htruthy, parseInt_pretty by exact Hn. reflexivity.
Qed.

(** X26. The poll interval of loop mode is never below 5 seconds, whatever
    POLL_INTERVAL holds. It is 30 seconds when the variable is absent or
    empty, and when its text is not a number: [parseInt] finds no digit,
    as for every text whose first character is neither white space, nor a
    sign, nor a digit. A text that starts with a number [n] below 2^53
    (after white space, with a sign or without, and whatever follows the
    digits) gives 30 when [n] is 0, 5 when the sign is a minus, and the
    larger of 5 and [n] otherwise. *)
Theorem poll_interval_floor (env : option string) :
  5 <= pollSec env
  /\ (env = None \/ env = Some EmptyString -> pollSec env = 30)
  /\ (forall text, env = Some text -> parseInt10 text = None ->
        pollSec env = 30)
  /\ (forall c rest, env = Some (String c rest) ->
        Js.isSpace c = false -> Js.isDigit c = false ->
        c <> "+"%char -> c <> "-"%char ->
        pollSec env = 30)
  /\ (forall ws sign n rest,
        env = Some (ws +:+ sign +:+ pretty n +:+ rest) ->
        Reference.allChars Js.isSpace ws = true ->
        sign = EmptyString \/ sign = "+" \/ sign = "-" ->
        0 <= n < 2 ^ 53 ->
        Reference.startsWith Js.isDigit rest = false ->
        pollSec env
        = if n =? 0 then 30
          else if String.eqb sign "-" then 5 else Z.max 5 n).
Proof.
  split; [unfold pollSec; lia|].
  split; [intros [-> | ->]; reflexivity|].
  split.
  { intros text -> Hnan. unfold pollSec.
    destruct (Js.truthy text); [rewrite Hnan; reflexivity | reflexivity]. }
  split.
  { intros c rest -> Hsp Hd Hplus Hminus. unfold pollSec. cbn [Js.truthy].
    unfold parseInt10. cbn [Js.trimStart]. rewrite Hsp.
    destruct (Ascii.eqb_spec c "-") as [->|_]; [congruence|].
    destruct (Ascii.eqb_spec c "+") as [->|_]; [congruence|].
    cbn [Monitor.takeWhile]. rewrite Hd. reflexivity. }
  intros ws sign n rest -> Hws Hsign Hn Hrest. unfold pollSec.
  assert (Htext : Js.truthy (ws +:+ sign +:+ pretty n +:+ rest) = true).
  { apply UtilityFacts.truthy_append_r, UtilityFacts.truthy_append_r.
    destruct (ContractFacts.pretty_row_digits n (proj1 Hn)) as [Hne _].
    destruct (pretty n); [congruence | reflexivity]. }
  rewrite Htext, (parseInt10_number ws sign rest n Hws Hsign (proj1 Hn) Hrest).
  destruct (String.eqb sign "-");
    destruct (Z.eqb_spec n 0) as [->|Hnz]; try reflexivity.
  - destruct (Z.eqb_spec (- n) 0); lia.
Qed.

(** The interval for some values of POLL_INTERVAL. *)
Example poll_intervals :
  List.map pollSec
    [None; Some EmptyString; Some "abc"; Some "0"; Some "2"; Some "-10";
     Some " 45s"; Some "+7"; Some "600"; Some "-0"; Some "s45"]
  = [30; 30; 30; 30; 5; 5; 45; 7; 600; 30; 30].
Proof. vm_compute. reflexivity. Qed.

End RunnerFacts.

Module FollowerFacts.
Import Follower.

Lemma substring_nil (a n : nat) : String.substring a n EmptyString = EmptyString.
Proof. destruct a, n; reflexivity. Qed.

Lemma substring_zero (a : nat) (s : string) : String.substring a 0 s = EmptyString.
Proof.
  revert a. induction s as [|c s IH]; intros a; [apply substring_nil|].
  destruct a as [|a]; [reflexivity|]. cbn [String.substring]. apply IH.
Qed.

Lemma substring_split (s : string) :
  forall a n m, (a + n + m <= String.length s)%nat ->
    String.substring a n s +:+ String.substring (a + n) m s
    = String.substring a (n + m) s.
Proof.
  induction s as [|c s IH]; intros a n m H.
  - rewrite !substring_nil. reflexivity.
  - cbn [String.length] in H. destruct a as [|a].
    + destruct n as [|n].
      * cbn [String.substring Nat.add]. reflexivity.
      * cbn [String.substring Nat.add]. rewrite ProcessorFacts.append_cons.
        f_equal. apply (IH 0%nat n m). lia.
    + cbn [String.substring Nat.add]. apply IH. lia.
Qed.

Lemma readChunk_spec (content : string) (pos : Z) :
  0 <= pos ->
  let size := Z.of_nat (String.length content) in
  let pos' := snd (readChunk content pos) in
  pos' = (if pos <? size then Z.min size (pos + chunkCap) else pos)
  /\ fst (readChunk content pos)
     = String.substring (Z.to_nat pos) (Z.to_nat (pos' - pos)) content.
Proof.
  intros Hpos. cbv zeta. unfold readChunk. cbv zeta.
  destruct (pos <? _) eqn:E; cbn [fst snd].
  - apply Z.ltb_lt in E. split; [lia|]. f_equal. lia.
  - rewrite Z.sub_diag. cbn. rewrite substring_zero. split; reflexivity.
Qed.

Lemma chunks_spec (n : nat) (content : string) (pos : Z) :
  0 <= pos <= Z.of_nat (String.length content) ->
  let size := Z.of_nat (String.length content) in
  let last := snd (chunks n content pos) in
  last = Z.min size (pos + Z.of_nat n * chunkCap)
  /\ fold_right String.append EmptyString (fst (chunks n content pos))
     = String.substring (Z.to_nat pos) (Z.to_nat (last - pos)) content.
Proof.
  cbv zeta. revert pos. induction n as [|n IH]; intros pos Hpos.
  - cbn [chunks fst snd fold_right]. rewrite Z.sub_diag. cbn [Z.to_nat].
    rewrite substring_zero. split; [lia | reflexivity].
  - cbn [chunks]. destruct (readChunk_spec content pos ltac:(lia)) as [Hp Ht].
    cbv zeta in Hp, Ht. destruct (readChunk content pos) as [text pos'].
    cbn [fst snd] in Hp, Ht.
    assert (Hpos' : 0 <= pos' <= Z.of_nat (String.length content)).
    { unfold chunkCap in *. destruct (pos <? _) eqn:E; lia. }
    destruct (IH pos' Hpos') as [Hl Hr].
    destruct (chunks n content pos') as [rest last]. cbn [fst snd] in *.
    assert (Hle : pos <= pos') by (unfold chunkCap in *; destruct (pos <? _) eqn:E; lia).
    assert (Hle' : pos' <= last) by (unfold chunkCap in *; lia).
    split.
    + unfold chunkCap in *. destruct (pos <? _) eqn:E; [lia|].
      apply Z.ltb_ge in E. lia.
    + cbn [fold_right]. rewrite Hr, Ht.
      replace (Z.to_nat pos') with (Z.to_nat pos + Z.to_nat (pos' - pos))%nat by lia.
      rewrite substring_split by lia. f_equal. lia.
Qed.

(** X27. The live log follower reads every byte once. One poll of a file
    moves the position forward by at most 256 KB and never past the end;
    a file that has not grown, or is shorter than the position (it was
    truncated), gives no line and leaves the position alone; and over any
    number of polls of an unchanged file the chunks read, put end to end,
    are exactly the bytes between the first position and the last, which is
    the end of the file once enough polls were made. *)
Theorem follower_reads_each_byte_once (content : string) (pos : Z) (n : nat)
    (Hpos : 0 <= pos <= Z.of_nat (String.length content)) :
  let size := Z.of_nat (String.length content) in
  (pos <= snd (pollFile content pos) <= size
   /\ snd (pollFile content pos) - pos <= 262144)
  /\ (forall stale, size <= stale -> pollFile content stale = ([], stale))
  /\ snd (chunks n content pos) = Z.min size (pos + Z.of_nat n * 262144)
  /\ fold_right String.append EmptyString (fst (chunks n content pos))
     = String.substring (Z.to_nat pos)
         (Z.to_nat (snd (chunks n content pos) - pos)) content.
Proof.
  cbv zeta. split; [|split].
  - unfold pollFile. destruct (readChunk_spec content pos ltac:(lia)) as [Hp _].
    cbv zeta in Hp. destruct (readChunk content pos) as [text pos'].
    cbn [snd] in *. unfold chunkCap in Hp. destruct (pos <? _) eqn:E; lia.
  - intros stale Hstale. unfold pollFile, readChunk. cbv zeta.
    replace (stale <? _) with false by (symmetry; apply Z.ltb_ge; lia).
    reflexivity.
  - destruct (chunks_spec n content pos Hpos) as [H1 H2]. cbv zeta in H1, H2.
    unfold chunkCap in H1. split; [exact H1 | exact H2].
Qed.

Lemma follower_reads_each_byte_once_witness :
  snd (chunks 2 "Row 2 GRANTED" 4) = Z.min 13 (4 + Z.of_nat 2 * 262144).
Proof.
  apply (follower_reads_each_byte_once "Row 2 GRANTED" 4 2). cbn. lia.
Defined.

(** A line that is still being written when the poll comes is printed in
    two pieces; CR LF ends a line like LF, and empty lines are dropped. *)
Example follower_cuts_an_unfinished_line :
  let nl := String (Js.chr 10) EmptyString in
  let cr := String (Js.chr 13) EmptyString in
  pollFile ("Row 2 GRA") 0 = (["Row 2 GRA"], 9)
  /\ pollFile ("Row 2 GRA" +:+ "NTED" +:+ cr +:+ nl +:+ nl +:+ "Row 3") 9
     = (["NTED"; "Row 3"], 21).
Proof. vm_compute. split; reflexivity. Qed.

End FollowerFacts.
(** ** The email checks *)

Module EmailFacts.
Import Partition Worker Reference Regex RegexFacts ProcessorFacts.

Lemma toLowerCase_append (a b : string) :
  Js.toLowerCase (a +:+ b) = Js.toLowerCase a +:+ Js.toLowerCase b.
Proof.
  induction a as [|c a IH]; [reflexivity|].
  rewrite append_cons. cbn [Js.toLowerCase]. rewrite IH, append_cons. reflexivity.
Qed.

Lemma length_append (a b : string) :
  String.length (a +:+ b) = (String.length a + String.length b)%nat.
Proof.
  induction a as [|c a IH]; [reflexivity|].
  rewrite append_cons. cbn [String.length]. rewrite IH. reflexivity.
Qed.

Lemma substring_all (s : string) :
  String.substring 0 (String.length s) s = s.
Proof. induction s as [|c s IH]; [reflexivity|]. cbn. rewrite IH. reflexivity. Qed.

Lemma substring_suffix (a b : string) :
  String.substring (String.length a) (String.length b) (a +:+ b) = b.
Proof.
  induction a as [|c a IH]; [apply substring_all|].
  rewrite append_cons. cbn [String.length String.substring]. exact IH.
Qed.

Lemma endsWith_append (a b : string) : Js.endsWith b (a +:+ b) = true.
Proof.
  unfold Js.endsWith. cbv zeta. rewrite length_append.
  replace (String.length a + String.length b - String.length b)%nat
    with (String.length a) by lia.
  rewrite substring_suffix, String.eqb_refl, andb_true_r.
  apply Nat.leb_le. lia.
Qed.

(** X28. Which addresses pass. An address made of a non-empty local part
    of letters, digits and the characters . _ % + - followed by @gmail.com
    passes both checks of the loop body, the domain in any letter case; and
    an address that passes the format check is not empty and holds no
    white space. *)
Theorem gmail_addresses_pass (local domain email : string)
    (Hlocal : local <> EmptyString)
    (Hchars : allChars (fun c => isAlnum c || oneOf "._%+-" c) local = true)
    (Hdomain : In domain ["@gmail.com"; "@GMAIL.COM"; "@Gmail.com"]) :
  isValidEmail (local +:+ domain) = true
  /\ isGmail (local +:+ domain) = true
  /\ (isValidEmail email = true ->
      email <> EmptyString
      /\ allChars (fun c => negb (Js.isSpace c)) email = true).
Proof.
  split; [|split; [|apply ContractFacts.valid_email_chars]].
  - unfold isValidEmail, emailRegex. cbn [Regex.seq].
    assert (Hparts : exists name t1 t2 rest,
              domain = "@" +:+ name +:+ "." +:+ String t1 (String t2 rest)
              /\ name <> EmptyString
              /\ allChars (fun c => isAlnum c || oneOf ".-" c) name = true
              /\ isAlpha t1 = true /\ isAlpha t2 = true
              /\ allChars isAlpha rest = true).
    { destruct Hdomain as [<-|[<-|[<-|[]]]];
        [exists "gmail", "c"%char, "o"%char, "m"
        |exists "GMAIL", "C"%char, "O"%char, "M"
        |exists "Gmail", "c"%char, "o"%char, "m"];
        (split; [reflexivity|]); (split; [discriminate|]);
        repeat split. }
    destruct Hparts as (name & t1 & t2 & rest & -> & Hn & Hnc & H1 & H2 & Hr).
    apply matches_Cat; [apply matches_plus_class; assumption|].
    apply matches_Cat; [apply matches_lit with (s := "@")|].
    apply matches_Cat; [apply matches_plus_class; assumption|].
    apply matches_Cat; [apply matches_lit with (s := ".")|].
    apply (matches_Cat (String t1 EmptyString));
      [rewrite matches_Class; exact H1|].
    apply (matches_Cat (String t2 EmptyString));
      [rewrite matches_Class; exact H2|].
    rewrite <- (ContractFacts.append_nil_r rest).
    apply matches_Cat; [apply matches_Star_class, Hr | reflexivity].
  - unfold isGmail. rewrite toLowerCase_append.
    replace (Js.toLowerCase domain) with "@gmail.com"
      by (destruct Hdomain as [<-|[<-|[<-|[]]]]; reflexivity).
    apply endsWith_append.
Qed.

Lemma gmail_addresses_pass_witness :
  isValidEmail ("budi.santoso+osn" +:+ "@gmail.com") = true
  /\ isGmail ("budi.santoso+osn" +:+ "@gmail.com") = true
  /\ (isValidEmail "b@gmail.com" = true ->
      "b@gmail.com" <> EmptyString
      /\ allChars (fun c => negb (Js.isSpace c)) "b@gmail.com" = true).
Proof.
  apply (gmail_addresses_pass "budi.santoso+osn" "@gmail.com" "b@gmail.com").
  - discriminate.
  - vm_compute. reflexivity.
  - left. reflexivity.
Defined.

(** Addresses the loop body skips: a blank inside or at the end, no
    domain, another provider, a one-letter top-level domain, no local part,
    a subdomain of gmail.com; letter case does not matter. *)
Example addresses_that_are_skipped :
  List.map (fun e => isValidEmail e && isGmail e)
    ["budi santoso@gmail.com"; "budi"; "budi@yahoo.com"; "budi@gmail.c";
     "budi@gmail.com "; "@gmail.com"; "budi@mail.gmail.com"; "Budi@Gmail.Com"]
  = [false; false; false; false; false; false; false; true].
Proof. vm_compute. reflexivity. Qed.

End EmailFacts.
(** ** What each outcome writes *)

Module WriteFacts.
Import Partition Worker Observe Ledger RunFacts ProcessorFacts OutcomeFacts.
Local Open Scope worker_scope.

Lemma cellValues_app (cfg : config) (c r : Z) (a b : list event) :
  cellValues cfg c r (a ++ b) = cellValues cfg c r a ++ cellValues cfg c r b.
Proof. apply List.flat_map_app. Qed.

Lemma cellValues_unwritten (cfg : config) (c r : Z) (evs : list event) :
  updates evs = [] -> cellValues cfg c r evs = [].
Proof.
  induction evs as [|e evs IH]; [reflexivity|].
  destruct e; cbn; try exact IH; discriminate.
Qed.

Lemma cellValues_here (cfg : config) (c r : Z) (v : string) (ok : bool) :
  cellValues cfg c r [ValuesUpdate (cellRange cfg (toCol c) r) v ok] = [v].
Proof. cbn [cellValues List.flat_map]. rewrite String.eqb_refl. reflexivity. Qed.

Lemma cellValues_elsewhere (cfg : config) (c1 c2 r1 r2 : Z) (v : string)
    (ok : bool) :
  0 <= c1 -> 0 <= c2 -> c1 <> c2 ->
  cellValues cfg c1 r1 [ValuesUpdate (cellRange cfg (toCol c2) r2) v ok] = [].
Proof.
  intros H1 H2 Hne. cbn [cellValues List.flat_map].
  pose proof (FailureFacts.isCellWrite_elsewhere cfg c1 c2 r1 r2 v ok H1 H2 Hne)
    as H.
  cbn [isCellWrite] in H. rewrite H. reflexivity.
Qed.

Lemma isCellWrite_here (cfg : config) (c r : Z) (v : string) (ok : bool) :
  isCellWrite cfg c r (ValuesUpdate (cellRange cfg (toCol c) r) v ok) = true.
Proof. cbn [isCellWrite]. apply String.eqb_refl. Qed.

Lemma isCellWriteOf_here (cfg : config) (c r : Z) (v : string) (ok : bool) :
  isCellWriteOf cfg c r v (ValuesUpdate (cellRange cfg (toCol c) r) v ok) = true.
Proof. cbn [isCellWriteOf]. rewrite !String.eqb_refl. reflexivity. Qed.

Lemma isVerdictLine_row (cfg : config) (p : participant) (v : verdict)
    (level pre rest : string) :
  level = verdictLevel v ->
  verdictPrefix cfg p v = ("Row " +:+ pretty (rowIndex p)) +:+ pre ->
  Js.startsWith pre rest = true ->
  isVerdictLine cfg p v (LogLine level (("Row " +:+ pretty (rowIndex p)) +:+ rest))
  = true.
Proof.
  intros -> Hpre Hstart. cbn [isVerdictLine]. rewrite String.eqb_refl, Hpre.
  rewrite startsWith_app_both. exact Hstart.
Qed.

Lemma isVerdictLine_row' (cfg : config) (p : participant) (v : verdict)
    (level pre rest : string) :
  level = verdictLevel v ->
  verdictPrefix cfg p v = ("Row " +:+ pretty (rowIndex p)) +:+ pre ->
  Js.startsWith pre rest = true ->
  isVerdictLine cfg p v (LogLine level ("Row " +:+ pretty (rowIndex p) +:+ rest))
  = true.
Proof.
  intros. rewrite <- (append_assoc "Row " (pretty (rowIndex p))).
  apply (isVerdictLine_row cfg p v level pre rest); assumption.
Qed.

(** Finding one event of a trace that is made of stretches. *)
Ltac settle_orb :=
  repeat (rewrite ?orb_true_r, ?orb_true_l; cbn [orb]); reflexivity.

Ltac values :=
  rewrite ?cellValues_app;
  repeat match goal with
         | H : updates ?e = [] |- context [cellValues ?cfg ?c ?r ?e] =>
             rewrite (cellValues_unwritten cfg c r e H)
         end;
  rewrite ?cellValues_here;
  rewrite ?cellValues_elsewhere by assumption;
  cbn [cellValues List.flat_map app];
  try reflexivity.

Ltac lastlog :=
  rewrite ?existsb_app; cbn [existsb];
  rewrite ?isCellWrite_here; settle_orb.

Section Verdicts.
Context (w : world) (cfg : config) (cols : columns).
Hypothesis HfolderId : 0 <= folderIdCol cols.
Hypothesis HisShared : 0 <= isSharedCol cols.
Hypothesis HisFolderExists : 0 <= isFolderExistsCol cols.
Hypothesis HlastLog : 0 <= lastLogCol cols.
Hypothesis Hapart1 : isSharedCol cols <> isFolderExistsCol cols.
Hypothesis Hapart2 : isSharedCol cols <> folderIdCol cols.
Hypothesis Hapart3 : isSharedCol cols <> lastLogCol cols.

Ltac upd ok Hst Hse :=
  (eapply emits_mono; [apply FailureFacts.update_full; assumption|]);
  intros ? ? ? (-> & (ok & ->) & Hst & Hse); run.

Ltac logged v :=
  rewrite ?existsb_app; cbn [existsb];
  match goal with
  | |- context [isVerdictLine cfg ?p v (LogLine ?l ?m)] =>
      let H := fresh "Hline" in
      assert (H : isVerdictLine cfg p v (LogLine l m) = true);
      [|rewrite H; settle_orb]
  end.

Ltac missing :=
  let ok1 := fresh "ok" in let Hst1 := fresh "Hst" in let Hse1 := fresh "Hse" in
  let ok2 := fresh "ok" in let Hst2 := fresh "Hst" in let Hse2 := fresh "Hse" in
  run; upd ok1 Hst1 Hse1; upd ok2 Hst2 Hse2;
  exists FolderNotFound; (split; [discriminate|]);
  split; [|split; [|split]];
  [ unfold leaves; cbv zeta; split; [values|]; split; [lastlog|];
    split;
    [ logged FolderNotFound;
      apply isVerdictLine_row with
        (pre := " ERROR folder not found for name='");
        [reflexivity | reflexivity | reflexivity]
    | intros _; rewrite ?existsb_app; cbn [existsb];
      rewrite isCellWriteOf_here; settle_orb ]
  | LedgerFacts.books; reflexivity
  | split; [discriminate | intros H; discriminate H]
  | split; [discriminate | intros [_ H]; contradiction] ].

(** The resolution step settles and touches neither the sheet nor the
    counters. *)
Lemma resolveFolder_quiet (p : participant) (s : state) :
  emits (resolveFolder w cfg p) s
    (fun o evs s' => (exists r, o = Ret r) /\ updates evs = []
                     /\ st_stats s' = st_stats s /\ seen s' = seen s).
Proof.
  apply (FailureFacts.emits_full _ _ (fun o => exists r, o = Ret r)
           (LedgerFacts.keeps_resolveFolder w cfg p)
           (FailureFacts.unwritten_resolveFolder w cfg p)).
  apply FailureFacts.emits_outcome.
  eapply emits_mono; [apply LedgerFacts.resolveFolder_kept|].
  intros ? ? ? (H & _). exact H.
Qed.

Lemma hasPermission_quiet (fid email : string) (s : state) :
  emits (hasPermission w cfg fid email "reader") s
    (fun o evs s' => (exists b, o = Ret b) /\ updates evs = []
                     /\ st_stats s' = st_stats s /\ seen s' = seen s).
Proof.
  apply (FailureFacts.emits_full _ _ (fun o => exists b, o = Ret b)
           (LedgerFacts.keeps_hasPermission w cfg fid email "reader")
           (FailureFacts.unwritten_hasPermission w cfg fid email "reader")).
  apply FailureFacts.emits_outcome.
  eapply emits_mono; [apply LedgerFacts.hasPermission_kept|].
  intros ? ? ? (H & _). exact H.
Qed.

Lemma grantPermission_quiet (fid email : string) (s : state) :
  emits (grantPermission w cfg fid email) s
    (fun o evs s' => o <> Pending /\ updates evs = []
                     /\ st_stats s' = st_stats s /\ seen s' = seen s).
Proof.
  apply (FailureFacts.emits_full _ _ (fun o => o <> Pending)
           (LedgerFacts.keeps_grantPermission w cfg fid email)
           (FailureFacts.unwritten_grantPermission w cfg fid email)).
  apply FailureFacts.emits_outcome.
  eapply emits_mono; [apply LedgerFacts.grantPermission_kept|].
  intros ? ? ? (H & _). exact H.
Qed.

(** The [try] block: when it returns, it has reached one of the outcomes
    but [Failed] and written what that outcome writes; when it throws, it
    has not touched the status cell. *)
Lemma tryBlock_verdict (p : participant) (start : Z) (s : state) :
  isEligible p = true ->
  emits (tryBlock w cfg cols p start) s
    (fun o evs s' =>
       match o with
       | Ret _ =>
           exists v, v <> Failed
                     /\ leaves cfg cols p v evs
                     /\ st_stats s' = counted v (st_stats s)
                     /\ (v = InvalidEmail <-> validGmail p = false)
                     /\ (v = Duplicate <->
                         validGmail p = true /\ dedupKey p ∈ seen s)
       | Throw _ =>
           cellValues cfg (isSharedCol cols) (rowIndex p) evs = []
           /\ st_stats s' = st_stats s
           /\ validGmail p = true /\ dedupKey p ∉ seen s
       | Pending => False
       end).
Proof.
  intros Helig. unfold tryBlock. cbv zeta.
  rewrite <- negb_andb. fold (validGmail p).
  destruct (validGmail p) eqn:Hvalid; cbn [negb]; cbv iota.
  2: { run. upd ok1 Hst1 Hse1. upd ok2 Hst2 Hse2.
       exists InvalidEmail. split; [discriminate|]. split; [|split; [|split]].
       - unfold leaves. cbv zeta. split; [values|]. split; [lastlog|].
         split; [|discriminate].
         logged InvalidEmail.
         apply isVerdictLine_row with
           (pre := " SKIP " +:+ skipReason (email p) +:+ ": ");
           [reflexivity | reflexivity |].
         unfold skipReason.
         rewrite (startsWith_app_both " SKIP "), startsWith_app_both.
         reflexivity.
       - LedgerFacts.books. reflexivity.
       - split; [reflexivity | reflexivity].
       - split; [discriminate | intros [H _]; discriminate H]. }
  run. cbn [seen]. fold (dedupKey p).
  destruct (bool_decide (dedupKey p ∈ seen s)) eqn:Hdup.
  { apply bool_decide_eq_true in Hdup. run. upd ok1 Hst1 Hse1.
    exists Duplicate. split; [discriminate|]. split; [|split; [|split]].
    - unfold leaves. cbv zeta. split; [values|]. split; [lastlog|].
      split; [|discriminate].
      logged Duplicate.
      apply isVerdictLine_row with (pre := " SKIP duplicate: ");
        [reflexivity | reflexivity | reflexivity].
    - LedgerFacts.books. reflexivity.
    - split; [discriminate | intros H; discriminate H].
    - split; [intros _; split; [reflexivity | exact Hdup] | reflexivity]. }
  apply bool_decide_eq_false in Hdup.
  run. rewrite (not_already_shared p Helig). run.
  eapply emits_mono; [apply resolveFolder_quiet|].
  intros ? e0 ? ((found & ->) & Hu0 & Hst0 & Hse0). run.
  destruct found as [fid|]; cbv beta iota;
    [destruct (Js.truthy fid) eqn:Hfid; cbn [negb]; cbv iota|cbn [Js.truthy negb]; cbv iota].
  - (* the folder is there *)
    run. upd ok1 Hst1 Hse1.
    assert (Hid : forall st, emits
      (if negb (Js.truthy (folderId p))
       then update w cfg (folderIdCol cols) (rowIndex p) fid "FolderId"
       else ret tt) st
      (fun o evs s' =>
         o = Ret tt
         /\ cellValues cfg (isSharedCol cols) (rowIndex p) evs = []
         /\ st_stats s' = st_stats st /\ seen s' = seen st)).
    { intros st. destruct (negb (Js.truthy (folderId p))); run;
        [|repeat split].
      eapply emits_mono; [apply FailureFacts.update_full; assumption|].
      intros ? ? ? (-> & (ok & ->) & Hst & Hse). split; [reflexivity|].
      split; [|split; assumption]. values. }
    eapply emits_mono; [apply Hid|]. intros ? e2 ? (-> & Hv2 & Hst2 & Hse2). run.
    eapply emits_mono; [apply hasPermission_quiet|].
    intros ? e3 ? ((b & ->) & Hu3 & Hst3 & Hse3). run.
    destruct b.
    + run. upd ok4 Hst4 Hse4. upd ok5 Hst5 Hse5. upd ok6 Hst6 Hse6.
      exists AlreadyHasAccess. split; [discriminate|].
      split; [|split; [|split]].
      * unfold leaves. cbv zeta.
        split; [values; rewrite Hv2; reflexivity|]. split; [lastlog|].
        split; [|discriminate].
        logged AlreadyHasAccess.
        apply isVerdictLine_row with (pre := " SKIP already has reader");
          [reflexivity | reflexivity | reflexivity].
      * LedgerFacts.books. reflexivity.
      * split; [discriminate | intros H; discriminate H].
      * split; [discriminate | intros [_ H]; contradiction].
    + run. eapply emits_mono; [apply grantPermission_quiet|].
      intros [g|err|] e4 ? (Hne & Hu4 & Hst4 & Hse4); [| |congruence].
      * run. upd ok5 Hst5 Hse5. upd ok6 Hst6 Hse6.
        exists Granted. split; [discriminate|].
        split; [|split; [|split]].
        -- unfold leaves. cbv zeta.
           split; [values; rewrite Hv2; reflexivity|]. split; [lastlog|].
           split; [|discriminate].
           logged Granted.
           apply isVerdictLine_row with
             (pre := if dryRun cfg then " DRY_RUN reader -> "
                     else " GRANTED reader -> ");
             [reflexivity | reflexivity |].
           destruct (dryRun cfg); reflexivity.
        -- LedgerFacts.books. reflexivity.
        -- split; [discriminate | intros H; discriminate H].
        -- split; [discriminate | intros [_ H]; contradiction].
      * split; [values; rewrite Hv2; reflexivity|].
        split; [LedgerFacts.books; reflexivity|].
        split; [reflexivity | exact Hdup].
  - (* an empty answer *) missing.
  - (* no answer *) missing.
Qed.

(** One turn of the loop: it always returns, with one of the six outcomes
    and what that outcome writes. *)
Lemma processOne_verdict (p : participant) (s : state) :
  isEligible p = true ->
  emits (processOne w cfg cols p) s
    (fun o evs s' =>
       o = Ret tt
       /\ exists v,
            leaves cfg cols p v evs
            /\ st_stats s' = counted v (bumpTotal (st_stats s))
            /\ (v = InvalidEmail <-> validGmail p = false)
            /\ (v = Duplicate <-> validGmail p = true /\ dedupKey p ∈ seen s)).
Proof.
  intros Helig. unfold processOne. run.
  eapply emits_mono; [apply (tryBlock_verdict p _ _ Helig)|].
  cbn [seen st_stats]. intros [[]|err|] e1 s1 H1; [| |contradiction].
  - run. split; [reflexivity|]. destruct H1 as (v & _ & Hl & Hst & Hi & Hd).
    exists v. cbn [app]. rewrite ?app_nil_r.
    split; [exact Hl|]. split; [exact Hst|]. split; assumption.
  - destruct H1 as (Hv1 & Hst1 & Hvalid & Hnew).
    unfold catchBlock. run. upd ok5 Hst5 Hse5. upd ok6 Hst6 Hse6.
    split; [reflexivity|]. exists Failed.
    split; [|split; [|split]].
    + unfold leaves. cbv zeta.
      split; [values; rewrite Hv1; reflexivity|]. split; [lastlog|].
      split; [|discriminate].
      logged Failed.
      apply isVerdictLine_row' with (pre := " ERROR: ");
        [reflexivity | reflexivity | reflexivity].
    + LedgerFacts.books. reflexivity.
    + split; [discriminate | intros H; congruence].
    + split; [discriminate | intros [_ H]; contradiction].
Qed.


End Verdicts.


(** The status cell of the six outcomes, on runs. *)
Example status_cell_by_outcome :
  let values w p s :=
    cellValues Samples.cfg0 (isSharedCol Samples.cols0) (rowIndex p)
      (trace (snd (processOne w Samples.cfg0 Samples.cols0 p
                     (setTrace s [])))) in
  values Samples.calmWorld Samples.badEmailRecord Samples.state0 = ["FALSE"]
  /\ values Samples.calmWorld Samples.sampleRecord Samples.afterFirst = []
  /\ values Samples.calmWorld Samples.newRecord Samples.state0 = []
  /\ values Samples.alreadyShared Samples.sampleRecord Samples.state0
     = ["TRUE"; "TRUE"]
  /\ values Samples.calmWorld Samples.sampleRecord Samples.state0 = ["TRUE"]
  /\ values (Samples.createFails Samples.deniedError) Samples.sampleRecord
       Samples.state0 = ["FALSE"].
Proof. vm_compute. repeat split. Qed.

Section Idempotence.
Context (w : world) (cfg : config) (cols : columns).


End Idempotence.



(** The run of that turn: one listing, rejected, then the create call. *)
Example listed_reader_is_granted_again :
  let evs := trace (snd (processOne Samples.flakyListing Samples.cfg0
                           Samples.cols0 Samples.sampleRecord Samples.state0)) in
  lists evs = [PermissionsList "abc"]
  /\ creates evs = [PermissionsCreate "abc" "b@gmail.com" "reader"]
  /\ existsb (isLineWith "Row 2 GRANTED reader -> b@gmail.com") evs = true
  /\ w_permissions_list Samples.flakyListing 20 "abc"
     = Fulfilled Samples.readerListed.
Proof. vm_compute. repeat split. Qed.

End WriteFacts.
